(* ===== verification/_CoqProject ===== *)
-Q . S2P
Prelude.v
Bytes.v
Text.v
Utf16.v
Protocol.v
Engine.v
Calls.v
AnnexB.v
Rbsp.v
BitIO.v
BitSim.v
SpsH264.v
SpsHevc.v
SpsPatcher.v
SpsReaders.v
SpsConformance.v
Monitors.v
Encoder.v
EncoderSetup.v
PacketQueue.v
F32.v
Coords.v
CursorShape.v
CursorQuad.v
Gpu.v
Shader.v
Pipeline.v
GpuSetup.v
Capture.v
Facade.v
EncodedPipeline.v
Inject.v
InjectSpec.v
Vdd.v
Handles.v
Devices.v
Elevated.v
ReadLoop.v
Session.v
WindDown.v
EndToEnd.v
SystemWind.v
SessionRun.v
SystemRun.v
Adb.v
CommandLine.v
Helper.v
RunSession.v
MfProbe.v
Topology.v
DesktopProbes.v
EncoderProbes.v
Keys.v
Store.v
Startup.v
Service.v
AcceptLoop.v
Events.v
D3d.v
Transport.v
Bundled.v
SmokeTests.v
RunTests.v
UnitTests.v
Diagnostics.v
