(* ===== verification/Prelude.v ===== *)
(** * Penflow: verification of the host program

    Penflow turns an Android tablet into a pen display for a Windows computer.
    The host captures a monitor, encodes it, rewrites the encoder's parameter
    sets so that the tablet's decoder adds no delay, and streams the packets
    over an adb reverse tunnel; the tablet sends pen and touch events back,
    which the host injects into Windows.  This library models the host (the
    Rust crates under [src/crates/] and the application under
    [src/apps/penflow-gui/src-tauri/], without its windows) and proves what makes
    it correct.

    ** The program and the files that model it

    The data path, from the desktop to the tablet:
    - [Engine]: the types the parts share (errors, codec, packet, monitor);
    - [Calls]: code that calls an external interface, with the checked and the
      best-effort calls as a log;
    - [Monitors]: [monitors.rs], the enumeration of outputs;
    - [Capture]: [capture/dxgi.rs], the duplication of an output;
    - [Facade]: [EngineBuilder] of [lib.rs], which assembles the engine, with
      [d3d11.rs] and [sdr_white_level.rs];
    - [D3d]: [d3d11.rs] again, call by call;
    - [Encoder], [EncoderSetup]: [encoder/mf.rs], the session of an asynchronous
      Media Foundation transform and its creation;
    - [EncodedPipeline]: the pipeline loop composed with that session;
    - [Pipeline]: the capture loop of [penflow-core/src/pipeline.rs], which
      turns desktop frames and timeouts into submissions and pushes the
      encoder's packets;
    - [CursorShape]: [capture/cursor_shape.rs], which decodes what the loop
      draws as the mouse cursor;
    - [CursorQuad]: [cursor_blit.rs], the clipped quad that is drawn for it;
    - [Gpu]: the drawing calls of [cursor_blit.rs] and [tonemap_blit.rs] on the
      Direct3D context they share;
    - [Shader]: the HLSL programs of [tonemap_blit.rs], in exact arithmetic;
    - [GpuSetup]: [color.rs], the creation of both blitters, and the start of the
      pipeline;
    - [AnnexB]: start codes and units, for [penflow-protocol/src/lib.rs] and the
      two walkers of [encoder/mf.rs];
    - [Rbsp], [BitIO], [BitSim], [SpsH264], [SpsHevc], [SpsPatcher]: all of
      [encoder/sps_patcher.rs], from the escape bytes and the bit cursors to the
      two rewriters and the walk over a packet;
    - [PacketQueue]: [packet_queue.rs], with its condition variable.

    The wire and the input path:
    - [Bytes], [Protocol]: framing and payload codecs of [penflow-protocol];
    - [F32], [Coords]: [inject/coords.rs] in binary32 arithmetic;
    - [Inject], [InjectSpec]: [inject/mod.rs], [binding.rs], [win_ink.rs],
      [vmulti.rs], and what they promise the system;
    - [ReadLoop]: [read_loop] of [penflow-server/src/session.rs].

    The orchestration:
    - [Vdd]: [penflow-server/src/vdd.rs], the virtual display and its helpers;
    - [CommandLine], [Helper]: the command lines written for elevated processes,
      what arrives of them, and the helper's dispatch, with the installation of
      the driver and the mode change of [vdd.rs];
    - [Handles]: what is opened, used and closed, and a small ownership logic;
    - [Utf16], [Devices]: the search for VMulti of [vmulti.rs], the devices of the
      injector ([win_ink.rs]), and the enumeration of display adapters of
      [vdd.rs];
    - [Elevated]: elevated processes and the whole resident helper of [vdd.rs],
      with its watch on the parent;
    - [Session]: the handshake, the screen-off session and the streaming phase
      of [session.rs];
    - [EndToEnd]: the capture thread with its encoder and the tasks of a session
      as one system;
    - [SessionRun]: [Session::run] from the connection to the drop of the
      virtual display, composed of [Session] and [Vdd];
    - [SystemRun]: the same run over the system of [EndToEnd], from the start of
      the engine to the goodbye;
    - [Transport]: [penflow-transport/src/lib.rs], the trait as a type class with
      laws, which [Adb] satisfies;
    - [Text], [Adb]: [penflow-transport/src/adb.rs];
    - [Bundled]: where adb and devcon are looked for beside the executable;
    - [Text], [Keys], [Store]: [settings.rs], the key names of [service.rs], the
      save command of [main.rs], the launchers of [os.rs];
    - [Startup]: [main.rs] from its start to the running service: helper mode,
      the hand-over to an elevated copy, the recovery of a display that was left
      on, the installers, and the events that close or end the program;
    - [Service]: [service.rs], the session's configuration and the accept loop
      as one task among others;
    - [AcceptLoop]: the same loop with what it drives, round by round: the tunnel
      of [Adb], the session of [SessionRun] and its display;
    - [Events]: the task of [main.rs] that forwards the service's states to the
      window;
    - [Diagnostics]: the dump of the first parameter set, the log of the desktop
      format, and the log files.

    Examples, probes and tests:
    - [RunSession], [MfProbe], [Topology], [DesktopProbes], [EncoderProbes]: the
      programs under [examples/] of the two crates, over the components above;
    - [SpsReaders], [SpsConformance]: the tests of [sps_patcher.rs], whose own
      readers and builders of parameter sets are independent of the patcher, and
      what they show for every set;
    - [UnitTests]: the other unit tests, each as a bool that is true;
    - [SmokeTests], [RunTests]: the tests that need a desktop, a graphics card or
      an input device, as programs whose answers the machine gives.

    A definition has the name of the function it models wherever possible.  A
    part of a function that has a definition of its own is named after what it
    does ([resident_start], [copy_sub_layers]).

    ** How code becomes definitions

    Pure code is a function.  [Result] is [result] below, with the question mark
    as its bind; a panic is [None].  Stateful code passes a record of its state,
    or runs in a small state-and-error monad in which effects survive errors
    ([Inj] in [Inject], [V] in [Vdd], [SP] in [BitIO]).  A machine integer is a
    [Z] with its range as a hypothesis and wrap-around written out ([uwrap],
    [swrap]; release builds do not check for overflow); bytes are integers below
    256.  [f32] is the executable IEEE model of the Standard Library.

    Windows (Media Foundation, DXGI, SetupAPI and HID among it), adb, devcon and
    serde are parameters: records
    of functions that answer a call from the history of the calls before it, so
    that a theorem holds whatever they answer.  What the code does to them is a
    log (injector, adb, encoder creation, duplication) or a trace (virtual
    display); the asynchronous transform is a stream of events that every
    accepted input may extend.  A call that never returns is [None].  Of the
    environment only this is defined, as documented: what a Direct3D context
    keeps and what a draw reads of it ([Gpu]), how a command line is split
    ([CommandLine]), and that a handle is good from its opening to its closing
    ([Handles]).

    Tasks that interleave are steps on a shared state.  The critical section of
    a mutex is one step when nothing is awaited in it; where the code waits with
    a lock held ([stop] in [Service], [accept] in [Adb]) the lock is a part of
    the state.  The streaming phase of a session is an arbitrary sequence of
    turns of its tasks ([run_turns]).

    ** What is proved

    - Parameter sets: on every supported set the rewriters return exactly that
      set with the low-latency fields changed ([patch_h264_exact],
      [patch_hevc_full_exact]), the fallback never regresses
      ([patch_hevc_fallback]); the packet patcher is the unit-wise map and
      keeps the framing ([patch_packet_exact], [patch_packet_framing]).
    - Encoder: whatever the transform does, packets and submitted stamps stay
      paired and the cached header is the first key frame ([packets_paired]); if
      the transform asks for input again after every input, nothing waits for
      ever ([session_never_hangs]); a key-frame flag is that of the unpatched
      bytes ([keyframe_flag_unpatched]); the creation makes exactly the calls
      that a table of configuration gives, and stops at the first refusal
      ([session_setup_exact]).
    - Engine: the monitors found can be opened again and are found under their
      index ([enumerate_exact]); a duplication is used as DXGI demands
      ([duplication_rules], [acquire_exact]); the cursor quad is the part of the
      cursor inside the target ([cursor_drawn_exact]), draws do not depend on
      what was drawn before ([draws_self_contained]), colours stay in range
      ([tonemap_shader_sound]), and no frame is submitted before the encoder's
      texture has been written ([submits_defined]); a started engine captures
      the requested output with a matching device ([start_assembles]); the
      pipeline with its encoder pushes exactly the packets of the frames it
      submitted ([encoded_pipeline_exact], [encoded_loop_never_hangs]).
    - Wire: framing and codecs are lossless on well-formed values, and the
      reader accepts nothing else ([frames_stream_roundtrip], [read_frame_sound],
      [payload_codecs_exact]).
    - From the desktop to the wire: whatever the interleaving of the capture
      thread and the session, the video that the client gets is, in order and
      byte for byte, a part of what the encoder made of the submitted frames, and
      losses are counted ([end_to_end]); and so for a whole session, with its
      header, first key frame and goodbye ([whole_session]).
    - Queue and pumps: the queue keeps the newest packets and counts losses, a
      sleeping consumer is not forgotten, and however the tasks of a session
      interleave the client receives whole frames and the video in order
      ([queue_refines], [no_lost_wakeup], [stream_interleaving]).
    - Input: any byte stream is split into messages handled one by one
      ([read_loop_refines]); coordinates stay in range; keys and mouse buttons
      are balanced ([no_stuck_keys]); pen and touch frames follow the pointer
      protocol ([pen_stream_legal], [touch_stream_legal]).
    - Lifecycles: a reported disable left the display off ([disable_spec]); a
      screen-off session and a streaming one return and report what happened
      ([screen_off_lifecycle], [session_run_lifecycle]), and wherever a session
      ends its display is released ([session_releases_display]); a stopped service stays stopped and whether a
      stop returns is decided by where it catches the loop ([stop_settles],
      [stop_dichotomy]); every round of the accept loop ends and leaves neither a
      display nor a rule behind ([accept_loop_cleans_up]), along runs of the
      concurrent model ([rounds_simulated]); the window is told the states in
      order as long as it keeps up ([window_order], [window_catches_up]); the
      tunnel's rule, the settings file and the launchers have their invariants.
    - Processes: the helper receives the command its parent wrote
      ([helper_gets_command]) and tears the display down whatever becomes of the
      parent ([helper_tears_down]); start-up turns a forgotten display off
      ([startup_recovers]); devices are found exactly and every handle is given
      back ([devices_accounted]).
    - Examples and tests: the session runner cleans up after itself
      ([runner_cleans_up]); the tests' readers, written apart from the patcher,
      read the low-latency values from every patched set
      ([h264_set_reads_back], [hevc_set_reads_back]); all unit tests pass.
    - Where the code does something else than it means to, a lemma shows it on a
      concrete run ([quarter_turn_misses_target], [eraser_flip_breaks_protocol],
      [notification_missed], [startup_adds_launcher], [stop_overtaken],
      [failed_start_forgotten], [unverified_enable_left_on],
      [task_path_doubled], [autostart_leaks_key], [abandoned_helper_waits],
      [capture_failure_unnoticed], [forwarding_ends_with_lag],
      [dump_spent_without_sps] and others).

    ** Fuel

    Loops that are not structural take fuel, and each has a lemma that the fuel
    it is started with suffices: the walkers and the packet patcher use the
    length of what is left (every round drops a byte), the bit copier the number
    of bits, Exp-Golomb prefixes at most 32 zeros, the read loop the number of
    bytes (a frame has at least five).  The polls of [Vdd] take the number of
    polls before the deadline from the environment; decimal printing of a
    32-bit number needs ten digits.  The watch of the resident helper waits as
    long as nothing happens; it is shown to end with any fuel beyond the first
    decisive round.

    ** What is not modelled

    Windows and the tray as such, and the rounding of the GPU (the shaders are
    modelled in exact arithmetic).  The JSON of the settings file is written and
    read by code that serde derives, and is a parameter with its round trip as a
    hypothesis.  tokio's broadcast channel is a class with the laws of its
    documentation ([Events]).  How long calls take is not modelled, only that
    they return.  The text of most messages on standard error is left out.  The
    Android client is outside this library.
    Nor are the plain imports and re-exports, the build script, the functions
    that stand in on systems other than Windows (each returns a constant), the
    accessors that return a field, and the sources of the GUI's windows.  These
    have no behaviour of their own. *)
From Stdlib Require Export ZArith Lia Bool.
From stdpp Require Export base list option numbers.

Open Scope Z_scope.

(** * Results of fallible code

    [Result<T, E>] with its two constructors; the [?] operator is the monadic
    bind. *)

Inductive result (E A : Type) : Type :=
| Ok (a : A)
| Err (e : E).

Arguments Ok {E A} a.
Arguments Err {E A} e.

#[export] Instance result_ret (E : Type) : MRet (result E) := fun A a => Ok a.

#[export] Instance result_bind (E : Type) : MBind (result E) :=
  fun A B f m => match m with Ok a => f a | Err e => Err e end.

#[export] Instance result_fmap (E : Type) : FMap (result E) :=
  fun A B f m => match m with Ok a => Ok (f a) | Err e => Err e end.

Definition is_ok {E A} (m : result E A) : bool :=
  match m with Ok _ => true | Err _ => false end.

(** [Result::ok]. *)
Definition result_ok {E A} (m : result E A) : option A :=
  match m with Ok a => Some a | Err _ => None end.

(** [Option::ok_or]. *)
Definition ok_or {E A} (o : option A) (e : E) : result E A :=
  match o with Some a => Ok a | None => Err e end.

Lemma bind_Ok {E A B} (m : result E A) (f : A -> result E B) b :
  (m ≫= f) = Ok b <-> exists a, m = Ok a /\ f a = Ok b.
Proof.
  split.
  - destruct m as [a|e]; [intros H; by exists a | done].
  - by intros (a & -> & H).
Qed.

Lemma bind_Err {E A B} (m : result E A) (f : A -> result E B) e :
  (m ≫= f) = Err e <-> m = Err e \/ exists a, m = Ok a /\ f a = Err e.
Proof.
  split.
  - destruct m as [a|e']; intros H; [right; by exists a | left; cbn in H; congruence].
  - intros [-> | (a & -> & H)]; [done | exact H].
Qed.

(** * Machine integers

    A w-bit unsigned value is an integer [x] with [0 <= x < 2 ^ w]; a
    computation that wraps is followed by [uwrap w], a cast to a signed type
    by [swrap w]. *)

Definition uwrap (w x : Z) : Z := x mod 2 ^ w.

Definition swrap (w x : Z) : Z := (x + 2 ^ (w - 1)) mod 2 ^ w - 2 ^ (w - 1).

Definition unsigned (w x : Z) : Prop := 0 <= x < 2 ^ w.

Definition signed (w x : Z) : Prop := - 2 ^ (w - 1) <= x < 2 ^ (w - 1).

#[global] Arguments uwrap : simpl never.
#[global] Arguments swrap : simpl never.
#[global] Arguments unsigned : simpl never.
#[global] Arguments signed : simpl never.

Abbreviation u8 := (unsigned 8).
Abbreviation u16 := (unsigned 16).
Abbreviation u32 := (unsigned 32).
Abbreviation i16 := (signed 16).
Abbreviation i32 := (signed 32).
Abbreviation i64 := (signed 64).
Abbreviation bytes_ok := (Forall (unsigned 8)).

Lemma uwrap_small w x : unsigned w x -> uwrap w x = x.
Proof. unfold unsigned, uwrap. apply Z.mod_small. Qed.

Lemma uwrap_range w x : 0 <= w -> unsigned w (uwrap w x).
Proof. intros Hw. unfold unsigned, uwrap. apply Z.mod_pos_bound, Z.pow_pos_nonneg; lia. Qed.

Lemma pow2_double w : 1 <= w -> 2 ^ w = 2 * 2 ^ (w - 1).
Proof. intros Hw. rewrite <- Z.pow_succ_r by lia. f_equal. lia. Qed.

Lemma swrap_small w x : 1 <= w -> signed w x -> swrap w x = x.
Proof.
  intros Hw Hx. unfold signed, swrap in *.
  pose proof (pow2_double w Hw). rewrite Z.mod_small by lia. lia.
Qed.

Lemma swrap_range w x : 1 <= w -> signed w (swrap w x).
Proof.
  intros Hw. unfold signed, swrap. pose proof (pow2_double w Hw).
  assert (0 < 2 ^ w) by (apply Z.pow_pos_nonneg; lia).
  pose proof (Z.mod_pos_bound (x + 2 ^ (w - 1)) (2 ^ w)). lia.
Qed.

Lemma swrap_uwrap w x : 1 <= w -> swrap w (uwrap w x) = swrap w x.
Proof.
  intros Hw. unfold swrap, uwrap. f_equal.
  rewrite Zplus_mod_idemp_l. reflexivity.
Qed.

(** [x.min(hi)] and [x.clamp(lo, hi)] on integers. *)
Definition clampZ (lo hi x : Z) : Z := Z.max lo (Z.min hi x).

Lemma clampZ_range lo hi x : lo <= hi -> lo <= clampZ lo hi x <= hi.
Proof. unfold clampZ. lia. Qed.

Lemma clampZ_id lo hi x : lo <= x <= hi -> clampZ lo hi x = x.
Proof. unfold clampZ. lia. Qed.

(** Bit fields that do not overlap are added. *)
Lemma lor_shiftl_add w hi lo : 0 <= w -> 0 <= lo < 2 ^ w -> Z.lor (Z.shiftl hi w) lo = hi * 2 ^ w + lo.
Proof.
  intros Hw Hlo. rewrite <- Z.shiftl_mul_pow2 by done.
  assert (E : Z.land (Z.shiftl hi w) lo = 0).
  { apply Z.bits_inj'. intros n Hn. rewrite Z.land_spec, Z.bits_0. destruct (Z.ltb_spec n w).
    - by rewrite Z.shiftl_spec_low.
    - by rewrite <- (Z.mod_small lo (2 ^ w)), Z.mod_pow2_bits_high, andb_false_r by lia. }
  rewrite <- Z.lxor_lor by done. by rewrite Z.add_nocarry_lxor.
Qed.

(** * Automation *)

Create HintDb penflow discriminated.
Create Rewrite HintDb penflow_len.

#[export] Hint Resolve uwrap_range swrap_range : penflow.

(** Splits every successful bind of a hypothesis into its steps. *)
Ltac inv_binds :=
  repeat match goal with
  | H : (_ ≫= _) = Ok _ |- _ =>
      let x := fresh "v" in let H1 := fresh "Hm" in
      apply bind_Ok in H as (x & H1 & H); cbv beta in H
  end.

(** Case analysis on the first test of the goal. *)
Ltac case_test :=
  match goal with
  | |- context [if ?b then _ else _] => destruct b eqn:?
  | |- context [match ?x with _ => _ end] => destruct x eqn:?
  end.

(** Powers of two that are closed, so that [lia] sees numerals. *)
Ltac pow2 :=
  repeat match goal with
  | H : context [2 ^ ?n] |- _ =>
      is_ground n; let v := eval vm_compute in (2 ^ n) in
      progress change (2 ^ n) with v in H
  | |- context [2 ^ ?n] =>
      is_ground n; let v := eval vm_compute in (2 ^ n) in
      progress change (2 ^ n) with v
  end.

Ltac urange := unfold unsigned, signed in *; pow2; lia.

(** * Lists *)

Lemma Forall_app_l {A} (P : A -> Prop) (l k : list A) : Forall P (l ++ k) -> Forall P l.
Proof. rewrite Forall_app. tauto. Qed.

Lemma Forall_app_r {A} (P : A -> Prop) (l k : list A) : Forall P (l ++ k) -> Forall P k.
Proof. rewrite Forall_app. tauto. Qed.

#[export] Hint Resolve Forall_app_l Forall_app_r Forall_take Forall_drop : penflow.

(** [slice.starts_with(&pre)]. *)
Fixpoint starts_with (pre l : list Z) : bool :=
  match pre, l with
  | [], _ => true
  | p :: pre', x :: l' => (p =? x) && starts_with pre' l'
  | _ :: _, [] => false
  end.

Lemma starts_with_spec pre l : starts_with pre l = true <-> exists k, l = pre ++ k.
Proof.
  revert l. induction pre as [|p pre IH]; intros l; cbn.
  - split; [intros _; by exists l | done].
  - destruct l as [|x l]; [split; [done | by intros [k ?]] |].
    rewrite andb_true_iff, Z.eqb_eq, IH. split.
    + intros [-> [k ->]]. by exists k.
    + intros [k [= -> ->]]. eauto.
Qed.

Lemma starts_with_app pre l : starts_with pre (pre ++ l) = true.
Proof. apply starts_with_spec. by exists l. Qed.

Lemma starts_with_length pre l :
  starts_with pre l = true -> (length pre <= length l)%nat.
Proof. rewrite starts_with_spec. intros [k ->]. rewrite length_app. lia. Qed.
