(* ===== verification/Bytes.v ===== *)
(** Big-endian and little-endian byte images of machine integers
    ([to_be_bytes], [from_be_bytes], [to_le_bytes]) and slices of byte
    buffers: the part of the Rust core library the wire codecs rest on. *)
From S2P Require Import Prelude.

(** [buf[i]], for an [i] the caller has checked against the length. *)
Definition get (l : list Z) (i : nat) : Z := default 0 (l !! i).

(** [buf[off..off + n]]. *)
Definition sub_slice (off n : nat) (l : list Z) : list Z := take n (drop off l).

(** [x.to_be_bytes()] for an [n]-byte integer. *)
Fixpoint be_bytes (n : nat) (x : Z) : list Z :=
  match n with
  | O => []
  | S m => uwrap 8 (Z.shiftr x (8 * Z.of_nat m)) :: be_bytes m x
  end.

(** [u16/u32/u64::from_be_bytes]. *)
Definition be_val (l : list Z) : Z := foldl (fun acc b => 256 * acc + b) 0 l.

(** [x.to_le_bytes()]. *)
Definition le_bytes (n : nat) (x : Z) : list Z := reverse (be_bytes n x).

(** [u16::from_le_bytes]. *)
Definition le_val (l : list Z) : Z := be_val (reverse l).

(** The byte images of the signed types go through the unsigned type of the
    same width. *)
Definition be_bytes_s (n : nat) (x : Z) : list Z := be_bytes n (uwrap (8 * Z.of_nat n) x).

Definition be_val_s (l : list Z) : Z := swrap (8 * Z.of_nat (length l)) (be_val l).

Lemma length_be_bytes n x : length (be_bytes n x) = n.
Proof. induction n; cbn; congruence. Qed.

Lemma length_be_bytes_s n x : length (be_bytes_s n x) = n.
Proof. apply length_be_bytes. Qed.

Lemma length_le_bytes n x : length (le_bytes n x) = n.
Proof. unfold le_bytes. by rewrite length_reverse, length_be_bytes. Qed.

Lemma be_bytes_ok n x : bytes_ok (be_bytes n x).
Proof. induction n; cbn; constructor; [apply uwrap_range; lia | done]. Qed.

Lemma be_bytes_s_ok n x : bytes_ok (be_bytes_s n x).
Proof. apply be_bytes_ok. Qed.

Lemma le_bytes_ok n x : bytes_ok (le_bytes n x).
Proof. unfold le_bytes. rewrite Forall_reverse. apply be_bytes_ok. Qed.

Lemma foldl_be_acc l acc :
  foldl (fun acc b => 256 * acc + b) acc l
  = acc * 2 ^ (8 * Z.of_nat (length l)) + be_val l.
Proof.
  unfold be_val. revert acc. induction l as [|b l IH]; intros acc.
  - cbn [foldl length]. replace (8 * Z.of_nat 0) with 0 by lia. lia.
  - cbn [foldl length]. rewrite IH, (IH (256 * 0 + b)).
    replace (8 * Z.of_nat (S (length l))) with (8 + 8 * Z.of_nat (length l)) by lia.
    rewrite Z.pow_add_r by lia. change (2 ^ 8) with 256. ring.
Qed.

Lemma be_val_cons b l : be_val (b :: l) = b * 2 ^ (8 * Z.of_nat (length l)) + be_val l.
Proof. unfold be_val at 1. cbn [foldl]. rewrite foldl_be_acc. lia. Qed.

Lemma be_val_bytes n x : be_val (be_bytes n x) = uwrap (8 * Z.of_nat n) x.
Proof.
  unfold uwrap. induction n as [|m IH].
  - cbn. by rewrite Z.mod_1_r.
  - cbn [be_bytes]. rewrite be_val_cons, IH, length_be_bytes.
    unfold uwrap. rewrite Z.shiftr_div_pow2 by lia.
    replace (8 * Z.of_nat (S m)) with (8 * Z.of_nat m + 8) by lia.
    rewrite Z.pow_add_r by lia. rewrite Z.rem_mul_r by lia. ring.
Qed.

Lemma be_val_range l : bytes_ok l -> unsigned (8 * Z.of_nat (length l)) (be_val l).
Proof.
  induction 1 as [|b l Hb Hl IH].
  - unfold unsigned. cbn. lia.
  - rewrite be_val_cons. cbn [length]. unfold unsigned in *.
    replace (8 * Z.of_nat (S (length l))) with (8 + 8 * Z.of_nat (length l)) by lia.
    rewrite Z.pow_add_r by lia. pow2. nia.
Qed.

Lemma be_bytes_val l : bytes_ok l -> be_bytes (length l) (be_val l) = l.
Proof.
  assert (Hmod : forall n x y, uwrap (8 * Z.of_nat n) x = uwrap (8 * Z.of_nat n) y ->
            be_bytes n x = be_bytes n y).
  { induction n as [|m IH]; intros x y Hxy; [done |]. cbn [be_bytes]. f_equal.
    - unfold uwrap in *. rewrite !Z.shiftr_div_pow2 by lia.
      replace (8 * Z.of_nat (S m)) with (8 * Z.of_nat m + 8) in Hxy by lia.
      rewrite Z.pow_add_r, !Z.rem_mul_r in Hxy by lia.
      assert (0 < 2 ^ (8 * Z.of_nat m)) by (apply Z.pow_pos_nonneg; lia).
      pose proof (Z.mod_pos_bound x (2 ^ (8 * Z.of_nat m))).
      pose proof (Z.mod_pos_bound y (2 ^ (8 * Z.of_nat m))). nia.
    - apply IH. unfold uwrap in *.
      replace (8 * Z.of_nat (S m)) with (8 * Z.of_nat m + 8) in Hxy by lia.
      rewrite Z.pow_add_r, !Z.rem_mul_r in Hxy by lia.
      assert (2 ^ (8 * Z.of_nat m) <> 0) by (apply Z.pow_nonzero; lia).
      apply (f_equal (fun z => z mod 2 ^ (8 * Z.of_nat m))) in Hxy.
      by rewrite !(Z.mul_comm (2 ^ _)), !Z.mod_add, !Z.mod_mod in Hxy. }
  induction 1 as [|b l Hb Hl IH]; [done |].
  cbn [length be_bytes]. pose proof (be_val_range l Hl) as Hr.
  rewrite be_val_cons. f_equal.
  - rewrite Z.shiftr_div_pow2 by lia. rewrite Z.div_add_l by (apply Z.pow_nonzero; lia).
    rewrite (Z.div_small (be_val l)) by exact Hr. rewrite Z.add_0_r. by apply uwrap_small.
  - etransitivity; [| exact IH]. apply Hmod. unfold uwrap.
    rewrite Z.add_comm, Z.mod_add by (apply Z.pow_nonzero; lia). done.
Qed.

Lemma be_val_s_bytes n x :
  (0 < n)%nat -> signed (8 * Z.of_nat n) x -> be_val_s (be_bytes_s n x) = x.
Proof.
  intros Hn Hx. unfold be_val_s, be_bytes_s. rewrite length_be_bytes, be_val_bytes.
  rewrite !swrap_uwrap by lia. apply swrap_small; [lia | done].
Qed.

Lemma be_val_u n x : unsigned (8 * Z.of_nat n) x -> be_val (be_bytes n x) = x.
Proof. intros Hx. rewrite be_val_bytes. by apply uwrap_small. Qed.

Lemma be_bytes_s_val l :
  l <> [] -> bytes_ok l -> be_bytes_s (length l) (be_val_s l) = l.
Proof.
  intros Hne Hl. unfold be_bytes_s, be_val_s.
  assert (0 < length l)%nat by (destruct l; cbn; [done | lia]).
  replace (uwrap (8 * Z.of_nat (length l)) (swrap (8 * Z.of_nat (length l)) (be_val l)))
    with (be_val l); [by apply be_bytes_val |].
  unfold swrap, uwrap. rewrite Zminus_mod_idemp_l, Z.add_simpl_r.
  symmetry. apply Z.mod_small, be_val_range, Hl.
Qed.

Lemma be_val_s_range l :
  l <> [] -> signed (8 * Z.of_nat (length l)) (be_val_s l).
Proof. intros Hne. apply swrap_range. destruct l; cbn; [done | lia]. Qed.

Lemma be_val_u_slice off n l :
  bytes_ok l -> (off + n <= length l)%nat ->
  be_bytes n (be_val (sub_slice off n l)) = sub_slice off n l.
Proof.
  intros Hl Hn. unfold sub_slice.
  assert (length (take n (drop off l)) = n) as Hlen
    by (rewrite length_take, length_drop; lia).
  rewrite <- Hlen at 1. apply be_bytes_val. auto with penflow.
Qed.

Lemma be_val_s_slice off n l :
  (0 < n)%nat -> bytes_ok l -> (off + n <= length l)%nat ->
  be_bytes_s n (be_val_s (sub_slice off n l)) = sub_slice off n l.
Proof.
  intros Hpos Hl Hn. unfold sub_slice.
  assert (length (take n (drop off l)) = n) as Hlen
    by (rewrite length_take, length_drop; lia).
  rewrite <- Hlen at 1. apply be_bytes_s_val; [| auto with penflow].
  intros E. rewrite E in Hlen. cbn in Hlen. lia.
Qed.

#[export] Hint Resolve be_bytes_ok be_bytes_s_ok le_bytes_ok : penflow.
#[export] Hint Rewrite length_be_bytes length_be_bytes_s length_le_bytes : penflow_len.
