(* ===== verification/Text.v ===== *)
(** Text as the host program handles it: [str] methods of the standard library
    (trimming, splitting, ASCII case, lengths, number parsing) with the lemmas
    the components share.  A string is the list of its Unicode scalar values,
    with the byte length of its encoding where the code asks for it.  Byte
    strings, as the names of devices and transforms, are [string]s, with their
    ASCII case, substring search and hexadecimal numbers. *)
From stdpp Require Import list strings.
From Stdlib Require Import Ascii.
From S2P Require Import Prelude.

(** * Text *)

Definition Str : Type := list Z.

(** A literal of the source: its characters are all ASCII. *)
Fixpoint lit (s : string) : Str :=
  match s with EmptyString => [] | String c s' => Z.of_nat (nat_of_ascii c) :: lit s' end.

Definition utf8_len (c : Z) : Z :=
  if c <? 0x80 then 1 else if c <? 0x800 then 2 else if c <? 0x10000 then 3 else 4.

Fixpoint str_len (s : Str) : Z := match s with [] => 0 | c :: s' => utf8_len c + str_len s' end.

(** [char::is_whitespace]: the Unicode property White_Space. *)
Definition is_whitespace (c : Z) : bool :=
  ((9 <=? c) && (c <=? 13)) || (c =? 0x20) || (c =? 0x85) || (c =? 0xA0) || (c =? 0x1680)
  || ((0x2000 <=? c) && (c <=? 0x200A)) || (c =? 0x2028) || (c =? 0x2029) || (c =? 0x202F)
  || (c =? 0x205F) || (c =? 0x3000).

Fixpoint trim_start (s : Str) : Str :=
  match s with c :: s' => if is_whitespace c then trim_start s' else s | [] => [] end.

Definition trim_end (s : Str) : Str := reverse (trim_start (reverse s)).

Definition trim (s : Str) : Str := trim_end (trim_start s).

(** [str::split]: one more piece than there are separators. *)
Fixpoint split (sep : Z) (s : Str) : list Str :=
  match s with
  | [] => [[]]
  | c :: s' =>
      if c =? sep then [] :: split sep s'
      else match split sep s' with piece :: pieces => (c :: piece) :: pieces | [] => [[c]] end
  end.

Definition ascii_upper (c : Z) : Z := if (97 <=? c) && (c <=? 122) then c - 32 else c.

Definition to_ascii_uppercase (s : Str) : Str := List.map ascii_upper s.

Definition is_ascii_digit (c : Z) : bool := (48 <=? c) && (c <=? 57).

Definition is_ascii_alphabetic (c : Z) : bool :=
  ((65 <=? c) && (c <=? 90)) || ((97 <=? c) && (c <=? 122)).

(** The value of decimal digits up to [max]. *)
Fixpoint digits_upto (max acc : Z) (s : Str) : option Z :=
  match s with
  | [] => Some acc
  | c :: s' =>
      if is_ascii_digit c then
        let acc := acc * 10 + (c - 48) in
        if max <? acc then None else digits_upto max acc s'
      else None
  end.

(** [str::parse] for an unsigned integer: an optional plus sign, then at least
    one digit. *)
Definition parse_unsigned (max : Z) (s : Str) : option Z :=
  match s with
  | [] => None
  | c :: s' =>
      if c =? 43 then match s' with [] => None | _ => digits_upto max 0 s' end
      else digits_upto max 0 s
  end.

Definition parse_u16 (s : Str) : option Z := parse_unsigned 65535 s.

Definition parse_u32 (s : Str) : option Z := parse_unsigned (2 ^ 32 - 1) s.

Definition parse_usize (s : Str) : option Z := parse_unsigned (2 ^ 64 - 1) s.

(** Formatting of an unsigned integer. *)
Fixpoint decimal_fuel (fuel : nat) (n : Z) : Str :=
  match fuel with
  | O => []
  | S k => (if n <? 10 then [] else decimal_fuel k (n / 10)) ++ [48 + n mod 10]
  end.

(** A [u32] has at most ten digits. *)
Definition decimal (n : Z) : Str := decimal_fuel 10 n.

(** Text that is only compared byte by byte is a [string]. *)
Definition ascii_lower (c : Ascii.ascii) : Ascii.ascii :=
  let n := Ascii.nat_of_ascii c in
  if (65 <=? n)%nat && (n <=? 90)%nat then Ascii.ascii_of_nat (n + 32) else c.

Fixpoint to_lowercase (s : string) : string :=
  match s with EmptyString => EmptyString | String c s' => String (ascii_lower c) (to_lowercase s') end.

(** [hay.contains(needle)]. *)
Fixpoint contains (needle hay : string) : bool :=
  String.prefix needle hay || match hay with EmptyString => false | String _ hay' => contains needle hay' end.

(** [format!("{:0wX}")]: upper-case hexadecimal digits, at least [width]. *)
Definition hex_digit (d : Z) : ascii :=
  ascii_of_nat (Z.to_nat (if d <? 10 then d + 48 else d + 55)).

Fixpoint hex_loop (fuel width : nat) (x : Z) (acc : string) : string :=
  match fuel with
  | O => acc
  | S fuel' =>
      if (x =? 0) && Nat.eqb width 0 then acc
      else hex_loop fuel' (pred width) (x / 16) (String (hex_digit (x mod 16)) acc)
  end.

(** Eight digits hold every [u32]. *)
Definition hex_upper (width : nat) (x : Z) : string := hex_loop (8 + width) width x EmptyString.

(** * Lemmas on text *)

Lemma trim_start_ws w s : is_whitespace w = true -> trim_start (w :: s) = trim_start s.
Proof. intros H. cbn. by rewrite H. Qed.

Lemma trim_start_nil s : trim_start s = [] <-> forallb is_whitespace s = true.
Proof.
  induction s as [| c s IH]; cbn; [done |]. destruct (is_whitespace c); cbn; [done | by split].
Qed.

Lemma trim_start_app s l :
  trim_start (s ++ l) = if forallb is_whitespace s then trim_start l else trim_start s ++ l.
Proof. induction s as [| c s IH]; cbn; [done |]. by destruct (is_whitespace c); cbn. Qed.

Lemma trim_start_idem s : trim_start (trim_start s) = trim_start s.
Proof.
  induction s as [| c s IH]; cbn; [done |].
  destruct (is_whitespace c) eqn:E; [done |]. cbn. by rewrite E.
Qed.

Lemma trim_end_snoc s w : is_whitespace w = true -> trim_end (s ++ [w]) = trim_end s.
Proof. intros H. unfold trim_end. rewrite reverse_app. cbn. by rewrite H. Qed.

Lemma trim_snoc s w : is_whitespace w = true -> trim (s ++ [w]) = trim s.
Proof.
  intros H. unfold trim. rewrite trim_start_app.
  destruct (forallb is_whitespace s) eqn:E; [| by apply trim_end_snoc].
  cbn. rewrite H. by apply trim_start_nil in E as ->.
Qed.

Lemma trim_trim_start s : trim (trim_start s) = trim s.
Proof. unfold trim. by rewrite trim_start_idem. Qed.

(** Trimming either end only drops white space there. *)
Lemma trim_end_ind (P : Str -> Str -> Prop) :
  (forall s, P s s) -> (forall s s' w, is_whitespace w = true -> P s s' -> P (s ++ [w]) s') ->
  forall s, P s (trim_end s).
Proof.
  intros Hr Hs s. unfold trim_end. rewrite <- (reverse_involutive s) at 1.
  generalize (reverse s). clear s. intros s. induction s as [| c s IH]; [apply Hr |].
  cbn [trim_start]. destruct (is_whitespace c) eqn:E; [| apply Hr]. rewrite reverse_cons. by apply Hs.
Qed.

Lemma digits_upto_snoc max acc s c :
  digits_upto max acc (s ++ [c]) = v ← digits_upto max acc s; digits_upto max v [c].
Proof.
  revert acc. induction s as [|d s IH]; intros acc; [done |]. cbn [digits_upto app].
  destruct (is_ascii_digit d); [| done]. destruct (max <? _); [done | apply IH].
Qed.

(** What is printed can be read, digit by digit. *)
Lemma decimal_fuel_spec max k n : 0 <= n <= max -> n < 10 ^ Z.of_nat k ->
  digits_upto max 0 (decimal_fuel k n) = Some n
  /\ Forall (fun c => is_ascii_digit c = true) (decimal_fuel k n).
Proof.
  revert n. induction k as [|k IH]; intros n Hn Hk; [cbn in *; split; [f_equal; lia | done] |].
  rewrite Nat2Z.inj_succ, Z.pow_succ_r in Hk by lia.
  pose proof (Z.div_mod n 10 ltac:(lia)) as Hd. pose proof (Z.mod_pos_bound n 10 ltac:(lia)) as Hm.
  assert (Hc : is_ascii_digit (48 + n mod 10) = true) by (unfold is_ascii_digit; lia).
  set (pre := if n <? 10 then [] else decimal_fuel k (n / 10)).
  assert (Hpre : digits_upto max 0 pre = Some (n / 10) /\ Forall (fun c => is_ascii_digit c = true) pre).
  { unfold pre. destruct (Z.ltb_spec n 10); [split; [cbn; f_equal; lia | done] | apply IH; lia]. }
  destruct Hpre as [Hv Hf]. change (decimal_fuel (S k) n) with (pre ++ [48 + n mod 10]).
  split; [| by apply List.Forall_app; auto].
  rewrite digits_upto_snoc, Hv. cbn [mbind option_bind digits_upto]. rewrite Hc.
  destruct (Z.ltb_spec max (n / 10 * 10 + (48 + n mod 10 - 48))); [lia |]. f_equal. lia.
Qed.

Lemma decimal_digits k n : Forall (fun c => is_ascii_digit c = true) (decimal_fuel k n).
Proof.
  revert n. induction k as [|k IH]; intros n; [constructor |]. cbn [decimal_fuel].
  pose proof (Z.mod_pos_bound n 10 ltac:(lia)) as Hm.
  apply List.Forall_app. split; [destruct (n <? 10); [constructor | apply IH] |].
  constructor; [unfold is_ascii_digit; lia | constructor].
Qed.

Lemma decimal_fuel_nonempty k n : decimal_fuel (S k) n <> [].
Proof. cbn [decimal_fuel]. intros H. by apply app_eq_nil in H as (_ & ?). Qed.

Lemma decimal_nonempty n : decimal n <> [].
Proof. apply decimal_fuel_nonempty. Qed.

Lemma parse_decimal max k n : 0 <= n <= max -> n < 10 ^ Z.of_nat (S k) ->
  parse_unsigned max (decimal_fuel (S k) n) = Some n.
Proof.
  intros Hn Hk. destruct (decimal_fuel_spec max (S k) n Hn Hk) as (Hv & Hf).
  pose proof (decimal_fuel_nonempty k n) as Hne. unfold parse_unsigned.
  destruct (decimal_fuel (S k) n) as [|c s]; [done |]. apply Forall_cons_1 in Hf as (Hc & _).
  destruct (Z.eqb_spec c 43) as [->|]; [done | exact Hv].
Qed.

Lemma parse_decimal_u32 n : 0 <= n < 2 ^ 32 -> parse_u32 (decimal n) = Some n.
Proof. intros Hn. apply parse_decimal; [lia | cbn; lia]. Qed.

Lemma split_cons sep c s : c <> sep ->
  exists p ps, split sep s = p :: ps /\ split sep (c :: s) = (c :: p) :: ps.
Proof.
  intros H. cbn. destruct (Z.eqb_spec c sep); [done |].
  destruct (split sep s) as [| p ps] eqn:E; [| eauto].
  destruct s as [| d s]; cbn in E; [done |].
  by destruct (d =? sep), (split sep s).
Qed.

Lemma split_snoc sep s c : c <> sep ->
  exists ps p, split sep s = ps ++ [p] /\ split sep (s ++ [c]) = ps ++ [p ++ [c]].
Proof.
  intros H. induction s as [| d s (ps & p & E1 & E2)].
  - exists [], []. cbn. by destruct (Z.eqb_spec c sep).
  - cbn. rewrite E1, E2. destruct (d =? sep).
    + by exists ([] :: ps), p.
    + destruct ps as [| q ps]; cbn; [by exists [], (d :: p) | by exists ((d :: q) :: ps), p].
Qed.

(** White space around the whole text is white space around a piece. *)
Lemma split_trim_start sep s : is_whitespace sep = false ->
  trim <$> split sep (trim_start s) = trim <$> split sep s.
Proof.
  intros Hsep. induction s as [| c s IH]; [done |].
  cbn [trim_start]. destruct (is_whitespace c) eqn:E; [| done]. rewrite IH.
  destruct (split_cons sep c s) as (p & ps & -> & ->); [congruence |].
  rewrite !fmap_cons. f_equal. unfold trim. by rewrite trim_start_ws.
Qed.

Lemma split_trim_end sep s : is_whitespace sep = false ->
  trim <$> split sep (trim_end s) = trim <$> split sep s.
Proof.
  intros Hsep. symmetry. apply (trim_end_ind (fun s s' => trim <$> split sep s = trim <$> split sep s'));
    [done |].
  clear s. intros s s' w Hw <-. destruct (split_snoc sep s w) as (ps & p & -> & ->); [congruence |].
  rewrite !fmap_app. cbn. by rewrite trim_snoc.
Qed.

Lemma split_trim sep s : is_whitespace sep = false ->
  trim <$> split sep (trim s) = trim <$> split sep s.
Proof. intros H. unfold trim at 2. by rewrite split_trim_end, split_trim_start. Qed.

Lemma upper_idem s : to_ascii_uppercase (to_ascii_uppercase s) = to_ascii_uppercase s.
Proof.
  unfold to_ascii_uppercase. rewrite List.map_map. apply List.map_ext. intros c. unfold ascii_upper.
  destruct ((97 <=? c) && (c <=? 122)) eqn:E; [| by rewrite E].
  destruct ((97 <=? c - 32) && (c - 32 <=? 122)) eqn:E'; lia.
Qed.

Lemma str_len_1 s : str_len s = 1 -> exists c, s = [c].
Proof.
  destruct s as [| c [| d s]]; cbn; [done | eauto |].
  assert (forall l, 0 <= str_len l) by (induction l; cbn; [done |]; unfold utf8_len; repeat case_match; lia).
  specialize (H s). unfold utf8_len. repeat case_match; lia.
Qed.

Lemma forall_range (P : Z -> Prop) a n : Forall P (seqZ a n) -> forall c, a <= c < a + n -> P c.
Proof. intros H c Hc. exact (proj1 (list.Forall_forall P _) H c (proj2 (elem_of_seqZ a n c) Hc)). Qed.

Fixpoint join (sep : Z) (toks : list Str) : Str :=
  match toks with [] => [] | [t] => t | t :: toks' => t ++ sep :: join sep toks' end.

Lemma split_free sep t : sep ∉ t -> split sep t = [t].
Proof.
  induction t as [| c t IH]; [done |]. intros H. cbn. apply not_elem_of_cons in H as [H1 H2].
  destruct (Z.eqb_spec c sep); [congruence |]. by rewrite IH.
Qed.

Lemma split_app_sep sep t s : sep ∉ t -> split sep (t ++ sep :: s) = t :: split sep s.
Proof.
  induction t as [| c t IH]; intros H; cbn; [by rewrite Z.eqb_refl |].
  apply not_elem_of_cons in H as [H1 H2]. destruct (Z.eqb_spec c sep); [congruence |]. by rewrite IH.
Qed.

Lemma split_join sep toks : toks <> [] -> Forall (fun t => sep ∉ t) toks -> split sep (join sep toks) = toks.
Proof.
  intros Hn H. induction H as [| t toks Ht H IH]; [done |].
  destruct toks as [| t' toks]; [by apply split_free |].
  cbn [join]. rewrite split_app_sep by done. f_equal. by apply IH.
Qed.
