(* ===== verification/Utf16.v ===== *)
(** Text as Windows has it: UTF-16 units, ended by a zero where the code passes
    a pointer, read back with [String::from_utf16_lossy]. *)
From stdpp Require Import list strings.
From S2P Require Import Prelude Text.

(** A Unicode scalar value, what a [char] holds. *)
Definition scalar (c : Z) : bool :=
  ((0 <=? c) && (c <? 0xD800)) || ((0xE000 <=? c) && (c <? 0x110000)).

Definition high_surrogate (u : Z) : bool := (0xD800 <=? u) && (u <? 0xDC00).

Definition low_surrogate (u : Z) : bool := (0xDC00 <=? u) && (u <? 0xE000).

Definition REPLACEMENT : Z := 0xFFFD.

Definition utf16_units (c : Z) : list Z :=
  if c <? 0x10000 then [c]
  else [0xD800 + Z.shiftr (c - 0x10000) 10; 0xDC00 + Z.land (c - 0x10000) 1023].

Definition encode_utf16 (s : Str) : list Z := s ≫= utf16_units.

(** [wide_z], [to_wide]. *)
Definition wide_z (s : Str) : list Z := encode_utf16 s ++ [0].

(** A high surrogate waits for its second half. *)
Fixpoint decode_utf16 (pending : option Z) (l : list Z) : Str :=
  match l, pending with
  | [], None => []
  | [], Some _ => [REPLACEMENT]
  | u :: l', None =>
      if high_surrogate u then decode_utf16 (Some u) l'
      else (if low_surrogate u then REPLACEMENT else u) :: decode_utf16 None l'
  | u :: l', Some hi =>
      if low_surrogate u then
        Z.lor (Z.shiftl (hi - 0xD800) 10) (u - 0xDC00) + 0x10000 :: decode_utf16 None l'
      else REPLACEMENT :: (if high_surrogate u then decode_utf16 (Some u) l' else u :: decode_utf16 None l')
  end.

Definition from_utf16_lossy (l : list Z) : Str := decode_utf16 None l.

(** [position] of the first zero, and the slice before it. *)
Fixpoint until_nul (l : list Z) : list Z :=
  match l with [] => [] | u :: l' => if u =? 0 then [] else u :: until_nul l' end.

Lemma surrogate_pair d : 0 <= d < 2 ^ 20 ->
  0 <= Z.shiftr d 10 < 1024 /\ 0 <= Z.land d 1023 < 1024
  /\ Z.lor (Z.shiftl (Z.shiftr d 10) 10) (Z.land d 1023) = d.
Proof.
  intros Hd. change 1023 with (Z.ones 10). rewrite Z.land_ones by lia. split_and!.
  - rewrite Z.shiftr_div_pow2 by lia. apply Z.div_pos; lia.
  - rewrite Z.shiftr_div_pow2 by lia. apply Z.div_lt_upper_bound; lia.
  - by apply Z.mod_pos_bound.
  - by apply Z.mod_pos_bound.
  - rewrite <- Z.land_ones, <- Z.ldiff_ones_r by lia. apply Z.lor_ldiff_and.
Qed.

Lemma decode_units c l : scalar c = true ->
  decode_utf16 None (utf16_units c ++ l) = c :: decode_utf16 None l.
Proof.
  intros Hc. unfold scalar in Hc. unfold utf16_units. destruct (c <? 0x10000) eqn:E.
  - cbn [app decode_utf16]. unfold high_surrogate, low_surrogate.
    replace ((0xD800 <=? c) && (c <? 0xDC00)) with false by lia.
    by replace ((0xDC00 <=? c) && (c <? 0xE000)) with false by lia.
  - destruct (surrogate_pair (c - 0x10000)) as (H1 & H2 & H3); [lia |].
    cbn [app decode_utf16]. unfold high_surrogate, low_surrogate.
    replace ((0xD800 <=? _) && _) with true by lia.
    replace ((0xDC00 <=? _) && _) with true by lia.
    rewrite !Z.add_simpl_l, H3. by replace (c - 0x10000 + 0x10000) with c by lia.
Qed.

(** What is written as UTF-16 is read back. *)
Lemma utf16_roundtrip s : Forall (fun c => scalar c = true) s -> from_utf16_lossy (encode_utf16 s) = s.
Proof.
  unfold from_utf16_lossy. induction 1 as [|c s Hc _ IH]; [done |].
  change (encode_utf16 (c :: s)) with (utf16_units c ++ encode_utf16 s). by rewrite decode_units, IH.
Qed.

Lemma units_nonzero c : scalar c = true -> c <> 0 -> Forall (fun u => u <> 0) (utf16_units c).
Proof.
  unfold scalar, utf16_units. intros Hc H0. destruct (c <? 0x10000) eqn:E; [by repeat constructor |].
  destruct (surrogate_pair (c - 0x10000)) as (? & ? & _); [lia |]. repeat constructor; lia.
Qed.

Lemma until_nul_app l rest : Forall (fun u => u <> 0) l -> until_nul (l ++ 0 :: rest) = l.
Proof.
  induction 1 as [|u l Hu _ IH]; [done |]. cbn. by rewrite (proj2 (Z.eqb_neq u 0) Hu), IH.
Qed.

(** A text that can be passed as a terminated string. *)
Definition printable (s : Str) : Prop := Forall (fun c => scalar c = true /\ c <> 0) s.

(** A terminated string is read back from a buffer, whatever follows it. *)
Lemma wide_roundtrip s rest : printable s -> from_utf16_lossy (until_nul (wide_z s ++ rest)) = s.
Proof.
  intros Hs. unfold wide_z. rewrite <- app_assoc. cbn [app]. rewrite until_nul_app.
  - apply utf16_roundtrip. refine (List.Forall_impl _ _ Hs). by intros c [].
  - unfold encode_utf16. apply Forall_bind. refine (List.Forall_impl _ _ Hs).
    intros c (? & ?). by apply units_nonzero.
Qed.

(** ** UTF-8, as [String] stores it *)

Definition utf8_bytes (c : Z) : list Z :=
  if c <? 0x80 then [c]
  else if c <? 0x800 then [0xC0 + Z.shiftr c 6; 0x80 + Z.land c 63]
  else if c <? 0x10000 then [0xE0 + Z.shiftr c 12; 0x80 + Z.land (Z.shiftr c 6) 63; 0x80 + Z.land c 63]
  else [0xF0 + Z.shiftr c 18; 0x80 + Z.land (Z.shiftr c 12) 63; 0x80 + Z.land (Z.shiftr c 6) 63;
        0x80 + Z.land c 63].

Fixpoint to_string (s : Str) : string :=
  match s with
  | [] => EmptyString
  | c :: s' => fold_right (fun b => String (Ascii.ascii_of_N (Z.to_N b))) (to_string s') (utf8_bytes c)
  end.

Lemma to_string_ascii t : Forall (fun c => c < 0x80) (lit t) -> to_string (lit t) = t.
Proof.
  induction t as [|a t IH]; [done |]. cbn [lit]. intros (Ha & Ht)%Forall_cons_1. cbn [to_string]. rewrite IH by done.
  unfold utf8_bytes. rewrite (proj2 (Z.ltb_lt _ _) Ha). cbn [fold_right]. f_equal.
  unfold Ascii.nat_of_ascii. rewrite N_nat_Z, N2Z.id. apply Ascii.ascii_N_embedding.
Qed.
