(* ===== verification/Protocol.v ===== *)
(** The wire protocol ([crates/penflow-protocol/src/lib.rs]): message ids,
    the length-prefixed frame codec over byte streams and the typed payload
    codecs.  An [f32] field is its 32-bit image, because [to_be_bytes] and
    [from_be_bytes] move the bits and nothing else. *)
From S2P Require Import Prelude Bytes.

(** * Message ids, codec ids and flags *)

Definition MSG_HELLO_PC : Z := 0x01.
Definition MSG_VIDEO_CONFIG : Z := 0x02.
Definition MSG_VIDEO_FRAME : Z := 0x03.
Definition MSG_BRUSH_HINT : Z := 0x04.
Definition MSG_TELEMETRY : Z := 0x05.
Definition MSG_TIME_SYNC_RESP : Z := 0x06.
Definition MSG_CLIENT_CONFIG : Z := 0x07.
Definition MSG_PC_GOODBYE : Z := 0x7F.
Definition MSG_HELLO_ANDROID : Z := 0x81.
Definition MSG_PEN_EVENT : Z := 0x82.
Definition MSG_TOUCH_EVENT : Z := 0x83.
Definition MSG_TIME_SYNC_REQ : Z := 0x84.
Definition MSG_REQUEST_IDR : Z := 0x85.
Definition MSG_ANDROID_GOODBYE : Z := 0xFF.

Definition CODEC_H264 : Z := 1.
Definition CODEC_HEVC : Z := 2.
Definition CODEC_AV1 : Z := 3.

Definition FRAME_FLAG_KEYFRAME : Z := 0x01.
Definition FRAME_FLAG_EXTENDED : Z := 0x80.

Definition CODEC_CAPS_H264 : Z := Z.shiftl 1 0.
Definition CODEC_CAPS_HEVC : Z := Z.shiftl 1 1.
Definition CODEC_CAPS_AV1 : Z := Z.shiftl 1 2.

Definition CLIENT_CFG_FLAG_HUD : Z := Z.shiftl 1 0.
Definition CLIENT_CFG_FLAG_SCREEN_OFF : Z := Z.shiftl 1 1.

Definition MAX_PAYLOAD_LEN : Z := 64 * 1024 * 1024.

(** * Errors *)

(** The kinds of [std::io::Error] the callers tell apart. *)
Inductive IoErrorKind := UnexpectedEof | ConnectionReset | OtherIo.

Inductive ProtocolError :=
| Io (kind : IoErrorKind)
| PayloadTooLarge (len : Z)
| Malformed (msg : Z).

#[export] Instance IoErrorKind_eq_dec : EqDecision IoErrorKind.
Proof. solve_decision. Defined.

#[export] Instance ProtocolError_eq_dec : EqDecision ProtocolError.
Proof. solve_decision. Defined.

(** * Framing *)

(** [u8 msg_id | u32 BE length | payload]; the length is cast to [u32]. *)
Definition encode_frame (msg_id : Z) (payload : list Z) : list Z :=
  msg_id :: be_bytes 4 (uwrap 32 (Z.of_nat (length payload))) ++ payload.

(** The write half of a stream: what the peer has been sent, and when the
    connection breaks, if it does: after how many more bytes, and with which
    error.  A write that meets the break leaves what still got through. *)
Record Writer := { w_sent : list Z; w_err : option (nat * IoErrorKind) }.

Definition write_all (w : Writer) (buf : list Z) : result ProtocolError unit * Writer :=
  match w_err w with
  | Some (n, k) =>
      if Nat.ltb n (length buf)
      then (Err (Io k), {| w_sent := w_sent w ++ take n buf; w_err := Some (0%nat, k) |})
      else (Ok tt, {| w_sent := w_sent w ++ buf; w_err := Some ((n - length buf)%nat, k) |})
  | None => (Ok tt, {| w_sent := w_sent w ++ buf; w_err := None |})
  end.

Definition write_frame (w : Writer) (msg_id : Z) (payload : list Z)
  : result ProtocolError unit * Writer :=
  write_all w (encode_frame msg_id payload).

(** The read half: the bytes still to arrive, then the error that ends the
    stream ([UnexpectedEof] when the peer closes it). *)
Record Reader := { r_bytes : list Z; r_end : IoErrorKind }.

Definition read_exact (r : Reader) (n : nat) : result ProtocolError (list Z * Reader) :=
  if Nat.leb n (length (r_bytes r))
  then Ok (take n (r_bytes r), {| r_bytes := drop n (r_bytes r); r_end := r_end r |})
  else Err (Io (r_end r)).

Definition read_frame (r : Reader) : result ProtocolError ((Z * list Z) * Reader) :=
  '(id, r) ← read_exact r 1;
  '(len, r) ← read_exact r 4;
  let msg_id := be_val id in
  let len := be_val len in
  if MAX_PAYLOAD_LEN <? len then Err (PayloadTooLarge len)
  else
    '(payload, r) ← read_exact r (Z.to_nat len);
    Ok ((msg_id, payload), r).

(** * Typed payloads *)

Record HelloPc := {
  hp_protocol_version : Z; hp_width : Z; hp_height : Z;
  hp_codec : Z; hp_bitrate_bps : Z; hp_fps : Z }.

Definition HelloPc_SIZE : nat := (1 + 2 + 2 + 1 + 4 + 1)%nat.

Definition HelloPc_encode (h : HelloPc) : list Z :=
  [hp_protocol_version h] ++ be_bytes 2 (hp_width h) ++ be_bytes 2 (hp_height h)
  ++ [hp_codec h] ++ be_bytes 4 (hp_bitrate_bps h) ++ [hp_fps h].

Definition HelloPc_decode (p : list Z) : result ProtocolError HelloPc :=
  if Nat.eqb (length p) HelloPc_SIZE then
    Ok {| hp_protocol_version := get p 0;
          hp_width := be_val (sub_slice 1 2 p);
          hp_height := be_val (sub_slice 3 2 p);
          hp_codec := get p 5;
          hp_bitrate_bps := be_val (sub_slice 6 4 p);
          hp_fps := get p 10 |}
  else Err (Malformed MSG_HELLO_PC).

Record HelloAndroid := {
  ha_protocol_version : Z; ha_display_width : Z; ha_display_height : Z;
  ha_pen_max_pressure : Z; ha_pen_tilt_min_deg : Z; ha_pen_tilt_max_deg : Z;
  ha_pen_buttons_count : Z; ha_codec_caps : Z }.

Definition HelloAndroid_SIZE : nat := (1 + 2 + 2 + 2 + 2 + 2 + 1 + 1)%nat.

Definition HelloAndroid_encode (h : HelloAndroid) : list Z :=
  [ha_protocol_version h] ++ be_bytes 2 (ha_display_width h)
  ++ be_bytes 2 (ha_display_height h) ++ be_bytes 2 (ha_pen_max_pressure h)
  ++ be_bytes_s 2 (ha_pen_tilt_min_deg h) ++ be_bytes_s 2 (ha_pen_tilt_max_deg h)
  ++ [ha_pen_buttons_count h] ++ [ha_codec_caps h].

Definition HelloAndroid_decode (p : list Z) : result ProtocolError HelloAndroid :=
  if Nat.eqb (length p) HelloAndroid_SIZE then
    Ok {| ha_protocol_version := get p 0;
          ha_display_width := be_val (sub_slice 1 2 p);
          ha_display_height := be_val (sub_slice 3 2 p);
          ha_pen_max_pressure := be_val (sub_slice 5 2 p);
          ha_pen_tilt_min_deg := be_val_s (sub_slice 7 2 p);
          ha_pen_tilt_max_deg := be_val_s (sub_slice 9 2 p);
          ha_pen_buttons_count := get p 11;
          ha_codec_caps := get p 12 |}
  else Err (Malformed MSG_HELLO_ANDROID).

Record ClientConfig := { cc_flags : Z }.

Definition ClientConfig_SIZE : nat := 4.

Definition ClientConfig_encode (c : ClientConfig) : list Z := be_bytes 4 (cc_flags c).

Definition ClientConfig_decode (p : list Z) : result ProtocolError ClientConfig :=
  if Nat.ltb (length p) ClientConfig_SIZE then Err (Malformed MSG_CLIENT_CONFIG)
  else Ok {| cc_flags := be_val (sub_slice 0 4 p) |}.

Definition hud_enabled (c : ClientConfig) : bool :=
  negb (Z.land (cc_flags c) CLIENT_CFG_FLAG_HUD =? 0).

Definition screen_off (c : ClientConfig) : bool :=
  negb (Z.land (cc_flags c) CLIENT_CFG_FLAG_SCREEN_OFF =? 0).

Record VideoFrame := {
  vf_pts_ns : Z; vf_flags : Z;
  vf_capture_us : option Z; vf_encode_us : option Z; vf_coded : list Z }.

Definition is_extended (flags : Z) : bool := negb (Z.land flags FRAME_FLAG_EXTENDED =? 0).

Definition VideoFrame_encode (v : VideoFrame) : list Z :=
  be_bytes_s 8 (vf_pts_ns v) ++ [vf_flags v]
  ++ (if is_extended (vf_flags v)
      then be_bytes 4 (default 0 (vf_capture_us v)) ++ be_bytes 4 (default 0 (vf_encode_us v))
      else [])
  ++ vf_coded v.

Definition VideoFrame_decode (p : list Z) : result ProtocolError VideoFrame :=
  if Nat.ltb (length p) 9 then Err (Malformed MSG_VIDEO_FRAME)
  else
    let pts_ns := be_val_s (sub_slice 0 8 p) in
    let flags := get p 8 in
    if is_extended flags then
      if Nat.ltb (length p) 17 then Err (Malformed MSG_VIDEO_FRAME)
      else Ok {| vf_pts_ns := pts_ns; vf_flags := flags;
                 vf_capture_us := Some (be_val (sub_slice 9 4 p));
                 vf_encode_us := Some (be_val (sub_slice 13 4 p));
                 vf_coded := drop 17 p |}
    else Ok {| vf_pts_ns := pts_ns; vf_flags := flags;
               vf_capture_us := None; vf_encode_us := None; vf_coded := drop 9 p |}.

Record PenEvent := {
  pe_ts_ns : Z; pe_phase : Z; pe_x_norm : Z; pe_y_norm : Z; pe_pressure : Z;
  pe_tilt_x : Z; pe_tilt_y : Z; pe_buttons : Z; pe_tool : Z }.

Definition PenEvent_SIZE : nat := (8 + 1 + 4 + 4 + 4 + 4 + 4 + 1 + 1)%nat.

Definition PenEvent_encode (e : PenEvent) : list Z :=
  be_bytes_s 8 (pe_ts_ns e) ++ [pe_phase e] ++ be_bytes 4 (pe_x_norm e)
  ++ be_bytes 4 (pe_y_norm e) ++ be_bytes 4 (pe_pressure e) ++ be_bytes 4 (pe_tilt_x e)
  ++ be_bytes 4 (pe_tilt_y e) ++ [pe_buttons e] ++ [pe_tool e].

Definition PenEvent_decode (p : list Z) : result ProtocolError PenEvent :=
  if Nat.eqb (length p) PenEvent_SIZE then
    Ok {| pe_ts_ns := be_val_s (sub_slice 0 8 p);
          pe_phase := get p 8;
          pe_x_norm := be_val (sub_slice 9 4 p);
          pe_y_norm := be_val (sub_slice 13 4 p);
          pe_pressure := be_val (sub_slice 17 4 p);
          pe_tilt_x := be_val (sub_slice 21 4 p);
          pe_tilt_y := be_val (sub_slice 25 4 p);
          pe_buttons := get p 29;
          pe_tool := get p 30 |}
  else Err (Malformed MSG_PEN_EVENT).

Record TouchContact := { tc_pointer_id : Z; tc_x_norm : Z; tc_y_norm : Z; tc_pressure : Z }.

Definition TouchContact_SIZE : nat := (1 + 4 + 4 + 4)%nat.

Record TouchEvent := { te_ts_ns : Z; te_contacts : list TouchContact }.

Definition TouchContact_encode (c : TouchContact) : list Z :=
  [tc_pointer_id c] ++ be_bytes 4 (tc_x_norm c) ++ be_bytes 4 (tc_y_norm c)
  ++ be_bytes 4 (tc_pressure c).

Definition TouchEvent_encode (t : TouchEvent) : list Z :=
  let n := Nat.min (length (te_contacts t)) 255 in
  be_bytes_s 8 (te_ts_ns t) ++ [Z.of_nat n]
  ++ concat (map TouchContact_encode (take n (te_contacts t))).

Definition TouchContact_at (p : list Z) (off : nat) : TouchContact :=
  {| tc_pointer_id := get p off;
     tc_x_norm := be_val (sub_slice (off + 1) 4 p);
     tc_y_norm := be_val (sub_slice (off + 5) 4 p);
     tc_pressure := be_val (sub_slice (off + 9) 4 p) |}.

Definition TouchEvent_decode (p : list Z) : result ProtocolError TouchEvent :=
  if Nat.ltb (length p) 9 then Err (Malformed MSG_TOUCH_EVENT)
  else
    let ts_ns := be_val_s (sub_slice 0 8 p) in
    let count := Z.to_nat (get p 8) in
    let expected := (9 + count * TouchContact_SIZE)%nat in
    if negb (Nat.eqb (length p) expected) then Err (Malformed MSG_TOUCH_EVENT)
    else Ok {| te_ts_ns := ts_ns;
               te_contacts := map (fun i => TouchContact_at p (9 + i * TouchContact_SIZE))
                                  (seq 0 count) |}.

Record Telemetry := {
  tl_frames : Z; tl_dropped : Z; tl_capture_us_avg : Z; tl_encode_us_avg : Z;
  tl_encode_us_p99 : Z; tl_queue_depth : Z }.

Definition Telemetry_SIZE : nat := (4 * 5 + 1)%nat.

Definition Telemetry_encode (t : Telemetry) : list Z :=
  be_bytes 4 (tl_frames t) ++ be_bytes 4 (tl_dropped t) ++ be_bytes 4 (tl_capture_us_avg t)
  ++ be_bytes 4 (tl_encode_us_avg t) ++ be_bytes 4 (tl_encode_us_p99 t) ++ [tl_queue_depth t].

Record TimeSyncReq := { tq_android_t1_ns : Z }.

Definition TimeSyncReq_SIZE : nat := 8.

Definition TimeSyncReq_decode (p : list Z) : result ProtocolError TimeSyncReq :=
  if Nat.eqb (length p) TimeSyncReq_SIZE
  then Ok {| tq_android_t1_ns := be_val_s (sub_slice 0 8 p) |}
  else Err (Malformed MSG_TIME_SYNC_REQ).

Record TimeSyncResp := { tr_android_t1_ns : Z; tr_pc_t2_ns : Z; tr_pc_t3_ns : Z }.

Definition TimeSyncResp_SIZE : nat := 24.

Definition TimeSyncResp_encode (t : TimeSyncResp) : list Z :=
  be_bytes_s 8 (tr_android_t1_ns t) ++ be_bytes_s 8 (tr_pc_t2_ns t)
  ++ be_bytes_s 8 (tr_pc_t3_ns t).

(** * Well-formed values

    A value is well formed when each field is in the range of its Rust type
    and, for a video frame, when the optional timings are present exactly as
    the [FRAME_FLAG_EXTENDED] bit says. *)

Definition HelloPc_wf (h : HelloPc) : Prop :=
  u8 (hp_protocol_version h) /\ u16 (hp_width h) /\ u16 (hp_height h)
  /\ u8 (hp_codec h) /\ u32 (hp_bitrate_bps h) /\ u8 (hp_fps h).

Definition HelloAndroid_wf (h : HelloAndroid) : Prop :=
  u8 (ha_protocol_version h) /\ u16 (ha_display_width h) /\ u16 (ha_display_height h)
  /\ u16 (ha_pen_max_pressure h) /\ i16 (ha_pen_tilt_min_deg h)
  /\ i16 (ha_pen_tilt_max_deg h) /\ u8 (ha_pen_buttons_count h) /\ u8 (ha_codec_caps h).

Definition PenEvent_wf (e : PenEvent) : Prop :=
  i64 (pe_ts_ns e) /\ u8 (pe_phase e) /\ u32 (pe_x_norm e) /\ u32 (pe_y_norm e)
  /\ u32 (pe_pressure e) /\ u32 (pe_tilt_x e) /\ u32 (pe_tilt_y e)
  /\ u8 (pe_buttons e) /\ u8 (pe_tool e).

Definition timings_wf (flags : Z) (o : option Z) : Prop :=
  match o with
  | Some us => is_extended flags = true /\ u32 us
  | None => is_extended flags = false
  end.

Definition VideoFrame_wf (v : VideoFrame) : Prop :=
  i64 (vf_pts_ns v) /\ u8 (vf_flags v) /\ timings_wf (vf_flags v) (vf_capture_us v)
  /\ timings_wf (vf_flags v) (vf_encode_us v) /\ bytes_ok (vf_coded v).

Definition TouchContact_wf (c : TouchContact) : Prop :=
  u8 (tc_pointer_id c) /\ u32 (tc_x_norm c) /\ u32 (tc_y_norm c) /\ u32 (tc_pressure c).

Definition TouchEvent_wf (t : TouchEvent) : Prop :=
  i64 (te_ts_ns t) /\ (length (te_contacts t) <= 255)%nat
  /\ Forall TouchContact_wf (te_contacts t).

(** What a codec promises to the code that frames its messages: decoding
    inverts encoding, and a payload that decodes is the encoding of its
    value, so two peers that agree on the payload agree on the value. *)
Class WireCodec {M : Type} (wf : M -> Prop) (encode : M -> list Z)
    (decode : list Z -> result ProtocolError M) : Prop := {
  wc_roundtrip : forall m, wf m -> decode (encode m) = Ok m;
  wc_canonical : forall p m, bytes_ok p -> decode p = Ok m -> wf m /\ encode m = p;
  wc_bytes : forall m, wf m -> bytes_ok (encode m) }.

(** [n] successive calls of [read_frame]. *)
Fixpoint read_frames (n : nat) (r : Reader) : result ProtocolError (list (Z * list Z) * Reader) :=
  match n with
  | O => Ok ([], r)
  | S n' =>
      '(f, r) ← read_frame r;
      '(fs, r) ← read_frames n' r;
      Ok (f :: fs, r)
  end.

(** Successive calls of [write_frame] on an open connection. *)
Fixpoint write_frames (w : Writer) (fs : list (Z * list Z)) : result ProtocolError unit * Writer :=
  match fs with
  | [] => (Ok tt, w)
  | (id, p) :: fs' =>
      match write_frame w id p with
      | (Ok _, w') => write_frames w' fs'
      | (Err e, w') => (Err e, w')
      end
  end.

(** A frame whose header survives the trip: an id byte and a payload within
    the reader's limit. *)
Definition frame_ok (f : Z * list Z) : Prop :=
  u8 f.1 /\ Z.of_nat (length f.2) <= MAX_PAYLOAD_LEN.

(** * Lemmas *)

Ltac explode p :=
  repeat match goal with
  | H : length p = _ |- _ =>
      destruct p as [|? p]; cbn [length] in H;
      [try discriminate H; clear H | first [discriminate H | apply Nat.succ_inj in H]]
  end.

Lemma is_extended_default flags o :
  timings_wf flags o -> is_extended flags = true -> Some (default 0 o) = o.
Proof. destruct o; cbn; [done | congruence]. Qed.

Lemma u32_default flags o : timings_wf flags o -> u32 (default 0 o).
Proof. destruct o; cbn; [tauto | intros _; urange]. Qed.

Lemma u8_get p i : bytes_ok p -> u8 (get p i).
Proof.
  intros Hp. unfold get. destruct (p !! i) eqn:E; cbn.
  - by eapply Forall_lookup_1 in E.
  - urange.
Qed.

Lemma u_slice off n p :
  bytes_ok p -> (off + n <= length p)%nat -> unsigned (8 * Z.of_nat n) (be_val (sub_slice off n p)).
Proof.
  intros Hp Hn. unfold sub_slice.
  assert (length (take n (drop off p)) = n) as Hl by (rewrite length_take, length_drop; lia).
  rewrite <- Hl at 1. apply be_val_range. auto with penflow.
Qed.

Lemma s_slice off n p :
  (0 < n)%nat -> (off + n <= length p)%nat -> signed (8 * Z.of_nat n) (be_val_s (sub_slice off n p)).
Proof.
  intros Hpos Hn. unfold sub_slice.
  assert (length (take n (drop off p)) = n) as Hl by (rewrite length_take, length_drop; lia).
  rewrite <- Hl at 1. apply be_val_s_range. intros E. rewrite E in Hl. cbn in Hl. lia.
Qed.

#[export] Hint Resolve u8_get u32_default : penflow.
#[export] Hint Extern 1 (_ <= _)%nat => lia : penflow.
#[export] Hint Extern 1 (_ < _)%nat => lia : penflow.

(** Ranges of decoded fields. *)
Ltac fields :=
  repeat match goal with |- _ /\ _ => split end;
  first [ by auto with penflow
        | match goal with
          | |- unsigned 16 (be_val (sub_slice ?o 2 _)) => apply (u_slice o 2)
          | |- unsigned 32 (be_val (sub_slice ?o 4 _)) => apply (u_slice o 4)
          | |- signed 16 (be_val_s (sub_slice ?o 2 _)) => apply (s_slice o 2)
          | |- signed 64 (be_val_s (sub_slice ?o 8 _)) => apply (s_slice o 8)
          end; first [done | lia] | idtac ].

(** A field of an encoding is the field of the value. *)
Ltac field_eq :=
  match goal with
  | H : unsigned 16 ?x |- _ = ?x => exact (be_val_u 2 x H)
  | H : unsigned 32 ?x |- _ = ?x => exact (be_val_u 4 x H)
  | H : signed 16 ?x |- _ = ?x => exact (be_val_s_bytes 2 x ltac:(lia) H)
  | H : signed 64 ?x |- _ = ?x => exact (be_val_s_bytes 8 x ltac:(lia) H)
  | |- _ = _ => reflexivity
  end.


Lemma HelloPc_roundtrip h : HelloPc_wf h -> HelloPc_decode (HelloPc_encode h) = Ok h.
Proof.
  destruct h. intros H. unfold HelloPc_wf in H; cbn in H. destruct_and! H.
  unfold HelloPc_decode. change (Nat.eqb _ _) with true. cbv iota.
  f_equal. f_equal; field_eq.
Qed.

Lemma HelloPc_canonical p h :
  bytes_ok p -> HelloPc_decode p = Ok h -> HelloPc_wf h /\ HelloPc_encode h = p.
Proof.
  intros Hp. unfold HelloPc_decode. case_test; [| done]. intros [= <-].
  apply Nat.eqb_eq in Heqb. unfold HelloPc_SIZE in Heqb. split.
  - unfold HelloPc_wf; cbn. fields.
  - unfold HelloPc_encode; cbn -[get sub_slice be_bytes be_val].
    rewrite !be_val_u_slice by (done || lia). explode p. reflexivity.
Qed.

Lemma HelloAndroid_roundtrip h :
  HelloAndroid_wf h -> HelloAndroid_decode (HelloAndroid_encode h) = Ok h.
Proof.
  destruct h. intros H. unfold HelloAndroid_wf in H; cbn in H. destruct_and! H.
  unfold HelloAndroid_decode. change (Nat.eqb _ _) with true. cbv iota.
  f_equal. f_equal; field_eq.
Qed.

Lemma HelloAndroid_canonical p h :
  bytes_ok p -> HelloAndroid_decode p = Ok h -> HelloAndroid_wf h /\ HelloAndroid_encode h = p.
Proof.
  intros Hp. unfold HelloAndroid_decode. case_test; [| done]. intros [= <-].
  apply Nat.eqb_eq in Heqb. unfold HelloAndroid_SIZE in Heqb. split.
  - unfold HelloAndroid_wf; cbn. fields.
  - unfold HelloAndroid_encode; cbn -[get sub_slice be_bytes be_bytes_s be_val be_val_s].
    rewrite !be_val_u_slice, !be_val_s_slice by (done || lia). explode p. reflexivity.
Qed.

Lemma PenEvent_roundtrip e : PenEvent_wf e -> PenEvent_decode (PenEvent_encode e) = Ok e.
Proof.
  destruct e. intros H. unfold PenEvent_wf in H; cbn in H. destruct_and! H.
  unfold PenEvent_decode. change (Nat.eqb _ _) with true. cbv iota.
  f_equal. f_equal; field_eq.
Qed.

Lemma PenEvent_canonical p e :
  bytes_ok p -> PenEvent_decode p = Ok e -> PenEvent_wf e /\ PenEvent_encode e = p.
Proof.
  intros Hp. unfold PenEvent_decode. case_test; [| done]. intros [= <-].
  apply Nat.eqb_eq in Heqb. unfold PenEvent_SIZE in Heqb. split.
  - unfold PenEvent_wf; cbn. fields.
  - unfold PenEvent_encode; cbn -[get sub_slice be_bytes be_bytes_s be_val be_val_s].
    rewrite !be_val_u_slice, !be_val_s_slice by (done || lia). explode p. reflexivity.
Qed.

(** The frame a decoder recovers from an encoding: the timings exist exactly
    when the flag says so, and an absent one was sent as 0. *)
Definition VideoFrame_sent (v : VideoFrame) : VideoFrame :=
  let t o := if is_extended (vf_flags v) then Some (default 0 o) else None in
  {| vf_pts_ns := vf_pts_ns v; vf_flags := vf_flags v;
     vf_capture_us := t (vf_capture_us v); vf_encode_us := t (vf_encode_us v);
     vf_coded := vf_coded v |}.

Lemma VideoFrame_decode_sent v :
  i64 (vf_pts_ns v) -> u32 (default 0 (vf_capture_us v)) -> u32 (default 0 (vf_encode_us v)) ->
  VideoFrame_decode (VideoFrame_encode v) = Ok (VideoFrame_sent v).
Proof.
  destruct v as [pts flags cap enc coded]; cbn -[default]. intros Hpts Hcap Henc.
  unfold VideoFrame_decode, VideoFrame_encode, VideoFrame_sent; cbn [vf_pts_ns vf_flags vf_capture_us vf_encode_us vf_coded].
  destruct (is_extended flags) eqn:Hx.
  - change (Nat.ltb _ 9) with false. cbv iota zeta. change (get _ 8) with flags. rewrite Hx.
    change (Nat.ltb _ 17) with false. cbv iota zeta.
    f_equal. f_equal; solve [field_eq | f_equal; field_eq].
  - change (Nat.ltb _ 9) with false. cbv iota zeta. change (get _ 8) with flags. rewrite Hx.
    f_equal. f_equal; field_eq.
Qed.

Lemma VideoFrame_sent_wf v : VideoFrame_wf v -> VideoFrame_sent v = v.
Proof.
  destruct v as [pts flags cap enc coded]. intros (_ & _ & Hc & He & _); cbn in *.
  unfold VideoFrame_sent; cbn. destruct (is_extended flags) eqn:Hx.
  - by rewrite (is_extended_default _ _ Hc Hx), (is_extended_default _ _ He Hx).
  - destruct cap; [cbn in Hc; destruct Hc; congruence |].
    destruct enc; [cbn in He; destruct He; congruence | done].
Qed.

Lemma VideoFrame_roundtrip v : VideoFrame_wf v -> VideoFrame_decode (VideoFrame_encode v) = Ok v.
Proof.
  intros H. rewrite VideoFrame_decode_sent, VideoFrame_sent_wf by
    (first [done | apply H | by eapply u32_default; apply H]). done.
Qed.

Lemma length_ge_split n (p : list Z) :
  (n <= length p)%nat -> exists h t, p = h ++ t /\ length h = n.
Proof. intros H. exists (take n p), (drop n p). by rewrite take_drop, length_take_le. Qed.

Lemma VideoFrame_canonical p v :
  bytes_ok p -> VideoFrame_decode p = Ok v -> VideoFrame_wf v /\ VideoFrame_encode v = p.
Proof.
  intros Hp. unfold VideoFrame_decode.
  destruct (Nat.ltb (length p) 9) eqn:H9; [done |]. apply Nat.ltb_ge in H9.
  destruct (is_extended (get p 8)) eqn:Hx.
  - destruct (Nat.ltb (length p) 17) eqn:H17; [done |]. apply Nat.ltb_ge in H17.
    intros [= <-]. split.
    + unfold VideoFrame_wf; cbn -[get sub_slice]. fields; auto with penflow; fields.
    + unfold VideoFrame_encode; cbn -[get sub_slice be_bytes be_bytes_s be_val be_val_s drop].
      rewrite Hx, !be_val_u_slice, !be_val_s_slice by (done || lia).
      destruct (length_ge_split 17 p H17) as (h & t & -> & Hh).
      explode h. reflexivity.
  - intros [= <-]. split.
    + unfold VideoFrame_wf; cbn -[get sub_slice]. fields; auto with penflow; fields.
    + unfold VideoFrame_encode; cbn -[get sub_slice be_bytes be_bytes_s be_val be_val_s drop].
      rewrite Hx, !be_val_s_slice by (done || lia).
      destruct (length_ge_split 9 p H9) as (h & t & -> & Hh).
      explode h. reflexivity.
Qed.

(** ** Touch snapshots *)

Lemma get_app_r a b i : get (a ++ b) (length a + i) = get b i.
Proof. unfold get. by rewrite lookup_app_r, Nat.add_comm, Nat.add_sub by lia. Qed.

Lemma sub_slice_app_r a b off n : sub_slice (length a + off) n (a ++ b) = sub_slice off n b.
Proof. unfold sub_slice. by rewrite drop_app_add. Qed.

Lemma TouchContact_at_app a b i : TouchContact_at (a ++ b) (length a + i) = TouchContact_at b i.
Proof.
  unfold TouchContact_at. rewrite get_app_r. f_equal;
    by rewrite <- Nat.add_assoc, sub_slice_app_r.
Qed.

Lemma TouchContact_at_encode c rest :
  TouchContact_wf c -> TouchContact_at (TouchContact_encode c ++ rest) 0 = c.
Proof.
  destruct c. intros H. unfold TouchContact_wf in H; cbn in H. destruct_and! H.
  unfold TouchContact_at. f_equal; field_eq.
Qed.

Lemma length_TouchContact_encode c : length (TouchContact_encode c) = TouchContact_SIZE.
Proof. done. Qed.

Lemma length_contacts cs :
  length (concat (map TouchContact_encode cs)) = (length cs * TouchContact_SIZE)%nat.
Proof.
  induction cs as [|c cs IH]; [done |].
  cbn [map concat]. rewrite length_app, IH, length_TouchContact_encode. cbn. lia.
Qed.

Lemma contacts_at_encode hd cs :
  Forall TouchContact_wf cs ->
  map (fun i => TouchContact_at (hd ++ concat (map TouchContact_encode cs))
                  (length hd + i * TouchContact_SIZE)) (seq 0 (length cs)) = cs.
Proof.
  revert hd. induction cs as [|c cs IH]; intros hd Hwf; [done |].
  inversion_clear Hwf as [| ? ? Hc Hcs]. cbn [length seq map concat]. f_equal.
  - rewrite TouchContact_at_app. by apply TouchContact_at_encode.
  - rewrite <- seq_shift, map_map. etransitivity; [| exact (IH (hd ++ TouchContact_encode c) Hcs)].
    apply map_ext. intros i. rewrite <- app_assoc, length_app, length_TouchContact_encode.
    f_equal. lia.
Qed.

(** The contacts the encoder sends: at most 255. *)
Definition TouchEvent_sent (t : TouchEvent) : TouchEvent :=
  {| te_ts_ns := te_ts_ns t; te_contacts := take 255 (te_contacts t) |}.

Lemma TouchEvent_decode_sent t :
  i64 (te_ts_ns t) -> Forall TouchContact_wf (te_contacts t) ->
  TouchEvent_decode (TouchEvent_encode t) = Ok (TouchEvent_sent t).
Proof.
  destruct t as [ts cs]. cbn [te_ts_ns te_contacts]. intros Hts Hcs.
  unfold TouchEvent_decode, TouchEvent_encode, TouchEvent_sent; cbn [te_ts_ns te_contacts].
  set (n := Nat.min (length cs) 255).
  assert (take 255 cs = take n cs) as ->.
  { subst n. destruct (Nat.le_ge_cases (length cs) 255).
    - rewrite !take_ge by lia. done.
    - f_equal. lia. }
  assert (Hn : length (take n cs) = n) by (rewrite length_take; lia).
  set (hd := be_bytes_s 8 ts ++ [Z.of_nat n]).
  assert (Hhd : length hd = 9%nat) by done.
  set (body := concat (map TouchContact_encode (take n cs))).
  assert (Hb : length body = (n * TouchContact_SIZE)%nat)
    by (subst body; by rewrite length_contacts, Hn).
  replace (be_bytes_s 8 ts ++ [Z.of_nat n] ++ body) with (hd ++ body)
    by (subst hd; by rewrite <- app_assoc).
  assert (Hget : get (hd ++ body) 8 = Z.of_nat n) by done.
  cbv zeta. rewrite Hget, Nat2Z.id.
  rewrite (proj2 (Nat.ltb_ge _ _)) by (rewrite length_app; lia).
  rewrite length_app, Hhd, Hb, Nat.eqb_refl. cbn [negb]. do 2 f_equal.
  - field_eq.
  - rewrite <- Hhd. pose proof (contacts_at_encode hd (take n cs)) as Hat.
    rewrite Hn in Hat. apply Hat. auto with penflow.
Qed.

Lemma TouchEvent_roundtrip t :
  TouchEvent_wf t -> TouchEvent_decode (TouchEvent_encode t) = Ok t.
Proof.
  intros (Hts & Hlen & Hcs). rewrite TouchEvent_decode_sent by done.
  unfold TouchEvent_sent. rewrite take_ge by lia. by destruct t.
Qed.

Lemma contacts_canonical k (p : list Z) hd :
  bytes_ok p -> length p = (k * TouchContact_SIZE)%nat ->
  let cs := map (fun i => TouchContact_at (hd ++ p) (length hd + i * TouchContact_SIZE)) (seq 0 k) in
  Forall TouchContact_wf cs /\ concat (map TouchContact_encode cs) = p.
Proof.
  revert p hd. induction k as [|k IH]; intros p hd Hp Hl; cbn [seq map].
  - cbn. destruct p; [auto | done].
  - destruct (length_ge_split 13 p) as (h & t & -> & Hh); [cbn in Hl; lia |].
    assert (length t = (k * TouchContact_SIZE)%nat) as Ht
      by (rewrite length_app, Hh in Hl; cbn in *; lia).
    destruct (IH t (hd ++ h) ltac:(eauto with penflow) Ht) as [IH1 IH2].
    assert (Hshift : map (fun i => TouchContact_at (hd ++ h ++ t)
                (length hd + i * TouchContact_SIZE)) (seq 1 k)
            = map (fun i => TouchContact_at ((hd ++ h) ++ t)
                (length (hd ++ h) + i * TouchContact_SIZE)) (seq 0 k)).
    { rewrite <- seq_shift, map_map. apply map_ext. intros i.
      rewrite <- app_assoc, length_app, Hh. f_equal. cbn. lia. }
    rewrite Hshift, TouchContact_at_app. cbn [concat map].
    apply Forall_app_l in Hp as Hhok.
    split.
    + constructor; [| exact IH1]. unfold TouchContact_wf, TouchContact_at; cbn -[get sub_slice].
      rewrite length_app in Hl. fields; try (by apply u8_get);
        match goal with |- unsigned 32 (be_val (sub_slice ?o 4 _)) =>
          apply (u_slice o 4); [done | rewrite length_app; lia] end.
    + rewrite IH2. unfold TouchContact_encode, TouchContact_at;
        cbn -[get sub_slice be_bytes be_val].
      rewrite !be_val_u_slice by (done || (rewrite length_app; lia)).
      explode h. reflexivity.
Qed.

Lemma TouchEvent_canonical p t :
  bytes_ok p -> TouchEvent_decode p = Ok t -> TouchEvent_wf t /\ TouchEvent_encode t = p.
Proof.
  intros Hp. unfold TouchEvent_decode.
  destruct (Nat.ltb (length p) 9) eqn:H9; [done |]. apply Nat.ltb_ge in H9.
  destruct (Nat.eqb (length p) _) eqn:Hlen; cbn [negb]; [| done]. apply Nat.eqb_eq in Hlen.
  intros [= <-].
  destruct (length_ge_split 9 p H9) as (hd & body & -> & Hhd).
  assert (Hcnt : get (hd ++ body) 8 = get hd 8) by (explode hd; reflexivity).
  pose proof (u8_get hd 8 (Forall_app_l _ _ _ Hp)) as Hr.
  rewrite Hcnt in *. set (k := Z.to_nat (get hd 8)) in *.
  assert (Hb : length body = (k * TouchContact_SIZE)%nat) by (rewrite length_app in Hlen; lia).
  destruct (contacts_canonical k body hd ltac:(eauto with penflow) Hb) as [Hwf Henc].
  rewrite Hhd in *. split.
  - unfold TouchEvent_wf; cbn [te_ts_ns te_contacts].
    rewrite length_map, length_seq. split; [| split; [| exact Hwf]].
    + apply (s_slice 0 8); lia.
    + subst k. unfold unsigned in Hr. pow2. lia.
  - unfold TouchEvent_encode. cbv beta iota delta [te_ts_ns te_contacts].
    rewrite take_ge by (rewrite length_map, length_seq; subst k; unfold unsigned in Hr; pow2; lia).
    match type of Henc with ?cs = _ => change (concat _) with cs end.
    rewrite Henc, length_map, length_seq.
    replace (Z.of_nat (Nat.min k 255)) with (get hd 8)
      by (subst k; unfold unsigned in Hr; pow2; lia).
    rewrite be_val_s_slice by (done || lia). explode hd. reflexivity.
Qed.

(** ** The codecs, as instances of the interface *)

#[export] Instance HelloPc_codec : WireCodec HelloPc_wf HelloPc_encode HelloPc_decode.
Proof.
  split; [exact HelloPc_roundtrip | exact HelloPc_canonical |].
  intros m (? & ? & ? & ? & ? & ?). unfold HelloPc_encode. repeat apply Forall_app_2; auto with penflow.
Qed.

#[export] Instance HelloAndroid_codec :
  WireCodec HelloAndroid_wf HelloAndroid_encode HelloAndroid_decode.
Proof.
  split; [exact HelloAndroid_roundtrip | exact HelloAndroid_canonical |].
  intros m (? & ? & ? & ? & ? & ? & ? & ?). unfold HelloAndroid_encode.
  repeat apply Forall_app_2; auto with penflow.
Qed.

#[export] Instance PenEvent_codec : WireCodec PenEvent_wf PenEvent_encode PenEvent_decode.
Proof.
  split; [exact PenEvent_roundtrip | exact PenEvent_canonical |].
  intros m (? & ? & ? & ? & ? & ? & ? & ? & ?). unfold PenEvent_encode.
  repeat apply Forall_app_2; auto with penflow.
Qed.

#[export] Instance VideoFrame_codec : WireCodec VideoFrame_wf VideoFrame_encode VideoFrame_decode.
Proof.
  split; [exact VideoFrame_roundtrip | exact VideoFrame_canonical |].
  intros m (? & ? & ? & ? & ?). unfold VideoFrame_encode.
  repeat apply Forall_app_2; auto with penflow.
  case_test; auto using Forall_app_2 with penflow.
Qed.

#[export] Instance TouchEvent_codec : WireCodec TouchEvent_wf TouchEvent_encode TouchEvent_decode.
Proof.
  split; [exact TouchEvent_roundtrip | exact TouchEvent_canonical |].
  intros m (? & Hl & Hcs). unfold TouchEvent_encode. rewrite take_ge by lia.
  repeat apply Forall_app_2; auto with penflow.
  - repeat constructor; pow2; lia.
  - clear Hl. induction Hcs as [| c cs (? & ? & ? & ?) _ IH]; cbn [map concat]; [done |].
    apply Forall_app_2; [| exact IH]. unfold TouchContact_encode.
    repeat apply Forall_app_2; auto with penflow.
Qed.

(** ** Frames on a byte stream *)

Lemma MAX_PAYLOAD_LEN_u32 n : 0 <= n <= MAX_PAYLOAD_LEN -> u32 n.
Proof. unfold MAX_PAYLOAD_LEN. urange. Qed.

Lemma read_exact_app l rest e n :
  length l = n ->
  read_exact {| r_bytes := l ++ rest; r_end := e |} n
  = Ok (l, {| r_bytes := rest; r_end := e |}).
Proof.
  intros <-. unfold read_exact; cbn [r_bytes r_end].
  rewrite (proj2 (Nat.leb_le _ _)) by (rewrite length_app; lia).
  by rewrite take_app_length, drop_app_length.
Qed.

Lemma read_frame_encode_len id p rest e :
  u8 id -> u32 (Z.of_nat (length p)) ->
  read_frame {| r_bytes := encode_frame id p ++ rest; r_end := e |}
  = if MAX_PAYLOAD_LEN <? Z.of_nat (length p)
    then Err (PayloadTooLarge (Z.of_nat (length p)))
    else Ok ((id, p), {| r_bytes := rest; r_end := e |}).
Proof.
  intros Hid Hlen. unfold read_frame, encode_frame.
  rewrite (uwrap_small _ _ Hlen).
  change ((id :: ?h ++ p) ++ rest) with ([id] ++ (h ++ p) ++ rest).
  rewrite (read_exact_app [id]) by done. cbn [mbind result_bind].
  rewrite <- app_assoc, read_exact_app by apply length_be_bytes.
  cbn [mbind result_bind]. rewrite (be_val_u 4) by exact Hlen.
  case_test; [done |].
  rewrite Nat2Z.id, read_exact_app by done. cbn [mbind result_bind].
  by replace (be_val [id]) with id by (unfold be_val; cbn; lia).
Qed.

Lemma read_frame_encode f rest e :
  frame_ok f ->
  read_frame {| r_bytes := encode_frame f.1 f.2 ++ rest; r_end := e |}
  = Ok (f, {| r_bytes := rest; r_end := e |}).
Proof.
  intros [Hid Hlen]. rewrite read_frame_encode_len by (auto using MAX_PAYLOAD_LEN_u32 with lia).
  rewrite (proj2 (Z.ltb_ge _ _)) by lia. by destruct f.
Qed.

Lemma write_frames_sent w fs :
  w_err w = None ->
  write_frames w fs
  = (Ok tt, {| w_sent := w_sent w ++ concat (map (fun f => encode_frame f.1 f.2) fs); w_err := None |}).
Proof.
  revert w. induction fs as [|[id p] fs IH]; intros w Hw; cbn [write_frames map concat].
  - rewrite app_nil_r. destruct w; cbn in *; by subst.
  - unfold write_frame, write_all. rewrite Hw, IH by done. cbn [w_sent fst snd].
    by rewrite <- app_assoc.
Qed.

Lemma length_encode_frame id p : length (encode_frame id p) = (5 + length p)%nat.
Proof. unfold encode_frame. cbn [length]. rewrite length_app, length_be_bytes. lia. Qed.

(** What becomes of a connection on which one tries to write [buf], however
    the writes end: once it is broken nothing gets through any more. *)
Definition wrote (buf : list Z) (w : Writer) : Writer :=
  match w_err w with
  | Some (n, k) => {| w_sent := w_sent w ++ take n buf; w_err := Some ((n - length buf)%nat, k) |}
  | None => {| w_sent := w_sent w ++ buf; w_err := None |}
  end.

Lemma write_all_wrote w buf : (write_all w buf).2 = wrote buf w.
Proof.
  unfold write_all, wrote. destruct (w_err w) as [[n k]|]; [| done].
  destruct (Nat.ltb_spec n (length buf)); cbn [snd].
  - by replace (n - length buf)%nat with 0%nat by lia.
  - by rewrite (take_ge buf) by lia.
Qed.

(** A write ends with the error of the break, or not at all if it does not
    reach it. *)
Lemma write_all_result w buf : (write_all w buf).1
  = match w_err w with
    | Some (n, k) => if Nat.ltb n (length buf) then Err (Io k) else Ok tt
    | None => Ok tt
    end.
Proof. unfold write_all. destruct (w_err w) as [[n k]|]; [| done]. by destruct (Nat.ltb _ _). Qed.

Lemma wrote_nil w : wrote [] w = w.
Proof.
  destruct w as [s [[n k]|]]; unfold wrote; cbn; rewrite ?take_nil, app_nil_r; [| done].
  by rewrite Nat.sub_0_r.
Qed.

Lemma wrote_app a b w : wrote (a ++ b) w = wrote b (wrote a w).
Proof.
  destruct w as [s [[n k]|]]; unfold wrote; cbn; [| by rewrite app_assoc].
  rewrite length_app, take_app, <- app_assoc. do 2 f_equal. f_equal. lia.
Qed.

Lemma wrote_open buf w : w_err w = None -> wrote buf w = {| w_sent := w_sent w ++ buf; w_err := None |}.
Proof. unfold wrote. by intros ->. Qed.

(** Whatever is tried, what the peer gets is a prefix of it. *)
Lemma wrote_prefix buf w : exists got, w_sent (wrote buf w) = w_sent w ++ got /\ got `prefix_of` buf.
Proof.
  unfold wrote. destruct (w_err w) as [[n k]|]; cbn; [exists (take n buf); split; [done | apply prefix_take] | by exists buf].
Qed.

Lemma wrote_broken buf w n k : w_err w = Some (n, k) -> (n <= length buf)%nat ->
  w_err (wrote buf w) = Some (0%nat, k).
Proof. unfold wrote. intros -> Hn. cbn. by replace (n - length buf)%nat with 0%nat by lia. Qed.

Lemma write_frames_wrote fs : forall w,
  (write_frames w fs).2 = wrote (concat (map (fun f => encode_frame f.1 f.2) fs)) w.
Proof.
  induction fs as [|[id p] fs IH]; intros w; cbn [write_frames map concat]; [by rewrite wrote_nil |].
  rewrite wrote_app. unfold write_frame. pose proof (write_all_wrote w (encode_frame id p)) as Hw.
  pose proof (write_all_result w (encode_frame id p)) as Hr.
  destruct (write_all w (encode_frame id p)) as [[[]|e] w']; cbn [fst snd] in *; subst w'; [apply IH |].
  destruct (w_err w) as [[n k]|] eqn:Ew; [| done]. destruct (Nat.ltb_spec n (length (encode_frame id p))); [| done].
  cbn [fst snd]. assert (w_err (wrote (encode_frame id p) w) = Some (0%nat, k)) as E by (eapply wrote_broken; [done | lia]).
  unfold wrote at 2. rewrite E. cbn. rewrite app_nil_r. destruct (wrote _ w) as [s' e']. cbn in E. by subst.
Qed.

(** Frames all get through, or the connection breaks within them. *)
Lemma write_frames_result fs : forall w,
  match (write_frames w fs).1 with
  | Ok _ => forall n k, w_err w = Some (n, k) -> (length (concat (map (fun f => encode_frame f.1 f.2) fs)) <= n)%nat
  | Err e => exists n k, w_err w = Some (n, k) /\ e = Io k
             /\ (n < length (concat (map (fun f => encode_frame f.1 f.2) fs)))%nat
  end.
Proof.
  induction fs as [|[id p] fs IH]; intros w; cbn [write_frames map concat]; [intros n k _; cbn; lia |].
  unfold write_frame. pose proof (write_all_wrote w (encode_frame id p)) as Hw.
  pose proof (write_all_result w (encode_frame id p)) as Hr.
  rewrite length_app. destruct (write_all w (encode_frame id p)) as [[[]|e] w']; cbn [fst snd] in *.
  - specialize (IH w'). assert (w_err w' = w_err (wrote (encode_frame id p) w)) as Ew' by by rewrite Hw.
    unfold wrote in Ew'. destruct (w_err w) as [[n k]|]; cbn [w_err] in Ew'; rewrite Ew' in IH.
    + destruct (Nat.ltb_spec n (length (encode_frame id p))); [done |].
      destruct (write_frames w' fs) as [[[]|e] w'']; cbn [fst] in *.
      * intros n1 k1 [= <- <-]. specialize (IH _ _ eq_refl). lia.
      * destruct IH as (n1 & k1 & [= <- <-] & -> & Hn). exists n, k. split_and!; [done | done |]. rewrite length_encode_frame. lia.
    + destruct (write_frames w' fs) as [[[]|e] w'']; cbn [fst] in *; [done |]. by destruct IH as (? & ? & ? & _).
  - destruct (w_err w) as [[n k]|]; [| done]. destruct (Nat.ltb_spec n (length (encode_frame id p))); [| done].
    injection Hr as ->. exists n, k. split_and!; [done | done | lia].
Qed.

Lemma read_frames_sent fs rest e :
  Forall frame_ok fs ->
  read_frames (length fs)
    {| r_bytes := concat (map (fun f => encode_frame f.1 f.2) fs) ++ rest; r_end := e |}
  = Ok (fs, {| r_bytes := rest; r_end := e |}).
Proof.
  induction 1 as [|f fs Hf _ IH]; cbn [length read_frames map concat]; [done |].
  rewrite <- app_assoc, read_frame_encode by done. cbn [mbind result_bind].
  by rewrite IH.
Qed.

Lemma read_exact_short l e n :
  (length l < n)%nat -> read_exact {| r_bytes := l; r_end := e |} n = Err (Io e).
Proof.
  intros H. unfold read_exact; cbn [r_bytes r_end].
  by rewrite (proj2 (Nat.leb_gt _ _)) by lia.
Qed.

Lemma read_exact_inv r n l r' :
  read_exact r n = Ok (l, r') ->
  r_bytes r = l ++ r_bytes r' /\ length l = n /\ r_end r' = r_end r.
Proof.
  unfold read_exact. case_test; [| done]. intros [= <- <-]. cbn.
  apply Nat.leb_le in Heqb. rewrite take_drop, length_take. auto with lia.
Qed.

Lemma read_frame_inv r id p r' :
  bytes_ok (r_bytes r) -> read_frame r = Ok ((id, p), r') ->
  r_bytes r = encode_frame id p ++ r_bytes r' /\ r_end r' = r_end r /\ frame_ok (id, p).
Proof.
  unfold read_frame. intros Hok H. inv_binds.
  destruct v as [l1 r1]. inv_binds. destruct v as [l4 r4]. cbv zeta in H.
  destruct (MAX_PAYLOAD_LEN <? be_val l4) eqn:Hmax; [done |]. apply Z.ltb_ge in Hmax.
  inv_binds. destruct v as [pl r5]. injection H as <- <- <-.
  apply read_exact_inv in Hm as (E1 & L1 & R1). apply read_exact_inv in Hm0 as (E4 & L4 & R4).
  apply read_exact_inv in Hm1 as (E5 & L5 & R5).
  rewrite E1, E4, E5 in *. destruct l1 as [|b [|]]; try discriminate L1.
  rewrite !Forall_app in Hok. destruct Hok as (Hb & Hl4 & Hpl & _).
  pose proof (be_val_range l4 Hl4) as Hr. rewrite L4 in Hr.
  replace (be_val [b]) with b by (unfold be_val; cbn; lia).
  assert (Hlen : Z.of_nat (length pl) = be_val l4) by (unfold unsigned in Hr; lia).
  split; [| split; [congruence |]].
  - unfold encode_frame. rewrite Hlen, uwrap_small by exact Hr.
    rewrite <- L4, be_bytes_val by done. cbn. by rewrite <- app_assoc.
  - split; cbn; [by inversion Hb | lia].
Qed.

(** * Theorems *)

(** C10. Framing is lossless: whatever sequence of frames one side writes on
    an open connection, the other side reads back exactly that sequence, in
    order, and stops at the first byte after it. *)
Theorem frames_stream_roundtrip fs rest e :
  Forall frame_ok fs ->
  let w := {| w_sent := []; w_err := None |} in
  exists w', write_frames w fs = (Ok tt, w') /\
    read_frames (length fs) {| r_bytes := w_sent w' ++ rest; r_end := e |}
    = Ok (fs, {| r_bytes := rest; r_end := e |}).
Proof.
  intros Hfs. eexists. split; [by apply write_frames_sent |].
  cbn [w_sent app]. by apply read_frames_sent.
Qed.

Definition demo_frames : list (Z * list Z) :=
  [(MSG_PEN_EVENT, repeat 7 31); (MSG_REQUEST_IDR, []); (MSG_ANDROID_GOODBYE, [1; 2])].

Lemma frames_stream_roundtrip_witness :
  exists w', write_frames {| w_sent := []; w_err := None |} demo_frames = (Ok tt, w') /\
    read_frames 3 {| r_bytes := w_sent w' ++ [9]; r_end := UnexpectedEof |}
    = Ok (demo_frames, {| r_bytes := [9]; r_end := UnexpectedEof |}).
Proof.
  apply (frames_stream_roundtrip demo_frames [9] UnexpectedEof).
  repeat constructor; vm_compute; congruence.
Defined.

(** A frame the reader accepts is one a writer could have sent: the bytes
    consumed are exactly its encoding, its payload is within the limit, and
    nothing after it is touched.  So a desynchronised or oversized length
    never yields a frame. *)
Theorem read_frame_sound r id p r' :
  bytes_ok (r_bytes r) -> read_frame r = Ok ((id, p), r') ->
  r_bytes r = encode_frame id p ++ r_bytes r' /\ r_end r' = r_end r /\ frame_ok (id, p).
Proof. apply read_frame_inv. Qed.

Lemma read_frame_sound_witness :
  let r := {| r_bytes := encode_frame 0x85 [1; 2; 3] ++ [4]; r_end := UnexpectedEof |} in
  r_bytes r = encode_frame 0x85 [1; 2; 3] ++ [4] /\ r_end r = UnexpectedEof
  /\ frame_ok (0x85, [1; 2; 3]).
Proof.
  apply (read_frame_sound {| r_bytes := encode_frame 0x85 [1; 2; 3] ++ [4]; r_end := UnexpectedEof |}
    0x85 [1; 2; 3] {| r_bytes := [4]; r_end := UnexpectedEof |}).
  - repeat constructor; vm_compute; congruence.
  - reflexivity.
Defined.

(** A connection that ends inside a frame is always reported as the I/O
    error that ended it: no proper prefix of an encoded frame is read as a
    frame. *)
Theorem read_frame_truncated f k e :
  frame_ok f -> (k < length (encode_frame f.1 f.2))%nat ->
  read_frame {| r_bytes := take k (encode_frame f.1 f.2); r_end := e |} = Err (Io e).
Proof.
  destruct f as [id p]. intros [Hid Hlen] Hk. cbn [fst snd] in *.
  rewrite length_encode_frame in Hk. unfold read_frame, encode_frame.
  rewrite uwrap_small by auto using MAX_PAYLOAD_LEN_u32 with lia.
  destruct k as [|k]; [done |]. cbn [take].
  change (id :: ?t) with ([id] ++ t). rewrite (read_exact_app [id]) by done.
  cbn [mbind result_bind].
  destruct (Nat.lt_ge_cases k 4) as [Hs | Hge].
  - rewrite read_exact_short; [done |]. rewrite length_take. lia.
  - rewrite take_app_ge by (rewrite length_be_bytes; lia).
    rewrite read_exact_app by apply length_be_bytes. cbn [mbind result_bind].
    rewrite (be_val_u 4) by (apply MAX_PAYLOAD_LEN_u32; lia).
    rewrite (proj2 (Z.ltb_ge _ _)) by lia.
    rewrite read_exact_short; [done |]. rewrite length_take, length_be_bytes. lia.
Qed.

Lemma read_frame_truncated_witness :
  read_frame {| r_bytes := take 6 (encode_frame MSG_PEN_EVENT [1; 2]); r_end := ConnectionReset |}
  = Err (Io ConnectionReset).
Proof.
  apply (read_frame_truncated (MSG_PEN_EVENT, [1; 2]) 6 ConnectionReset).
  - split; vm_compute; [split |]; congruence.
  - vm_compute. lia.
Defined.

(** C32. The five payload codecs both sides use are bijections between the
    well-formed values and the payloads that decode: decoding inverts
    encoding, and re-encoding a decoded payload gives the payload back byte
    for byte. *)
Theorem payload_codecs_exact :
  WireCodec HelloPc_wf HelloPc_encode HelloPc_decode
  /\ WireCodec HelloAndroid_wf HelloAndroid_encode HelloAndroid_decode
  /\ WireCodec PenEvent_wf PenEvent_encode PenEvent_decode
  /\ WireCodec TouchEvent_wf TouchEvent_encode TouchEvent_decode
  /\ WireCodec VideoFrame_wf VideoFrame_encode VideoFrame_decode.
Proof. refine (conj _ (conj _ (conj _ (conj _ _)))); exact _. Qed.

(** For values outside the well-formed ones the loss is exactly this: a
    video frame's missing timings arrive as 0 when the extended flag is set
    and are dropped when it is not, and a touch snapshot keeps its first 255
    contacts. *)
Theorem lossy_encodings v t :
  i64 (vf_pts_ns v) -> u32 (default 0 (vf_capture_us v)) -> u32 (default 0 (vf_encode_us v)) ->
  i64 (te_ts_ns t) -> Forall TouchContact_wf (te_contacts t) ->
  VideoFrame_decode (VideoFrame_encode v) = Ok (VideoFrame_sent v)
  /\ TouchEvent_decode (TouchEvent_encode t) = Ok (TouchEvent_sent t).
Proof. auto using VideoFrame_decode_sent, TouchEvent_decode_sent. Qed.

Definition demo_contact : TouchContact :=
  {| tc_pointer_id := 3; tc_x_norm := 0x3f000000; tc_y_norm := 0; tc_pressure := 1 |}.

Lemma lossy_encodings_witness :
  let v := {| vf_pts_ns := -5; vf_flags := 0x81; vf_capture_us := None;
              vf_encode_us := Some 2800; vf_coded := [0; 0; 1] |} in
  let t := {| te_ts_ns := 9; te_contacts := replicate 300 demo_contact |} in
  VideoFrame_decode (VideoFrame_encode v) = Ok (VideoFrame_sent v)
  /\ TouchEvent_decode (TouchEvent_encode t) = Ok (TouchEvent_sent t).
Proof.
  apply (lossy_encodings
    {| vf_pts_ns := -5; vf_flags := 0x81; vf_capture_us := None;
       vf_encode_us := Some 2800; vf_coded := [0; 0; 1] |}
    {| te_ts_ns := 9; te_contacts := replicate 300 demo_contact |});
    try (split; vm_compute; congruence).
  apply Forall_replicate. repeat split; vm_compute; congruence.
Defined.
