(* ===== verification/Engine.v ===== *)
(** Types the engine's parts share: its errors
    ([crates/penflow-core/src/error.rs]), the codec, the encoded packet and the
    configuration of an encoder ([encoder/mod.rs]), and the monitor description ([monitors.rs]). *)
From stdpp Require Import strings.
From S2P Require Import Prelude.

(** A Win32 error carries its HRESULT; durations are in milliseconds. *)
Inductive EngineError :=
| Win32 (hresult : Z)
| NoAdapter
| AdapterHasNoOutputs (name : string) (luid : Z)
| AdapterMismatch (output_luid device_luid : Z)
| AccessLostUnrecoverable
| NoCompatibleEncoder
| CaptureTimeout (ms : Z)
| NotInitialized.

#[export] Instance EngineError_eq_dec : EqDecision EngineError.
Proof. solve_decision. Defined.

Abbreviation EngineResult := (result EngineError).

(** [windows::core::Error] converts into an engine error. *)
Definition win {A} (r : result Z A) : EngineResult A :=
  match r with Ok a => Ok a | Err hr => Err (Win32 hr) end.

Inductive Codec := H264 | Hevc.

#[export] Instance Codec_eq_dec : EqDecision Codec.
Proof. solve_decision. Defined.

Record EncodedPacket := {
  pkt_bytes : list Z;
  pkt_pts_ns : Z;
  pkt_is_keyframe : bool;
  pkt_encode_us : option Z }.

Inductive PixelFormat := Nv12.

(** What an encoder session is asked for. *)
Record SessionConfig := {
  enc_width : Z; enc_height : Z; enc_fps : Z; enc_bitrate_bps : Z;
  enc_codec : Codec; enc_input_format : PixelFormat }.

Record MonitorInfo := {
  adapter_index : Z; adapter_luid : Z; adapter_name : string;
  adapter_vendor_id : Z; adapter_device_id : Z; adapter_is_software : bool;
  output_index_within_adapter : Z; device_name : string;
  mon_width : Z; mon_height : Z;
  desktop_coords : Z * Z * Z * Z;
  rotation : Z; attached_to_desktop : bool; looks_virtual : bool }.
