(* ===== verification/Calls.v ===== *)
(** Code that drives a system interface by calls that may fail: a log of the
    calls with their outcomes, a state-and-error monad over it, and the lemma
    library for such code.  Which failures do not matter is a parameter of the
    lemmas ([tolerated]). *)
From stdpp Require Import list.
From S2P Require Import Prelude Engine.

Section Calls.
Context {C : Type}.

Definition CallLog : Type := list (C * EngineResult unit).

Definition Calls (A : Type) : Type := CallLog -> EngineResult A * CallLog.

(** The system: how a call ends may depend on all earlier calls. *)
Context (answer : CallLog -> C -> EngineResult unit).

(** A call whose outcome is looked at by the caller, or ignored. *)
Definition attempt (c : C) : Calls (EngineResult unit) :=
  fun log => (Ok (answer log c), log ++ [(c, answer log c)]).

(** A call that cannot fail. *)
Definition act (c : C) : Calls unit := fun log => (Ok tt, log ++ [(c, Ok tt)]).

(** A call followed by the question mark. *)
Definition call (c : C) : Calls unit :=
  fun log => (answer log c, log ++ [(c, answer log c)]).
End Calls.

Arguments CallLog : clear implicits.
Arguments Calls : clear implicits.

#[export] Instance Calls_ret (C : Type) : MRet (Calls C) := fun A a log => (Ok a, log).

#[export] Instance Calls_bind (C : Type) : MBind (Calls C) :=
  fun A B f m log => match m log with (Ok a, log') => f a log' | (Err e, log') => (Err e, log') end.

Definition calls_lift {C A} (r : EngineResult A) : Calls C A := fun log => (r, log).

(** A part whose failure the caller looks at. *)
Definition calls_try {C A} (m : Calls C A) : Calls C (EngineResult A) :=
  fun log => let '(r, log') := m log in (Ok r, log').

Lemma calls_bind_ok {C A B} (m : Calls C A) (f : A -> Calls C B) log a log' :
  m log = (Ok a, log') -> (m ≫= f) log = f a log'.
Proof. intros E. unfold mbind, Calls_bind. by rewrite E. Qed.

Lemma calls_bind_err {C A B} (m : Calls C A) (f : A -> Calls C B) log e log' :
  m log = (Err e, log') -> (m ≫= f) log = (Err e, log').
Proof. intros E. unfold mbind, Calls_bind. by rewrite E. Qed.

Lemma calls_bind_inv {C A B} (m : Calls C A) (f : A -> Calls C B) log b log' :
  (m ≫= f) log = (Ok b, log') -> exists a log1, m log = (Ok a, log1) /\ f a log1 = (Ok b, log').
Proof. unfold mbind, Calls_bind. destruct (m log) as [[a|e] log1]; [eauto | done]. Qed.

Section Laws.
Context {C : Type} (answer : CallLog C -> C -> EngineResult unit).
(** The failures that do not stop the program. *)
Context (tolerated : C -> EngineError -> bool).

Definition fine (x : C * EngineResult unit) : Prop :=
  match x.2 with Ok _ => True | Err e => tolerated x.1 e = true end.

(** A failure of the program is the failure of its last call. *)
Definition stops_at (e : EngineError) (ext : CallLog C) : Prop :=
  exists pre c, ext = pre ++ [(c, Err e)] /\ tolerated c e = false /\ Forall fine pre.

(** A program that means to make the calls [cs] made the calls [ext]: all of
    them, or as far as the first that fails although it must not. *)
Definition outcome {A} (cs : list C) (r : EngineResult A) (ext : CallLog C) : Prop :=
  match r with
  | Ok _ => ext.*1 = cs /\ Forall fine ext
  | Err e => stops_at e ext /\ ext.*1 `prefix_of` cs
  end.

Definition runs {A} (m : Calls C A) (cs : list C) : Prop :=
  forall log, exists ext, (m log).2 = log ++ ext /\ outcome cs (m log).1 ext.

(** A straight program that returned made all its calls. *)
Lemma runs_ok {A} (m : Calls C A) cs log a log' : runs m cs -> m log = (Ok a, log') ->
  exists ext, log' = log ++ ext /\ ext.*1 = cs.
Proof. intros H E. destruct (H log) as (ext & El & Ho). rewrite E in El, Ho. exists ext. by destruct Ho. Qed.

Lemma runs_ret {A} (a : A) : runs (mret a) [].
Proof. intros log. exists []. by rewrite app_nil_r. Qed.

(** A call that must succeed. *)
Lemma runs_call c : (forall e, tolerated c e = false) -> runs (call answer c) [c].
Proof.
  intros Ho log. unfold call. exists [(c, answer log c)]. split; [done |]. cbn [fst].
  destruct (answer log c) as [[]|e] eqn:E; split; try done.
  - by repeat constructor.
  - by exists [], c.
Qed.

(** A call whose failure is ignored. *)
Lemma runs_attempt c : (forall e, tolerated c e = true) -> runs (_ ← attempt answer c; mret tt) [c].
Proof.
  intros Ho log. exists [(c, answer log c)]. split; [done |]. split; [done |].
  constructor; [| done]. unfold fine. cbn. by destruct (answer log c).
Qed.

Lemma runs_act c : runs (act c) [c].
Proof. intros log. exists [(c, Ok tt)]. split; [done |]. split; [done |]. by repeat constructor. Qed.

Lemma stops_at_app e pre ext : Forall fine pre -> stops_at e ext -> stops_at e (pre ++ ext).
Proof.
  intros Hp (pre' & c & -> & Hc & Hf). exists (pre ++ pre'), c.
  rewrite app_assoc. split_and!; [done.. | by apply Forall_app_2].
Qed.

Lemma outcome_app {A} cs ds (r : EngineResult A) ext ext' : ext.*1 = cs -> Forall fine ext ->
  outcome ds r ext' -> outcome (cs ++ ds) r (ext ++ ext').
Proof.
  intros <- Hf H. destruct r as [a|e]; destruct H as (H1 & H2); split.
  - by rewrite fmap_app, H1.
  - by apply Forall_app_2.
  - by apply stops_at_app.
  - rewrite fmap_app. by apply prefix_app.
Qed.

(** A program that stopped does not care what it would have done. *)
Lemma outcome_stop {A} cs ds e ext :
  stops_at e ext /\ ext.*1 `prefix_of` cs -> outcome (cs ++ ds) (Err e : EngineResult A) ext.
Proof. intros (H1 & H2). split; [done | by apply prefix_app_r]. Qed.

Lemma runs_seq {A B} (m : Calls C A) (k : Calls C B) cs ds :
  runs m cs -> runs k ds -> runs (m;; k) (cs ++ ds).
Proof.
  intros Hm Hk log. destruct (Hm log) as (ext & El & Hr).
  destruct (m log) as ([a|e] & log') eqn:E; cbn in El, Hr; subst log'.
  - rewrite (calls_bind_ok _ _ _ _ _ E). destruct Hr as (<- & Hfine). destruct (Hk (log ++ ext)) as (ext' & El' & Hr').
    exists (ext ++ ext'). rewrite app_assoc. split; [done | by apply outcome_app].
  - rewrite (calls_bind_err _ _ _ _ _ E).
    exists ext. split; [done | by eapply outcome_stop].
Qed.

Lemma runs_conv {A} (m : Calls C A) cs ds : runs m cs -> cs = ds -> runs m ds.
Proof. by intros H <-. Qed.

(** The calls of a run, when a fact about it only depends on which it makes. *)
Lemma outcome_calls {A} cs (r : EngineResult A) ext x : outcome cs r ext -> x ∈ ext -> x.1 ∈ cs.
Proof.
  intros H Hx. apply (list_elem_of_fmap_2 fst) in Hx.
  destruct r as [a|e]; destruct H as (H1 & H2); [by rewrite H1 in Hx |].
  destruct H2 as (k & ->). apply elem_of_app. by left.
Qed.
End Laws.

(** Goals [runs m cs] for straight-line code, up to the shape of [cs]. *)
Ltac runs :=
  lazymatch goal with
  | |- runs _ (_ ← attempt _ _; mret tt) _ => apply runs_attempt; intros ?; reflexivity
  | |- runs _ (mbind (fun _ => _) _) _ => eapply runs_seq; [runs | runs]
  | |- runs _ (call _ _) _ => apply runs_call; intros ?; reflexivity
  | |- runs _ (act _) _ => apply runs_act
  | |- runs _ (mret _) _ => apply runs_ret
  end.
