(* ===== verification/AnnexB.v ===== *)
(** Annex-B byte streams: the start-code walkers of
    [crates/penflow-protocol/src/lib.rs] (parameter-set extraction) and of
    [crates/penflow-core/src/encoder/mf.rs] (key-frame test, SPS search).

    A loop over [bytes] with an index [i] is a recursion on the suffix
    [bytes[i..]]; [fuel] bounds the number of rounds, and the length of the
    suffix is always enough because every round drops at least one byte
    (the [_fuel] lemmas). *)
From S2P Require Import Prelude Bytes Engine.

Definition SC4 : list Z := [0; 0; 0; 1].
Definition SC3 : list Z := [0; 0; 1].

(** The length of the start code the suffix begins with, if any. *)
Definition start_code_len (l : list Z) : option nat :=
  if starts_with SC4 l then Some 4%nat
  else if starts_with SC3 l then Some 3%nat
  else None.

(** * [split_nals] *)

(** The first loop: [(start_off, payload_off)] of every start code at or
    after offset [i], where [l] is [bytes[i..]]. *)
Fixpoint find_starts (fuel : nat) (i : nat) (l : list Z) : list (nat * nat) :=
  match fuel with
  | O => []
  | S fuel' =>
      if Nat.leb 3 (length l) then
        match start_code_len l with
        | Some n => (i, i + n)%nat :: find_starts fuel' (i + n) (drop n l)
        | None => find_starts fuel' (S i) (drop 1 l)
        end
      else []
  end.

(** The second loop: each unit ends where the next one starts. *)
Fixpoint close_units (nal_type : Z -> Z) (bytes : list Z) (starts : list (nat * nat))
  : list (nat * nat * Z) :=
  match starts with
  | [] => []
  | (start_off, payload_off) :: rest =>
      let end_off := match rest with
                     | (next, _) :: _ => next
                     | [] => length bytes
                     end in
      if Nat.leb (length bytes) payload_off then close_units nal_type bytes rest
      else (start_off, end_off, nal_type (get bytes payload_off))
             :: close_units nal_type bytes rest
  end.

Definition split_nals (bytes : list Z) (nal_type_from_header_byte : Z -> Z)
  : list (nat * nat * Z) :=
  close_units nal_type_from_header_byte bytes (find_starts (length bytes) 0 bytes).

Definition hevc_nal_type (b : Z) : Z := Z.land (Z.shiftr b 1) 0x3F.

Definition h264_nal_type (b : Z) : Z := Z.land b 0x1F.

Definition split_hevc_nals (bytes : list Z) : list (nat * nat * Z) :=
  split_nals bytes hevc_nal_type.

Definition split_h264_nals (bytes : list Z) : list (nat * nat * Z) :=
  split_nals bytes h264_nal_type.

Definition keep_units (annex_b : list Z) (keep_types : list Z) (units : list (nat * nat * Z))
  : list Z :=
  foldl (fun out u =>
           let '(start_off, end_off, nal_type) := u in
           if existsb (Z.eqb nal_type) keep_types
           then out ++ sub_slice start_off (end_off - start_off) annex_b
           else out) [] units.

Definition extract_hevc_nals (annex_b keep_types : list Z) : list Z :=
  keep_units annex_b keep_types (split_hevc_nals annex_b).

Definition extract_h264_nals (annex_b keep_types : list Z) : list Z :=
  keep_units annex_b keep_types (split_h264_nals annex_b).

(** * The encoder's views of a packet *)

Definition nal_type_of (codec : Codec) (b : Z) : Z :=
  match codec with H264 => h264_nal_type b | Hevc => hevc_nal_type b end.

Definition nal_header_len (codec : Codec) : nat :=
  match codec with H264 => 1 | Hevc => 2 end.

(** The type of the unit decides ([Some]) or the walk goes on ([None]). *)
Definition vcl_verdict (codec : Codec) (nal_type : Z) : option bool :=
  match codec with
  | H264 => if (1 <=? nal_type) && (nal_type <=? 5) then Some (nal_type =? 5) else None
  | Hevc => if nal_type <? 32 then Some ((19 <=? nal_type) && (nal_type <=? 21)) else None
  end.

Fixpoint first_nal_is_idr_loop (fuel : nat) (codec : Codec) (l : list Z) : bool :=
  match fuel with
  | O => false
  | S fuel' =>
      if Nat.ltb 3 (length l) then
        match start_code_len l with
        | None => first_nal_is_idr_loop fuel' codec (drop 1 l)
        | Some n =>
            match drop n l with
            | [] => false
            | b :: _ =>
                match vcl_verdict codec (nal_type_of codec b) with
                | Some v => v
                | None => first_nal_is_idr_loop fuel' codec (drop (n + nal_header_len codec) l)
                end
            end
        end
      else false
  end.

Definition first_nal_is_idr (bytes : list Z) (codec : Codec) : bool :=
  first_nal_is_idr_loop (length bytes) codec bytes.

(** The end of a unit: the next start code at or after the suffix [l], or
    the end of the buffer; the result counts from the head of [l]. *)
Fixpoint nal_end (l : list Z) : nat :=
  match l with
  | [] => O
  | _ :: l' =>
      if Nat.ltb (length l) 3 then length l
      else match start_code_len l with
           | Some _ => O
           | None => S (nal_end l')
           end
  end.

Definition sps_type (codec : Codec) : Z := match codec with H264 => 7 | Hevc => 33 end.

Fixpoint find_sps_nal_loop (fuel : nat) (codec : Codec) (l : list Z) : option (list Z) :=
  match fuel with
  | O => None
  | S fuel' =>
      if Nat.ltb 3 (length l) then
        match start_code_len l with
        | None => find_sps_nal_loop fuel' codec (drop 1 l)
        | Some n =>
            if Nat.ltb (length l) (n + nal_header_len codec) then None
            else if nal_type_of codec (get l n) =? sps_type codec
                 then Some (take (n + nal_end (drop n l)) l)
                 else find_sps_nal_loop fuel' codec (drop n l)
        end
      else None
  end.

Definition find_sps_nal (codec : Codec) (bytes : list Z) : option (list Z) :=
  find_sps_nal_loop (length bytes) codec bytes.

(** * The specification: a stream is a list of units *)

(** A unit with its start code and its bytes from the NAL header on. *)
Record Nal := { sc_long : bool; nal_body : list Z }.

Definition start_code (n : Nal) : list Z := if sc_long n then SC4 else SC3.

Definition nal_bytes (n : Nal) : list Z := start_code n ++ nal_body n.

Definition annex_b_of (ns : list Nal) : list Z := concat (map nal_bytes ns).

(** No start code inside: what emulation prevention guarantees. *)
Definition sc_free (l : list Z) : Prop := forall j, starts_with SC3 (drop j l) = false.

(** A unit as H.264 Annex B and H.265 Annex B require it: it is not empty,
    holds no start code and does not end in a zero byte. *)
Definition nal_ok (n : Nal) : Prop :=
  sc_free (nal_body n) /\ exists h x, nal_body n = h ++ [x] /\ x <> 0.

Definition nal_type (codec : Codec) (n : Nal) : Z := nal_type_of codec (get (nal_body n) 0).

(** The boundaries and types of the units, laid out from offset [i]. *)
Fixpoint units_from (ty : Z -> Z) (i : nat) (ns : list Nal) : list (nat * nat * Z) :=
  match ns with
  | [] => []
  | n :: ns' =>
      (i, i + length (nal_bytes n), ty (get (nal_body n) 0))%nat
        :: units_from ty (i + length (nal_bytes n)) ns'
  end.

(** * Lemmas *)

Lemma start_code_len_spec l n :
  start_code_len l = Some n ->
  (n = 4%nat /\ exists k, l = SC4 ++ k) \/ (n = 3%nat /\ exists k, l = SC3 ++ k).
Proof.
  unfold start_code_len. destruct (starts_with SC4 l) eqn:E4.
  - intros [= <-]. left. apply starts_with_spec in E4. auto.
  - destruct (starts_with SC3 l) eqn:E3; [| done]. intros [= <-]. right.
    apply starts_with_spec in E3. auto.
Qed.

Lemma start_code_len_bounds l n :
  start_code_len l = Some n -> (3 <= n <= 4 /\ n <= length l)%nat.
Proof.
  intros [[-> [k ->]] | [-> [k ->]]]%start_code_len_spec; rewrite length_app; cbn; lia.
Qed.

Lemma start_code_len_code n rest :
  start_code_len (start_code n ++ rest) = Some (length (start_code n)).
Proof.
  unfold start_code_len, start_code. destruct (sc_long n).
  - by rewrite starts_with_app.
  - by rewrite (starts_with_app SC3).
Qed.

Definition last_nz (l : list Z) : Prop := exists h x, l = h ++ [x] /\ x <> 0.

Lemma last_nz_cons b l : last_nz (b :: l) -> l = [] /\ b <> 0 \/ last_nz l.
Proof.
  intros (h & x & E & Hx). destruct h as [|c h]; cbn in E; injection E as -> ->; [by left |].
  right. by exists h, x.
Qed.

Lemma sc_free_cons b l : sc_free (b :: l) -> sc_free l.
Proof. intros H j. exact (H (S j)). Qed.

Lemma clean_no_start b l rest :
  sc_free (b :: l) -> last_nz (b :: l) -> start_code_len ((b :: l) ++ rest) = None.
Proof.
  intros Hf Hl. pose proof (Hf 0%nat) as H0. rewrite drop_0 in H0.
  pose proof (Hf 1%nat) as H1. change (drop 1 (b :: l)) with (drop 0 l) in H1. rewrite drop_0 in H1.
  unfold start_code_len, SC4, SC3 in *. cbn [app starts_with] in *.
  destruct (Z.eqb_spec 0 b) as [<-|]; [| done]. cbn [andb] in *.
  apply last_nz_cons in Hl as [[_ Hb] | Hl]; [done |].
  destruct l as [|c l]; [by destruct Hl as ([] & ? & ? & ?) |]. cbn [app starts_with] in *.
  destruct (Z.eqb_spec 0 c) as [<-|]; [| done]. cbn [andb] in *.
  apply last_nz_cons in Hl as [[_ Hc] | Hl]; [done |].
  destruct l as [|d l]; [by destruct Hl as ([] & ? & ? & ?) |]. cbn [app starts_with] in *.
  rewrite H0. destruct (Z.eqb_spec 0 d) as [<-|]; [| done]. cbn [andb] in *.
  apply last_nz_cons in Hl as [[_ Hd] | Hl]; [done |].
  destruct l as [|e l]; [by destruct Hl as ([] & ? & ? & ?) |]. cbn [app starts_with] in *.
  by rewrite H1.
Qed.

(** ** Enough fuel *)

Lemma find_starts_fuel f1 f2 i l :
  (length l <= f1)%nat -> (length l <= f2)%nat -> find_starts f1 i l = find_starts f2 i l.
Proof.
  revert f2 i l. induction f1 as [|f1 IH]; intros f2 i l H1 H2.
  - destruct l; [| cbn in H1; lia]. by destruct f2.
  - destruct f2 as [|f2]; [by destruct l; [| cbn in H2; lia] |]. cbn [find_starts].
    destruct (Nat.leb_spec 3 (length l)) as [H3|]; [| done].
    destruct (start_code_len l) as [n|] eqn:E.
    + apply start_code_len_bounds in E. f_equal. apply IH; rewrite length_drop; lia.
    + apply IH; rewrite length_drop; lia.
Qed.

Definition starts (i : nat) (l : list Z) : list (nat * nat) := find_starts (length l) i l.

Lemma starts_code n i rest :
  starts i (start_code n ++ rest)
  = (i, i + length (start_code n))%nat :: starts (i + length (start_code n)) rest.
Proof.
  unfold starts at 1.
  assert (3 <= length (start_code n))%nat as H3 by (unfold start_code; destruct (sc_long n); cbn; lia).
  rewrite (find_starts_fuel _ (S (length (start_code n ++ rest)))) by lia. cbn [find_starts].
  rewrite (proj2 (Nat.leb_le _ _)) by (rewrite length_app; lia).
  rewrite start_code_len_code, drop_app_length. f_equal.
  apply find_starts_fuel; rewrite ?length_app; lia.
Qed.

Lemma starts_body i body rest :
  sc_free body -> body = [] \/ last_nz body ->
  starts i (body ++ rest) = starts (i + length body) rest.
Proof.
  revert i. induction body as [|b body IH]; intros i Hf Hl.
  - cbn. by rewrite Nat.add_0_r.
  - destruct Hl as [|Hl]; [done |]. unfold starts at 1. cbn [app length find_starts].
    pose proof (clean_no_start b body rest Hf Hl) as Hn. cbn [app] in Hn. rewrite Hn.
    apply last_nz_cons in Hl as Hl'. apply sc_free_cons in Hf.
    transitivity (starts (S i) (body ++ rest)).
    + destruct (Nat.leb_spec 3 (S (length (body ++ rest)))) as [H3|H3]; [done |].
      unfold starts. destruct (body ++ rest) as [|x r]; [done |]. cbn [length] in *.
      cbn [find_starts]. by rewrite (proj2 (Nat.leb_gt _ _)) by (cbn [length]; lia).
    + rewrite IH by tauto. f_equal. lia.
Qed.

Lemma nal_ok_nonempty n : nal_ok n -> exists b l, nal_body n = b :: l.
Proof. intros (_ & h & x & -> & _). destruct h; cbn; eauto. Qed.

(** Where the units of a stream start, and where their bodies do. *)
Fixpoint starts_from (i : nat) (ns : list Nal) : list (nat * nat) :=
  match ns with
  | [] => []
  | n :: ns' => (i, i + length (start_code n))%nat :: starts_from (i + length (nal_bytes n)) ns'
  end.

Lemma starts_annex_b i ns : Forall nal_ok ns -> starts i (annex_b_of ns) = starts_from i ns.
Proof.
  intros H. revert i. induction H as [|n ns [Hf Hl] _ IH]; intros i; [done |].
  unfold annex_b_of; cbn [map concat starts_from]. unfold nal_bytes at 1.
  rewrite <- app_assoc, starts_code, starts_body by auto. f_equal.
  fold (annex_b_of ns). rewrite IH. f_equal. unfold nal_bytes. rewrite length_app. lia.
Qed.

Lemma close_units_from ty pre ns :
  Forall nal_ok ns ->
  close_units ty (pre ++ annex_b_of ns) (starts_from (length pre) ns) = units_from ty (length pre) ns.
Proof.
  intros H. revert pre. induction H as [|n ns Hn Hns IH]; intros pre; [done |].
  cbn [starts_from close_units units_from].
  assert (Hcat : pre ++ annex_b_of (n :: ns) = (pre ++ nal_bytes n) ++ annex_b_of ns)
    by (unfold annex_b_of; cbn; by rewrite app_assoc).
  assert (Hlen : (length pre + length (nal_bytes n))%nat = length (pre ++ nal_bytes n))
    by by rewrite length_app.
  destruct (nal_ok_nonempty n Hn) as (b & l & Hb).
  assert (Hget : get (pre ++ annex_b_of (n :: ns)) (length pre + length (start_code n)) = b).
  { unfold annex_b_of; cbn [map concat]. unfold nal_bytes at 1. rewrite Hb.
    unfold get. rewrite lookup_app_r by lia. rewrite <- app_assoc.
    rewrite lookup_app_r by lia. by replace (_ - _ - _)%nat with 0%nat by lia. }
  rewrite (proj2 (Nat.leb_gt _ _)).
  2:{ rewrite Hcat, !length_app. unfold nal_bytes. rewrite Hb, length_app. cbn [length]. lia. }
  rewrite Hget, Hb. change (get (b :: l) 0) with b.
  rewrite Hcat, Hlen, IH. do 2 f_equal. do 2 f_equal.
  destruct ns as [|n' ns']; cbn [starts_from]; [| done].
  unfold annex_b_of; cbn. by rewrite app_nil_r.
Qed.

Lemma split_nals_units ty ns :
  Forall nal_ok ns -> split_nals (annex_b_of ns) ty = units_from ty 0 ns.
Proof.
  intros H. unfold split_nals. change (find_starts _ 0 ?l) with (starts 0 l).
  rewrite starts_annex_b by done. exact (close_units_from ty [] ns H).
Qed.

(** ** Extraction *)

Definition unit_kept (ty : Z -> Z) (keep : list Z) (n : Nal) : bool :=
  existsb (Z.eqb (ty (get (nal_body n) 0))) keep.

Lemma keep_units_from ty keep pre ns out :
  foldl (fun out u =>
           let '(start_off, end_off, nal_type) := u in
           if existsb (Z.eqb nal_type) keep
           then out ++ sub_slice start_off (end_off - start_off) (pre ++ annex_b_of ns)
           else out) out (units_from ty (length pre) ns)
  = out ++ annex_b_of (List.filter (unit_kept ty keep) ns).
Proof.
  revert pre out. induction ns as [|n ns IH]; intros pre out.
  - cbn. by rewrite app_nil_r.
  - cbn [units_from foldl List.filter].
    assert (Hcat : pre ++ annex_b_of (n :: ns) = (pre ++ nal_bytes n) ++ annex_b_of ns)
      by (unfold annex_b_of; cbn; by rewrite app_assoc).
    rewrite Hcat, <- length_app, IH.
    fold (unit_kept ty keep n). destruct (unit_kept ty keep n); [| done].
    rewrite <- app_assoc. f_equal. unfold annex_b_of at 2. cbn [map concat].
    f_equal. unfold sub_slice. rewrite length_app, Nat.add_comm, Nat.add_sub.
    by rewrite <- app_assoc, drop_app_length, take_app_length.
Qed.

Lemma extract_units ty keep ns :
  Forall nal_ok ns ->
  keep_units (annex_b_of ns) keep (split_nals (annex_b_of ns) ty)
  = annex_b_of (List.filter (unit_kept ty keep) ns).
Proof.
  intros H. rewrite split_nals_units by done. exact (keep_units_from ty keep [] ns []).
Qed.

(** ** Offsets stay inside the buffer *)

(** Consecutive units do not overlap and lie in [lo, len]. *)
Fixpoint units_in (lo len : nat) (us : list (nat * nat * Z)) : Prop :=
  match us with
  | [] => (lo <= len)%nat
  | (s, e, _) :: us' => (lo <= s /\ s + 3 <= e /\ e <= len)%nat /\ units_in e len us'
  end.

(** Start codes found in a buffer of length [len] from offset [lo] on. *)
Fixpoint starts_in (lo len : nat) (ss : list (nat * nat)) : Prop :=
  match ss with
  | [] => (lo <= len)%nat
  | (s, p) :: ss' => (lo <= s /\ s + 3 <= p /\ p <= len)%nat /\ starts_in p len ss'
  end.

Lemma starts_in_weaken lo lo' len ss : (lo' <= lo)%nat -> starts_in lo len ss -> starts_in lo' len ss.
Proof. destruct ss as [|[s p] ss]; cbn; [lia | intros ? [? ?]; split; [lia | done]]. Qed.

Lemma find_starts_in fuel i l : starts_in i (i + length l) (find_starts fuel i l).
Proof.
  revert i l. induction fuel as [|fuel IH]; intros i l; cbn [find_starts starts_in]; [lia |].
  case_test; cbn [starts_in]; [| lia]. apply Nat.leb_le in Heqb.
  destruct (start_code_len l) as [n|] eqn:E; cbn [starts_in].
  - apply start_code_len_bounds in E. split; [lia |].
    replace (i + length l)%nat with (i + n + length (drop n l))%nat by (rewrite length_drop; lia).
    apply IH.
  - apply (starts_in_weaken (S i)); [lia |].
    replace (i + length l)%nat with (S i + length (drop 1 l))%nat by (rewrite length_drop; lia).
    apply IH.
Qed.

Lemma close_units_in ty bytes lo ss :
  starts_in lo (length bytes) ss -> units_in lo (length bytes) (close_units ty bytes ss).
Proof.
  revert lo. induction ss as [|[s p] ss IH]; intros lo; cbn [starts_in close_units]; [done |].
  intros [Hb Hss]. destruct (Nat.leb_spec (length bytes) p) as [Hp|Hp].
  - destruct ss as [|[s' p'] ss']; [cbn; lia |]. cbn [starts_in] in Hss. destruct Hss as [? _]. exfalso; lia.
  - cbn [units_in]. destruct ss as [|[s' p'] ss'].
    + cbn [close_units units_in]. lia.
    + split; [cbn [starts_in] in Hss; destruct Hss as [? _]; lia |]. apply IH. cbn [starts_in] in *.
      destruct Hss as [? Hss]. split; [lia | done].
Qed.

(** ** The end of a unit, and the encoder's walks *)

Definition stops (rest : list Z) : Prop := rest = [] \/ exists n, start_code_len rest = Some n.

Lemma stops_annex_b ns : stops (annex_b_of ns).
Proof.
  destruct ns as [|n ns]; [by left | right]. unfold annex_b_of; cbn [map concat].
  unfold nal_bytes at 1. rewrite <- app_assoc. eauto using start_code_len_code.
Qed.

Lemma nal_end_stop rest : stops rest -> nal_end rest = 0%nat.
Proof.
  intros [-> | [n Hn]]; [done |]. apply start_code_len_bounds in Hn as Hb.
  destruct rest as [|b rest]; [done |]. cbn [nal_end].
  rewrite (proj2 (Nat.ltb_ge _ _)) by lia. by rewrite Hn.
Qed.

Lemma nal_end_body body rest :
  sc_free body -> body = [] \/ last_nz body -> stops rest ->
  nal_end (body ++ rest) = length body.
Proof.
  intros Hf Hl Hs. induction body as [|b body IH]; [by apply nal_end_stop |].
  destruct Hl as [|Hl]; [done |]. pose proof (clean_no_start b body rest Hf Hl) as Hn.
  cbn [app nal_end length] in *. destruct (Nat.ltb_spec (S (length (body ++ rest))) 3) as [H3|H3].
  - destruct Hs as [-> | [n Hs]]; [by rewrite app_nil_r |].
    apply start_code_len_bounds in Hs. rewrite length_app in H3. lia.
  - rewrite Hn. f_equal. apply last_nz_cons in Hl. apply IH; [by eapply sc_free_cons | tauto].
Qed.

Lemma sc_free_drop n l : sc_free l -> sc_free (drop n l).
Proof. intros H j. rewrite drop_drop. apply H. Qed.

Lemma last_nz_drop n l : last_nz l -> drop n l = [] \/ last_nz (drop n l).
Proof.
  intros (h & x & -> & Hx). destruct (Nat.le_gt_cases n (length h)) as [Hn|Hn].
  - right. exists (drop n h), x. by rewrite drop_app_le by lia.
  - left. apply drop_ge. rewrite length_app. cbn. lia.
Qed.

(** A unit long enough to hold the codec's NAL header. *)
Definition unit_ok (codec : Codec) (n : Nal) : Prop :=
  nal_ok n /\ (nal_header_len codec <= length (nal_body n))%nat.

(** What the walk means: the first unit with a verdict decides. *)
Fixpoint first_verdict (codec : Codec) (ns : list Nal) : bool :=
  match ns with
  | [] => false
  | n :: ns' =>
      match vcl_verdict codec (nal_type codec n) with
      | Some v => v
      | None => first_verdict codec ns'
      end
  end.

Lemma first_nal_is_idr_fuel codec f1 f2 l :
  (length l <= f1)%nat -> (length l <= f2)%nat ->
  first_nal_is_idr_loop f1 codec l = first_nal_is_idr_loop f2 codec l.
Proof.
  revert f2 l. induction f1 as [|f1 IH]; intros f2 l H1 H2.
  - destruct l; [| cbn in H1; lia]. by destruct f2.
  - destruct f2 as [|f2]; [by destruct l; [| cbn in H2; lia] |]. cbn [first_nal_is_idr_loop].
    destruct (Nat.ltb_spec 3 (length l)) as [H3|]; [| done].
    destruct (start_code_len l) as [n|] eqn:E.
    + apply start_code_len_bounds in E. destruct (drop n l) as [|b t]; [done |].
      destruct (vcl_verdict _ _); [done |]. apply IH; rewrite length_drop; lia.
    + apply IH; rewrite length_drop; lia.
Qed.

Lemma first_nal_is_idr_body codec body rest :
  sc_free body -> body = [] \/ last_nz body -> stops rest ->
  first_nal_is_idr (body ++ rest) codec = first_nal_is_idr rest codec.
Proof.
  intros Hf Hl Hs. induction body as [|b body IH]; [done |].
  destruct Hl as [|Hl]; [done |]. pose proof (clean_no_start b body rest Hf Hl) as Hn.
  apply last_nz_cons in Hl. rewrite <- IH by (try (by eapply sc_free_cons); tauto).
  unfold first_nal_is_idr at 1. cbn [app length first_nal_is_idr_loop] in *. rewrite Hn.
  destruct (Nat.ltb_spec 3 (S (length (body ++ rest)))) as [H3|H3]; [done |].
  unfold first_nal_is_idr. destruct (body ++ rest) as [|x r]; [done |]. cbn [length] in *.
  cbn [first_nal_is_idr_loop]. by rewrite (proj2 (Nat.ltb_ge _ _)) by (cbn [length]; lia).
Qed.

Lemma first_nal_is_idr_units codec ns :
  Forall (unit_ok codec) ns -> first_nal_is_idr (annex_b_of ns) codec = first_verdict codec ns.
Proof.
  induction 1 as [|n ns [[Hf Hl] Hh] _ IH]; [done |].
  unfold annex_b_of; cbn [map concat first_verdict]. fold (annex_b_of ns).
  unfold nal_bytes. rewrite <- app_assoc.
  assert (3 <= length (start_code n))%nat as H3 by (unfold start_code; destruct (sc_long n); cbn; lia).
  assert (1 <= nal_header_len codec)%nat by (destruct codec; cbn; lia).
  unfold first_nal_is_idr.
  rewrite (first_nal_is_idr_fuel _ _ (S (length (start_code n ++ nal_body n ++ annex_b_of ns)))) by lia.
  cbn [first_nal_is_idr_loop]. rewrite (proj2 (Nat.ltb_lt _ _)) by (rewrite !length_app; lia).
  rewrite start_code_len_code, drop_app_length, drop_app_add.
  unfold nal_type. destruct (nal_body n) as [|b body] eqn:Eb; [cbn in Hh; lia |].
  cbn [app]. change (get (b :: body) 0) with b.
  destruct (vcl_verdict codec (nal_type_of codec b)); [done |].
  rewrite <- IH, <- (first_nal_is_idr_body codec (drop (nal_header_len codec) (b :: body)));
    auto using sc_free_drop, last_nz_drop, stops_annex_b.
  rewrite <- drop_app_le by lia.
  apply first_nal_is_idr_fuel; [| done].
  rewrite length_drop, !length_app. cbn [length]. rewrite length_app. lia.
Qed.

(** The first unit that carries a sequence parameter set. *)
Fixpoint first_sps (codec : Codec) (ns : list Nal) : option Nal :=
  match ns with
  | [] => None
  | n :: ns' => if nal_type codec n =? sps_type codec then Some n else first_sps codec ns'
  end.

Lemma find_sps_nal_fuel codec f1 f2 l :
  (length l <= f1)%nat -> (length l <= f2)%nat ->
  find_sps_nal_loop f1 codec l = find_sps_nal_loop f2 codec l.
Proof.
  revert f2 l. induction f1 as [|f1 IH]; intros f2 l H1 H2.
  - destruct l; [| cbn in H1; lia]. by destruct f2.
  - destruct f2 as [|f2]; [by destruct l; [| cbn in H2; lia] |]. cbn [find_sps_nal_loop].
    destruct (Nat.ltb_spec 3 (length l)) as [H3|]; [| done].
    destruct (start_code_len l) as [n|] eqn:E.
    + apply start_code_len_bounds in E. case_test; [done |]. case_test; [done |].
      apply IH; rewrite length_drop; lia.
    + apply IH; rewrite length_drop; lia.
Qed.

Lemma find_sps_nal_body codec body rest :
  sc_free body -> body = [] \/ last_nz body -> stops rest ->
  find_sps_nal codec (body ++ rest) = find_sps_nal codec rest.
Proof.
  intros Hf Hl Hs. induction body as [|b body IH]; [done |].
  destruct Hl as [|Hl]; [done |]. pose proof (clean_no_start b body rest Hf Hl) as Hn.
  apply last_nz_cons in Hl. rewrite <- IH by (try (by eapply sc_free_cons); tauto).
  unfold find_sps_nal at 1. cbn [app length find_sps_nal_loop] in *. rewrite Hn.
  destruct (Nat.ltb_spec 3 (S (length (body ++ rest)))) as [H3|H3]; [done |].
  unfold find_sps_nal. destruct (body ++ rest) as [|x r]; [done |]. cbn [length] in *.
  cbn [find_sps_nal_loop]. by rewrite (proj2 (Nat.ltb_ge _ _)) by (cbn [length]; lia).
Qed.

Lemma get_start_code n rest :
  get (start_code n ++ nal_body n ++ rest) (length (start_code n)) = get (nal_body n ++ rest) 0.
Proof. unfold get. rewrite lookup_app_r, Nat.sub_diag by lia. done. Qed.

Lemma find_sps_nal_units codec ns :
  Forall (unit_ok codec) ns -> find_sps_nal codec (annex_b_of ns) = nal_bytes <$> first_sps codec ns.
Proof.
  induction 1 as [|n ns [Hok Hh] _ IH]; [done |].
  destruct (nal_ok_nonempty n Hok) as (b & l & Eb). destruct Hok as [Hf Hl].
  unfold annex_b_of; cbn [map concat first_sps]. fold (annex_b_of ns).
  change (nal_bytes n) with (start_code n ++ nal_body n). rewrite <- app_assoc.
  assert (3 <= length (start_code n))%nat as H3 by (unfold start_code; destruct (sc_long n); cbn; lia).
  assert (1 <= nal_header_len codec)%nat by (destruct codec; cbn; lia).
  unfold find_sps_nal.
  rewrite (find_sps_nal_fuel _ _ (S (length (start_code n ++ nal_body n ++ annex_b_of ns)))) by lia.
  cbn [find_sps_nal_loop]. rewrite (proj2 (Nat.ltb_lt _ _)) by (rewrite !length_app; lia).
  rewrite start_code_len_code, drop_app_length.
  rewrite (proj2 (Nat.ltb_ge _ _)) by (rewrite !length_app; lia).
  rewrite get_start_code. unfold nal_type.
  replace (get (nal_body n ++ annex_b_of ns) 0) with (get (nal_body n) 0) by (by rewrite Eb).
  destruct (_ =? _).
  - cbn [fmap option_fmap option_map]. f_equal.
    rewrite nal_end_body by auto using stops_annex_b.
    rewrite app_assoc, <- length_app. by rewrite take_app_length.
  - rewrite <- IH, <- (find_sps_nal_body codec (nal_body n)) by auto using stops_annex_b.
    apply find_sps_nal_fuel; [rewrite !length_app; lia | done].
Qed.

(** * Theorems *)

(** C31. Parameter-set extraction is exact on every well-formed stream: the
    bytes sent as csd-0 are precisely the units whose type is asked for, in
    stream order and with their own start codes, and nothing else. *)
Theorem extract_nals_exact keep ns :
  Forall nal_ok ns ->
  extract_hevc_nals (annex_b_of ns) keep
    = annex_b_of (List.filter (unit_kept hevc_nal_type keep) ns)
  /\ extract_h264_nals (annex_b_of ns) keep
    = annex_b_of (List.filter (unit_kept h264_nal_type keep) ns).
Proof. intros H. split; by apply extract_units. Qed.

(** AUD, VPS, SPS, PPS, IDR with both start-code lengths. *)
Definition demo_hevc_stream : list Nal :=
  [ {| sc_long := true; nal_body := [0x46; 1; 0xff] |};
    {| sc_long := true; nal_body := [0x40; 1; 0xff] |};
    {| sc_long := false; nal_body := [0x42; 1; 0; 0; 3; 7] |};
    {| sc_long := true; nal_body := [0x44; 1; 0xff] |};
    {| sc_long := false; nal_body := [0x26; 1; 0; 0xff] |} ].

Lemma sc_free_short l : (length l < 3)%nat -> sc_free l.
Proof.
  intros Hl j. destruct (starts_with SC3 (drop j l)) eqn:E; [| done].
  apply starts_with_length in E. rewrite length_drop in E. cbn in E. lia.
Qed.

Lemma sc_free_cons_iff b l :
  starts_with SC3 (b :: l) = false -> sc_free l -> sc_free (b :: l).
Proof. intros H Hl [|j]; [exact H | exact (Hl j)]. Qed.

Ltac solve_sc_free :=
  repeat (apply sc_free_cons_iff; [reflexivity |]); apply sc_free_short; cbn; lia.

Ltac solve_unit h x := split; [solve_sc_free | exists h, x; split; [reflexivity | lia]].

Lemma demo_hevc_stream_ok : Forall nal_ok demo_hevc_stream.
Proof.
  unfold demo_hevc_stream. repeat apply Forall_cons_2; [.. | apply Forall_nil_2].
  - solve_unit [0x46; 1] 0xff.
  - solve_unit [0x40; 1] 0xff.
  - solve_unit [0x42; 1; 0; 0; 3] 7.
  - solve_unit [0x44; 1] 0xff.
  - solve_unit [0x26; 1; 0] 0xff.
Qed.

Lemma extract_nals_exact_witness :
  extract_hevc_nals (annex_b_of demo_hevc_stream) [32; 33; 34]
    = annex_b_of (List.filter (unit_kept hevc_nal_type [32; 33; 34]) demo_hevc_stream)
  /\ extract_h264_nals (annex_b_of demo_hevc_stream) [32; 33; 34]
    = annex_b_of (List.filter (unit_kept h264_nal_type [32; 33; 34]) demo_hevc_stream).
Proof. apply extract_nals_exact. exact demo_hevc_stream_ok. Defined.

(** On any byte buffer whatever, the units the splitter reports lie
    inside the buffer, are in order and do not overlap, so that slicing them
    out never goes out of range. *)
Theorem split_nals_in_bounds bytes ty :
  units_in 0 (length bytes) (split_nals bytes ty).
Proof. apply close_units_in, (find_starts_in (length bytes) 0). Qed.

(** The encoder's key-frame flag and SPS search mean what they say on a
    well-formed stream: the flag is the verdict of the first picture unit
    (parameter sets and other units are skipped), and the search returns the
    whole first SPS unit. *)
Theorem encoder_walks_exact codec ns :
  Forall (unit_ok codec) ns ->
  first_nal_is_idr (annex_b_of ns) codec = first_verdict codec ns
  /\ find_sps_nal codec (annex_b_of ns) = nal_bytes <$> first_sps codec ns.
Proof. intros H. split; [by apply first_nal_is_idr_units | by apply find_sps_nal_units]. Qed.

Lemma encoder_walks_exact_witness :
  first_nal_is_idr (annex_b_of demo_hevc_stream) Hevc = true
  /\ find_sps_nal Hevc (annex_b_of demo_hevc_stream) = Some [0; 0; 1; 0x42; 1; 0; 0; 3; 7].
Proof.
  apply (encoder_walks_exact Hevc demo_hevc_stream).
  apply (Forall_and (P := nal_ok)); [exact demo_hevc_stream_ok |].
  unfold demo_hevc_stream. repeat constructor.
Defined.
