(* ===== verification/Rbsp.v ===== *)
(** Emulation prevention ([rbsp_unescape] and [rbsp_escape] of
    [crates/penflow-core/src/encoder/sps_patcher.rs]).  The index loops only
    ever look ahead from [i], so they are recursions on the suffix from [i]. *)
From S2P Require Import Prelude Bytes Engine AnnexB.

Fixpoint rbsp_unescape (ebsp : list Z) : list Z :=
  match ebsp with
  | [] => []
  | a :: t1 =>
      match t1 with
      | b :: c :: t =>
          if (a =? 0) && (b =? 0) && (c =? 3)
          then 0 :: 0 :: rbsp_unescape t
          else a :: rbsp_unescape t1
      | _ => a :: rbsp_unescape t1
      end
  end.

Fixpoint rbsp_escape (rbsp : list Z) : list Z :=
  match rbsp with
  | [] => []
  | a :: t1 =>
      match t1 with
      | b :: (c :: _) as t2 =>
          if (a =? 0) && (b =? 0) && (c <=? 3)
          then 0 :: 0 :: 3 :: rbsp_escape t2
          else a :: rbsp_escape t1
      | _ => a :: rbsp_escape t1
      end
  end.

(** No [00 00 0x] with [x <= 2] anywhere: the property emulation prevention
    exists for (it excludes start codes of both lengths). *)
Definition emulation_free (l : list Z) : Prop :=
  forall j c t, drop j l = 0 :: 0 :: c :: t -> 3 <= c.

(** * Lemmas *)

Lemma list_ind2 (P : list Z -> Prop) :
  P [] -> (forall a, P [a]) -> (forall a b, P [a; b]) ->
  (forall a b c t, P (c :: t) -> P (b :: c :: t) -> P (a :: b :: c :: t)) ->
  forall l, P l.
Proof.
  intros H0 H1 H2 H3. assert (forall l, P l /\ forall a, P (a :: l)) as H; [| apply H].
  induction l as [|c l [IH1 IH2]]; [auto |]. split; [apply IH2 |].
  intros a. destruct l as [|d l]; [apply H2 |]. by apply H3.
Qed.

Lemma rbsp_escape_eq a b c t :
  rbsp_escape (a :: b :: c :: t)
  = if (a =? 0) && (b =? 0) && (c <=? 3)
    then 0 :: 0 :: 3 :: rbsp_escape (c :: t)
    else a :: rbsp_escape (b :: c :: t).
Proof. reflexivity. Qed.

Lemma rbsp_unescape_eq a b c t :
  rbsp_unescape (a :: b :: c :: t)
  = if (a =? 0) && (b =? 0) && (c =? 3)
    then 0 :: 0 :: rbsp_unescape t
    else a :: rbsp_unescape (b :: c :: t).
Proof. reflexivity. Qed.

Lemma rbsp_escape_cons a l : exists t, rbsp_escape (a :: l) = a :: t.
Proof.
  destruct l as [|b [|c l]]; [cbn; eauto | cbn; eauto |].
  rewrite rbsp_escape_eq. destruct (Z.eqb_spec a 0) as [->|]; cbn [andb]; [| eauto].
  case_test; eauto.
Qed.

Lemma rbsp_unescape_escape l : rbsp_unescape (rbsp_escape l) = l.
Proof.
  induction l as [| a | a b | a b c t IH1 IH2] using list_ind2; [done | done | done |].
  rewrite rbsp_escape_eq.
  destruct (Z.eqb_spec a 0) as [->|Ha]; cbn [andb].
  - destruct (Z.eqb_spec b 0) as [->|Hb]; cbn [andb].
    + destruct (Z.leb_spec c 3) as [Hc|Hc].
      * rewrite rbsp_unescape_eq. cbn [Z.eqb andb Pos.eqb]. by rewrite IH1.
      * destruct (rbsp_escape_cons c t) as [u Hu].
        assert (E : rbsp_escape (0 :: c :: t) = 0 :: rbsp_escape (c :: t)).
        { destruct t as [|d t]; [done |]. rewrite rbsp_escape_eq. cbn [andb Z.eqb].
          by rewrite (proj2 (Z.eqb_neq c 0)) by lia. }
        rewrite E, Hu in *. rewrite rbsp_unescape_eq. cbn [andb Z.eqb].
        rewrite (proj2 (Z.eqb_neq c 3)) by lia. by rewrite IH2.
    + destruct (rbsp_escape_cons b (c :: t)) as [u Hu]. rewrite Hu in *.
      destruct u as [|x u]; [cbn in *; congruence |].
      rewrite rbsp_unescape_eq. rewrite (proj2 (Z.eqb_neq b 0)) by done. cbn [andb].
      rewrite andb_false_r. cbn [andb]. by rewrite IH2.
  - destruct (rbsp_escape_cons b (c :: t)) as [u Hu]. rewrite Hu in *.
    destruct u as [|x u]; [cbn in *; congruence |].
    rewrite rbsp_unescape_eq. rewrite (proj2 (Z.eqb_neq a 0)) by done. cbn [andb]. by rewrite IH2.
Qed.

Lemma emulation_free_cons a l :
  (forall c t, a :: l = 0 :: 0 :: c :: t -> 3 <= c) -> emulation_free l -> emulation_free (a :: l).
Proof. intros H Hl [|j] c t E; [eapply H; exact E | eapply Hl; exact E]. Qed.

Lemma emulation_free_escape l : Forall (fun b => 0 <= b) l -> emulation_free (rbsp_escape l).
Proof.
  induction l as [| a | a b | a b c t IH1 IH2] using list_ind2; intros Hl.
  - by intros [|].
  - by intros [|[|]].
  - by intros [|[|[|]]].
  - apply Forall_cons_1 in Hl as [Ha Hl]. apply Forall_cons_1 in Hl as [Hb Hl].
    specialize (IH1 Hl). specialize (IH2 (Forall_cons_2 _ _ _ Hb Hl)).
    rewrite rbsp_escape_eq. destruct (rbsp_escape_cons c t) as [u Hu].
    destruct ((a =? 0) && (b =? 0) && (c <=? 3)) eqn:Hesc.
    + rewrite Hu in *. apply Forall_cons_1 in Hl as [Hc _].
      apply emulation_free_cons; [intros ? ? [= <- <-]; lia |].
      apply emulation_free_cons; [by intros ? ? [=] |].
      apply emulation_free_cons; [by intros ? ? [=] | done].
    + apply emulation_free_cons; [| done].
      destruct (rbsp_escape_cons b (c :: t)) as [w Hw]. rewrite Hw. intros x v [= -> -> ->].
      cbn [Z.eqb andb] in Hesc. apply Z.leb_gt in Hesc.
      destruct t as [|d t]; [cbn in Hw; injection Hw as <- <-; lia |].
      rewrite rbsp_escape_eq in Hw. cbn [Z.eqb andb] in Hw.
      rewrite (proj2 (Z.eqb_neq c 0)) in Hw by lia. cbn [andb] in Hw.
      rewrite Hu in Hw. injection Hw as <- <-. lia.
Qed.

Lemma starts_with_SC3 l : starts_with SC3 l = true -> exists t, l = 0 :: 0 :: 1 :: t.
Proof. intros [k ->]%starts_with_spec. by exists k. Qed.

Lemma emulation_free_sc_free l : emulation_free l -> sc_free l.
Proof.
  intros H j. destruct (starts_with SC3 (drop j l)) eqn:E; [| done].
  apply starts_with_SC3 in E as [t E]. apply H in E. lia.
Qed.

Lemma rbsp_escape_app_last l x : x <> 0 -> exists h, rbsp_escape (l ++ [x]) = h ++ [x].
Proof.
  intros Hx. induction l as [| a | a b | a b c t IH1 IH2] using list_ind2.
  - by exists [].
  - by exists [a].
  - cbn [app]. rewrite rbsp_escape_eq. case_test.
    + by exists [0; 0; 3].
    + by exists [a; b].
  - cbn [app] in *. rewrite rbsp_escape_eq. destruct IH1 as [h1 ->], IH2 as [h2 ->].
    case_test; [by exists (0 :: 0 :: 3 :: h1) | by exists (a :: h2)].
Qed.

Lemma last_nz_escape l : last_nz l -> last_nz (rbsp_escape l).
Proof.
  intros (h & x & -> & Hx). destruct (rbsp_escape_app_last h x Hx) as [h' ->].
  by exists h', x.
Qed.

Lemma rbsp_escape_bytes l : bytes_ok l -> bytes_ok (rbsp_escape l).
Proof.
  induction l as [| a | a b | a b c t IH1 IH2] using list_ind2; [done | done | done |].
  intros Hl. apply Forall_cons_1 in Hl as [Ha Hl]. apply Forall_cons_1 in Hl as [Hb Hl].
  rewrite rbsp_escape_eq. case_test.
  - repeat (apply Forall_cons_2; [urange |]). auto.
  - auto using Forall_cons_2.
Qed.

Lemma bytes_nonneg l : bytes_ok l -> Forall (fun b => 0 <= b) l.
Proof. apply Forall_impl. intros x Hx. urange. Qed.

(** * Theorems *)

(** C37. Escaping is invertible and does its job: unescaping an escaped
    payload gives the payload back, and an escaped payload never contains
    [00 00 00], [00 00 01] or [00 00 02], so no start code can appear inside
    the unit it is put in. *)
Theorem escape_correct l :
  bytes_ok l ->
  rbsp_unescape (rbsp_escape l) = l /\ emulation_free (rbsp_escape l) /\ sc_free (rbsp_escape l).
Proof.
  intros Hl. split; [apply rbsp_unescape_escape |].
  pose proof (emulation_free_escape l (bytes_nonneg l Hl)) as H.
  split; [done | by apply emulation_free_sc_free].
Qed.

Lemma escape_correct_witness :
  let l := [0; 0; 0; 1; 2; 0; 0; 0x42; 0; 0; 3] in
  rbsp_unescape (rbsp_escape l) = l /\ emulation_free (rbsp_escape l) /\ sc_free (rbsp_escape l).
Proof.
  apply (escape_correct [0; 0; 0; 1; 2; 0; 0; 0x42; 0; 0; 3]).
  repeat constructor; vm_compute; congruence.
Defined.
