(* ===== verification/BitIO.v ===== *)
(** The bit reader and writer of
    [crates/penflow-core/src/encoder/sps_patcher.rs] and their Exp-Golomb
    codecs, with the abstract view the SPS rewriters are proved against: a
    reader is the list of bits it has not read yet, a writer the list of bits
    it was given. *)
From S2P Require Import Prelude Bytes Engine.

(** * The implementation *)

(** [bit_pos] 0 is the most significant bit of byte 0. *)
Record BitReader := { br_bytes : list Z; br_pos : nat }.

Definition BitReader_new (bytes : list Z) : BitReader := {| br_bytes := bytes; br_pos := 0 |}.

(** [v] is a [u32]: shifting it left drops the bits above 31. *)
Fixpoint read_bits_loop (n : nat) (v : Z) (r : BitReader) : EngineResult (Z * BitReader) :=
  match n with
  | O => Ok (v, r)
  | S n' =>
      let byte_idx := Nat.div (br_pos r) 8 in
      match br_bytes r !! byte_idx with
      | None => Err NotInitialized
      | Some byte =>
          let bit_idx := Z.of_nat (7 - Nat.modulo (br_pos r) 8) in
          let bit := Z.land (Z.shiftr byte bit_idx) 1 in
          read_bits_loop n' (Z.lor (uwrap 32 (Z.shiftl v 1)) bit)
            {| br_bytes := br_bytes r; br_pos := S (br_pos r) |}
      end
  end.

Definition read_bits (n : Z) (r : BitReader) : EngineResult (Z * BitReader) :=
  read_bits_loop (Z.to_nat n) 0 r.

(** The leading zeros of an Exp-Golomb code.  The loop stops with an error
    at the 32nd zero, so 33 rounds are always enough. *)
Fixpoint count_zeros (fuel : nat) (leading_zeros : Z) (r : BitReader)
  : EngineResult (Z * BitReader) :=
  match fuel with
  | O => Err NotInitialized
  | S fuel' =>
      '(b, r) ← read_bits 1 r;
      if b =? 1 then Ok (leading_zeros, r)
      else
        let leading_zeros := leading_zeros + 1 in
        if 31 <? leading_zeros then Err NotInitialized
        else count_zeros fuel' leading_zeros r
  end.

Definition read_ue (r : BitReader) : EngineResult (Z * BitReader) :=
  '(leading_zeros, r) ← count_zeros 33 0 r;
  '(suffix, r) ← (if leading_zeros =? 0 then Ok (0, r) else read_bits leading_zeros r);
  Ok (uwrap 32 (Z.shiftl 1 leading_zeros - 1 + suffix), r).

Definition read_se (r : BitReader) : EngineResult (Z * BitReader) :=
  '(code, r) ← read_ue r;
  if negb (Z.land code 1 =? 0)
  then Ok (swrap 32 (Z.shiftr (uwrap 32 (code + 1)) 1), r)
  else Ok (swrap 32 (- swrap 32 (Z.shiftr code 1)), r).

Record BitWriter := { bw_bytes : list Z; bw_pos : nat }.

Definition BitWriter_new : BitWriter := {| bw_bytes := []; bw_pos := 0 |}.

(** One round of [write_bits]: grow the buffer when the bit starts a new
    byte, then or the bit in. *)
Definition put_bit (w : BitWriter) (bit : Z) : BitWriter :=
  let byte_idx := Nat.div (bw_pos w) 8 in
  let bit_idx := Z.of_nat (7 - Nat.modulo (bw_pos w) 8) in
  let bytes := if Nat.leb (length (bw_bytes w)) byte_idx then bw_bytes w ++ [0] else bw_bytes w in
  {| bw_bytes := alter (fun b => Z.lor b (Z.shiftl bit bit_idx)) byte_idx bytes;
     bw_pos := S (bw_pos w) |}.

(** [for i in (0..n).rev()]; a [u32] is shifted right by [i] modulo 32. *)
Fixpoint write_bits_loop (n : nat) (value : Z) (w : BitWriter) : BitWriter :=
  match n with
  | O => w
  | S i =>
      write_bits_loop i value (put_bit w (Z.land (Z.shiftr value (Z.of_nat i mod 32)) 1))
  end.

Definition write_bits (value n : Z) (w : BitWriter) : BitWriter :=
  write_bits_loop (Z.to_nat n) value w.

Fixpoint write_zeros (n : nat) (w : BitWriter) : BitWriter :=
  match n with O => w | S n' => write_zeros n' (write_bits 0 1 w) end.

(** [value + 1] is taken in 64 bits, so its position of the leading one,
    [63 - leading_zeros], is its binary logarithm. *)
Definition write_ue (value : Z) (w : BitWriter) : BitWriter :=
  let v_plus_1 := value + 1 in
  let leading_zeros := Z.log2 v_plus_1 in
  let w := write_zeros (Z.to_nat leading_zeros) w in
  let w := write_bits 1 1 w in
  if 0 <? leading_zeros
  then write_bits (uwrap 32 (uwrap 32 (value + 1) - Z.shiftl 1 leading_zeros)) leading_zeros w
  else w.

Definition write_se (value : Z) (w : BitWriter) : BitWriter :=
  let code := if 0 <? value
              then uwrap 32 (uwrap 32 (uwrap 32 value * 2) - 1)
              else uwrap 32 (uwrap 32 (swrap 32 (- value)) * 2) in
  write_ue code w.

(** At most seven zero bits reach the next byte boundary. *)
Fixpoint pad_to_byte (fuel : nat) (w : BitWriter) : BitWriter :=
  match fuel with
  | O => w
  | S fuel' =>
      if Nat.eqb (Nat.modulo (bw_pos w) 8) 0 then w else pad_to_byte fuel' (write_bits 0 1 w)
  end.

Definition write_rbsp_trailing_bits (w : BitWriter) : BitWriter :=
  pad_to_byte 8 (write_bits 1 1 w).

(** * Programs over one reader and one writer

    The rewriters thread [r: &mut BitReader] and [w: &mut BitWriter]; after
    an error neither is used again. *)

Definition SP (A : Type) : Type :=
  BitReader * BitWriter -> EngineResult (A * (BitReader * BitWriter)).

#[export] Instance SP_ret : MRet SP := fun A a s => Ok (a, s).

#[export] Instance SP_bind : MBind SP :=
  fun A B f m s => match m s with Ok (a, s') => f a s' | Err e => Err e end.

(** A call on the reader, on the writer, and an early [return Err]. *)
Definition rd {A} (f : BitReader -> EngineResult (A * BitReader)) : SP A :=
  fun '(r, w) => match f r with Ok (a, r') => Ok (a, (r', w)) | Err e => Err e end.

Definition wr (f : BitWriter -> BitWriter) : SP unit := fun '(r, w) => Ok (tt, (r, f w)).

Definition fail {A} (e : EngineError) : SP A := fun _ => Err e.

(** The recurring line [let v = r.read_x()?; w.write_x(v);]. *)
Definition copy_u (n : Z) : SP Z := v ← rd (read_bits n); _ ← wr (write_bits v n); mret v.

Definition copy_ue : SP Z := v ← rd read_ue; _ ← wr (write_ue v); mret v.

Definition copy_se : SP Z := v ← rd read_se; _ ← wr (write_se v); mret v.

(** The same line when [v] is not used again, a read whose value is
    dropped, and an [if] without [else]. *)
Definition pass_u (n : Z) : SP unit := copy_u n;; mret tt.

Definition pass_ue : SP unit := copy_ue;; mret tt.

Definition pass_se : SP unit := copy_se;; mret tt.

Definition skip_u (n : Z) : SP unit := rd (read_bits n);; mret tt.

Definition skip_ue : SP unit := rd read_ue;; mret tt.

Definition put_u (v n : Z) : SP unit := wr (write_bits v n).

Definition put_ue (v : Z) : SP unit := wr (write_ue v).

Definition when (b : bool) (m : SP unit) : SP unit := if b then m else mret tt.

(** [for _ in 0..n { body }]. *)
Fixpoint repeat_sp (n : nat) (body : SP unit) : SP unit :=
  match n with O => mret tt | S n' => body;; repeat_sp n' body end.

(** Runs on fresh buffers and returns what was written. *)
Definition run_sp {A} (m : SP A) (rbsp : list Z) : EngineResult (A * (BitReader * BitWriter)) :=
  m (BitReader_new rbsp, BitWriter_new).

(** * The abstract view *)

(** The bits of a byte, most significant first. *)
Definition byte_bits (b : Z) : list bool :=
  map (fun i => Z.testbit b (7 - Z.of_nat i)) (seq 0 8).

Definition bits_of (l : list Z) : list bool := concat (map byte_bits l).

Definition reader_at (r : BitReader) (bs : list bool) : Prop := drop (br_pos r) (bits_of (br_bytes r)) = bs.

(** The writer holds [bs], padded with zeros to whole bytes. *)
Definition writer_at (w : BitWriter) (bs : list bool) : Prop :=
  bw_pos w = length bs /\ bytes_ok (bw_bytes w)
  /\ exists k, (k < 8)%nat /\ bits_of (bw_bytes w) = bs ++ replicate k false.

(** An [n]-bit field, most significant bit first. *)
Fixpoint u_bits (n : nat) (v : Z) : list bool :=
  match n with O => [] | S m => Z.testbit v (Z.of_nat m) :: u_bits m v end.

(** The value of a string of bits. *)
Definition bits_val (bs : list bool) : Z := foldl (fun acc b => 2 * acc + Z.b2z b) 0 bs.

(** The code of [v] in unsigned Exp-Golomb (H.264 9.1, H.265 9.2). *)
Definition ue_bits (v : Z) : list bool :=
  let k := Z.to_nat (Z.log2 (v + 1)) in replicate k false ++ true :: u_bits k (v + 1).

(** Signed Exp-Golomb: [0, 1, -1, 2, -2, ...] in code order. *)
Definition se_code (v : Z) : Z := if 0 <? v then 2 * v - 1 else -2 * v.

Definition se_bits (v : Z) : list bool := ue_bits (se_code v).

(** The RBSP trailing bits after [n] bits: a one, then zeros to a byte. *)
Definition trailing (n : nat) : list bool := true :: replicate (7 - n mod 8) false.

(** The values an Exp-Golomb code of at most 31 leading zeros can carry. *)
Definition ue_range (v : Z) : Prop := 0 <= v < 2 ^ 32 - 1.

Definition se_range (v : Z) : Prop := - (2 ^ 31 - 1) <= v <= 2 ^ 31 - 1.

(** * Lemmas: bits and values *)

Lemma length_byte_bits b : length (byte_bits b) = 8%nat.
Proof. done. Qed.

Lemma length_bits_of l : length (bits_of l) = (8 * length l)%nat.
Proof.
  induction l as [|b l IH]; [done |]. unfold bits_of in *. cbn [map concat length].
  rewrite length_app, IH, length_byte_bits. lia.
Qed.

Lemma bits_of_cons b l : bits_of (b :: l) = byte_bits b ++ bits_of l.
Proof. done. Qed.

Lemma bits_of_app l k : bits_of (l ++ k) = bits_of l ++ bits_of k.
Proof. unfold bits_of. by rewrite map_app, concat_app. Qed.

Lemma lookup_byte_bits b j :
  (j < 8)%nat -> byte_bits b !! j = Some (Z.testbit b (7 - Z.of_nat j)).
Proof. intros Hj. unfold byte_bits. do 8 (destruct j as [|j]; [done |]). lia. Qed.

Lemma lookup_bits_of l p :
  bits_of l !! p = (fun b => Z.testbit b (Z.of_nat (7 - p mod 8))) <$> l !! (p / 8)%nat.
Proof.
  revert p. induction l as [|b l IH]; intros p.
  - cbn. by rewrite !lookup_nil.
  - rewrite bits_of_cons. destruct (Nat.lt_ge_cases p 8) as [Hp|Hp].
    + rewrite lookup_app_l by (rewrite length_byte_bits; lia).
      rewrite Nat.div_small, Nat.mod_small by lia. rewrite lookup_byte_bits by done.
      cbn. do 2 f_equal. lia.
    + rewrite lookup_app_r by (rewrite length_byte_bits; lia). rewrite length_byte_bits, IH.
      assert (Hd : (p / 8 = S ((p - 8) / 8))%nat).
      { replace p with ((p - 8) + 1 * 8)%nat at 1 by lia. rewrite Nat.div_add by lia. lia. }
      assert (Hm : (p mod 8 = (p - 8) mod 8)%nat).
      { replace p with ((p - 8) + 1 * 8)%nat at 1 by lia. apply Nat.Div0.mod_add. }
      by rewrite Hd, Hm.
Qed.

Lemma foldl_bits_acc bs acc :
  foldl (fun acc b => 2 * acc + Z.b2z b) acc bs = acc * 2 ^ Z.of_nat (length bs) + bits_val bs.
Proof.
  unfold bits_val. revert acc. induction bs as [|b bs IH]; intros acc; cbn [foldl length].
  - change (2 ^ Z.of_nat 0) with 1. lia.
  - rewrite IH, (IH (2 * 0 + Z.b2z b)), Nat2Z.inj_succ, Z.pow_succ_r by lia. ring.
Qed.

Lemma bits_val_cons b bs : bits_val (b :: bs) = Z.b2z b * 2 ^ Z.of_nat (length bs) + bits_val bs.
Proof. unfold bits_val at 1. cbn [foldl]. rewrite foldl_bits_acc. lia. Qed.

Lemma bits_val_snoc bs b : bits_val (bs ++ [b]) = 2 * bits_val bs + Z.b2z b.
Proof. unfold bits_val. by rewrite foldl_app. Qed.

Lemma bits_val_range bs : unsigned (Z.of_nat (length bs)) (bits_val bs).
Proof.
  induction bs as [|b bs IH]; [done |]. rewrite bits_val_cons. unfold unsigned in *.
  cbn [length]. rewrite Nat2Z.inj_succ, Z.pow_succ_r by lia.
  assert (0 <= Z.b2z b <= 1) by (destruct b; cbn; lia). nia.
Qed.

Lemma length_u_bits n v : length (u_bits n v) = n.
Proof. induction n; cbn; congruence. Qed.

Lemma bits_val_u n v : bits_val (u_bits n v) = uwrap (Z.of_nat n) v.
Proof.
  unfold uwrap. induction n as [|n IH]; [by rewrite Z.mod_1_r |].
  cbn [u_bits]. rewrite bits_val_cons, length_u_bits, IH.
  rewrite Nat2Z.inj_succ. unfold Z.succ. rewrite Z.pow_add_r by lia. change (2 ^ 1) with 2.
  rewrite Z.rem_mul_r by lia. rewrite Z.testbit_spec' by lia. ring.
Qed.

Lemma bits_val_u_small n v : unsigned (Z.of_nat n) v -> bits_val (u_bits n v) = v.
Proof. intros H. rewrite bits_val_u. by apply uwrap_small. Qed.

Lemma u_bits_mod n v w : (forall i, 0 <= i < Z.of_nat n -> Z.testbit v i = Z.testbit w i) ->
  u_bits n v = u_bits n w.
Proof. induction n as [|n IH]; intros H; cbn; [done |]. f_equal; [apply H | apply IH; intros; apply H]; lia. Qed.

Lemma u_bits_val bs : u_bits (length bs) (bits_val bs) = bs.
Proof.
  induction bs as [|b bs IH]; [done |]. cbn [length u_bits].
  pose proof (bits_val_range bs) as Hr. unfold unsigned in Hr.
  rewrite bits_val_cons. f_equal.
  - apply Z.b2z_inj. rewrite Z.testbit_spec' by lia.
    rewrite Z.div_add_l by lia. rewrite (Z.div_small (bits_val bs)) by lia.
    rewrite Z.add_0_r. destruct b; done.
  - etransitivity; [| exact IH]. apply u_bits_mod. intros i Hi.
    rewrite <- (Z.mod_pow2_bits_low (_ + _) (Z.of_nat (length bs))) by lia.
    rewrite Z.add_comm, Z.mod_add by lia. by rewrite Z.mod_small by lia.
Qed.

Lemma bits_of_inj l k : bytes_ok l -> bytes_ok k -> bits_of l = bits_of k -> l = k.
Proof.
  assert (Hb : forall b, u8 b -> bits_val (byte_bits b) = b).
  { intros b H. exact (bits_val_u_small 8 b H). }
  intros Hl. revert k. induction Hl as [|b l Hbok _ IH]; intros k Hk E.
  - apply (f_equal length) in E. rewrite !length_bits_of in E. destruct k; [done | cbn in E; lia].
  - destruct Hk as [|c k Hc Hk].
    + apply (f_equal length) in E. rewrite !length_bits_of in E. cbn in E. lia.
    + rewrite !bits_of_cons in E. apply app_inj_1 in E as [E1 E2]; [| done].
      f_equal; [| by apply IH]. rewrite <- (Hb b Hbok), <- (Hb c Hc). by rewrite E1.
Qed.

(** * The reader *)

Lemma land1_testbit x i : 0 <= i -> Z.land (Z.shiftr x i) 1 = Z.b2z (Z.testbit x i).
Proof.
  intros Hi. change 1 with (Z.ones 1) at 1. rewrite Z.land_ones by lia.
  change (2 ^ 1) with 2. rewrite <- Z.bit0_mod. f_equal. by rewrite Z.shiftr_spec, Z.add_0_l by lia.
Qed.

Lemma reader_at_lookup r b rest : reader_at r (b :: rest) -> bits_of (br_bytes r) !! br_pos r = Some b.
Proof.
  unfold reader_at. intros H. rewrite <- (Nat.add_0_r (br_pos r)), <- lookup_drop, H. done.
Qed.

Lemma reader_at_step r b rest : reader_at r (b :: rest) ->
  reader_at {| br_bytes := br_bytes r; br_pos := S (br_pos r) |} rest.
Proof.
  intros H. change (drop (S (br_pos r)) (bits_of (br_bytes r)) = rest).
  change (S (br_pos r)) with (1 + br_pos r)%nat. unfold reader_at in H.
  by rewrite <- skipn_skipn, H.
Qed.

Lemma bit_step acc b : 0 <= acc < 2 ^ 31 -> Z.lor (uwrap 32 (Z.shiftl acc 1)) (Z.b2z b) = 2 * acc + Z.b2z b.
Proof.
  intros H. rewrite Z.shiftl_mul_pow2 by lia. change (2 ^ 1) with 2.
  rewrite uwrap_small by (unfold unsigned; pow2; lia). rewrite Z.mul_comm.
  destruct b; cbn [Z.b2z]; [| by rewrite Z.lor_0_r, Z.add_0_r].
  destruct acc as [|p|p]; try lia; done.
Qed.

Lemma read_bits_loop_ok bs : forall acc r rest,
  reader_at r (bs ++ rest) -> (length bs <= 32)%nat ->
  0 <= acc < 2 ^ (32 - Z.of_nat (length bs)) ->
  exists r', read_bits_loop (length bs) acc r = Ok (foldl (fun acc b => 2 * acc + Z.b2z b) acc bs, r')
    /\ reader_at r' rest /\ br_bytes r' = br_bytes r.
Proof.
  induction bs as [|b bs IH]; intros acc r rest Hr Hn Hacc; [by exists r |].
  cbn [length app read_bits_loop foldl] in *.
  pose proof (reader_at_lookup _ _ _ Hr) as Hl. rewrite lookup_bits_of in Hl.
  apply fmap_Some in Hl as (byte & -> & ->).
  assert (E : 2 ^ (32 - Z.of_nat (length bs)) = 2 * 2 ^ (32 - Z.of_nat (S (length bs)))).
  { rewrite <- Z.pow_succ_r by lia. f_equal. lia. }
  assert (2 ^ (32 - Z.of_nat (S (length bs))) <= 2 ^ 31) by (apply Z.pow_le_mono_r; lia).
  rewrite land1_testbit, bit_step by lia.
  apply (IH _ {| br_bytes := br_bytes r; br_pos := S (br_pos r) |});
    [by eapply reader_at_step | lia |].
  rewrite E. destruct (Z.testbit _ _); cbn; lia.
Qed.

Lemma read_bits_ok n bs r rest :
  reader_at r (bs ++ rest) -> length bs = Z.to_nat n -> (n <= 32) ->
  exists r', read_bits n r = Ok (bits_val bs, r') /\ reader_at r' rest /\ br_bytes r' = br_bytes r.
Proof.
  intros Hr Hn Hle. unfold read_bits. rewrite <- Hn.
  apply read_bits_loop_ok; [done | lia |]. split; [lia | apply Z.pow_pos_nonneg; lia].
Qed.

(** Reading past the end is an error. *)
Lemma read_bits_loop_short n : forall acc r bs,
  reader_at r bs -> (length bs < n)%nat -> read_bits_loop n acc r = Err NotInitialized.
Proof.
  induction n as [|n IH]; intros acc r bs Hr Hn; [lia |]. cbn [read_bits_loop].
  destruct (br_bytes r !! (br_pos r / 8)%nat) as [byte|] eqn:Hb; [| done].
  destruct bs as [|b bs].
  - exfalso. apply (f_equal length) in Hr. rewrite length_drop, length_bits_of in Hr. cbn in Hr.
    apply lookup_lt_Some in Hb.
    pose proof (Nat.div_mod_eq (br_pos r) 8). pose proof (Nat.mod_upper_bound (br_pos r) 8). lia.
  - apply (IH _ {| br_bytes := br_bytes r; br_pos := S (br_pos r) |} bs); [by eapply reader_at_step | cbn in Hn; lia].
Qed.

Lemma read_bits_short n r bs :
  reader_at r bs -> Z.of_nat (length bs) < n -> read_bits n r = Err NotInitialized.
Proof. intros Hr Hn. apply (read_bits_loop_short _ _ _ bs); [done | lia]. Qed.

(** What a successful read has consumed. *)
Lemma read_bits_inv n r v r' rest : n <= 32 ->
  reader_at r rest -> read_bits n r = Ok (v, r') ->
  exists bs rest', rest = bs ++ rest' /\ length bs = Z.to_nat n /\ v = bits_val bs
    /\ reader_at r' rest' /\ br_bytes r' = br_bytes r.
Proof.
  intros Hn Hr E.
  destruct (Z.lt_ge_cases (Z.of_nat (length rest)) n) as [Hs|Hs].
  - by rewrite (read_bits_short _ _ _ Hr Hs) in E.
  - exists (take (Z.to_nat n) rest), (drop (Z.to_nat n) rest).
    rewrite <- (take_drop (Z.to_nat n) rest) in Hr.
    destruct (read_bits_ok n _ _ _ Hr) as (r1 & E1 & Hr1 & Hb); [rewrite length_take; lia | done |].
    rewrite E1 in E. injection E as <- <-. rewrite take_drop, length_take.
    repeat split; [lia | done | done].
Qed.

(** * The writer *)

Lemma lor_u8 x y : u8 x -> u8 y -> u8 (Z.lor x y).
Proof.
  intros Hx Hy. rewrite <- (uwrap_small 8 x Hx), <- (uwrap_small 8 y Hy). unfold uwrap.
  rewrite <- !Z.land_ones, <- Z.land_lor_distr_l, Z.land_ones by lia. by apply uwrap_range.
Qed.

Lemma shiftl_b2z_u8 b i : 0 <= i < 8 -> u8 (Z.shiftl (Z.b2z b) i).
Proof.
  intros Hi. rewrite Z.shiftl_mul_pow2 by lia. unfold unsigned.
  assert (0 < 2 ^ i <= 2 ^ 7) by (split; [apply Z.pow_pos_nonneg | apply Z.pow_le_mono_r]; lia).
  pow2. destruct b; cbn [Z.b2z]; lia.
Qed.

Lemma testbit_shiftl_b2z b i j : 0 <= i -> 0 <= j ->
  Z.testbit (Z.shiftl (Z.b2z b) i) j = if j =? i then b else false.
Proof.
  intros Hi Hj. rewrite Z.shiftl_spec by lia. destruct (Z.eqb_spec j i) as [-> | Hne].
  - rewrite Z.sub_diag. by destruct b.
  - destruct (Z.lt_ge_cases j i) as [?|?]; [by rewrite Z.testbit_neg_r by lia |].
    replace (j - i) with (Z.succ (j - i - 1)) by lia.
    destruct b; cbn [Z.b2z]; [| apply Z.testbit_0_l].
    change 1 with (2 * 0 + 1) at 1. rewrite Z.testbit_odd_succ by lia. apply Z.testbit_0_l.
Qed.

(** Oring a bit into the byte of position [p] sets bit [p] when it was clear. *)
Lemma bits_of_set_bit l p b : bits_of l !! p = Some false ->
  bits_of (alter (fun x => Z.lor x (Z.shiftl (Z.b2z b) (Z.of_nat (7 - p mod 8)))) (p / 8)%nat l)
  = <[p := b]> (bits_of l).
Proof.
  intros Hp. apply list_eq. intros j. rewrite lookup_bits_of, list_lookup_alter.
  pose proof (Nat.mod_upper_bound p 8). pose proof (Nat.mod_upper_bound j 8).
  pose proof (Nat.div_mod_eq p 8). pose proof (Nat.div_mod_eq j 8).
  destruct (decide (p = j)) as [<- | Hne].
  - rewrite list_lookup_insert_eq by (by apply lookup_lt_Some in Hp).
    rewrite lookup_bits_of in Hp. apply fmap_Some in Hp as (x & -> & Hx).
    case_decide; [| done]. cbn -[Nat.sub Nat.modulo Z.of_nat].
    by rewrite Z.lor_spec, testbit_shiftl_b2z, <- Hx, Z.eqb_refl by lia.
  - rewrite list_lookup_insert_ne, lookup_bits_of by done. case_decide as Hd; [| done].
    destruct (l !! (j / 8)%nat) as [x|] eqn:Hx; rewrite Hd, Hx; [| done].
    cbn -[Nat.sub Nat.modulo Z.of_nat]. f_equal.
    rewrite Z.lor_spec, testbit_shiftl_b2z by lia.
    destruct (Z.eqb_spec (Z.of_nat (7 - j mod 8)) (Z.of_nat (7 - p mod 8))); [lia |].
    apply orb_false_r.
Qed.

Lemma writer_room w bs : writer_at w bs ->
  let i := (bw_pos w / 8)%nat in
  let l' := if Nat.leb (length (bw_bytes w)) i then bw_bytes w ++ [0] else bw_bytes w in
  bytes_ok l' /\ exists k, (k < 8)%nat /\ bits_of l' = bs ++ false :: replicate k false.
Proof.
  intros (Hp & Hok & k & Hk & Hb). cbn zeta.
  pose proof (Nat.div_mod_eq (bw_pos w) 8). pose proof (Nat.mod_upper_bound (bw_pos w) 8).
  assert (8 * length (bw_bytes w) = bw_pos w + k)%nat.
  { rewrite <- length_bits_of, Hb, length_app, length_replicate. lia. }
  destruct (Nat.leb_spec (length (bw_bytes w)) (bw_pos w / 8)%nat).
  - split; [apply Forall_app; split; [done | by repeat constructor] |].
    exists 7%nat. rewrite bits_of_app, Hb. assert (k = 0%nat) as -> by lia.
    split; [lia |]. by rewrite app_nil_r.
  - split; [done |]. destruct k as [|k]; [lia |]. exists k. split; [lia | by rewrite Hb].
Qed.

Lemma put_bit_at w bs b : writer_at w bs -> writer_at (put_bit w (Z.b2z b)) (bs ++ [b]).
Proof.
  intros Hw. pose proof (writer_room w bs Hw) as (Hok & k & Hk & Hb).
  destruct Hw as (Hp & _ & _). unfold put_bit.
  split; [cbn; rewrite length_app; cbn; lia |]. cbn [bw_bytes]. split.
  - apply Forall_alter; [done |]. intros x _ Hx.
    apply lor_u8, shiftl_b2z_u8; [done | lia].
  - exists k. split; [done |]. rewrite bits_of_set_bit; rewrite Hb, Hp.
    + by rewrite insert_app_r_alt, Nat.sub_diag, <- app_assoc by lia.
    + by rewrite list_lookup_middle.
Qed.

Lemma write_bits_loop_at n v : forall w bs, (n <= 32)%nat ->
  writer_at w bs -> writer_at (write_bits_loop n v w) (bs ++ u_bits n v).
Proof.
  induction n as [|n IH]; intros w bs Hn Hw; cbn [write_bits_loop u_bits].
  - by rewrite app_nil_r.
  - rewrite Z.mod_small, land1_testbit by lia.
    rewrite cons_middle, app_assoc. apply IH; [lia | by apply put_bit_at].
Qed.

Lemma write_bits_at v n w bs : n <= 32 ->
  writer_at w bs -> writer_at (write_bits v n w) (bs ++ u_bits (Z.to_nat n) v).
Proof. intros Hn. apply write_bits_loop_at. lia. Qed.

Lemma write_zeros_at n : forall w bs,
  writer_at w bs -> writer_at (write_zeros n w) (bs ++ replicate n false).
Proof.
  induction n as [|n IH]; intros w bs Hw; cbn [write_zeros replicate]; [by rewrite app_nil_r |].
  rewrite cons_middle, app_assoc. apply IH. by apply (write_bits_at 0 1 w bs).
Qed.

Lemma writer_new_at : writer_at BitWriter_new [].
Proof. split; [done |]. split; [constructor |]. exists 0%nat. split; [lia | done]. Qed.

Lemma log2_bounds v : ue_range v -> 0 <= Z.log2 (v + 1) <= 31.
Proof.
  unfold ue_range. intros Hv. split; [apply Z.log2_nonneg |].
  assert (Z.log2 (v + 1) < 32); [apply Z.log2_lt_pow2; lia | lia].
Qed.

Lemma u_bits_low n v w : v mod 2 ^ Z.of_nat n = w mod 2 ^ Z.of_nat n -> u_bits n v = u_bits n w.
Proof.
  intros E. apply u_bits_mod. intros i Hi.
  rewrite <- (Z.mod_pow2_bits_low v (Z.of_nat n)), E by lia. apply Z.mod_pow2_bits_low; lia.
Qed.

Lemma write_ue_at v w bs : ue_range v -> writer_at w bs -> writer_at (write_ue v w) (bs ++ ue_bits v).
Proof.
  intros Hv Hw. pose proof (log2_bounds v Hv) as Hk. unfold write_ue, ue_bits.
  set (k := Z.log2 (v + 1)) in *.
  apply (write_zeros_at (Z.to_nat k)) in Hw.
  apply (write_bits_at 1 1 _ _) in Hw; [| lia]. change (u_bits (Z.to_nat 1) 1) with [true] in Hw.
  destruct (Z.ltb_spec 0 k) as [Hpos | Hz].
  - apply (write_bits_at (uwrap 32 (uwrap 32 (v + 1) - Z.shiftl 1 k)) k _ _) in Hw; [| lia].
    rewrite <- !app_assoc in Hw. cbn [app] in Hw.
    rewrite (u_bits_low _ _ (v + 1)) in Hw; [exact Hw |].
    assert (Hsp : 2 ^ k <= v + 1 < 2 ^ Z.succ k) by (apply Z.log2_spec; unfold ue_range in Hv; lia).
    rewrite Z2Nat.id, Z.shiftl_1_l by lia. rewrite Z.pow_succ_r in Hsp by lia.
    unfold ue_range in Hv.
    rewrite (uwrap_small 32 (v + 1)) by (unfold unsigned; lia).
    rewrite uwrap_small by (unfold unsigned; lia).
    replace (v + 1 - 2 ^ k) with (v + 1 + (-1) * 2 ^ k) by ring. apply Z.mod_add. lia.
  - replace k with 0 in * by lia. cbn. by rewrite app_nil_r in Hw.
Qed.

Lemma u_bits_split n v : 2 ^ Z.of_nat n <= v < 2 ^ Z.of_nat (S n) ->
  bits_val (u_bits n v) = v - 2 ^ Z.of_nat n.
Proof.
  intros H. rewrite Nat2Z.inj_succ, Z.pow_succ_r in H by lia.
  rewrite bits_val_u. unfold uwrap. symmetry. apply (Z.mod_unique_pos _ _ 1); lia.
Qed.

Lemma count_zeros_ok n : forall fuel z r rest,
  reader_at r (replicate n false ++ true :: rest) ->
  (n < fuel)%nat -> 0 <= z -> z + Z.of_nat n <= 31 ->
  exists r', count_zeros fuel z r = Ok (z + Z.of_nat n, r')
    /\ reader_at r' rest /\ br_bytes r' = br_bytes r.
Proof.
  induction n as [|n IH]; intros fuel z r rest Hr Hf Hz Hn; (destruct fuel as [|fuel]; [lia |]);
    cbn [count_zeros replicate app] in *.
  - destruct (read_bits_ok 1 [true] _ _ Hr) as (r' & -> & Hr' & Hb); [done | lia |].
    exists r'. cbn. by rewrite Z.add_0_r.
  - destruct (read_bits_ok 1 [false] _ _ Hr) as (r1 & -> & Hr1 & Hb1); [done | lia |].
    change (bits_val [false]) with 0. cbn [mbind result_bind].
    change (0 =? 1) with false. cbn iota.
    destruct (Z.ltb_spec 31 (z + 1)); [lia |].
    destruct (IH fuel (z + 1) r1 rest) as (r' & -> & Hr' & Hb); [done | lia.. |].
    exists r'. rewrite Hb. repeat split; [do 2 f_equal; lia | done..].
Qed.

Lemma read_ue_ok v r rest : ue_range v -> reader_at r (ue_bits v ++ rest) ->
  exists r', read_ue r = Ok (v, r') /\ reader_at r' rest /\ br_bytes r' = br_bytes r.
Proof.
  intros Hv Hr. pose proof (log2_bounds v Hv) as Hk. unfold ue_bits in Hr. unfold read_ue.
  set (k := Z.log2 (v + 1)) in *. rewrite <- app_assoc in Hr.
  destruct (count_zeros_ok _ 33 0 _ _ Hr) as (r1 & -> & Hr1 & Hb1); [lia.. |].
  rewrite Z.add_0_l, Z2Nat.id by lia. cbn [mbind result_bind].
  assert (Hsp : 2 ^ k <= v + 1 < 2 ^ Z.succ k) by (apply Z.log2_spec; unfold ue_range in Hv; lia).
  destruct (Z.eqb_spec k 0) as [Hz | Hnz].
  - rewrite Hz in *. change (2 ^ 0) with 1 in Hsp. change (2 ^ Z.succ 0) with 2 in Hsp.
    exists r1. cbn [mbind result_bind]. assert (v = 0) as -> by lia. done.
  - destruct (read_bits_ok k _ _ _ Hr1) as (r2 & -> & Hr2 & Hb2);
      [apply length_u_bits | lia |].
    exists r2. cbn [mbind result_bind]. rewrite Hb2, Hb1.
    rewrite u_bits_split by (rewrite Nat2Z.inj_succ, Z2Nat.id by lia; lia).
    rewrite Z2Nat.id, Z.shiftl_1_l by lia.
    replace (2 ^ k - 1 + (v + 1 - 2 ^ k)) with v by ring.
    rewrite uwrap_small; [done |]. unfold ue_range in Hv. urange.
Qed.

(** A code that was read is the code of the value. *)
Lemma count_zeros_inv : forall fuel z r k r' rest,
  reader_at r rest -> 0 <= z <= 31 -> count_zeros fuel z r = Ok (k, r') ->
  exists n rest', rest = replicate n false ++ true :: rest' /\ k = z + Z.of_nat n /\ k <= 31
    /\ reader_at r' rest' /\ br_bytes r' = br_bytes r.
Proof.
  induction fuel as [|fuel IH]; intros z r k r' rest Hr Hz E; [done |]. cbn [count_zeros] in E.
  apply bind_Ok in E as ((b & r1) & E1 & E).
  apply (read_bits_inv 1 _ _ _ _ ltac:(lia) Hr) in E1 as (bs & rest1 & -> & Hlen & -> & Hr1 & Hb1).
  destruct bs as [|b [|? ?]]; try done. replace (bits_val [b]) with (Z.b2z b) in E by (by destruct b).
  destruct b; cbn [Z.b2z Z.eqb Pos.eqb] in E.
  - injection E as <- <-. exists 0%nat, rest1. cbn. repeat split; [lia.. | done | done].
  - destruct (Z.ltb_spec 31 (z + 1)); [done |].
    destruct (IH (z + 1) _ _ _ _ Hr1 ltac:(lia) E) as (n & rest' & -> & -> & Hk & Hr' & Hb').
    exists (S n), rest'. rewrite Hb'. repeat split; [lia.. | done | done].
Qed.

Lemma u_bits_of_val bs k : length bs = k -> u_bits k (2 ^ Z.of_nat k + bits_val bs) = bs.
Proof.
  intros <-. etransitivity; [| apply u_bits_val]. apply u_bits_low.
  rewrite <- (Z.mul_1_l (2 ^ _)) at 1. rewrite Z.add_comm. apply Z.mod_add, Z.pow_nonzero; lia.
Qed.

Lemma ue_bits_of_val bs : (length bs <= 31)%nat ->
  let v := 2 ^ Z.of_nat (length bs) - 1 + bits_val bs in
  ue_range v /\ ue_bits v = replicate (length bs) false ++ true :: bs.
Proof.
  intros Hn v. pose proof (bits_val_range bs) as Hv. unfold unsigned in Hv.
  assert (1 <= 2 ^ Z.of_nat (length bs) <= 2 ^ 31)
    by (split; [change 1 with (2 ^ 0) |]; apply Z.pow_le_mono_r; lia).
  split; [subst v; unfold ue_range; pow2; lia |].
  unfold ue_bits. subst v. replace (_ - 1 + _ + 1) with (2 ^ Z.of_nat (length bs) + bits_val bs) by ring.
  rewrite (Z.log2_unique _ (Z.of_nat (length bs))) by (rewrite ?Z.pow_succ_r; lia).
  by rewrite Nat2Z.id, u_bits_of_val.
Qed.

Lemma read_ue_inv r v r' rest : reader_at r rest -> read_ue r = Ok (v, r') ->
  exists rest', rest = ue_bits v ++ rest' /\ ue_range v /\ reader_at r' rest'
    /\ br_bytes r' = br_bytes r.
Proof.
  intros Hr E. unfold read_ue in E. apply bind_Ok in E as ((k & r1) & E1 & E).
  destruct (count_zeros_inv 33 0 _ _ _ _ Hr ltac:(lia) E1) as (n & rest1 & -> & -> & Hk & Hr1 & Hb1).
  apply bind_Ok in E as ((sfx & r2) & E2 & E). injection E as <- <-.
  assert (Hs : exists bs rest2, rest1 = bs ++ rest2 /\ length bs = n /\ sfx = bits_val bs
             /\ reader_at r2 rest2 /\ br_bytes r2 = br_bytes r1).
  { destruct (Z.eqb_spec (0 + Z.of_nat n) 0) as [Hz | Hz].
    - injection E2 as <- <-. assert (n = 0%nat) as -> by lia. by exists [], rest1.
    - apply (read_bits_inv (0 + Z.of_nat n) _ _ _ _ ltac:(lia) Hr1) in E2 as (bs & rest2 & -> & Hl & -> & Hr2 & Hb2).
      exists bs, rest2. repeat split; [lia | done | done]. }
  destruct Hs as (bs & rest2 & -> & Hl & -> & Hr2 & Hb2).
  destruct (ue_bits_of_val bs ltac:(lia)) as (Hv & Eb).
  rewrite Z.add_0_l, Z.shiftl_1_l, <- Hl. rewrite uwrap_small by (unfold ue_range in Hv; urange).
  exists rest2. rewrite Eb, <- app_assoc, Hb2, Hb1. done.
Qed.

Lemma se_code_range v : se_range v -> ue_range (se_code v).
Proof. unfold se_range, ue_range, se_code. pow2. case_test; lia. Qed.

Lemma read_se_code r code : ue_range code -> (exists v, se_range v /\ se_code v = code)
  /\ forall v r', se_range v -> se_code v = code -> read_ue r = Ok (code, r') -> read_se r = Ok (v, r').
Proof.
  unfold ue_range, se_range. intros Hc. pow2. split.
  - unfold se_code. destruct (Z.odd code) eqn:Ho.
    + apply Z.odd_spec in Ho as (m & ->). exists (m + 1).
      destruct (Z.ltb_spec 0 (m + 1)); lia.
    + rewrite <- Z.negb_even in Ho. apply negb_false_iff, Z.even_spec in Ho as (m & ->).
      exists (- m). destruct (Z.ltb_spec 0 (- m)); lia.
  - intros v r' Hv Hs E. unfold read_se. rewrite E. cbn [mbind result_bind].
    change 1 with (Z.ones 1) at 1. rewrite Z.land_ones, !Z.shiftr_div_pow2 by lia. pow2.
    unfold se_code in Hs. destruct (Z.ltb_spec 0 v) as [Hp | Hp].
    + replace (code mod 2) with 1 by (apply (Z.mod_unique_pos _ _ (v - 1)); lia). cbn [negb Z.eqb].
      rewrite uwrap_small by urange. replace ((code + 1) / 2) with v by (apply (Z.div_unique_pos _ _ _ 0); lia).
      rewrite swrap_small by urange. done.
    + replace (code mod 2) with 0 by (apply (Z.mod_unique_pos _ _ (- v)); lia). cbn [negb Z.eqb].
      replace (code / 2) with (- v) by (apply (Z.div_unique_pos _ _ _ 0); lia).
      rewrite (swrap_small 32 (- v)), Z.opp_involutive, swrap_small by urange. done.
Qed.

Lemma read_se_ok v r rest : se_range v -> reader_at r (se_bits v ++ rest) ->
  exists r', read_se r = Ok (v, r') /\ reader_at r' rest /\ br_bytes r' = br_bytes r.
Proof.
  intros Hv Hr. pose proof (se_code_range v Hv) as Hc.
  destruct (read_ue_ok _ _ _ Hc Hr) as (r' & E & Hr' & Hb). exists r'.
  split; [| done]. by apply (read_se_code r (se_code v)).
Qed.

Lemma read_se_inv r v r' rest : reader_at r rest -> read_se r = Ok (v, r') ->
  exists rest', rest = se_bits v ++ rest' /\ se_range v /\ reader_at r' rest'
    /\ br_bytes r' = br_bytes r.
Proof.
  intros Hr E. pose proof E as E0. unfold read_se in E0. apply bind_Ok in E0 as ((c & r1) & E1 & E0).
  assert (r1 = r') as -> by (destruct (negb _); congruence). clear E0.
  destruct (read_ue_inv _ _ _ _ Hr E1) as (rest' & -> & Hc & Hr' & Hb).
  destruct (read_se_code r c Hc) as ((v' & Hv' & <-) & H).
  rewrite (H _ _ Hv' eq_refl E1) in E. injection E as <-. by exists rest'.
Qed.

Lemma write_se_at v w bs : se_range v -> writer_at w bs -> writer_at (write_se v w) (bs ++ se_bits v).
Proof.
  intros Hv Hw. unfold write_se, se_bits.
  replace (if 0 <? v then _ else _) with (se_code v).
  - apply write_ue_at; [by apply se_code_range | done].
  - unfold se_code, se_range in *. pow2. destruct (Z.ltb_spec 0 v).
    + rewrite (uwrap_small 32 v), (uwrap_small 32 (v * 2)) by urange. rewrite uwrap_small by urange. lia.
    + rewrite swrap_small, (uwrap_small 32 (- v)) by urange. rewrite uwrap_small by urange. lia.
Qed.

(** * Byte alignment *)

Lemma mod8_succ n :
  (n mod 8 = 7 /\ (n + 1) mod 8 = 0 \/ n mod 8 < 7 /\ (n + 1) mod 8 = n mod 8 + 1)%nat.
Proof.
  pose proof (Nat.mod_upper_bound n 8 ltac:(done)). pose proof (Nat.div_mod_eq n 8).
  destruct (decide (n mod 8 = 7)%nat); [left | right]; (split; [lia |]); symmetry.
  - apply (Nat.mod_unique _ _ (n / 8 + 1)); lia.
  - apply (Nat.mod_unique _ _ (n / 8)); lia.
Qed.

Lemma pad_to_byte_at fuel : forall w bs, writer_at w bs ->
  (fuel + length bs mod 8 >= 8)%nat \/ (length bs mod 8 = 0)%nat ->
  writer_at (pad_to_byte fuel w) (bs ++ replicate ((8 - length bs mod 8) mod 8) false).
Proof.
  induction fuel as [|fuel IH]; intros w bs Hw Hf; cbn [pad_to_byte];
    pose proof (Nat.mod_upper_bound (length bs) 8 ltac:(done)) as Hm.
  - destruct Hf as [Hf | ->]; [lia |]. by rewrite app_nil_r.
  - destruct (Nat.eqb_spec (bw_pos w mod 8) 0) as [Hz | Hnz];
      rewrite (proj1 Hw) in *; [rewrite Hz; by rewrite app_nil_r |].
    apply (write_bits_at 0 1 w bs) in Hw; [| lia].
    change (u_bits (Z.to_nat 1) 0) with [false] in Hw.
    apply IH in Hw; rewrite length_app in *; cbn [length] in *;
      destruct (mod8_succ (length bs)) as [(E7 & E) | (E7 & E)]; rewrite E in *; try lia.
    + rewrite E7, <- app_assoc in *. exact Hw.
    + rewrite <- app_assoc, Nat.mod_small in Hw by lia. rewrite Nat.mod_small by lia.
      replace (8 - length bs mod 8)%nat with (S (8 - (length bs mod 8 + 1)))%nat by lia. exact Hw.
Qed.

Lemma trailing_at w bs : writer_at w bs ->
  writer_at (write_rbsp_trailing_bits w) (bs ++ trailing (length bs)).
Proof.
  intros Hw. apply (write_bits_at 1 1 w bs) in Hw; [| lia].
  change (u_bits (Z.to_nat 1) 1) with [true] in Hw.
  apply (pad_to_byte_at 8) in Hw; [| lia]. rewrite <- app_assoc, length_app in Hw.
  unfold write_rbsp_trailing_bits, trailing. cbn [app length] in *.
  destruct (mod8_succ (length bs)) as [(E7 & E) | (E7 & E)]; rewrite E in Hw.
  - by rewrite E7.
  - rewrite Nat.mod_small in Hw by lia.
    by replace (7 - length bs mod 8)%nat with (8 - (length bs mod 8 + 1))%nat by lia.
Qed.

Lemma trailing_aligned n : ((n + length (trailing n)) mod 8 = 0)%nat.
Proof.
  unfold trailing. cbn [length]. rewrite length_replicate.
  pose proof (Nat.mod_upper_bound n 8 ltac:(done)). pose proof (Nat.div_mod_eq n 8).
  symmetry. apply (Nat.mod_unique _ _ (n / 8 + 1)); lia.
Qed.

(** A byte-aligned writer holds exactly its bits. *)
Lemma writer_bytes w bs : writer_at w bs -> (length bs mod 8 = 0)%nat ->
  bits_of (bw_bytes w) = bs /\ bytes_ok (bw_bytes w).
Proof.
  intros (_ & Hok & k & Hk & Hb) Hm. split; [| done].
  assert (E : (8 * length (bw_bytes w) = length bs + k)%nat)
    by (rewrite <- length_bits_of, Hb, length_app, length_replicate; done).
  pose proof (Nat.div_mod_eq (length bs) 8). assert (k = 0%nat) as -> by lia.
  by rewrite Hb, app_nil_r.
Qed.

