(* ===== verification/BitSim.v ===== *)
(** How the field-by-field rewriters are verified: [sim m i o a] says that the
    program [m], started on any reader that holds the bits [i] next and on any
    writer, succeeds with [a], consumes exactly [i] and appends exactly [o].
    The lemmas follow the statements of a rewriter from top to bottom; the
    tactic [sim_go] applies them. *)
From S2P Require Import Prelude Bytes Engine BitIO.

Definition sim {A} (m : SP A) (i o : list bool) (a : A) : Prop :=
  forall r w rest bs, reader_at r (i ++ rest) -> writer_at w bs ->
  exists r' w', m (r, w) = Ok (a, (r', w')) /\ reader_at r' rest /\ writer_at w' (bs ++ o).

(** A flag, an optional block behind its flag, a list of blocks. *)
Definition flag (b : bool) : list bool := [b].

Definition is_some {A} (o : option A) : bool := match o with Some _ => true | None => false end.

Definition body_bits {A} (f : A -> list bool) (o : option A) : list bool :=
  match o with None => [] | Some x => f x end.

Definition opt_bits {A} (f : A -> list bool) (o : option A) : list bool :=
  flag (is_some o) ++ body_bits f o.

Definition opt_wf {A} (P : A -> Prop) (o : option A) : Prop :=
  match o with None => True | Some x => P x end.

Definition all_bits {A} (f : A -> list bool) (l : list A) : list bool := concat (map f l).

Section Sim.
Context {A B : Type}.

Lemma sim_ret (a : A) : sim (mret a) [] [] a.
Proof. intros r w rest bs Hr Hw. exists r, w. by rewrite app_nil_r. Qed.

Lemma sim_bind (m : SP A) (f : A -> SP B) i1 o1 a i2 o2 b :
  sim m i1 o1 a -> sim (f a) i2 o2 b -> sim (m ≫= f) (i1 ++ i2) (o1 ++ o2) b.
Proof.
  intros Hm Hf r w rest bs Hr Hw. rewrite <- app_assoc in Hr.
  destruct (Hm _ _ _ _ Hr Hw) as (r1 & w1 & E1 & Hr1 & Hw1).
  destruct (Hf _ _ _ _ Hr1 Hw1) as (r2 & w2 & E2 & Hr2 & Hw2).
  exists r2, w2. rewrite app_assoc. split; [| done]. unfold mbind, SP_bind. by rewrite E1.
Qed.

Lemma sim_bind_r (m : SP A) (f : A -> SP B) i1 a i2 o b :
  sim m i1 [] a -> sim (f a) i2 o b -> sim (m ≫= f) (i1 ++ i2) o b.
Proof. intros Hm Hf. by apply (sim_bind m f i1 [] a i2 o b). Qed.

Lemma sim_bind_w (m : SP A) (f : A -> SP B) o1 a i o2 b :
  sim m [] o1 a -> sim (f a) i o2 b -> sim (m ≫= f) i (o1 ++ o2) b.
Proof. intros Hm Hf. by apply (sim_bind m f [] o1 a i o2 b). Qed.
End Sim.

(** * The statements *)

Lemma sim_rd {A} (f : BitReader -> EngineResult (A * BitReader)) i a :
  (forall r rest, reader_at r (i ++ rest) ->
     exists r', f r = Ok (a, r') /\ reader_at r' rest /\ br_bytes r' = br_bytes r) ->
  sim (rd f) i [] a.
Proof.
  intros Hf r w rest bs Hr Hw. destruct (Hf _ _ Hr) as (r' & E & Hr' & _).
  exists r', w. unfold rd. by rewrite E, app_nil_r.
Qed.

Lemma sim_wr f o : (forall w bs, writer_at w bs -> writer_at (f w) (bs ++ o)) -> sim (wr f) [] o tt.
Proof. intros Hf r w rest bs Hr Hw. exists r, (f w). by split; [| split; [| apply Hf]]. Qed.

Lemma sim_read_u n k v : k = Z.to_nat n -> unsigned n v -> 0 <= n <= 32 ->
  sim (rd (read_bits n)) (u_bits k v) [] v.
Proof.
  intros -> Hv Hn. apply sim_rd. intros r rest Hr.
  destruct (read_bits_ok n _ _ _ Hr) as (r' & E & H); [apply length_u_bits | lia |].
  exists r'. rewrite bits_val_u_small in E by (by rewrite Z2Nat.id by lia). done.
Qed.

Lemma sim_read_ue v : ue_range v -> sim (rd read_ue) (ue_bits v) [] v.
Proof. intros Hv. apply sim_rd. intros r rest Hr. by apply read_ue_ok. Qed.

Lemma sim_read_se v : se_range v -> sim (rd read_se) (se_bits v) [] v.
Proof. intros Hv. apply sim_rd. intros r rest Hr. by apply read_se_ok. Qed.

Lemma sim_put_u n k v : k = Z.to_nat n -> n <= 32 -> sim (put_u v n) [] (u_bits k v) tt.
Proof. intros -> Hn. apply sim_wr. intros w bs Hw. by apply write_bits_at. Qed.

Lemma sim_put_ue v : ue_range v -> sim (put_ue v) [] (ue_bits v) tt.
Proof. intros Hv. apply sim_wr. intros w bs Hw. by apply write_ue_at. Qed.

(** A read whose value is written back, and a program whose value is dropped. *)
Lemma sim_copy {A} (m : SP A) (g : A -> SP unit) i o v : sim m i [] v -> sim (g v) [] o tt ->
  sim (v ← m; g v;; mret v) i o v.
Proof.
  intros Hm Hg. rewrite <- (app_nil_r i). eapply sim_bind_r; [done |].
  rewrite <- (app_nil_r o). eapply sim_bind_w; [done | apply sim_ret].
Qed.

Lemma sim_drop {A} (m : SP A) i o a : sim m i o a -> sim (m;; mret tt) i o tt.
Proof.
  intros Hm. rewrite <- (app_nil_r i), <- (app_nil_r o). eapply sim_bind; [done | apply sim_ret].
Qed.

Lemma sim_copy_u n k v : k = Z.to_nat n -> unsigned n v -> 0 <= n <= 32 ->
  sim (copy_u n) (u_bits k v) (u_bits k v) v.
Proof.
  intros Hk Hv Hn. apply (sim_copy _ (fun v => put_u v n)).
  - by apply sim_read_u.
  - apply sim_put_u; [done | lia].
Qed.

Lemma sim_copy_ue v : ue_range v -> sim copy_ue (ue_bits v) (ue_bits v) v.
Proof. intros Hv. apply (sim_copy _ put_ue); [by apply sim_read_ue | by apply sim_put_ue]. Qed.

Lemma sim_copy_se v : se_range v -> sim copy_se (se_bits v) (se_bits v) v.
Proof.
  intros Hv. apply (sim_copy _ (fun v => wr (write_se v))); [by apply sim_read_se |].
  apply sim_wr. intros w bs Hw. by apply write_se_at.
Qed.

Lemma b2z_u1 b : unsigned 1 (Z.b2z b).
Proof. destruct b; done. Qed.

Lemma sim_read_flag b : sim (rd (read_bits 1)) (flag b) [] (Z.b2z b).
Proof. destruct b; [apply (sim_read_u 1 1%nat 1) | apply (sim_read_u 1 1%nat 0)]; done. Qed.

Lemma sim_copy_flag b : sim (copy_u 1) (flag b) (flag b) (Z.b2z b).
Proof. destruct b; [apply (sim_copy_u 1 1%nat 1) | apply (sim_copy_u 1 1%nat 0)]; done. Qed.

Lemma sim_put_flag b v : v = Z.b2z b -> sim (put_u v 1) [] (flag b) tt.
Proof. intros ->. destruct b; [apply (sim_put_u 1 1%nat 1) | apply (sim_put_u 1 1%nat 0)]; done. Qed.

(** * Control flow *)

Lemma b2z_is_1 b : (Z.b2z b =? 1) = b.
Proof. by destruct b. Qed.

Lemma b2z_is_0 b : (Z.b2z b =? 0) = negb b.
Proof. by destruct b. Qed.

(** An optional block that is copied, one that is read and dropped. *)
Lemma sim_opt {A} (P : A -> Prop) (f g : A -> list bool) m :
  (forall x, P x -> sim m (f x) (g x) tt) -> forall o, opt_wf P o ->
  sim (when (is_some o) m) (body_bits f o) (body_bits g o) tt.
Proof. intros H [x|] Hx; [by apply H | apply sim_ret]. Qed.

Lemma sim_opt_skip {A} (P : A -> Prop) (f : A -> list bool) m :
  (forall x, P x -> sim m (f x) [] tt) -> forall o, opt_wf P o ->
  sim (when (is_some o) m) (body_bits f o) [] tt.
Proof. intros H [x|] Hx; [by apply H | apply sim_ret]. Qed.

Lemma sim_opt_flag (o : option bool) :
  sim (when (is_some o) (pass_u 1)) (body_bits flag o) (body_bits flag o) tt.
Proof.
  apply (sim_opt (fun _ => True)); [| by destruct o]. intros b _. eapply sim_drop, sim_copy_flag.
Qed.

Lemma sim_if {A} (b : bool) (m1 m2 : SP A) i o a :
  (b = true -> sim m1 i o a) -> (b = false -> sim m2 i o a) -> sim (if b then m1 else m2) i o a.
Proof. destruct b; auto. Qed.

Lemma sim_repeat {A} (f g : A -> list bool) (l : list A) n m :
  n = length l -> Forall (fun x => sim m (f x) (g x) tt) l ->
  sim (repeat_sp n m) (all_bits f l) (all_bits g l) tt.
Proof.
  intros -> H. induction H as [|x l Hx _ IH]; [apply sim_ret |].
  unfold all_bits in *. cbn [repeat_sp length map concat]. by eapply sim_bind.
Qed.

(** * The tactic *)

Ltac sim_range :=
  first [ assumption | reflexivity | lia
        | unfold ue_range, se_range, unsigned in *; pow2; lia ].

(** The statement at the head of the program.  [ext] is the list of lemmas
    on the functions it calls. *)
Ltac sim_stmt ext :=
  lazymatch goal with
  | |- sim (rd (read_bits 1)) (flag _) _ _ => apply sim_read_flag
  | |- sim (rd (read_bits _)) _ _ _ => apply sim_read_u; [reflexivity | sim_range | lia]
  | |- sim (rd read_ue) _ _ _ => apply sim_read_ue; sim_range
  | |- sim (put_u _ 1) _ (flag _) _ => apply sim_put_flag; reflexivity
  | |- sim (put_u _ _) _ _ _ => apply sim_put_u; [reflexivity | lia]
  | |- sim (put_ue _) _ _ _ => apply sim_put_ue; sim_range
  | |- sim (copy_u 1) (flag _) _ _ => apply sim_copy_flag
  | |- sim (copy_u _) _ _ _ => apply sim_copy_u; [reflexivity | sim_range | lia]
  | |- sim copy_ue _ _ _ => apply sim_copy_ue; sim_range
  | |- sim copy_se _ _ _ => apply sim_copy_se; sim_range
  | |- sim (mret _) _ _ _ => apply sim_ret
  | |- sim (pass_u _) _ _ _ => unfold pass_u; eapply sim_drop; sim_stmt ext
  | |- sim pass_ue _ _ _ => unfold pass_ue; eapply sim_drop; sim_stmt ext
  | |- sim pass_se _ _ _ => unfold pass_se; eapply sim_drop; sim_stmt ext
  | |- sim (skip_u _) _ _ _ => unfold skip_u; eapply sim_drop; sim_stmt ext
  | |- sim skip_ue _ _ _ => unfold skip_ue; eapply sim_drop; sim_stmt ext
  | |- sim (when _ (pass_u 1)) (body_bits flag _) _ _ => apply sim_opt_flag
  | |- _ => ext
  end.

Ltac sim_step ext :=
  rewrite ?b2z_is_1, ?b2z_is_0;
  repeat match goal with H : is_some _ = _ |- _ => rewrite <- H end;
  lazymatch goal with
  | |- sim (_ ≫= _) _ _ _ =>
      first [ eapply sim_bind; [ solve [ sim_stmt ext ] |]
            | eapply sim_bind_r; [ solve [ sim_stmt ext ] |]
            | eapply sim_bind_w; [ solve [ sim_stmt ext ] |] ]
  | |- _ => sim_stmt ext
  end.

Ltac sim_go ext := unfold opt_bits; rewrite <- ?app_assoc; repeat sim_step ext.

(** * What a successful run has read

    The converse: [reads m Q] says that when [m] succeeds with [a], the bits
    it has consumed are some [i] with [Q a i].  Read in continuation style,
    each statement adds its bits in front of what its continuation reads. *)

Definition reads {A} (m : SP A) (Q : A -> list bool -> Prop) : Prop :=
  forall r w inp a r' w', reader_at r inp -> m (r, w) = Ok (a, (r', w')) ->
  exists i rest, inp = i ++ rest /\ reader_at r' rest /\ Q a i.

(** [i] is the encoding of some well-formed [x]. *)
Definition encodes {A X} (P : X -> Prop) (f : X -> list bool) (_ : A) (i : list bool) : Prop :=
  exists x, P x /\ i = f x.

Lemma reads_ret {A} (a : A) (Q : A -> list bool -> Prop) : Q a [] -> reads (mret a) Q.
Proof. intros HQ r w inp a' r' w' Hr E. injection E as <- <- <-. by exists [], inp. Qed.

Lemma reads_fail {A} e (Q : A -> list bool -> Prop) : reads (fail e) Q.
Proof. intros r w inp a' r' w' Hr E. done. Qed.

Lemma reads_bind {A B} (m : SP A) (f : A -> SP B) R (Q : B -> list bool -> Prop) :
  reads m R -> (forall a i, R a i -> reads (f a) (fun b i' => Q b (i ++ i'))) -> reads (m ≫= f) Q.
Proof.
  intros Hm Hf r w inp b r' w' Hr E. unfold mbind, SP_bind in E.
  destruct (m (r, w)) as [(a & (r1 & w1))|] eqn:E1; [| done].
  destruct (Hm _ _ _ _ _ _ Hr E1) as (i & rest & -> & Hr1 & HR).
  destruct (Hf _ _ HR _ _ _ _ _ _ Hr1 E) as (i' & rest' & -> & Hr2 & HQ).
  exists (i ++ i'), rest'. by rewrite <- app_assoc.
Qed.

(** A program in tail position. *)
Lemma reads_tail (m : SP unit) Q : reads (m;; mret tt) Q -> reads m Q.
Proof.
  intros H r w inp a r' w' Hr E. apply (H r w inp a r' w' Hr).
  unfold mbind, SP_bind. rewrite E. by destruct a.
Qed.

Lemma reads_weaken {A} (m : SP A) (R Q : A -> list bool -> Prop) :
  reads m R -> (forall a i, R a i -> Q a i) -> reads m Q.
Proof. intros Hm H r w inp a r' w' Hr E.
  destruct (Hm _ _ _ _ _ _ Hr E) as (i & rest & -> & Hr' & HR). exists i, rest. auto.
Qed.

Lemma reads_rd_u n : 0 <= n <= 32 ->
  reads (rd (read_bits n)) (fun v i => unsigned n v /\ i = u_bits (Z.to_nat n) v).
Proof.
  intros Hn r w inp a r' w' Hr E. unfold rd in E.
  destruct (read_bits n r) as [(v & r1)|] eqn:E1; [| done]. injection E as <- <- <-.
  destruct (read_bits_inv n _ _ _ _ (proj2 Hn) Hr E1) as (i & rest & -> & Hl & -> & Hr1 & _).
  exists i, rest. pose proof (bits_val_range i) as Hv.
  rewrite <- Hl, u_bits_val. rewrite Hl, Z2Nat.id in Hv by lia. done.
Qed.

Lemma reads_rd_ue : reads (rd read_ue) (fun v i => ue_range v /\ i = ue_bits v).
Proof.
  intros r w inp a r' w' Hr E. unfold rd in E.
  destruct (read_ue r) as [(v & r1)|] eqn:E1; [| done]. injection E as <- <- <-.
  destruct (read_ue_inv _ _ _ _ Hr E1) as (rest & -> & Hv & Hr1 & _). by exists (ue_bits v), rest.
Qed.

Lemma reads_rd_se : reads (rd read_se) (fun v i => se_range v /\ i = se_bits v).
Proof.
  intros r w inp a r' w' Hr E. unfold rd in E.
  destruct (read_se r) as [(v & r1)|] eqn:E1; [| done]. injection E as <- <- <-.
  destruct (read_se_inv _ _ _ _ Hr E1) as (rest & -> & Hv & Hr1 & _). by exists (se_bits v), rest.
Qed.

Lemma reads_wr f : reads (wr f) (fun _ i => i = []).
Proof. intros r w inp a r' w' Hr E. injection E as <- <- <-. by exists [], inp. Qed.

Lemma reads_copy {A} (m : SP A) (g : A -> SP unit) R :
  reads m R -> (forall a, reads (g a) (fun _ i => i = [])) -> reads (v ← m; g v;; mret v) R.
Proof.
  intros Hm Hg. eapply reads_bind; [exact Hm |]. intros a i Ha.
  eapply reads_bind; [apply Hg |]. intros _ ? ->. apply reads_ret. by rewrite app_nil_r.
Qed.

Lemma reads_copy_u n : 0 <= n <= 32 ->
  reads (copy_u n) (fun v i => unsigned n v /\ i = u_bits (Z.to_nat n) v).
Proof.
  intros Hn. apply (reads_copy _ (fun v => put_u v n)); [by apply reads_rd_u |].
  intros a. apply reads_wr.
Qed.

Lemma reads_copy_ue : reads copy_ue (fun v i => ue_range v /\ i = ue_bits v).
Proof. apply (reads_copy _ put_ue); [exact reads_rd_ue |]. intros a. apply reads_wr. Qed.

Lemma reads_copy_se : reads copy_se (fun v i => se_range v /\ i = se_bits v).
Proof.
  apply (reads_copy _ (fun v => wr (write_se v))); [exact reads_rd_se |]. intros a. apply reads_wr.
Qed.

Lemma reads_flag m : reads m (fun v i => unsigned 1 v /\ i = u_bits (Z.to_nat 1) v) ->
  reads m (fun v i => exists b, v = Z.b2z b /\ i = flag b).
Proof.
  intros H. eapply reads_weaken; [exact H |]. intros v i (Hv & ->).
  unfold unsigned in Hv. change (2 ^ 1) with 2 in Hv.
  assert (v = 0 \/ v = 1) as [-> | ->] by lia; [by exists false | by exists true].
Qed.

Lemma reads_drop {A} (m : SP A) (Q : A -> list bool -> Prop) :
  reads m Q -> reads (m;; mret tt) (fun _ i => exists a, Q a i).
Proof.
  intros H. eapply reads_bind; [exact H |]. intros a i HQ. apply reads_ret.
  exists a. by rewrite app_nil_r.
Qed.

Lemma reads_when {X} (P : X -> Prop) (f : X -> list bool) b m : reads m (encodes P f) ->
  reads (when b m) (fun _ i => exists o, is_some o = b /\ opt_wf P o /\ i = body_bits f o).
Proof.
  intros H. destruct b.
  - eapply reads_weaken; [exact H |]. intros _ i (x & Hx & ->). by exists (Some x).
  - apply reads_ret. by exists None.
Qed.

Lemma reads_repeat {X} (P : X -> Prop) (f : X -> list bool) n m : reads m (encodes P f) ->
  reads (repeat_sp n m) (fun _ i => exists l, length l = n /\ Forall P l /\ i = all_bits f l).
Proof.
  intros H. induction n as [|n IH]; cbn [repeat_sp].
  - apply reads_ret. by exists [].
  - eapply reads_bind; [exact H |]. intros _ i (x & Hx & ->).
    eapply reads_weaken; [exact IH |]. intros _ j (l & <- & Hl & ->).
    exists (x :: l). repeat split; by constructor.
Qed.

(** The statement at the head of the program, its bits named; [ext] handles
    the calls. *)
Ltac reads_head :=
  lazymatch goal with
  | |- reads (rd (read_bits 1)) _ => eapply reads_flag, reads_rd_u; lia
  | |- reads (rd (read_bits _)) _ => eapply reads_rd_u; lia
  | |- reads (rd read_ue) _ => eapply reads_rd_ue
  | |- reads (copy_u 1) _ => eapply reads_flag, reads_copy_u; lia
  | |- reads (copy_u _) _ => eapply reads_copy_u; lia
  | |- reads copy_ue _ => eapply reads_copy_ue
  | |- reads copy_se _ => eapply reads_copy_se
  | |- reads (put_u _ _) _ => eapply reads_wr
  | |- reads (put_ue _) _ => eapply reads_wr
  | |- reads (pass_u _) _ => eapply reads_drop; reads_head
  | |- reads pass_ue _ => eapply reads_drop; reads_head
  | |- reads pass_se _ => eapply reads_drop; reads_head
  | |- reads (skip_u _) _ => eapply reads_drop; reads_head
  | |- reads skip_ue _ => eapply reads_drop; reads_head
  end.

Ltac crack H :=
  cbv beta in H;
  lazymatch type of H with
  | exists _, _ => let x := fresh "v" in destruct H as [x H]; crack H
  | _ /\ _ => let H' := fresh in destruct H as [H' H]; crack H'; crack H
  | encodes _ _ _ _ => unfold encodes in H; crack H
  | _ => idtac
  end.

Ltac reads_names :=
  let i := fresh "i" in let H := fresh in
  intros ? i H; crack H; subst; rewrite ?b2z_is_1, ?b2z_is_0.

Ltac reads_step ext :=
  lazymatch goal with
  | |- reads (_ ≫= _) _ =>
      eapply reads_bind; [ solve [ first [ reads_head | ext ] ] | reads_names ]
  | |- reads (mret _) _ => apply reads_ret; rewrite ?app_nil_r
  | |- reads (fail _) _ => apply reads_fail
  | |- reads (if _ then _ else _) _ => idtac
  | |- _ => apply reads_tail
  end.

Ltac reads_go ext := repeat reads_step ext.

(** Closes [encodes P f _ i] for the record given with [eexists]. *)
Ltac encoded_by P f :=
  split;
  [| unfold f, opt_bits; rewrite <- ?app_assoc; cbn [fst snd]; rewrite ?app_nil_l, ?app_nil_r;
     reflexivity ];
  unfold P; repeat match goal with |- _ /\ _ => split end; try assumption.
