(* ===== verification/SpsH264.v ===== *)
(** The H.264 half of [crates/penflow-core/src/encoder/sps_patcher.rs]: the
    rewriter of a sequence parameter set, and the syntax of H.264 7.3.2.1.1 /
    E.1.1 it is verified against. *)
From S2P Require Import Prelude Bytes Engine BitIO BitSim.

(** * The rewriter *)

Definition write_full_range_bt709_video_signal_type : SP unit :=
  put_u 1 1;; put_u 5 3;; put_u 1 1;; put_u 1 1;; put_u 1 8;; put_u 1 8;; put_u 1 8.

Definition copy_h264_hrd_parameters : SP unit :=
  cpb_cnt_minus1 ← copy_ue;
  pass_u 4;;
  pass_u 4;;
  repeat_sp (Z.to_nat (cpb_cnt_minus1 + 1)) (pass_ue;; pass_ue;; pass_u 1);;
  pass_u 5;;
  pass_u 5;;
  pass_u 5;;
  pass_u 5.

(** The aspect ratio and overscan blocks open both the H.264 and the HEVC
    VUI, with the same code. *)
Definition copy_aspect_ratio : SP unit :=
  aspect_ratio_idc ← copy_u 8;
  when (aspect_ratio_idc =? 255) (pass_u 16;; pass_u 16).

(** The input's video_signal_type, read and discarded. *)
Definition skip_video_signal_type : SP unit :=
  skip_u 3;;
  skip_u 1;;
  colour_desc ← rd (read_bits 1);
  when (colour_desc =? 1) (skip_u 8;; skip_u 8;; skip_u 8).

Definition copy_h264_vui_with_patched_bitstream_restriction : SP unit :=
  aspect_ratio_info ← copy_u 1;
  when (aspect_ratio_info =? 1) copy_aspect_ratio;;
  overscan_info_present ← copy_u 1;
  when (overscan_info_present =? 1) (pass_u 1);;
  video_signal_type_present ← rd (read_bits 1);
  when (video_signal_type_present =? 1) skip_video_signal_type;;
  write_full_range_bt709_video_signal_type;;
  chroma_loc_info_present ← copy_u 1;
  when (chroma_loc_info_present =? 1) (pass_ue;; pass_ue);;
  timing_info_present ← copy_u 1;
  when (timing_info_present =? 1) (pass_u 32;; pass_u 32;; pass_u 1);;
  nal_hrd ← copy_u 1;
  when (nal_hrd =? 1) copy_h264_hrd_parameters;;
  vcl_hrd ← copy_u 1;
  when (vcl_hrd =? 1) copy_h264_hrd_parameters;;
  when ((nal_hrd =? 1) || (vcl_hrd =? 1)) (pass_u 1);;
  pass_u 1;;
  bitstream_restriction ← rd (read_bits 1);
  when (bitstream_restriction =? 1)
    (skip_u 1;; skip_ue;; skip_ue;; skip_ue;; skip_ue;; skip_ue;; skip_ue);;
  put_u 1 1;; put_u 1 1;; put_ue 0;; put_ue 0;; put_ue 16;; put_ue 16;; put_ue 0;; put_ue 1.

Definition emit_minimal_h264_vui : SP unit :=
  put_u 0 1;;
  put_u 0 1;;
  write_full_range_bt709_video_signal_type;;
  put_u 0 1;; put_u 0 1;; put_u 0 1;; put_u 0 1;; put_u 0 1;;
  put_u 1 1;; put_u 1 1;; put_ue 0;; put_ue 0;; put_ue 16;; put_ue 16;; put_ue 0;; put_ue 1.

(** The profiles that carry the chroma block. *)
Definition has_chroma_block (profile_idc : Z) : bool :=
  existsb (Z.eqb profile_idc) [100; 110; 122; 244; 44; 83; 86; 118; 128; 138; 139; 134; 135].

Definition copy_h264_chroma_block : SP unit :=
  chroma_format_idc ← copy_ue;
  when (chroma_format_idc =? 3) (pass_u 1);;
  pass_ue;;
  pass_ue;;
  pass_u 1;;
  scaling_present ← copy_u 1;
  if scaling_present =? 1 then fail NotInitialized else mret tt.

Definition copy_h264_pic_order_cnt : SP unit :=
  pic_order_cnt_type ← copy_ue;
  if pic_order_cnt_type =? 0 then pass_ue
  else if pic_order_cnt_type =? 1 then
    pass_u 1;;
    pass_se;;
    pass_se;;
    n ← copy_ue;
    repeat_sp (Z.to_nat n) pass_se
  else mret tt.

(** Everything before [write_rbsp_trailing_bits]. *)
Definition copy_h264_sps_fields : SP unit :=
  profile_idc ← copy_u 8;
  pass_u 8;;
  pass_u 8;;
  pass_ue;;
  when (has_chroma_block profile_idc) copy_h264_chroma_block;;
  pass_ue;;
  copy_h264_pic_order_cnt;;
  skip_ue;;
  put_ue 1;;
  pass_u 1;;
  pass_ue;;
  pass_ue;;
  frame_mbs_only ← copy_u 1;
  when (frame_mbs_only =? 0) (pass_u 1);;
  pass_u 1;;
  crop ← copy_u 1;
  when (crop =? 1) (repeat_sp 4 pass_ue);;
  vui_present ← rd (read_bits 1);
  put_u 1 1;;
  if vui_present =? 1 then copy_h264_vui_with_patched_bitstream_restriction
  else emit_minimal_h264_vui.

Definition patch_h264_sps_rbsp (rbsp : list Z) : EngineResult (list Z) :=
  '(_, (_, w)) ← run_sp copy_h264_sps_fields rbsp;
  Ok (bw_bytes (write_rbsp_trailing_bits w)).

(** * The syntax *)

Record VideoSignal := { vs_format : Z; vs_full_range : bool; vs_colour : option (Z * Z * Z) }.

Definition colour_bits (c : Z * Z * Z) : list bool :=
  u_bits 8 c.1.1 ++ u_bits 8 c.1.2 ++ u_bits 8 c.2.

Definition video_signal_bits (v : VideoSignal) : list bool :=
  u_bits 3 (vs_format v) ++ flag (vs_full_range v) ++ opt_bits colour_bits (vs_colour v).

Definition video_signal_wf (v : VideoSignal) : Prop :=
  unsigned 3 (vs_format v) /\ opt_wf (fun c => u8 c.1.1 /\ u8 c.1.2 /\ u8 c.2) (vs_colour v).

(** Unspecified format, full range, BT.709 primaries, transfer and matrix. *)
Definition full_range_bt709 : VideoSignal :=
  {| vs_format := 5; vs_full_range := true; vs_colour := Some (1, 1, 1) |}.

Record Aspect := { as_idc : Z; as_sar : option (Z * Z) }.

Definition aspect_bits (a : Aspect) : list bool :=
  u_bits 8 (as_idc a) ++ body_bits (fun s => u_bits 16 s.1 ++ u_bits 16 s.2) (as_sar a).

Definition aspect_wf (a : Aspect) : Prop :=
  u8 (as_idc a) /\ is_some (as_sar a) = (as_idc a =? 255)
  /\ opt_wf (fun s => u16 s.1 /\ u16 s.2) (as_sar a).

Definition ue2_bits (p : Z * Z) : list bool := ue_bits p.1 ++ ue_bits p.2.

Definition ue2_wf (p : Z * Z) : Prop := ue_range p.1 /\ ue_range p.2.

Record H264Hrd := {
  hrd_bit_rate_scale : Z;
  hrd_cpb_size_scale : Z;
  hrd_cpbs : list (Z * Z * bool);
  hrd_initial_delay_length : Z;
  hrd_cpb_delay_length : Z;
  hrd_dpb_delay_length : Z;
  hrd_time_offset_length : Z;
}.

Definition cpb_bits (c : Z * Z * bool) : list bool :=
  ue_bits c.1.1 ++ ue_bits c.1.2 ++ flag c.2.

Definition hrd_bits (h : H264Hrd) : list bool :=
  ue_bits (Z.of_nat (length (hrd_cpbs h)) - 1)
  ++ u_bits 4 (hrd_bit_rate_scale h) ++ u_bits 4 (hrd_cpb_size_scale h)
  ++ all_bits cpb_bits (hrd_cpbs h)
  ++ u_bits 5 (hrd_initial_delay_length h) ++ u_bits 5 (hrd_cpb_delay_length h)
  ++ u_bits 5 (hrd_dpb_delay_length h) ++ u_bits 5 (hrd_time_offset_length h).

Definition hrd_wf (h : H264Hrd) : Prop :=
  1 <= Z.of_nat (length (hrd_cpbs h)) < 2 ^ 32
  /\ unsigned 4 (hrd_bit_rate_scale h) /\ unsigned 4 (hrd_cpb_size_scale h)
  /\ Forall (fun c => ue_range c.1.1 /\ ue_range c.1.2) (hrd_cpbs h)
  /\ unsigned 5 (hrd_initial_delay_length h) /\ unsigned 5 (hrd_cpb_delay_length h)
  /\ unsigned 5 (hrd_dpb_delay_length h) /\ unsigned 5 (hrd_time_offset_length h).

Record H264Restriction := {
  br_mv_over_boundaries : bool;
  br_max_bytes_per_pic : Z;
  br_max_bits_per_mb : Z;
  br_log2_mv_horizontal : Z;
  br_log2_mv_vertical : Z;
  br_max_num_reorder_frames : Z;
  br_max_dec_frame_buffering : Z;
}.

Definition restriction_bits (b : H264Restriction) : list bool :=
  flag (br_mv_over_boundaries b)
  ++ ue_bits (br_max_bytes_per_pic b) ++ ue_bits (br_max_bits_per_mb b)
  ++ ue_bits (br_log2_mv_horizontal b) ++ ue_bits (br_log2_mv_vertical b)
  ++ ue_bits (br_max_num_reorder_frames b) ++ ue_bits (br_max_dec_frame_buffering b).

Definition restriction_wf (b : H264Restriction) : Prop :=
  ue_range (br_max_bytes_per_pic b) /\ ue_range (br_max_bits_per_mb b)
  /\ ue_range (br_log2_mv_horizontal b) /\ ue_range (br_log2_mv_vertical b)
  /\ ue_range (br_max_num_reorder_frames b) /\ ue_range (br_max_dec_frame_buffering b).

(** No reordering and one decoded frame; the other fields set no limit on sizes,
    and the default one on motion vectors. *)
Definition one_deep_dpb : H264Restriction :=
  {| br_mv_over_boundaries := true; br_max_bytes_per_pic := 0; br_max_bits_per_mb := 0;
     br_log2_mv_horizontal := 16; br_log2_mv_vertical := 16;
     br_max_num_reorder_frames := 0; br_max_dec_frame_buffering := 1 |}.

Definition timing_bits (t : Z * Z * bool) : list bool :=
  u_bits 32 t.1.1 ++ u_bits 32 t.1.2 ++ flag t.2.

Record H264Vui := {
  vui_aspect : option Aspect;
  vui_overscan : option bool;
  vui_video_signal : option VideoSignal;
  vui_chroma_loc : option (Z * Z);
  vui_timing : option (Z * Z * bool);
  vui_nal_hrd : option H264Hrd;
  vui_vcl_hrd : option H264Hrd;
  vui_low_delay_hrd : option bool;
  vui_pic_struct : bool;
  vui_restriction : option H264Restriction;
}.

Definition vui_bits (v : H264Vui) : list bool :=
  opt_bits aspect_bits (vui_aspect v)
  ++ opt_bits flag (vui_overscan v)
  ++ opt_bits video_signal_bits (vui_video_signal v)
  ++ opt_bits ue2_bits (vui_chroma_loc v)
  ++ opt_bits timing_bits (vui_timing v)
  ++ opt_bits hrd_bits (vui_nal_hrd v)
  ++ opt_bits hrd_bits (vui_vcl_hrd v)
  ++ body_bits flag (vui_low_delay_hrd v)
  ++ flag (vui_pic_struct v)
  ++ opt_bits restriction_bits (vui_restriction v).

Definition vui_wf (v : H264Vui) : Prop :=
  opt_wf aspect_wf (vui_aspect v)
  /\ opt_wf video_signal_wf (vui_video_signal v)
  /\ opt_wf ue2_wf (vui_chroma_loc v)
  /\ opt_wf (fun t => u32 t.1.1 /\ u32 t.1.2) (vui_timing v)
  /\ opt_wf hrd_wf (vui_nal_hrd v)
  /\ opt_wf hrd_wf (vui_vcl_hrd v)
  /\ is_some (vui_low_delay_hrd v) = is_some (vui_nal_hrd v) || is_some (vui_vcl_hrd v)
  /\ opt_wf restriction_wf (vui_restriction v).

Definition empty_vui : H264Vui :=
  {| vui_aspect := None; vui_overscan := None; vui_video_signal := None; vui_chroma_loc := None;
     vui_timing := None; vui_nal_hrd := None; vui_vcl_hrd := None; vui_low_delay_hrd := None;
     vui_pic_struct := false; vui_restriction := None |}.

(** What the rewriter is meant to do to a VUI: only the video signal type and
    the bitstream restriction change. *)
Definition vui_low_latency (v : H264Vui) : H264Vui :=
  {| vui_aspect := vui_aspect v; vui_overscan := vui_overscan v;
     vui_video_signal := Some full_range_bt709;
     vui_chroma_loc := vui_chroma_loc v; vui_timing := vui_timing v;
     vui_nal_hrd := vui_nal_hrd v; vui_vcl_hrd := vui_vcl_hrd v;
     vui_low_delay_hrd := vui_low_delay_hrd v; vui_pic_struct := vui_pic_struct v;
     vui_restriction := Some one_deep_dpb |}.

Record H264Chroma := {
  ch_format_idc : Z;
  ch_separate_plane : option bool;
  ch_bit_depth_luma : Z;
  ch_bit_depth_chroma : Z;
  ch_transform_bypass : bool;
}.

(** The last flag says that there are no scaling lists. *)
Definition chroma_bits (c : H264Chroma) : list bool :=
  ue_bits (ch_format_idc c) ++ body_bits flag (ch_separate_plane c)
  ++ ue_bits (ch_bit_depth_luma c) ++ ue_bits (ch_bit_depth_chroma c)
  ++ flag (ch_transform_bypass c) ++ flag false.

Definition chroma_wf (c : H264Chroma) : Prop :=
  ue_range (ch_format_idc c) /\ is_some (ch_separate_plane c) = (ch_format_idc c =? 3)
  /\ ue_range (ch_bit_depth_luma c) /\ ue_range (ch_bit_depth_chroma c).

Inductive PicOrderCnt :=
| PocLsb (log2_max_minus4 : Z)
| PocCycle (delta_always_zero : bool) (non_ref top_bottom : Z) (cycle : list Z)
| PocOther (kind : Z).

Definition poc_bits (p : PicOrderCnt) : list bool :=
  match p with
  | PocLsb v => ue_bits 0 ++ ue_bits v
  | PocCycle f a b l =>
      ue_bits 1 ++ flag f ++ se_bits a ++ se_bits b
      ++ ue_bits (Z.of_nat (length l)) ++ all_bits se_bits l
  | PocOther k => ue_bits k
  end.

Definition poc_wf (p : PicOrderCnt) : Prop :=
  match p with
  | PocLsb v => ue_range v
  | PocCycle _ a b l =>
      se_range a /\ se_range b /\ Z.of_nat (length l) < 2 ^ 32 - 1 /\ Forall se_range l
  | PocOther k => ue_range k /\ 2 <= k
  end.

Record H264Sps := {
  sps_profile_idc : Z;
  sps_constraint_flags : Z;
  sps_level_idc : Z;
  sps_id : Z;
  sps_chroma : option H264Chroma;
  sps_log2_max_frame_num : Z;
  sps_poc : PicOrderCnt;
  sps_max_num_ref_frames : Z;
  sps_gaps_allowed : bool;
  sps_width_in_mbs : Z;
  sps_height_in_map_units : Z;
  sps_frame_mbs_only : bool;
  sps_mb_adaptive : option bool;
  sps_direct_8x8 : bool;
  sps_crop : option (list Z);
  sps_vui : option H264Vui;
}.

Definition h264_sps_bits (s : H264Sps) : list bool :=
  u_bits 8 (sps_profile_idc s) ++ u_bits 8 (sps_constraint_flags s) ++ u_bits 8 (sps_level_idc s)
  ++ ue_bits (sps_id s)
  ++ body_bits chroma_bits (sps_chroma s)
  ++ ue_bits (sps_log2_max_frame_num s)
  ++ poc_bits (sps_poc s)
  ++ ue_bits (sps_max_num_ref_frames s)
  ++ flag (sps_gaps_allowed s)
  ++ ue_bits (sps_width_in_mbs s) ++ ue_bits (sps_height_in_map_units s)
  ++ flag (sps_frame_mbs_only s) ++ body_bits flag (sps_mb_adaptive s)
  ++ flag (sps_direct_8x8 s)
  ++ opt_bits (all_bits ue_bits) (sps_crop s)
  ++ opt_bits vui_bits (sps_vui s).

Definition h264_sps_wf (s : H264Sps) : Prop :=
  u8 (sps_profile_idc s) /\ u8 (sps_constraint_flags s) /\ u8 (sps_level_idc s)
  /\ ue_range (sps_id s)
  /\ is_some (sps_chroma s) = has_chroma_block (sps_profile_idc s)
  /\ opt_wf chroma_wf (sps_chroma s)
  /\ ue_range (sps_log2_max_frame_num s)
  /\ poc_wf (sps_poc s)
  /\ ue_range (sps_max_num_ref_frames s)
  /\ ue_range (sps_width_in_mbs s) /\ ue_range (sps_height_in_map_units s)
  /\ is_some (sps_mb_adaptive s) = negb (sps_frame_mbs_only s)
  /\ opt_wf (fun c => length c = 4%nat /\ Forall ue_range c) (sps_crop s)
  /\ opt_wf vui_wf (sps_vui s).

(** One reference frame, and a VUI that declares no reordering; a missing VUI
    becomes one with nothing else in it. *)
Definition h264_low_latency (s : H264Sps) : H264Sps :=
  {| sps_profile_idc := sps_profile_idc s; sps_constraint_flags := sps_constraint_flags s;
     sps_level_idc := sps_level_idc s; sps_id := sps_id s; sps_chroma := sps_chroma s;
     sps_log2_max_frame_num := sps_log2_max_frame_num s; sps_poc := sps_poc s;
     sps_max_num_ref_frames := 1;
     sps_gaps_allowed := sps_gaps_allowed s; sps_width_in_mbs := sps_width_in_mbs s;
     sps_height_in_map_units := sps_height_in_map_units s;
     sps_frame_mbs_only := sps_frame_mbs_only s; sps_mb_adaptive := sps_mb_adaptive s;
     sps_direct_8x8 := sps_direct_8x8 s; sps_crop := sps_crop s;
     sps_vui := Some (vui_low_latency (default empty_vui (sps_vui s))) |}.

(** * The rewriter follows the syntax *)

Lemma sim_write_full_range :
  sim write_full_range_bt709_video_signal_type []
    (opt_bits video_signal_bits (Some full_range_bt709)) tt.
Proof.
  unfold write_full_range_bt709_video_signal_type, opt_bits, video_signal_bits, colour_bits.
  cbn [is_some body_bits full_range_bt709 vs_format vs_full_range vs_colour fst snd].
  sim_go idtac.
Qed.

Lemma sim_aspect a : aspect_wf a -> sim copy_aspect_ratio (aspect_bits a) (aspect_bits a) tt.
Proof.
  intros (H1 & H2 & H3). unfold copy_aspect_ratio, aspect_bits. sim_go idtac.
  eapply sim_opt; [| exact H3]. intros (w & h) (? & ?). sim_go idtac.
Qed.

Lemma sim_skip_video_signal v : video_signal_wf v ->
  sim skip_video_signal_type (video_signal_bits v) [] tt.
Proof.
  intros (H1 & H2). unfold skip_video_signal_type, video_signal_bits. sim_go idtac.
  eapply sim_opt_skip; [| exact H2]. intros c (? & ? & ?). unfold colour_bits. sim_go idtac.
Qed.

Lemma sim_ue2 p : ue2_wf p -> sim (pass_ue;; pass_ue) (ue2_bits p) (ue2_bits p) tt.
Proof. intros (? & ?). unfold ue2_bits. sim_go idtac. Qed.

Lemma sim_hrd h : hrd_wf h -> sim copy_h264_hrd_parameters (hrd_bits h) (hrd_bits h) tt.
Proof.
  intros (H1 & H2 & H3 & H4 & H5 & H6 & H7 & H8).
  assert (Hcpbs : sim (repeat_sp (Z.to_nat (Z.of_nat (length (hrd_cpbs h)) - 1 + 1))
                         (pass_ue;; pass_ue;; pass_u 1))
                    (all_bits cpb_bits (hrd_cpbs h)) (all_bits cpb_bits (hrd_cpbs h)) tt).
  { apply sim_repeat; [lia |]. eapply Forall_impl; [| exact H4]. intros c (? & ?).
    unfold cpb_bits. sim_go idtac. }
  unfold copy_h264_hrd_parameters, hrd_bits. sim_go ltac:(exact Hcpbs).
Qed.

Lemma sim_restriction_skip b : restriction_wf b ->
  sim (skip_u 1;; skip_ue;; skip_ue;; skip_ue;; skip_ue;; skip_ue;; skip_ue) (restriction_bits b) [] tt.
Proof. intros (? & ? & ? & ? & ? & ?). unfold restriction_bits. sim_go idtac. Qed.

Lemma sim_one_deep_dpb :
  sim (put_u 1 1;; put_u 1 1;; put_ue 0;; put_ue 0;; put_ue 16;; put_ue 16;; put_ue 0;; put_ue 1)
    [] (opt_bits restriction_bits (Some one_deep_dpb)) tt.
Proof.
  unfold opt_bits, restriction_bits.
  cbn [is_some body_bits one_deep_dpb br_mv_over_boundaries br_max_bytes_per_pic br_max_bits_per_mb
    br_log2_mv_horizontal br_log2_mv_vertical br_max_num_reorder_frames br_max_dec_frame_buffering].
  sim_go idtac.
Qed.

Ltac vui_call :=
  first [ exact sim_write_full_range | exact sim_one_deep_dpb
        | eapply sim_opt; [ first [exact sim_aspect | exact sim_ue2 | exact sim_hrd] | assumption ]
        | eapply sim_opt_skip; [ first [exact sim_skip_video_signal | exact sim_restriction_skip]
                               | assumption ]
        | eapply sim_opt; [| eassumption]; intros (? & ?) (? & ?); unfold timing_bits; sim_go idtac ].

Lemma sim_vui v : vui_wf v ->
  sim copy_h264_vui_with_patched_bitstream_restriction (vui_bits v) (vui_bits (vui_low_latency v)) tt.
Proof.
  intros (? & ? & ? & ? & ? & ? & ? & ?).
  unfold copy_h264_vui_with_patched_bitstream_restriction, vui_bits.
  cbn [vui_low_latency vui_aspect vui_overscan vui_video_signal vui_chroma_loc vui_timing
    vui_nal_hrd vui_vcl_hrd vui_low_delay_hrd vui_pic_struct vui_restriction].
  set (vs := opt_bits video_signal_bits (Some _)). set (br := opt_bits restriction_bits (Some _)).
  sim_go vui_call.
  rewrite <- (app_nil_r (body_bits restriction_bits _)), b2z_is_1.
  eapply sim_bind_r; [vui_call | exact sim_one_deep_dpb].
Qed.

Lemma sim_minimal_vui : sim emit_minimal_h264_vui [] (vui_bits (vui_low_latency empty_vui)) tt.
Proof.
  unfold emit_minimal_h264_vui, vui_bits.
  cbn [vui_low_latency empty_vui vui_aspect vui_overscan vui_video_signal vui_chroma_loc vui_timing
    vui_nal_hrd vui_vcl_hrd vui_low_delay_hrd vui_pic_struct vui_restriction].
  pose proof sim_write_full_range as Hvs. pose proof sim_one_deep_dpb as Hbr.
  revert Hvs Hbr. set (vs := opt_bits video_signal_bits (Some _)).
  set (br := opt_bits restriction_bits (Some _)). clearbody vs br. intros Hvs Hbr.
  unfold opt_bits. cbn [is_some body_bits]. rewrite ?app_nil_l, ?app_nil_r.
  sim_go ltac:(exact Hvs). exact Hbr.
Qed.

Lemma sim_chroma c : chroma_wf c -> sim copy_h264_chroma_block (chroma_bits c) (chroma_bits c) tt.
Proof.
  intros (H1 & H2 & H3 & H4). unfold copy_h264_chroma_block, chroma_bits. sim_go idtac.
  rewrite <- (app_nil_r (flag false)). eapply sim_bind; [apply sim_copy_flag | apply sim_ret].
Qed.

Lemma sim_poc p : poc_wf p -> sim copy_h264_pic_order_cnt (poc_bits p) (poc_bits p) tt.
Proof.
  unfold copy_h264_pic_order_cnt. destruct p as [v | f a b l | k]; cbn [poc_wf poc_bits].
  - intros H. sim_step idtac. cbn [Z.eqb]. sim_step idtac.
  - intros (H1 & H2 & H3 & H4).
    assert (Hl : sim (repeat_sp (Z.to_nat (Z.of_nat (length l))) pass_se)
                   (all_bits se_bits l) (all_bits se_bits l) tt).
    { apply sim_repeat; [lia |]. eapply Forall_impl; [| exact H4]. intros. sim_step idtac. }
    sim_step idtac. cbn [Z.eqb Pos.eqb]. sim_go ltac:(exact Hl).
  - intros (H1 & H2). rewrite <- (app_nil_r (ue_bits k)). sim_step idtac.
    destruct (Z.eqb_spec k 0); [lia |]. destruct (Z.eqb_spec k 1); [lia |]. apply sim_ret.
Qed.

Ltac sps_call :=
  first [ eapply sim_opt; [ exact sim_chroma | assumption ]
        | apply sim_poc; assumption
        | eapply sim_opt; [| eassumption]; intros l (? & ?);
          apply sim_repeat; [done | eapply Forall_impl; [| eassumption]; intros; sim_step idtac ] ].

Lemma sim_h264_sps s : h264_sps_wf s ->
  sim copy_h264_sps_fields (h264_sps_bits s) (h264_sps_bits (h264_low_latency s)) tt.
Proof.
  intros (? & ? & ? & ? & ? & ? & ? & ? & ? & ? & ? & ? & ? & Hvui).
  unfold copy_h264_sps_fields, h264_sps_bits.
  cbn [h264_low_latency sps_profile_idc sps_constraint_flags sps_level_idc sps_id sps_chroma
    sps_log2_max_frame_num sps_poc sps_max_num_ref_frames sps_gaps_allowed sps_width_in_mbs
    sps_height_in_map_units sps_frame_mbs_only sps_mb_adaptive sps_direct_8x8 sps_crop sps_vui].
  sim_go sps_call.
  destruct (sps_vui s) as [v|]; [by apply sim_vui | exact sim_minimal_vui].
Qed.

(** * A successful rewrite read a set of this syntax *)

Lemma reads_write_full_range : reads write_full_range_bt709_video_signal_type (fun _ i => i = []).
Proof. unfold write_full_range_bt709_video_signal_type. reads_go idtac. done. Qed.

Lemma reads_aspect : reads copy_aspect_ratio (encodes aspect_wf aspect_bits).
Proof.
  unfold copy_aspect_ratio.
  assert (Hsar : reads (pass_u 16;; pass_u 16)
    (encodes (fun s => u16 s.1 /\ u16 s.2) (fun s => u_bits 16 s.1 ++ u_bits 16 s.2))).
  { reads_go idtac. by eexists (_, _); refine (conj _ eq_refl). }
  reads_go ltac:(eapply reads_when, Hsar).
  eexists {| as_idc := _; as_sar := _ |}. encoded_by aspect_wf aspect_bits.
Qed.

Lemma reads_skip_video_signal :
  reads skip_video_signal_type (encodes video_signal_wf video_signal_bits).
Proof.
  unfold skip_video_signal_type.
  assert (Hc : reads (skip_u 8;; skip_u 8;; skip_u 8)
    (encodes (fun c => u8 c.1.1 /\ u8 c.1.2 /\ u8 c.2) colour_bits)).
  { reads_go idtac. by eexists (_, _, _); refine (conj _ eq_refl). }
  reads_go ltac:(eapply reads_when, Hc).
  eexists {| vs_format := _; vs_full_range := _; vs_colour := _ |}. encoded_by video_signal_wf video_signal_bits.
Qed.

Lemma reads_ue2 : reads (pass_ue;; pass_ue) (encodes ue2_wf ue2_bits).
Proof. reads_go idtac. by eexists (_, _); refine (conj _ eq_refl). Qed.

Lemma reads_hrd : reads copy_h264_hrd_parameters (encodes hrd_wf hrd_bits).
Proof.
  unfold copy_h264_hrd_parameters.
  assert (Hc : reads (pass_ue;; pass_ue;; pass_u 1)
    (encodes (fun c => ue_range c.1.1 /\ ue_range c.1.2) cpb_bits)).
  { reads_go idtac. by eexists (_, _, _); refine (conj _ eq_refl). }
  reads_go ltac:(eapply reads_repeat, Hc).
  match goal with H : length ?l = Z.to_nat (?c + 1) |- _ =>
    assert (Hl : c = Z.of_nat (length l) - 1) by (unfold ue_range in *; lia) end.
  eexists {| hrd_bit_rate_scale := _; hrd_cpb_size_scale := _; hrd_cpbs := _;
    hrd_initial_delay_length := _; hrd_cpb_delay_length := _; hrd_dpb_delay_length := _;
    hrd_time_offset_length := _ |}.
  rewrite Hl. encoded_by hrd_wf hrd_bits; cbn [hrd_cpbs]; unfold ue_range in *; lia.
Qed.

Lemma reads_restriction :
  reads (skip_u 1;; skip_ue;; skip_ue;; skip_ue;; skip_ue;; skip_ue;; skip_ue)
    (encodes restriction_wf restriction_bits).
Proof.
  reads_go idtac.
  eexists {| br_mv_over_boundaries := _; br_max_bytes_per_pic := _; br_max_bits_per_mb := _;
     br_log2_mv_horizontal := _; br_log2_mv_vertical := _;
     br_max_num_reorder_frames := _; br_max_dec_frame_buffering := _ |}.
  encoded_by restriction_wf restriction_bits.
Qed.

Lemma reads_timing : reads (pass_u 32;; pass_u 32;; pass_u 1)
  (encodes (fun t => u32 t.1.1 /\ u32 t.1.2) timing_bits).
Proof. reads_go idtac. by eexists (_, _, _); refine (conj _ eq_refl). Qed.

Lemma reads_flag_opt b :
  reads (when b (pass_u 1)) (fun _ i => exists o, is_some o = b /\ i = body_bits flag o).
Proof.
  eapply reads_weaken; [apply (reads_when (fun _ => True) flag) |].
  - reads_go idtac. by eexists.
  - intros _ i (o & H1 & _ & H2). by exists o.
Qed.

Lemma reads_minimal_vui : reads emit_minimal_h264_vui (fun _ i => i = []).
Proof. unfold emit_minimal_h264_vui. reads_go ltac:(exact reads_write_full_range). done. Qed.

Ltac vui_reads :=
  first [ eapply reads_flag_opt | eapply reads_write_full_range
        | eapply reads_when; first [ eapply reads_aspect | eapply reads_skip_video_signal
            | eapply reads_ue2 | eapply reads_timing | eapply reads_hrd | eapply reads_restriction ] ].

Lemma reads_vui :
  reads copy_h264_vui_with_patched_bitstream_restriction (encodes vui_wf vui_bits).
Proof.
  unfold copy_h264_vui_with_patched_bitstream_restriction. reads_go vui_reads.
  eexists {| vui_aspect := _; vui_overscan := _; vui_video_signal := _; vui_chroma_loc := _;
     vui_timing := _; vui_nal_hrd := _; vui_vcl_hrd := _; vui_low_delay_hrd := _;
     vui_pic_struct := _; vui_restriction := _ |}.
  encoded_by vui_wf vui_bits.
Qed.

Lemma reads_chroma : reads copy_h264_chroma_block (encodes chroma_wf chroma_bits).
Proof.
  unfold copy_h264_chroma_block. reads_go ltac:(eapply reads_flag_opt).
  match goal with |- reads (if ?b then _ else _) _ => destruct b end; [apply reads_fail | reads_go idtac].
  eexists {| ch_format_idc := _; ch_separate_plane := _; ch_bit_depth_luma := _;
    ch_bit_depth_chroma := _; ch_transform_bypass := _ |}.
  encoded_by chroma_wf chroma_bits.
Qed.

Lemma reads_poc : reads copy_h264_pic_order_cnt (encodes poc_wf poc_bits).
Proof.
  unfold copy_h264_pic_order_cnt. reads_step idtac.
  destruct (Z.eqb_spec a 0) as [-> | Ha0]; [| destruct (Z.eqb_spec a 1) as [-> | Ha1]].
  - reads_go idtac. eexists (PocLsb _). by refine (conj _ eq_refl).
  - assert (Hse : reads pass_se (encodes se_range se_bits)).
    { reads_go idtac. eexists. by refine (conj _ eq_refl). }
    reads_go ltac:(eapply reads_repeat, Hse). unfold ue_range in *.
    match goal with _ : length ?l = Z.to_nat ?c |- _ =>
      assert (c = Z.of_nat (length l)) as -> by lia; exists (PocCycle v0 v v1 l) end.
    split; [cbn [poc_wf]; split_and!; (assumption || lia) | done].
  - reads_go idtac. exists (PocOther a). split; [cbn; unfold ue_range in *; lia | done].
Qed.

Lemma reads_crop : reads (repeat_sp 4 pass_ue)
  (encodes (fun c => length c = 4%nat /\ Forall ue_range c) (all_bits ue_bits)).
Proof.
  eapply reads_weaken; [apply (reads_repeat ue_range ue_bits) |].
  - reads_go idtac. eexists. by refine (conj _ eq_refl).
  - intros ? i (l & Hl & Hf & ->). by exists l.
Qed.

Lemma reads_vui_opt (b : bool) :
  reads (if b then copy_h264_vui_with_patched_bitstream_restriction else emit_minimal_h264_vui)
    (fun _ i => exists o, is_some o = b /\ opt_wf vui_wf o /\ i = body_bits vui_bits o).
Proof.
  destruct b.
  - eapply reads_weaken; [exact reads_vui |]. intros _ i (v & Hv & ->). by exists (Some v).
  - eapply reads_weaken; [exact reads_minimal_vui |]. intros _ i ->. by exists None.
Qed.

Ltac sps_reads :=
  first [ eapply reads_flag_opt | eapply reads_poc
        | eapply reads_when; first [ eapply reads_chroma | eapply reads_crop ]
        | eapply reads_vui_opt ].

Lemma reads_h264_sps : reads copy_h264_sps_fields (encodes h264_sps_wf h264_sps_bits).
Proof.
  unfold copy_h264_sps_fields. repeat (reads_step sps_reads).
  apply reads_tail. reads_step sps_reads. reads_step idtac.
  eexists {| sps_profile_idc := _; sps_constraint_flags := _; sps_level_idc := _; sps_id := _;
    sps_chroma := _; sps_log2_max_frame_num := _; sps_poc := _; sps_max_num_ref_frames := _;
    sps_gaps_allowed := _; sps_width_in_mbs := _; sps_height_in_map_units := _;
    sps_frame_mbs_only := _; sps_mb_adaptive := _; sps_direct_8x8 := _; sps_crop := _;
    sps_vui := _ |}.
  encoded_by h264_sps_wf h264_sps_bits.
Qed.

(** * The theorems *)

Definition with_trailing (bs : list bool) : list bool := bs ++ trailing (length bs).

Lemma bits_with_trailing w bs : writer_at w bs ->
  bytes_ok (bw_bytes (write_rbsp_trailing_bits w))
  /\ bits_of (bw_bytes (write_rbsp_trailing_bits w)) = with_trailing bs.
Proof.
  intros Hw. apply trailing_at, writer_bytes in Hw as (E & Hok); [done |].
  rewrite length_app. apply trailing_aligned.
Qed.

Lemma h264_low_latency_wf s : h264_sps_wf s -> h264_sps_wf (h264_low_latency s).
Proof.
  intros (? & ? & ? & ? & ? & ? & ? & ? & ? & ? & ? & ? & ? & Hvui).
  split_and!; try assumption; [unfold ue_range; cbn; lia |].
  cbn [opt_wf h264_low_latency sps_vui].
  assert (Hv : vui_wf (default empty_vui (sps_vui s)))
    by (destruct (sps_vui s); [exact Hvui | by repeat split]).
  destruct Hv as (? & ? & ? & ? & ? & ? & ? & ?).
  split_and!; try assumption; repeat split; cbn; lia.
Qed.

Lemma h264_low_latency_idem s : h264_low_latency (h264_low_latency s) = h264_low_latency s.
Proof. by destruct s. Qed.

Lemma patch_h264_of_sps s rbsp rest :
  h264_sps_wf s -> bits_of rbsp = h264_sps_bits s ++ rest ->
  exists out, patch_h264_sps_rbsp rbsp = Ok out /\ bytes_ok out
    /\ bits_of out = with_trailing (h264_sps_bits (h264_low_latency s)).
Proof.
  intros Hs Hb.
  destruct (sim_h264_sps s Hs (BitReader_new rbsp) BitWriter_new rest [] Hb writer_new_at)
    as (r & w & E & _ & Hw).
  exists (bw_bytes (write_rbsp_trailing_bits w)). unfold patch_h264_sps_rbsp, run_sp.
  rewrite E. split; [done | by apply bits_with_trailing].
Qed.

Lemma patch_h264_reads rbsp out : patch_h264_sps_rbsp rbsp = Ok out ->
  exists s rest, h264_sps_wf s /\ bits_of rbsp = h264_sps_bits s ++ rest.
Proof.
  intros E. unfold patch_h264_sps_rbsp, run_sp in E. apply bind_Ok in E as ((u & r & w) & E & _).
  destruct (reads_h264_sps (BitReader_new rbsp) _ _ _ _ _ eq_refl E) as (i & rest & Hb & _ & s & Hs & ->).
  by exists s, rest.
Qed.

(** C12. The H.264 rewriter succeeds exactly on the inputs that begin with a
    sequence parameter set of the supported syntax, and returns exactly the
    low-latency version of that set, re-encoded and byte-aligned.  That is one
    reference frame; a VUI, added if there was none, whose bitstream restriction
    is as a whole replaced by a fixed one (no reorder frames, a decode buffer of
    one frame, and motion vectors, picture and macroblock sizes without a
    restriction beyond the standard's) and whose video signal type, colour
    description included, is replaced by full-range BT.709 (although the file's
    header lists colour information among what is not touched); and every other
    field unchanged. *)
Theorem patch_h264_exact rbsp out :
  patch_h264_sps_rbsp rbsp = Ok out
  <-> bytes_ok out
      /\ exists s rest, h264_sps_wf s /\ bits_of rbsp = h264_sps_bits s ++ rest
         /\ bits_of out = with_trailing (h264_sps_bits (h264_low_latency s)).
Proof.
  split.
  - intros E. destruct (patch_h264_reads _ _ E) as (s & rest & Hs & Hb).
    destruct (patch_h264_of_sps s rbsp rest Hs Hb) as (out' & E' & Hok & Hout).
    rewrite E in E'. injection E' as <-. eauto 6.
  - intros (Hok & s & rest & Hs & Hb & Hout).
    destruct (patch_h264_of_sps s rbsp rest Hs Hb) as (out' & E & Hok' & Hout').
    rewrite E. f_equal. apply bits_of_inj; [done | done | congruence].
Qed.

(** Patching is idempotent: a set the rewriter produced is its own
    patched version, byte for byte. *)
Theorem patch_h264_idempotent rbsp out :
  patch_h264_sps_rbsp rbsp = Ok out -> patch_h264_sps_rbsp out = Ok out.
Proof.
  intros E. destruct (patch_h264_reads _ _ E) as (s & rest & Hs & Hb).
  destruct (patch_h264_of_sps s rbsp rest Hs Hb) as (out' & E' & Hok & Hout).
  rewrite E in E'. injection E' as <-.
  destruct (patch_h264_of_sps _ out _ (h264_low_latency_wf s Hs) Hout) as (out2 & E2 & Hok2 & Hout2).
  rewrite E2. f_equal. apply bits_of_inj; [done | done |].
  rewrite h264_low_latency_idem in Hout2. congruence.
Qed.

(** The synthetic baseline set of the unit tests: level 4.0, four reference
    frames, 1920x1088, no VUI. *)
Definition demo_sps : H264Sps :=
  {| sps_profile_idc := 66; sps_constraint_flags := 192; sps_level_idc := 40; sps_id := 0;
     sps_chroma := None; sps_log2_max_frame_num := 0; sps_poc := PocLsb 0;
     sps_max_num_ref_frames := 4; sps_gaps_allowed := false; sps_width_in_mbs := 119;
     sps_height_in_map_units := 67; sps_frame_mbs_only := true; sps_mb_adaptive := None;
     sps_direct_8x8 := true; sps_crop := None; sps_vui := None |}.

Definition demo_sps_rbsp : list Z := [66; 192; 40; 242; 128; 240; 4; 76; 128].

Definition demo_sps_patched : list Z :=
  [66; 192; 40; 244; 3; 192; 17; 52; 220; 4; 4; 4; 30; 17; 8; 212].

Lemma patch_h264_idempotent_witness :
  patch_h264_sps_rbsp demo_sps_rbsp = Ok demo_sps_patched
  /\ bits_of demo_sps_rbsp = with_trailing (h264_sps_bits demo_sps)
  /\ patch_h264_sps_rbsp demo_sps_patched = Ok demo_sps_patched.
Proof.
  split; [vm_compute; reflexivity | split; [vm_compute; reflexivity |]].
  apply (patch_h264_idempotent demo_sps_rbsp). vm_compute. reflexivity.
Defined.
