(* ===== verification/SpsHevc.v ===== *)
(** The HEVC half of [crates/penflow-core/src/encoder/sps_patcher.rs]: the
    shared walk through the decoded-picture-buffer fields, the full rewriter,
    the fallback that copies the tail verbatim, and the syntax of H.265
    7.3.2.2.1 / E.2.1 they are verified against. *)
From S2P Require Import Prelude Bytes Engine BitIO BitSim SpsH264.

(** * The rewriters *)

(** The two presence flags of each sub-layer. *)
Fixpoint copy_sub_layer_flags (n : nat) : SP (list (bool * bool)) :=
  match n with
  | O => mret []
  | S n' =>
      pp ← copy_u 1;
      lp ← copy_u 1;
      rest ← copy_sub_layer_flags n';
      mret ((pp =? 1, lp =? 1) :: rest)
  end.

Fixpoint copy_sub_layers (present : list (bool * bool)) : SP unit :=
  match present with
  | [] => mret tt
  | (profile, level) :: rest =>
      when profile (repeat_sp 11 (pass_u 8));;
      when level (pass_u 8);;
      copy_sub_layers rest
  end.

Definition copy_hevc_profile_tier_level (max_num_sub_layers_minus1 : Z) : SP unit :=
  pass_u 8;;
  pass_u 32;;
  repeat_sp 7 (pass_u 8);;
  present ← copy_sub_layer_flags (Z.to_nat max_num_sub_layers_minus1);
  when (0 <? max_num_sub_layers_minus1)
    (repeat_sp (Z.to_nat (8 - max_num_sub_layers_minus1)) (pass_u 2));;
  copy_sub_layers present.

Definition walk_hevc_sps_through_dpb : SP unit :=
  pass_u 4;;
  sps_max_sub_layers_minus1 ← copy_u 3;
  pass_u 1;;
  copy_hevc_profile_tier_level sps_max_sub_layers_minus1;;
  pass_ue;;
  chroma_format_idc ← copy_ue;
  when (chroma_format_idc =? 3) (pass_u 1);;
  pass_ue;;
  pass_ue;;
  conformance_window ← copy_u 1;
  when (conformance_window =? 1) (repeat_sp 4 pass_ue);;
  pass_ue;;
  pass_ue;;
  pass_ue;;
  sub_layer_info_present ← copy_u 1;
  let i_start := if sub_layer_info_present =? 1 then 0 else sps_max_sub_layers_minus1 in
  repeat_sp (Z.to_nat (sps_max_sub_layers_minus1 - i_start + 1))
    (skip_ue;; put_ue 0;; skip_ue;; put_ue 0;; skip_ue;; put_ue 0).

(** Reads only; the writer is the throwaway of [profile_tier_level]. *)
Definition hevc_log2_max_poc_fields : SP Z :=
  skip_u 4;;
  sps_max_sub_layers_minus1 ← rd (read_bits 3);
  skip_u 1;;
  copy_hevc_profile_tier_level sps_max_sub_layers_minus1;;
  skip_ue;;
  chroma_format_idc ← rd read_ue;
  when (chroma_format_idc =? 3) (skip_u 1);;
  skip_ue;;
  skip_ue;;
  conformance_window ← rd (read_bits 1);
  when (conformance_window =? 1) (repeat_sp 4 skip_ue);;
  skip_ue;;
  skip_ue;;
  rd read_ue.

Definition walk_hevc_sps_dpb_log2_max_poc (rbsp : list Z) : EngineResult Z :=
  fst <$> run_sp hevc_log2_max_poc_fields rbsp.

(** The pictures of a predicted set: one round per picture of the set it is
    predicted from, and one more. *)
Fixpoint copy_predicted_flags (n : nat) (new_num_delta_pocs : Z) : SP Z :=
  match n with
  | O => mret new_num_delta_pocs
  | S n' =>
      used_by_curr_pic_flag ← copy_u 1;
      if used_by_curr_pic_flag =? 0 then
        use_delta_flag ← copy_u 1;
        copy_predicted_flags n'
          (if use_delta_flag =? 1 then uwrap 32 (new_num_delta_pocs + 1) else new_num_delta_pocs)
      else copy_predicted_flags n' (uwrap 32 (new_num_delta_pocs + 1))
  end.

Definition copy_hevc_st_ref_pic_set (st_rps_idx : nat) (num_delta_pocs : list Z) : SP Z :=
  inter_ref_pic_set_prediction_flag ← (if Nat.eqb st_rps_idx 0 then mret 0 else copy_u 1);
  if inter_ref_pic_set_prediction_flag =? 1 then
    pass_u 1;;
    pass_ue;;
    match st_rps_idx with
    | O => fail NotInitialized
    | S r_idx =>
        match num_delta_pocs !! r_idx with
        | None => fail NotInitialized
        | Some n_dp => copy_predicted_flags (Z.to_nat (n_dp + 1)) 0
        end
    end
  else
    num_neg ← copy_ue;
    num_pos ← copy_ue;
    repeat_sp (Z.to_nat num_neg) (pass_ue;; pass_u 1);;
    repeat_sp (Z.to_nat num_pos) (pass_ue;; pass_u 1);;
    mret (uwrap 32 (num_neg + num_pos)).

(** [for st_rps_idx in 0..num_short_term_ref_pic_sets]; [n] sets remain. *)
Fixpoint copy_st_ref_pic_sets (n st_rps_idx : nat) (num_delta_pocs : list Z) : SP unit :=
  match n with
  | O => mret tt
  | S n' =>
      k ← copy_hevc_st_ref_pic_set st_rps_idx num_delta_pocs;
      copy_st_ref_pic_sets n' (S st_rps_idx) (num_delta_pocs ++ [k])
  end.

Definition copy_hevc_vui_with_full_range_bt709 : SP unit :=
  aspect_ratio_info_present ← copy_u 1;
  when (aspect_ratio_info_present =? 1) copy_aspect_ratio;;
  overscan_info_present ← copy_u 1;
  when (overscan_info_present =? 1) (pass_u 1);;
  video_signal_type_present ← rd (read_bits 1);
  when (video_signal_type_present =? 1) skip_video_signal_type;;
  write_full_range_bt709_video_signal_type;;
  chroma_loc_info_present ← copy_u 1;
  when (chroma_loc_info_present =? 1) (pass_ue;; pass_ue);;
  pass_u 1;;
  pass_u 1;;
  pass_u 1;;
  default_display_window ← copy_u 1;
  when (default_display_window =? 1) (repeat_sp 4 pass_ue);;
  vui_timing_info_present ← copy_u 1;
  when (vui_timing_info_present =? 1)
    (pass_u 32;;
     pass_u 32;;
     poc_proportional ← copy_u 1;
     when (poc_proportional =? 1) pass_ue;;
     vui_hrd_present ← rd (read_bits 1);
     if vui_hrd_present =? 1 then fail NotInitialized else put_u 0 1);;
  bitstream_restriction ← copy_u 1;
  when (bitstream_restriction =? 1)
    (pass_u 1;; pass_u 1;; pass_u 1;; pass_ue;; pass_ue;; pass_ue;; pass_ue;; pass_ue).

Definition emit_minimal_hevc_vui : SP unit :=
  put_u 0 1;;
  put_u 0 1;;
  write_full_range_bt709_video_signal_type;;
  put_u 0 1;; put_u 0 1;; put_u 0 1;; put_u 0 1;; put_u 0 1;; put_u 0 1;; put_u 0 1.

Definition copy_hevc_scaling_list_flags : SP unit :=
  scaling_list_enabled ← copy_u 1;
  when (scaling_list_enabled =? 1)
    (sps_scaling_list_data_present ← copy_u 1;
     if sps_scaling_list_data_present =? 1 then fail NotInitialized else mret tt).

(** The full walk after the decoded-picture-buffer fields. *)
Definition copy_hevc_sps_tail (log2_max_poc : Z) : SP unit :=
  pass_ue;; pass_ue;; pass_ue;; pass_ue;; pass_ue;; pass_ue;;
  copy_hevc_scaling_list_flags;;
  pass_u 1;;
  pass_u 1;;
  pcm_enabled ← copy_u 1;
  when (pcm_enabled =? 1) (pass_u 4;; pass_u 4;; pass_ue;; pass_ue;; pass_u 1);;
  num_short_term_ref_pic_sets ← copy_ue;
  copy_st_ref_pic_sets (Z.to_nat num_short_term_ref_pic_sets) 0 [];;
  long_term_present ← copy_u 1;
  when (long_term_present =? 1)
    (num_long_term ← copy_ue;
     let lt_lsb_bits := uwrap 32 (log2_max_poc + 4) in
     repeat_sp (Z.to_nat num_long_term) (pass_u lt_lsb_bits;; pass_u 1));;
  pass_u 1;;
  pass_u 1;;
  vui_present ← rd (read_bits 1);
  put_u 1 1;;
  (if vui_present =? 1 then copy_hevc_vui_with_full_range_bt709 else emit_minimal_hevc_vui);;
  sps_extension_present ← rd (read_bits 1);
  if sps_extension_present =? 1 then fail NotInitialized else put_u 0 1.

Definition patch_hevc_sps_full (rbsp : list Z) : EngineResult (list Z) :=
  '(_, s) ← run_sp walk_hevc_sps_through_dpb rbsp;
  log2_max_poc ← walk_hevc_sps_dpb_log2_max_poc rbsp;
  '(_, (_, w)) ← copy_hevc_sps_tail log2_max_poc s;
  Ok (bw_bytes (write_rbsp_trailing_bits w)).

(** A round copies at least one bit, so the number of bits is enough fuel. *)
Fixpoint copy_remaining_bits_loop (fuel : nat) (r : BitReader) (w : BitWriter) : BitWriter :=
  match fuel with
  | O => w
  | S fuel' =>
      let total_bits := (length (br_bytes r) * 8)%nat in
      if Nat.ltb (br_pos r) total_bits then
        if Nat.eqb (br_pos r mod 8) 0 && Nat.leb 8 (total_bits - br_pos r) then
          match br_bytes r !! (br_pos r / 8)%nat with
          | Some b =>
              copy_remaining_bits_loop fuel'
                {| br_bytes := br_bytes r; br_pos := br_pos r + 8 |} (write_bits b 8 w)
          | None => w
          end
        else
          match read_bits 1 r with
          | Ok (b, r) => copy_remaining_bits_loop fuel' r (write_bits b 1 w)
          | Err _ => w
          end
      else w
  end.

Definition copy_remaining_bits (r : BitReader) (w : BitWriter) : BitWriter :=
  copy_remaining_bits_loop (length (br_bytes r) * 8) r w.

Definition patch_hevc_sps_dpb_only (rbsp : list Z) : EngineResult (list Z) :=
  '(_, (r, w)) ← run_sp walk_hevc_sps_through_dpb rbsp;
  Ok (bw_bytes (copy_remaining_bits r w)).

Definition patch_hevc_sps_rbsp (rbsp : list Z) : EngineResult (list Z) :=
  match patch_hevc_sps_full rbsp with
  | Ok v => Ok v
  | Err _ => patch_hevc_sps_dpb_only rbsp
  end.

(** * The syntax of the head *)

(** A sub-layer: the eleven bytes of its profile and its level byte. *)
Definition SubLayer : Type := option (list Z) * option Z.

Record HevcPtl := {
  ptl_profile : Z;
  ptl_compatibility : Z;
  ptl_constraints_level : list Z;
  ptl_sub_layers : list SubLayer;
  ptl_reserved : list Z;
}.

Definition sub_layer_flags (s : SubLayer) : list bool := flag (is_some s.1) ++ flag (is_some s.2).

Definition sub_layer_bits (s : SubLayer) : list bool :=
  body_bits (all_bits (u_bits 8)) s.1 ++ body_bits (u_bits 8) s.2.

Definition sub_layer_wf (s : SubLayer) : Prop :=
  opt_wf (fun l => length l = 11%nat /\ bytes_ok l) s.1 /\ opt_wf u8 s.2.

Definition ptl_bits (p : HevcPtl) : list bool :=
  u_bits 8 (ptl_profile p) ++ u_bits 32 (ptl_compatibility p)
  ++ all_bits (u_bits 8) (ptl_constraints_level p)
  ++ all_bits sub_layer_flags (ptl_sub_layers p)
  ++ all_bits (u_bits 2) (ptl_reserved p)
  ++ all_bits sub_layer_bits (ptl_sub_layers p).

Definition ptl_wf (p : HevcPtl) : Prop :=
  u8 (ptl_profile p) /\ u32 (ptl_compatibility p)
  /\ length (ptl_constraints_level p) = 7%nat /\ bytes_ok (ptl_constraints_level p)
  /\ (length (ptl_sub_layers p) < 8)%nat /\ Forall sub_layer_wf (ptl_sub_layers p)
  /\ length (ptl_reserved p)
     = (if Nat.eqb (length (ptl_sub_layers p)) 0 then 0 else 8 - length (ptl_sub_layers p))%nat
  /\ Forall (unsigned 2) (ptl_reserved p).

(** [sps_max_dec_pic_buffering_minus1], [sps_max_num_reorder_pics] and
    [sps_max_latency_increase_plus1] of a sub-layer. *)
Record DpbTriplet := { dpb_buffering_minus1 : Z; dpb_num_reorder : Z; dpb_latency_plus1 : Z }.

Definition dpb_bits (d : DpbTriplet) : list bool :=
  ue_bits (dpb_buffering_minus1 d) ++ ue_bits (dpb_num_reorder d) ++ ue_bits (dpb_latency_plus1 d).

Definition dpb_wf (d : DpbTriplet) : Prop :=
  ue_range (dpb_buffering_minus1 d) /\ ue_range (dpb_num_reorder d) /\ ue_range (dpb_latency_plus1 d).

Definition dpb_one : DpbTriplet :=
  {| dpb_buffering_minus1 := 0; dpb_num_reorder := 0; dpb_latency_plus1 := 0 |}.

Record HevcHead := {
  hh_vps_id : Z;
  hh_temporal_nesting : bool;
  hh_ptl : HevcPtl;
  hh_sps_id : Z;
  hh_chroma_format_idc : Z;
  hh_separate_plane : option bool;
  hh_width : Z;
  hh_height : Z;
  hh_conformance_window : option (list Z);
  hh_bit_depth_luma : Z;
  hh_bit_depth_chroma : Z;
  hh_log2_max_poc_minus4 : Z;
  hh_sub_layer_ordering_info : bool;
  hh_dpb : list DpbTriplet;
}.

(** [sps_max_sub_layers_minus1]. *)
Definition hh_sub_layers (h : HevcHead) : nat := length (ptl_sub_layers (hh_ptl h)).

Definition hh_prefix_bits (h : HevcHead) : list bool :=
  u_bits 4 (hh_vps_id h) ++ u_bits 3 (Z.of_nat (hh_sub_layers h)) ++ flag (hh_temporal_nesting h)
  ++ ptl_bits (hh_ptl h)
  ++ ue_bits (hh_sps_id h)
  ++ ue_bits (hh_chroma_format_idc h) ++ body_bits flag (hh_separate_plane h)
  ++ ue_bits (hh_width h) ++ ue_bits (hh_height h)
  ++ opt_bits (all_bits ue_bits) (hh_conformance_window h)
  ++ ue_bits (hh_bit_depth_luma h) ++ ue_bits (hh_bit_depth_chroma h)
  ++ ue_bits (hh_log2_max_poc_minus4 h).

Definition hevc_head_bits (h : HevcHead) : list bool :=
  hh_prefix_bits h ++ flag (hh_sub_layer_ordering_info h) ++ all_bits dpb_bits (hh_dpb h).

Definition hevc_head_wf (h : HevcHead) : Prop :=
  unsigned 4 (hh_vps_id h) /\ ptl_wf (hh_ptl h) /\ ue_range (hh_sps_id h)
  /\ ue_range (hh_chroma_format_idc h)
  /\ is_some (hh_separate_plane h) = (hh_chroma_format_idc h =? 3)
  /\ ue_range (hh_width h) /\ ue_range (hh_height h)
  /\ opt_wf (fun c => length c = 4%nat /\ Forall ue_range c) (hh_conformance_window h)
  /\ ue_range (hh_bit_depth_luma h) /\ ue_range (hh_bit_depth_chroma h)
  /\ ue_range (hh_log2_max_poc_minus4 h)
  /\ length (hh_dpb h) = (if hh_sub_layer_ordering_info h then hh_sub_layers h + 1 else 1)%nat
  /\ Forall dpb_wf (hh_dpb h).

(** Every reported sub-layer declares a one-picture buffer. *)
Definition hevc_head_low_latency (h : HevcHead) : HevcHead :=
  {| hh_vps_id := hh_vps_id h; hh_temporal_nesting := hh_temporal_nesting h; hh_ptl := hh_ptl h;
     hh_sps_id := hh_sps_id h; hh_chroma_format_idc := hh_chroma_format_idc h;
     hh_separate_plane := hh_separate_plane h; hh_width := hh_width h; hh_height := hh_height h;
     hh_conformance_window := hh_conformance_window h; hh_bit_depth_luma := hh_bit_depth_luma h;
     hh_bit_depth_chroma := hh_bit_depth_chroma h;
     hh_log2_max_poc_minus4 := hh_log2_max_poc_minus4 h;
     hh_sub_layer_ordering_info := hh_sub_layer_ordering_info h;
     hh_dpb := map (fun _ => dpb_one) (hh_dpb h) |}.

(** * The walk follows the syntax *)

Lemma sim_pass_bytes n l : length l = n -> bytes_ok l ->
  sim (repeat_sp n (pass_u 8)) (all_bits (u_bits 8) l) (all_bits (u_bits 8) l) tt.
Proof.
  intros <- Hl. apply sim_repeat; [done |]. eapply Forall_impl; [| exact Hl]. intros. sim_step idtac.
Qed.

Lemma sim_sub_layer_flags l :
  sim (copy_sub_layer_flags (length l)) (all_bits sub_layer_flags l) (all_bits sub_layer_flags l)
    (map (fun s : SubLayer => (is_some s.1, is_some s.2)) l).
Proof.
  induction l as [|s l IH]; [apply sim_ret |].
  unfold all_bits in *. cbn [length copy_sub_layer_flags map concat]. unfold sub_layer_flags at 1 3.
  rewrite <- !app_assoc, <- (app_nil_r (concat _)). do 2 sim_step idtac.
  rewrite !b2z_is_1. eapply sim_bind; [exact IH | apply sim_ret].
Qed.

Lemma sim_sub_layers l : Forall sub_layer_wf l ->
  sim (copy_sub_layers (map (fun s : SubLayer => (is_some s.1, is_some s.2)) l))
    (all_bits sub_layer_bits l) (all_bits sub_layer_bits l) tt.
Proof.
  induction 1 as [|(p & v) l (Hp & Hv) _ IH]; [apply sim_ret |].
  unfold all_bits in *. cbn [map concat copy_sub_layers fst snd] in *. unfold sub_layer_bits at 1 3.
  rewrite <- !app_assoc. cbn [fst snd].
  eapply sim_bind.
  { eapply sim_opt; [| exact Hp]. intros k (? & ?). by apply sim_pass_bytes. }
  eapply sim_bind; [| exact IH].
  eapply sim_opt; [| exact Hv]. intros k ?. sim_step idtac.
Qed.

Lemma sim_ptl p : ptl_wf p ->
  sim (copy_hevc_profile_tier_level (Z.of_nat (length (ptl_sub_layers p)))) (ptl_bits p) (ptl_bits p) tt.
Proof.
  intros (? & ? & ? & ? & Hn & ? & Hres & Hb).
  unfold copy_hevc_profile_tier_level, ptl_bits. rewrite Nat2Z.id.
  assert (Hr : sim (when (0 <? Z.of_nat (length (ptl_sub_layers p)))
     (repeat_sp (Z.to_nat (8 - Z.of_nat (length (ptl_sub_layers p)))) (pass_u 2)))
     (all_bits (u_bits 2) (ptl_reserved p)) (all_bits (u_bits 2) (ptl_reserved p)) tt).
  { destruct (Nat.eqb_spec (length (ptl_sub_layers p)) 0) as [E | E].
    - rewrite E. destruct (ptl_reserved p); [apply sim_ret | done].
    - destruct (Z.ltb_spec 0 (Z.of_nat (length (ptl_sub_layers p)))); [| lia].
      apply sim_repeat; [lia |]. eapply Forall_impl; [| exact Hb]. intros. sim_step idtac. }
  sim_go ltac:(first [ by apply sim_pass_bytes | apply sim_sub_layer_flags | exact Hr
                     | by apply sim_sub_layers ]).
Qed.

Lemma sim_crop (c : option (list Z)) :
  opt_wf (fun c => length c = 4%nat /\ Forall ue_range c) c ->
  sim (when (is_some c) (repeat_sp 4 pass_ue)) (body_bits (all_bits ue_bits) c)
    (body_bits (all_bits ue_bits) c) tt.
Proof.
  intros H. eapply sim_opt; [| exact H]. intros l (? & ?). apply sim_repeat; [done |].
  eapply Forall_impl; [| eassumption]. intros. sim_step idtac.
Qed.

Lemma sim_crop_skip (c : option (list Z)) :
  opt_wf (fun c => length c = 4%nat /\ Forall ue_range c) c ->
  sim (when (is_some c) (repeat_sp 4 skip_ue)) (body_bits (all_bits ue_bits) c) [] tt.
Proof.
  intros H. eapply sim_opt_skip; [| exact H]. intros l (? & Hl).
  replace [] with (all_bits (fun _ : Z => []) l) by (clear; induction l; done).
  apply sim_repeat; [done |]. eapply Forall_impl; [| exact Hl]. intros. sim_step idtac.
Qed.

Lemma sim_flag_skip (o : option bool) : sim (when (is_some o) (skip_u 1)) (body_bits flag o) [] tt.
Proof.
  apply (sim_opt_skip (fun _ => True)); [| by destruct o]. intros b _. eapply sim_drop, sim_read_flag.
Qed.

Lemma sim_dpb n l : length l = n -> Forall dpb_wf l ->
  sim (repeat_sp n (skip_ue;; put_ue 0;; skip_ue;; put_ue 0;; skip_ue;; put_ue 0))
    (all_bits dpb_bits l) (all_bits dpb_bits (map (fun _ => dpb_one) l)) tt.
Proof.
  intros <- Hl. unfold all_bits at 2. rewrite map_map. apply sim_repeat; [done |].
  eapply Forall_impl; [| exact Hl]. intros d (? & ? & ?). unfold dpb_bits.
  cbn [dpb_one dpb_buffering_minus1 dpb_num_reorder dpb_latency_plus1].
  rewrite <- (app_nil_r (ue_bits (dpb_latency_plus1 d))). sim_go idtac.
Qed.

Lemma sim_head h : hevc_head_wf h ->
  sim walk_hevc_sps_through_dpb (hevc_head_bits h) (hevc_head_bits (hevc_head_low_latency h)) tt.
Proof.
  intros (? & Hptl & ? & ? & ? & ? & ? & ? & ? & ? & ? & Hn & Hd).
  unfold walk_hevc_sps_through_dpb, hevc_head_bits, hh_prefix_bits, hh_sub_layers.
  cbn [hevc_head_low_latency hh_vps_id hh_temporal_nesting hh_ptl hh_sps_id hh_chroma_format_idc
    hh_separate_plane hh_width hh_height hh_conformance_window hh_bit_depth_luma hh_bit_depth_chroma
    hh_log2_max_poc_minus4 hh_sub_layer_ordering_info hh_dpb].
  assert (unsigned 3 (Z.of_nat (length (ptl_sub_layers (hh_ptl h))))) by (destruct Hptl as (_ & _ & _ & _ & ? & _); urange).
  sim_go ltac:(first [ by apply sim_ptl | by apply sim_crop ]).
  apply sim_dpb; [rewrite Hn; unfold hh_sub_layers | exact Hd].
  cbv zeta. destruct (hh_sub_layer_ordering_info h); cbn [Z.b2z Z.eqb Pos.eqb]; lia.
Qed.

Lemma sim_log2_max_poc h : hevc_head_wf h ->
  sim hevc_log2_max_poc_fields (hh_prefix_bits h) (ptl_bits (hh_ptl h)) (hh_log2_max_poc_minus4 h).
Proof.
  intros (? & Hptl & ? & ? & ? & ? & ? & ? & ? & ? & ? & Hn & Hd).
  unfold hevc_log2_max_poc_fields, hh_prefix_bits, hh_sub_layers.
  assert (unsigned 3 (Z.of_nat (length (ptl_sub_layers (hh_ptl h))))) by (destruct Hptl as (_ & _ & _ & _ & ? & _); urange).
  rewrite <- (app_nil_r (ptl_bits (hh_ptl h))) at 2.
  sim_go ltac:(first [ by apply sim_ptl | by apply sim_crop_skip | apply sim_flag_skip ]).
Qed.

Lemma log2_max_poc_of_head h rbsp rest : hevc_head_wf h ->
  bits_of rbsp = hevc_head_bits h ++ rest ->
  walk_hevc_sps_dpb_log2_max_poc rbsp = Ok (hh_log2_max_poc_minus4 h).
Proof.
  intros Hh Hb. unfold hevc_head_bits in Hb. rewrite <- app_assoc in Hb.
  destruct (sim_log2_max_poc h Hh (BitReader_new rbsp) BitWriter_new _ [] Hb writer_new_at)
    as (r & w & E & _). unfold walk_hevc_sps_dpb_log2_max_poc, run_sp. by rewrite E.
Qed.

(** * A successful walk read a head of this syntax *)

Lemma reads_bytes n : reads (repeat_sp n (pass_u 8))
  (fun _ i => exists l, length l = n /\ bytes_ok l /\ i = all_bits (u_bits 8) l).
Proof. apply (reads_repeat u8 (u_bits 8)). reads_go idtac. eexists. by refine (conj _ eq_refl). Qed.

Lemma reads_sub_layer_flags n : reads (copy_sub_layer_flags n)
  (fun ps i => length ps = n /\ i = all_bits (fun p => flag p.1 ++ flag p.2) ps).
Proof.
  induction n as [|n IH]; cbn [copy_sub_layer_flags].
  - by apply reads_ret.
  - do 3 reads_step ltac:(exact IH). apply reads_ret. rewrite ?b2z_is_1. unfold all_bits.
    split; [cbn; congruence |].
    cbn [map concat length fst snd]. by rewrite ?app_nil_r, <- app_assoc.
Qed.

Lemma reads_sub_layers ps : reads (copy_sub_layers ps)
  (fun _ i => exists l, map (fun s : SubLayer => (is_some s.1, is_some s.2)) l = ps
     /\ Forall sub_layer_wf l /\ i = all_bits sub_layer_bits l).
Proof.
  induction ps as [|(p & v) ps IH]; cbn [copy_sub_layers].
  - apply reads_ret. by exists [].
  - eapply reads_bind.
    { eapply (reads_when (fun l => length l = 11%nat /\ bytes_ok l) (all_bits (u_bits 8))).
      eapply reads_weaken; [apply reads_bytes |]. intros ? i (l & ? & ? & ->). by exists l. }
    intros _ ? (o1 & <- & H1 & ->). eapply reads_bind.
    { eapply (reads_when u8 (u_bits 8)). reads_go idtac. eexists. by refine (conj _ eq_refl). }
    intros _ ? (o2 & <- & H2 & ->). eapply reads_weaken; [exact IH |].
    intros _ i (l & <- & Hl & ->). exists ((o1, o2) :: l). split_and!; [done | by constructor |].
    unfold all_bits, sub_layer_bits. cbn [map concat fst snd]. by rewrite <- app_assoc.
Qed.

Lemma reads_ptl n : 0 <= n < 8 -> reads (copy_hevc_profile_tier_level n)
  (encodes (fun p => ptl_wf p /\ Z.of_nat (length (ptl_sub_layers p)) = n) ptl_bits).
Proof.
  intros Hn. unfold copy_hevc_profile_tier_level.
  do 2 reads_step idtac. reads_step ltac:(eapply reads_bytes).
  reads_step ltac:(eapply reads_sub_layer_flags).
  eapply reads_bind.
  { apply (reads_when (fun l => length l = Z.to_nat (8 - n) /\ Forall (unsigned 2) l) (all_bits (u_bits 2))).
    eapply reads_weaken; [apply (reads_repeat (unsigned 2) (u_bits 2)) |].
    - reads_go idtac. eexists. by refine (conj _ eq_refl).
    - intros ? i (l & ? & ? & ->). by exists l. }
  intros _ ? (o & Ho & Hres & ->). apply reads_tail. reads_step ltac:(eapply reads_sub_layers).
  reads_step idtac.
  match goal with H : length (map _ ?l) = Z.to_nat n |- _ =>
    rewrite length_map in H; rename H into Hlen; rename l into subs end.
  eexists {| ptl_profile := _; ptl_compatibility := _; ptl_constraints_level := _;
    ptl_sub_layers := subs; ptl_reserved := default [] o |}.
  split.
  - split; [| cbn [ptl_sub_layers]; lia]. unfold ptl_wf.
    cbn [ptl_profile ptl_compatibility ptl_constraints_level ptl_sub_layers ptl_reserved].
    rewrite Hlen. split_and!; try eassumption; [lia | |].
    + destruct (Nat.eqb_spec (Z.to_nat n) 0), (Z.ltb_spec 0 n), o; cbn in *; try lia; try done.
    + destruct o; [by destruct Hres | constructor].
  - unfold ptl_bits.
    cbn [ptl_profile ptl_compatibility ptl_constraints_level ptl_sub_layers ptl_reserved].
    assert (Ef : all_bits (fun p => flag p.1 ++ flag p.2)
        (map (fun s : SubLayer => (is_some s.1, is_some s.2)) subs) = all_bits sub_layer_flags subs)
      by (unfold all_bits; by rewrite map_map).
    assert (E : body_bits (all_bits (u_bits 2)) o = all_bits (u_bits 2) (default [] o)) by (by destruct o).
    rewrite Ef, E. reflexivity.
Qed.

Lemma reads_dpb n :
  reads (repeat_sp n (skip_ue;; put_ue 0;; skip_ue;; put_ue 0;; skip_ue;; put_ue 0))
    (fun _ i => exists l, length l = n /\ Forall dpb_wf l /\ i = all_bits dpb_bits l).
Proof.
  apply reads_repeat. reads_go idtac.
  eexists {| dpb_buffering_minus1 := _; dpb_num_reorder := _; dpb_latency_plus1 := _ |}.
  encoded_by dpb_wf dpb_bits.
Qed.

Lemma reads_head : reads walk_hevc_sps_through_dpb (encodes hevc_head_wf hevc_head_bits).
Proof.
  unfold walk_hevc_sps_through_dpb. do 3 reads_step idtac.
  eapply reads_bind; [apply reads_ptl; urange |]. intros _ ? (p & (Hp & <-) & ->).
  repeat reads_step ltac:(first [ eapply reads_flag_opt | eapply reads_when, reads_crop ]).
  cbv zeta. reads_step ltac:(eapply reads_dpb). reads_step idtac.
  eexists {| hh_vps_id := _; hh_temporal_nesting := _; hh_ptl := p; hh_sps_id := _;
     hh_chroma_format_idc := _; hh_separate_plane := _; hh_width := _; hh_height := _;
     hh_conformance_window := _; hh_bit_depth_luma := _; hh_bit_depth_chroma := _;
     hh_log2_max_poc_minus4 := _; hh_sub_layer_ordering_info := _; hh_dpb := _ |}.
  split; [| unfold hevc_head_bits, hh_prefix_bits, hh_sub_layers, opt_bits;
            rewrite <- ?app_assoc; reflexivity ].
  unfold hevc_head_wf, hh_sub_layers. split_and!; try assumption.
  cbn [hh_dpb hh_ptl hh_sub_layer_ordering_info].
  match goal with H : length ?l = Z.to_nat _ |- length ?l = _ => rewrite H end.
  case_test; lia.
Qed.

(** * The verbatim tail *)

Lemma reader_at_byte r rest b :
  reader_at r rest -> (br_pos r mod 8 = 0)%nat -> br_bytes r !! (br_pos r / 8)%nat = Some b ->
  exists rest', rest = byte_bits b ++ rest'
    /\ reader_at {| br_bytes := br_bytes r; br_pos := br_pos r + 8 |} rest'.
Proof.
  unfold reader_at. cbn [br_bytes br_pos]. intros <- Hm Hb.
  exists (drop (br_pos r + 8) (bits_of (br_bytes r))). split; [| done].
  assert (Hp : (br_pos r = 8 * (br_pos r / 8))%nat) by (pose proof (Nat.div_mod_eq (br_pos r) 8); lia).
  set (k := (br_pos r / 8)%nat) in *.
  assert (E : bits_of (br_bytes r) = bits_of (take k (br_bytes r)) ++ byte_bits b
                ++ bits_of (drop (S k) (br_bytes r))).
  { rewrite <- bits_of_cons, <- bits_of_app. by rewrite take_drop_middle. }
  assert (Hl : length (bits_of (take k (br_bytes r))) = br_pos r).
  { rewrite length_bits_of, length_take. apply lookup_lt_Some in Hb. lia. }
  rewrite E, drop_app_length' by done. f_equal.
  rewrite app_assoc, drop_app_length'; [done |]. rewrite length_app, length_byte_bits. lia.
Qed.

Lemma reader_at_length r rest : reader_at r rest ->
  (length rest = length (br_bytes r) * 8 - br_pos r)%nat.
Proof. intros <-. rewrite length_drop, length_bits_of. lia. Qed.

Lemma copy_bit_at r w b rest bs : reader_at r (b :: rest) -> writer_at w bs ->
  exists r', read_bits 1 r = Ok (Z.b2z b, r') /\ reader_at r' rest
    /\ writer_at (write_bits (Z.b2z b) 1 w) (bs ++ [b]).
Proof.
  intros Hr Hw. destruct (read_bits_ok 1 [b] r rest Hr) as (r' & E & Hr' & _); [done | lia |].
  exists r'. split; [rewrite E; by destruct b | split; [done |]].
  destruct b; [apply (write_bits_at 1 1) | apply (write_bits_at 0 1)]; lia || done.
Qed.

Lemma copy_remaining_bits_loop_at fuel : forall r w rest bs,
  reader_at r rest -> writer_at w bs -> (length rest <= fuel)%nat ->
  writer_at (copy_remaining_bits_loop fuel r w) (bs ++ rest).
Proof.
  induction fuel as [|fuel IH]; intros r w rest bs Hr Hw Hf; cbn [copy_remaining_bits_loop];
    pose proof (reader_at_length _ _ Hr) as Hlen.
  { destruct rest; [by rewrite app_nil_r | cbn in Hf; lia]. }
  destruct (Nat.ltb_spec (br_pos r) (length (br_bytes r) * 8)); cbn iota.
  2: { destruct rest; [by rewrite app_nil_r | cbn in Hlen; lia]. }
  destruct (Nat.eqb_spec (br_pos r mod 8) 0) as [Hm | Hm];
    [destruct (Nat.leb_spec 8 (length (br_bytes r) * 8 - br_pos r)) |]; cbn [andb].
  - destruct (br_bytes r !! (br_pos r / 8)%nat) as [b|] eqn:Hb.
    + destruct (reader_at_byte _ _ _ Hr Hm Hb) as (rest' & -> & Hr').
      rewrite app_assoc. apply IH; [done | by apply (write_bits_at b 8) |].
      rewrite length_app, length_byte_bits in Hf. lia.
    + exfalso. apply lookup_ge_None in Hb. pose proof (Nat.div_mod_eq (br_pos r) 8). lia.
  - destruct rest as [|b rest]; [cbn in Hlen; lia |].
    destruct (copy_bit_at _ _ _ _ _ Hr Hw) as (r' & -> & Hr' & Hw').
    rewrite cons_middle, app_assoc. apply IH; [done | done | cbn in Hf; lia].
  - destruct rest as [|b rest]; [cbn in Hlen; lia |].
    destruct (copy_bit_at _ _ _ _ _ Hr Hw) as (r' & -> & Hr' & Hw').
    rewrite cons_middle, app_assoc. apply IH; [done | done | cbn in Hf; lia].
Qed.

Lemma copy_remaining_bits_at r w rest bs :
  reader_at r rest -> writer_at w bs -> writer_at (copy_remaining_bits r w) (bs ++ rest).
Proof.
  intros Hr Hw. apply copy_remaining_bits_loop_at; [done | done |].
  rewrite (reader_at_length _ _ Hr). lia.
Qed.

(** * The syntax of the tail *)

Record HevcPcm := {
  pcm_depth_luma : Z; pcm_depth_chroma : Z; pcm_log2_min : Z; pcm_log2_diff : Z; pcm_no_filter : bool;
}.

Definition pcm_bits (p : HevcPcm) : list bool :=
  u_bits 4 (pcm_depth_luma p) ++ u_bits 4 (pcm_depth_chroma p)
  ++ ue_bits (pcm_log2_min p) ++ ue_bits (pcm_log2_diff p) ++ flag (pcm_no_filter p).

Definition pcm_wf (p : HevcPcm) : Prop :=
  unsigned 4 (pcm_depth_luma p) /\ unsigned 4 (pcm_depth_chroma p)
  /\ ue_range (pcm_log2_min p) /\ ue_range (pcm_log2_diff p).

(** A picture of a predicted reference picture set: used by the current
    picture, or not used with its [use_delta_flag]. *)
Inductive Predicted := Used | Unused (use_delta : bool).

Definition predicted_bits (p : Predicted) : list bool :=
  match p with Used => flag true | Unused b => flag false ++ flag b end.

Definition has_delta (p : Predicted) : bool := match p with Used => true | Unused b => b end.

Definition predicted_count (l : list Predicted) : nat := length (List.filter has_delta l).

Inductive StRefPicSet :=
| StExplicit (negative positive : list (Z * bool))
| StPredicted (sign : bool) (abs_delta_minus1 : Z) (flags : list Predicted).

Definition delta_poc_bits (d : Z * bool) : list bool := ue_bits d.1 ++ flag d.2.

Definition rps_bits (st_rps_idx : nat) (s : StRefPicSet) : list bool :=
  let predicted b := if Nat.eqb st_rps_idx 0 then [] else flag b in
  match s with
  | StExplicit neg pos =>
      predicted false
      ++ ue_bits (Z.of_nat (length neg)) ++ ue_bits (Z.of_nat (length pos))
      ++ all_bits delta_poc_bits neg ++ all_bits delta_poc_bits pos
  | StPredicted sign abs flags =>
      predicted true ++ flag sign ++ ue_bits abs ++ all_bits predicted_bits flags
  end.

(** [NumDeltaPocs] of the set. *)
Definition rps_count (s : StRefPicSet) : nat :=
  match s with
  | StExplicit neg pos => length neg + length pos
  | StPredicted _ _ flags => predicted_count flags
  end.

Definition rps_wf (counts : list nat) (s : StRefPicSet) : Prop :=
  match s with
  | StExplicit neg pos =>
      Z.of_nat (length neg) + Z.of_nat (length pos) < 2 ^ 32 - 1
      /\ Forall (fun d => ue_range d.1) neg /\ Forall (fun d => ue_range d.1) pos
  | StPredicted _ abs flags =>
      ue_range abs /\ Z.of_nat (length flags) < 2 ^ 32
      /\ exists k, counts !! pred (length counts) = Some k /\ length flags = S k
  end.

(** The sets in order, the earlier ones already in [counts]. *)
Fixpoint rps_list_bits (idx : nat) (l : list StRefPicSet) : list bool :=
  match l with [] => [] | s :: l' => rps_bits idx s ++ rps_list_bits (S idx) l' end.

Fixpoint rps_list_wf (counts : list nat) (l : list StRefPicSet) : Prop :=
  match l with [] => True | s :: l' => rps_wf counts s /\ rps_list_wf (counts ++ [rps_count s]) l' end.

Record HevcTiming := { ht_ticks : Z; ht_scale : Z; ht_poc_proportional : option Z }.

(** The last flag says that there are no HRD parameters. *)
Definition hevc_timing_bits (t : HevcTiming) : list bool :=
  u_bits 32 (ht_ticks t) ++ u_bits 32 (ht_scale t)
  ++ opt_bits ue_bits (ht_poc_proportional t) ++ flag false.

Definition hevc_timing_wf (t : HevcTiming) : Prop :=
  u32 (ht_ticks t) /\ u32 (ht_scale t) /\ opt_wf ue_range (ht_poc_proportional t).

Record HevcRestriction := {
  hr_tiles_fixed : bool; hr_mv_over_boundaries : bool; hr_restricted_lists : bool;
  hr_min_spatial_segmentation : Z; hr_max_bytes_per_pic : Z; hr_max_bits_per_min_cu : Z;
  hr_log2_mv_horizontal : Z; hr_log2_mv_vertical : Z;
}.

Definition hevc_restriction_bits (b : HevcRestriction) : list bool :=
  flag (hr_tiles_fixed b) ++ flag (hr_mv_over_boundaries b) ++ flag (hr_restricted_lists b)
  ++ ue_bits (hr_min_spatial_segmentation b) ++ ue_bits (hr_max_bytes_per_pic b)
  ++ ue_bits (hr_max_bits_per_min_cu b)
  ++ ue_bits (hr_log2_mv_horizontal b) ++ ue_bits (hr_log2_mv_vertical b).

Definition hevc_restriction_wf (b : HevcRestriction) : Prop :=
  ue_range (hr_min_spatial_segmentation b) /\ ue_range (hr_max_bytes_per_pic b)
  /\ ue_range (hr_max_bits_per_min_cu b)
  /\ ue_range (hr_log2_mv_horizontal b) /\ ue_range (hr_log2_mv_vertical b).

Record HevcVui := {
  hv_aspect : option Aspect;
  hv_overscan : option bool;
  hv_video_signal : option VideoSignal;
  hv_chroma_loc : option (Z * Z);
  hv_neutral_chroma : bool;
  hv_field_seq : bool;
  hv_frame_field_info : bool;
  hv_display_window : option (list Z);
  hv_timing : option HevcTiming;
  hv_restriction : option HevcRestriction;
}.

Definition hevc_vui_bits (v : HevcVui) : list bool :=
  opt_bits aspect_bits (hv_aspect v)
  ++ opt_bits flag (hv_overscan v)
  ++ opt_bits video_signal_bits (hv_video_signal v)
  ++ opt_bits ue2_bits (hv_chroma_loc v)
  ++ flag (hv_neutral_chroma v) ++ flag (hv_field_seq v) ++ flag (hv_frame_field_info v)
  ++ opt_bits (all_bits ue_bits) (hv_display_window v)
  ++ opt_bits hevc_timing_bits (hv_timing v)
  ++ opt_bits hevc_restriction_bits (hv_restriction v).

Definition hevc_vui_wf (v : HevcVui) : Prop :=
  opt_wf aspect_wf (hv_aspect v) /\ opt_wf video_signal_wf (hv_video_signal v)
  /\ opt_wf ue2_wf (hv_chroma_loc v)
  /\ opt_wf (fun c => length c = 4%nat /\ Forall ue_range c) (hv_display_window v)
  /\ opt_wf hevc_timing_wf (hv_timing v) /\ opt_wf hevc_restriction_wf (hv_restriction v).

Definition empty_hevc_vui : HevcVui :=
  {| hv_aspect := None; hv_overscan := None; hv_video_signal := None; hv_chroma_loc := None;
     hv_neutral_chroma := false; hv_field_seq := false; hv_frame_field_info := false;
     hv_display_window := None; hv_timing := None; hv_restriction := None |}.

Definition hevc_vui_full_range (v : HevcVui) : HevcVui :=
  {| hv_aspect := hv_aspect v; hv_overscan := hv_overscan v;
     hv_video_signal := Some full_range_bt709; hv_chroma_loc := hv_chroma_loc v;
     hv_neutral_chroma := hv_neutral_chroma v; hv_field_seq := hv_field_seq v;
     hv_frame_field_info := hv_frame_field_info v; hv_display_window := hv_display_window v;
     hv_timing := hv_timing v; hv_restriction := hv_restriction v |}.

Record HevcTail := {
  tl_log2_min_coding : Z; tl_log2_diff_coding : Z; tl_log2_min_transform : Z;
  tl_log2_diff_transform : Z; tl_depth_inter : Z; tl_depth_intra : Z;
  tl_default_scaling_lists : bool;
  tl_amp : bool;
  tl_sao : bool;
  tl_pcm : option HevcPcm;
  tl_rps : list StRefPicSet;
  tl_long_term : option (list (Z * bool));
  tl_temporal_mvp : bool;
  tl_strong_smoothing : bool;
  tl_vui : option HevcVui;
}.

(** The second flag says that the lists are the default ones. *)
Definition scaling_bits (enabled : bool) : list bool :=
  flag enabled ++ (if enabled then flag false else []).

(** The tail of a set whose head declared [log2_max_poc]; the last flag says
    that there are no extensions. *)
Definition hevc_tail_bits (log2_max_poc : Z) (t : HevcTail) : list bool :=
  ue_bits (tl_log2_min_coding t) ++ ue_bits (tl_log2_diff_coding t)
  ++ ue_bits (tl_log2_min_transform t) ++ ue_bits (tl_log2_diff_transform t)
  ++ ue_bits (tl_depth_inter t) ++ ue_bits (tl_depth_intra t)
  ++ scaling_bits (tl_default_scaling_lists t)
  ++ flag (tl_amp t) ++ flag (tl_sao t)
  ++ opt_bits pcm_bits (tl_pcm t)
  ++ ue_bits (Z.of_nat (length (tl_rps t))) ++ rps_list_bits 0 (tl_rps t)
  ++ opt_bits (fun l => ue_bits (Z.of_nat (length l))
       ++ all_bits (fun x => u_bits (Z.to_nat (log2_max_poc + 4)) x.1 ++ flag x.2) l)
       (tl_long_term t)
  ++ flag (tl_temporal_mvp t) ++ flag (tl_strong_smoothing t)
  ++ opt_bits hevc_vui_bits (tl_vui t)
  ++ flag false.

Definition hevc_tail_wf (log2_max_poc : Z) (t : HevcTail) : Prop :=
  ue_range (tl_log2_min_coding t) /\ ue_range (tl_log2_diff_coding t)
  /\ ue_range (tl_log2_min_transform t) /\ ue_range (tl_log2_diff_transform t)
  /\ ue_range (tl_depth_inter t) /\ ue_range (tl_depth_intra t)
  /\ opt_wf pcm_wf (tl_pcm t)
  /\ Z.of_nat (length (tl_rps t)) < 2 ^ 32 - 1 /\ rps_list_wf [] (tl_rps t)
  /\ opt_wf (fun l => 0 <= log2_max_poc <= 28 /\ Z.of_nat (length l) < 2 ^ 32 - 1
               /\ Forall (fun x => unsigned (log2_max_poc + 4) x.1) l) (tl_long_term t)
  /\ opt_wf hevc_vui_wf (tl_vui t).

Definition hevc_tail_full_range (t : HevcTail) : HevcTail :=
  {| tl_log2_min_coding := tl_log2_min_coding t; tl_log2_diff_coding := tl_log2_diff_coding t;
     tl_log2_min_transform := tl_log2_min_transform t;
     tl_log2_diff_transform := tl_log2_diff_transform t;
     tl_depth_inter := tl_depth_inter t; tl_depth_intra := tl_depth_intra t;
     tl_default_scaling_lists := tl_default_scaling_lists t; tl_amp := tl_amp t;
     tl_sao := tl_sao t; tl_pcm := tl_pcm t; tl_rps := tl_rps t; tl_long_term := tl_long_term t;
     tl_temporal_mvp := tl_temporal_mvp t; tl_strong_smoothing := tl_strong_smoothing t;
     tl_vui := Some (hevc_vui_full_range (default empty_hevc_vui (tl_vui t))) |}.

(** * The full walk follows the syntax *)

Lemma sim_predicted l : forall acc, 0 <= acc -> acc + Z.of_nat (length l) < 2 ^ 32 ->
  sim (copy_predicted_flags (length l) acc) (all_bits predicted_bits l) (all_bits predicted_bits l)
    (acc + Z.of_nat (predicted_count l)).
Proof.
  induction l as [|p l IH]; intros acc H0 H1.
  { unfold predicted_count. cbn. rewrite Z.add_0_r. apply sim_ret. }
  assert (Ec : acc + Z.of_nat (predicted_count (p :: l))
             = (if has_delta p then acc + 1 else acc) + Z.of_nat (predicted_count l)).
  { unfold predicted_count. cbn [List.filter]. destruct (has_delta p); cbn [length]; lia. }
  cbn [length] in H1. unfold all_bits in *. cbn [length copy_predicted_flags map concat].
  destruct p as [|[|]]; cbn [predicted_bits has_delta] in *; rewrite <- ?app_assoc, Ec;
    sim_step idtac; cbn [Z.b2z Z.eqb Pos.eqb];
    [| sim_step idtac; cbn [Z.b2z Z.eqb Pos.eqb]..];
    rewrite ?uwrap_small by urange; apply IH; lia.
Qed.

Lemma sim_delta_pocs l : Forall (fun d : Z * bool => ue_range d.1) l ->
  sim (repeat_sp (Z.to_nat (Z.of_nat (length l))) (pass_ue;; pass_u 1))
    (all_bits delta_poc_bits l) (all_bits delta_poc_bits l) tt.
Proof.
  intros H. apply sim_repeat; [lia |]. eapply Forall_impl; [| exact H]. intros d ?.
  unfold delta_poc_bits. sim_go idtac.
Qed.

Lemma sim_rps counts s : rps_wf counts s ->
  sim (copy_hevc_st_ref_pic_set (length counts) (map Z.of_nat counts))
    (rps_bits (length counts) s) (rps_bits (length counts) s) (Z.of_nat (rps_count s)).
Proof.
  intros Hs. unfold copy_hevc_st_ref_pic_set, rps_bits.
  assert (Hflag : forall b, (b = true -> counts <> []) ->
    sim (if Nat.eqb (length counts) 0 then mret 0 else copy_u 1)
      (if Nat.eqb (length counts) 0 then [] else flag b)
      (if Nat.eqb (length counts) 0 then [] else flag b) (Z.b2z b)).
  { intros b Hb. destruct (Nat.eqb_spec (length counts) 0) as [E | E]; [| apply sim_copy_flag].
    destruct b; [| apply sim_ret]. exfalso. apply Hb; [done |]. by apply length_zero_iff_nil. }
  destruct s as [neg pos | sign abs flags]; cbn [rps_wf rps_count] in *.
  - destruct Hs as (Hlen & Hn & Hp). eapply sim_bind; [by apply (Hflag false) |].
    cbn [Z.b2z Z.eqb Pos.eqb].
    rewrite <- (app_nil_r (all_bits delta_poc_bits pos)).
    sim_go ltac:(by apply sim_delta_pocs).
    rewrite uwrap_small by urange. rewrite <- Nat2Z.inj_add. apply sim_ret.
  - destruct Hs as (Ha & Hlen & k & Hk & Hf).
    eapply sim_bind; [apply (Hflag true); by intros _ -> |]. cbn [Z.b2z Z.eqb Pos.eqb].
    do 2 sim_step idtac. destruct (length counts) as [|n] eqn:En.
    + exfalso. by apply length_zero_iff_nil in En as ->.
    + cbn [pred] in Hk. rewrite list_lookup_fmap, Hk. cbn [fmap option_fmap option_map].
      replace (Z.to_nat (Z.of_nat k + 1)) with (length flags) by lia.
      apply (sim_predicted flags 0); lia.
Qed.

Lemma sim_rps_list l : forall counts, rps_list_wf counts l ->
  sim (copy_st_ref_pic_sets (length l) (length counts) (map Z.of_nat counts))
    (rps_list_bits (length counts) l) (rps_list_bits (length counts) l) tt.
Proof.
  induction l as [|s l IH]; intros counts Hl; [apply sim_ret |].
  destruct Hl as (Hs & Hl). cbn [length copy_st_ref_pic_sets rps_list_bits].
  eapply sim_bind; [by apply sim_rps |]. specialize (IH _ Hl).
  rewrite length_app, map_app, Nat.add_1_r in IH. exact IH.
Qed.

Lemma sim_timing t : hevc_timing_wf t ->
  sim (pass_u 32;; pass_u 32;;
       poc_proportional ← copy_u 1;
       when (poc_proportional =? 1) pass_ue;;
       vui_hrd_present ← rd (read_bits 1);
       if vui_hrd_present =? 1 then fail NotInitialized else put_u 0 1)
    (hevc_timing_bits t) (hevc_timing_bits t) tt.
Proof.
  intros (? & ? & Hp). unfold hevc_timing_bits.
  assert (Ho : sim (when (is_some (ht_poc_proportional t)) pass_ue)
    (body_bits ue_bits (ht_poc_proportional t)) (body_bits ue_bits (ht_poc_proportional t)) tt).
  { eapply sim_opt; [| exact Hp]. intros. sim_step idtac. }
  rewrite <- (app_nil_r (flag false)) at 1. sim_go ltac:(exact Ho).
Qed.

Lemma sim_hevc_restriction b : hevc_restriction_wf b ->
  sim (pass_u 1;; pass_u 1;; pass_u 1;; pass_ue;; pass_ue;; pass_ue;; pass_ue;; pass_ue)
    (hevc_restriction_bits b) (hevc_restriction_bits b) tt.
Proof. intros (? & ? & ? & ? & ?). unfold hevc_restriction_bits. sim_go idtac. Qed.

Ltac hevc_vui_call :=
  first [ exact sim_write_full_range
        | by apply sim_crop
        | eapply sim_opt; [ first [exact sim_aspect | exact sim_ue2 | exact sim_timing
                                  | exact sim_hevc_restriction ] | assumption ]
        | eapply sim_opt_skip; [ exact sim_skip_video_signal | assumption ] ].

Lemma sim_hevc_vui v : hevc_vui_wf v ->
  sim copy_hevc_vui_with_full_range_bt709 (hevc_vui_bits v) (hevc_vui_bits (hevc_vui_full_range v)) tt.
Proof.
  intros (? & ? & ? & ? & ? & ?).
  unfold copy_hevc_vui_with_full_range_bt709, hevc_vui_bits.
  cbn [hevc_vui_full_range hv_aspect hv_overscan hv_video_signal hv_chroma_loc hv_neutral_chroma
    hv_field_seq hv_frame_field_info hv_display_window hv_timing hv_restriction].
  set (vs := opt_bits video_signal_bits (Some _)). sim_go hevc_vui_call.
Qed.

Lemma sim_minimal_hevc_vui :
  sim emit_minimal_hevc_vui [] (hevc_vui_bits (hevc_vui_full_range empty_hevc_vui)) tt.
Proof.
  unfold emit_minimal_hevc_vui, hevc_vui_bits.
  cbn [hevc_vui_full_range empty_hevc_vui hv_aspect hv_overscan hv_video_signal hv_chroma_loc
    hv_neutral_chroma hv_field_seq hv_frame_field_info hv_display_window hv_timing hv_restriction].
  pose proof sim_write_full_range as Hvs. revert Hvs.
  set (vs := opt_bits video_signal_bits (Some _)). clearbody vs. intros Hvs.
  unfold opt_bits. cbn [is_some body_bits]. rewrite ?app_nil_l, ?app_nil_r.
  sim_go ltac:(exact Hvs).
Qed.

Lemma sim_scaling (b : bool) :
  sim copy_hevc_scaling_list_flags (scaling_bits b) (scaling_bits b) tt.
Proof.
  unfold copy_hevc_scaling_list_flags, scaling_bits. eapply sim_bind; [apply sim_copy_flag |].
  destruct b; cbn [Z.b2z Z.eqb Pos.eqb when]; [| apply sim_ret].
  rewrite <- (app_nil_r (flag false)). eapply sim_bind; [apply sim_copy_flag | apply sim_ret].
Qed.

Lemma sim_long_term log2_max_poc o :
  opt_wf (fun l => 0 <= log2_max_poc <= 28 /\ Z.of_nat (length l) < 2 ^ 32 - 1
    /\ Forall (fun x : Z * bool => unsigned (log2_max_poc + 4) x.1) l) o ->
  let bits := body_bits (fun l => ue_bits (Z.of_nat (length l))
       ++ all_bits (fun x : Z * bool => u_bits (Z.to_nat (log2_max_poc + 4)) x.1 ++ flag x.2) l) o in
  sim (when (is_some o)
        (num_long_term ← copy_ue;
         let lt_lsb_bits := uwrap 32 (log2_max_poc + 4) in
         repeat_sp (Z.to_nat num_long_term) (pass_u lt_lsb_bits;; pass_u 1))) bits bits tt.
Proof.
  intros Ho. cbn zeta. eapply sim_opt; [| exact Ho]. intros l (Hr & Hlen & Hl).
  eapply sim_bind; [apply sim_copy_ue; unfold ue_range; lia |].
  rewrite uwrap_small by urange. apply sim_repeat; [lia |].
  eapply Forall_impl; [| exact Hl]. intros x Hx. eapply sim_bind; [| sim_step idtac].
  unfold pass_u. eapply sim_drop, sim_copy_u; [done | done | lia].
Qed.

Lemma sim_vui_opt o : opt_wf hevc_vui_wf o ->
  sim (if is_some o then copy_hevc_vui_with_full_range_bt709 else emit_minimal_hevc_vui)
    (body_bits hevc_vui_bits o) (hevc_vui_bits (hevc_vui_full_range (default empty_hevc_vui o))) tt.
Proof. destruct o as [v|]; [apply sim_hevc_vui | intros _; exact sim_minimal_hevc_vui]. Qed.

Lemma sim_tail log2_max_poc t : hevc_tail_wf log2_max_poc t ->
  sim (copy_hevc_sps_tail log2_max_poc) (hevc_tail_bits log2_max_poc t)
    (hevc_tail_bits log2_max_poc (hevc_tail_full_range t)) tt.
Proof.
  intros (? & ? & ? & ? & ? & ? & Hpcm & Hn & Hrps & Hlt & Hvui).
  assert (Hp : sim (when (is_some (tl_pcm t)) (pass_u 4;; pass_u 4;; pass_ue;; pass_ue;; pass_u 1))
    (body_bits pcm_bits (tl_pcm t)) (body_bits pcm_bits (tl_pcm t)) tt).
  { eapply sim_opt; [| exact Hpcm]. intros p (? & ? & ? & ?). unfold pcm_bits. sim_go idtac. }
  pose proof (sim_rps_list (tl_rps t) [] Hrps) as Hr.
  cbn [length map] in Hr. rewrite <- (Nat2Z.id (length (tl_rps t))) in Hr.
  pose proof (sim_long_term log2_max_poc _ Hlt) as Hl. cbn zeta in Hl.
  pose proof (sim_vui_opt _ Hvui) as Hv.
  unfold copy_hevc_sps_tail, hevc_tail_bits.
  cbn [hevc_tail_full_range tl_log2_min_coding tl_log2_diff_coding tl_log2_min_transform
    tl_log2_diff_transform tl_depth_inter tl_depth_intra tl_default_scaling_lists tl_amp tl_sao tl_pcm
    tl_rps tl_long_term tl_temporal_mvp tl_strong_smoothing tl_vui].
  rewrite <- (app_nil_r (flag false)) at 1.
  sim_go ltac:(first [ apply sim_scaling | exact Hp | exact Hr | exact Hl | exact Hv ]).
Qed.

(** * The theorems *)

Lemma hevc_walk_of_head h rbsp rest : hevc_head_wf h -> bits_of rbsp = hevc_head_bits h ++ rest ->
  exists r w, run_sp walk_hevc_sps_through_dpb rbsp = Ok (tt, (r, w)) /\ reader_at r rest
    /\ writer_at w (hevc_head_bits (hevc_head_low_latency h)).
Proof.
  intros Hh Hb.
  exact (sim_head h Hh (BitReader_new rbsp) BitWriter_new rest [] Hb writer_new_at).
Qed.

Lemma hevc_head_of_walk rbsp u s : run_sp walk_hevc_sps_through_dpb rbsp = Ok (u, s) ->
  exists h rest, hevc_head_wf h /\ bits_of rbsp = hevc_head_bits h ++ rest.
Proof.
  intros E. destruct s as (r & w).
  destruct (reads_head (BitReader_new rbsp) _ _ _ _ _ eq_refl E) as (i & rest & Hb & _ & h & Hh & ->).
  by exists h, rest.
Qed.

(** Zero bits up to the next byte boundary. *)
Definition zero_padded (bs : list bool) : list bool :=
  bs ++ replicate ((8 - length bs mod 8) mod 8) false.

Lemma writer_padded w bs : writer_at w bs ->
  bytes_ok (bw_bytes w) /\ bits_of (bw_bytes w) = zero_padded bs.
Proof.
  intros (_ & Hok & k & Hk & Hb). split; [done |]. rewrite Hb. unfold zero_padded. do 2 f_equal.
  assert (E : (8 * length (bw_bytes w) = length bs + k)%nat)
    by (rewrite <- length_bits_of, Hb, length_app, length_replicate; done).
  pose proof (Nat.div_mod_eq (length bs) 8). pose proof (Nat.mod_upper_bound (length bs) 8 ltac:(done)).
  destruct (decide (length bs mod 8 = 0)%nat) as [E0 | E0].
  - rewrite E0. change ((8 - 0) mod 8)%nat with 0%nat. lia.
  - rewrite Nat.mod_small by lia. lia.
Qed.

Lemma patch_full_of_syntax h t rbsp rest :
  hevc_head_wf h -> hevc_tail_wf (hh_log2_max_poc_minus4 h) t ->
  bits_of rbsp = hevc_head_bits h ++ hevc_tail_bits (hh_log2_max_poc_minus4 h) t ++ rest ->
  exists out, patch_hevc_sps_full rbsp = Ok out /\ bytes_ok out
    /\ bits_of out = with_trailing (hevc_head_bits (hevc_head_low_latency h)
         ++ hevc_tail_bits (hh_log2_max_poc_minus4 h) (hevc_tail_full_range t)).
Proof.
  intros Hh Ht Hb. destruct (hevc_walk_of_head h rbsp _ Hh Hb) as (r & w & E & Hr & Hw).
  destruct (sim_tail _ t Ht _ _ _ _ Hr Hw) as (r' & w' & E' & _ & Hw').
  exists (bw_bytes (write_rbsp_trailing_bits w')). unfold patch_hevc_sps_full.
  rewrite E. cbn [mbind result_bind]. rewrite (log2_max_poc_of_head h rbsp _ Hh Hb).
  cbn [mbind result_bind]. rewrite E'. split; [done | by apply bits_with_trailing].
Qed.

Lemma patch_dpb_only_of_head h rbsp rest :
  hevc_head_wf h -> bits_of rbsp = hevc_head_bits h ++ rest ->
  exists out, patch_hevc_sps_dpb_only rbsp = Ok out /\ bytes_ok out
    /\ bits_of out = zero_padded (hevc_head_bits (hevc_head_low_latency h) ++ rest).
Proof.
  intros Hh Hb. destruct (hevc_walk_of_head h rbsp _ Hh Hb) as (r & w & E & Hr & Hw).
  exists (bw_bytes (copy_remaining_bits r w)). unfold patch_hevc_sps_dpb_only. rewrite E.
  split; [done |]. by apply writer_padded, copy_remaining_bits_at.
Qed.

Lemma patch_hevc_ok_head rbsp out : patch_hevc_sps_rbsp rbsp = Ok out ->
  exists h rest, hevc_head_wf h /\ bits_of rbsp = hevc_head_bits h ++ rest.
Proof.
  unfold patch_hevc_sps_rbsp, patch_hevc_sps_full, patch_hevc_sps_dpb_only. intros E.
  destruct (run_sp walk_hevc_sps_through_dpb rbsp) as [(u & s)|e] eqn:E1; [| done].
  by apply hevc_head_of_walk in E1.
Qed.

(** C11. On a supported HEVC sequence parameter set the rewriter returns the
    same set, properly terminated, with two changes.  Every sub-layer declares a
    buffer of one picture without reordering or added latency; and the video
    signal type of the VUI, colour description included, is replaced by
    full-range BT.709, in a VUI with nothing else in it where there was none
    (although the file's header lists colour information among what is not
    touched).  Every other field is unchanged. *)
Theorem patch_hevc_full_exact h t rbsp rest :
  hevc_head_wf h -> hevc_tail_wf (hh_log2_max_poc_minus4 h) t ->
  bits_of rbsp = hevc_head_bits h ++ hevc_tail_bits (hh_log2_max_poc_minus4 h) t ++ rest ->
  exists out, patch_hevc_sps_rbsp rbsp = Ok out /\ bytes_ok out
    /\ bits_of out = with_trailing (hevc_head_bits (hevc_head_low_latency h)
         ++ hevc_tail_bits (hh_log2_max_poc_minus4 h) (hevc_tail_full_range t)).
Proof.
  intros Hh Ht Hb. destruct (patch_full_of_syntax h t rbsp rest Hh Ht Hb) as (out & E & H).
  exists out. unfold patch_hevc_sps_rbsp. by rewrite E.
Qed.

(** The fallback never regresses: the HEVC rewriter succeeds exactly on
    the inputs whose head parses, whatever follows it; and when the full walk
    gives up, the output is the patched head followed by every remaining bit
    of the input, verbatim. *)
Theorem patch_hevc_fallback rbsp :
  (is_ok (patch_hevc_sps_rbsp rbsp) = true
   <-> exists h rest, hevc_head_wf h /\ bits_of rbsp = hevc_head_bits h ++ rest)
  /\ (forall h rest, hevc_head_wf h -> bits_of rbsp = hevc_head_bits h ++ rest ->
        is_ok (patch_hevc_sps_full rbsp) = false ->
        exists out, patch_hevc_sps_rbsp rbsp = Ok out
          /\ bits_of out = zero_padded (hevc_head_bits (hevc_head_low_latency h) ++ rest)).
Proof.
  assert (Hfb : forall h rest, hevc_head_wf h -> bits_of rbsp = hevc_head_bits h ++ rest ->
    is_ok (patch_hevc_sps_full rbsp) = false ->
    exists out, patch_hevc_sps_rbsp rbsp = Ok out
      /\ bits_of out = zero_padded (hevc_head_bits (hevc_head_low_latency h) ++ rest)).
  { intros h rest Hh Hb Hf. destruct (patch_dpb_only_of_head h rbsp rest Hh Hb) as (out & E & _ & Ho).
    exists out. unfold patch_hevc_sps_rbsp. by destruct (patch_hevc_sps_full rbsp). }
  split; [| exact Hfb]. split.
  - destruct (patch_hevc_sps_rbsp rbsp) as [out|] eqn:E; [intros _ | done].
    by apply (patch_hevc_ok_head rbsp out).
  - intros (h & rest & Hh & Hb). destruct (is_ok (patch_hevc_sps_full rbsp)) eqn:Ef.
    + unfold patch_hevc_sps_rbsp. by destruct (patch_hevc_sps_full rbsp).
    + destruct (Hfb h rest Hh Hb eq_refl) as (out & -> & _). done.
Qed.

(** A 1920x1080 Main profile set as a hardware encoder emits it: four pictures
    of buffering, two of reordering, one explicit and one predicted reference
    picture set, a VUI that declares limited range. *)
Definition demo_head : HevcHead :=
  {| hh_vps_id := 0; hh_temporal_nesting := true;
     hh_ptl := {| ptl_profile := 1; ptl_compatibility := 1610612736;
                  ptl_constraints_level := [144; 0; 0; 0; 0; 0; 120]; ptl_sub_layers := [];
                  ptl_reserved := [] |};
     hh_sps_id := 0; hh_chroma_format_idc := 1; hh_separate_plane := None;
     hh_width := 1920; hh_height := 1088; hh_conformance_window := Some [0; 0; 0; 4];
     hh_bit_depth_luma := 0; hh_bit_depth_chroma := 0; hh_log2_max_poc_minus4 := 4;
     hh_sub_layer_ordering_info := true;
     hh_dpb := [{| dpb_buffering_minus1 := 3; dpb_num_reorder := 2; dpb_latency_plus1 := 0 |}] |}.

Definition demo_tail : HevcTail :=
  {| tl_log2_min_coding := 0; tl_log2_diff_coding := 2; tl_log2_min_transform := 0;
     tl_log2_diff_transform := 3; tl_depth_inter := 1; tl_depth_intra := 1;
     tl_default_scaling_lists := false; tl_amp := true; tl_sao := true; tl_pcm := None;
     tl_rps := [StExplicit [(0, true)] []; StPredicted false 0 [Used; Unused true]];
     tl_long_term := Some [(5, true)]; tl_temporal_mvp := true; tl_strong_smoothing := true;
     tl_vui := Some {| hv_aspect := None; hv_overscan := None;
       hv_video_signal := Some {| vs_format := 5; vs_full_range := false; vs_colour := None |};
       hv_chroma_loc := None; hv_neutral_chroma := false; hv_field_seq := false;
       hv_frame_field_info := false; hv_display_window := None;
       hv_timing := Some {| ht_ticks := 1; ht_scale := 60; ht_poc_proportional := None |};
       hv_restriction := None |} |}.

Definition demo_hevc_rbsp : list Z :=
  [1; 1; 96; 0; 0; 0; 144; 0; 0; 0; 0; 0; 120; 160; 3; 192; 128; 17; 7; 203; 150; 71; 185; 18; 102;
   189; 180; 11; 230; 128; 128; 0; 0; 0; 128; 0; 0; 30; 4].

(** The same head before in-band scaling lists. *)
Definition scaling_list_tail : list bool :=
  [true; true; true; true; true; true] ++ flag true ++ flag true ++ flag false ++ [true].

Definition demo_scaling_rbsp : list Z :=
  [1; 1; 96; 0; 0; 0; 144; 0; 0; 0; 0; 0; 120; 160; 3; 192; 128; 17; 7; 203; 150; 71; 255; 96].

(** Side conditions of a concrete set. *)
Ltac ground_wf :=
  cbn; repeat match goal with
  | |- _ /\ _ => split
  | |- Forall _ [] => apply List.Forall_nil
  | |- Forall _ (_ :: _) => apply List.Forall_cons
  | |- exists _, Some _ = Some _ /\ _ => eexists; split; reflexivity
  | |- _ => first [ done | unfold ue_range, se_range, unsigned; cbn; lia ]
  end.

Lemma demo_head_wf : hevc_head_wf demo_head.
Proof. unfold hevc_head_wf, ptl_wf, dpb_wf. ground_wf. Qed.

Lemma demo_tail_wf : hevc_tail_wf 4 demo_tail.
Proof. unfold hevc_tail_wf, demo_tail. cbn. unfold hevc_vui_wf, hevc_timing_wf, video_signal_wf. ground_wf. Qed.

Lemma patch_hevc_full_exact_witness : exists out, patch_hevc_sps_rbsp demo_hevc_rbsp = Ok out
  /\ bits_of out = with_trailing (hevc_head_bits (hevc_head_low_latency demo_head)
         ++ hevc_tail_bits 4 (hevc_tail_full_range demo_tail)).
Proof.
  destruct (patch_hevc_full_exact demo_head demo_tail demo_hevc_rbsp (true :: replicate 2 false)
              demo_head_wf demo_tail_wf ltac:(vm_compute; reflexivity)) as (out & E & _ & H).
  exists out. split; [exact E | exact H].
Defined.

Lemma patch_hevc_fallback_witness : exists out, patch_hevc_sps_rbsp demo_scaling_rbsp = Ok out
  /\ bits_of out = zero_padded (hevc_head_bits (hevc_head_low_latency demo_head)
         ++ scaling_list_tail ++ trailing 186).
Proof.
  exact (proj2 (patch_hevc_fallback demo_scaling_rbsp) demo_head (scaling_list_tail ++ trailing 186)
    demo_head_wf ltac:(vm_compute; reflexivity) ltac:(vm_compute; reflexivity)).
Defined.

(** The copied tail is not realigned: here the head shrinks by six bits, the
    terminating one bit of the input moves up by as many, and the rewritten
    set ends in a zero byte, which H.265 7.4.1.1 forbids for a unit. *)
Lemma hevc_fallback_ends_in_zero :
  exists h, patch_hevc_sps_rbsp demo_scaling_rbsp = Ok (h ++ [0])
    /\ List.last demo_scaling_rbsp 0 <> 0.
Proof.
  exists [1; 1; 96; 0; 0; 0; 144; 0; 0; 0; 0; 0; 120; 160; 3; 192; 128; 17; 7; 203; 151; 255; 216].
  split; vm_compute; congruence.
Qed.
