(* ===== verification/SpsPatcher.v ===== *)
(** [patch_packet_for_low_latency_dpb] of
    [crates/penflow-core/src/encoder/sps_patcher.rs]: the walk over a coded
    packet that replaces every sequence parameter set by its patched version
    and copies everything else. *)
From S2P Require Import Prelude Bytes Engine AnnexB Rbsp BitIO BitSim SpsH264 SpsHevc.

(** * The implementation *)

(** The length of the first start code of the suffix [l] and the offset of
    the byte after it, counted from the head of [l]. *)
Fixpoint scan_start_code (l : list Z) : option (nat * nat) :=
  match l with
  | [] => None
  | _ :: l' =>
      if Nat.ltb (length l) 3 then None
      else match start_code_len l with
           | Some n => Some (n, n)
           | None => (fun p => (p.1, S p.2)) <$> scan_start_code l'
           end
  end.

Definition patch_sps_rbsp (codec : Codec) (rbsp : list Z) : EngineResult (list Z) :=
  match codec with H264 => patch_h264_sps_rbsp rbsp | Hevc => patch_hevc_sps_rbsp rbsp end.

(** One round per unit; [l] is [bytes[i..]]. *)
Fixpoint patch_packet_loop (fuel : nat) (codec : Codec) (l out : list Z) : EngineResult (list Z) :=
  match fuel with
  | O => Ok out
  | S fuel' =>
      if Nat.ltb 0 (length l) then
        match scan_start_code l with
        | None => Ok (out ++ l)
        | Some (_, payload_off) =>
            let end_off := (payload_off + nal_end (drop payload_off l))%nat in
            let header_end := (payload_off + nal_header_len codec)%nat in
            if Nat.ltb end_off header_end then Ok (out ++ l)
            else if negb (nal_type_of codec (get l payload_off) =? sps_type codec) then
              patch_packet_loop fuel' codec (drop end_off l) (out ++ take end_off l)
            else
              let escaped := sub_slice header_end (end_off - header_end) l in
              patched_rbsp ← patch_sps_rbsp codec (rbsp_unescape escaped);
              patch_packet_loop fuel' codec (drop end_off l)
                ((out ++ take header_end l) ++ rbsp_escape patched_rbsp)
        end
      else Ok out
  end.

Definition patch_packet_for_low_latency_dpb (codec : Codec) (bytes : list Z)
  : EngineResult (list Z) :=
  patch_packet_loop (length bytes) codec bytes [].

(** * The specification, one unit at a time *)

Definition is_sps (codec : Codec) (n : Nal) : bool := nal_type codec n =? sps_type codec.

(** The unit with its payload patched, if it is a sequence parameter set. *)
Definition patch_unit (codec : Codec) (n : Nal) : EngineResult Nal :=
  if is_sps codec n then
    p ← patch_sps_rbsp codec (rbsp_unescape (drop (nal_header_len codec) (nal_body n)));
    Ok {| sc_long := sc_long n;
          nal_body := take (nal_header_len codec) (nal_body n) ++ rbsp_escape p |}
  else Ok n.

(** * Lemmas *)

Lemma scan_start_code_unit n rest :
  scan_start_code (start_code n ++ rest) = Some (length (start_code n), length (start_code n)).
Proof.
  pose proof (start_code_len_code n rest) as E.
  assert (3 <= length (start_code n))%nat as H3 by (unfold start_code; destruct (sc_long n); cbn; lia).
  destruct (start_code n ++ rest) as [|b l] eqn:El.
  - apply (f_equal length) in El. rewrite length_app in El. cbn in El. lia.
  - cbn [scan_start_code]. rewrite E. rewrite <- El.
    by rewrite (proj2 (Nat.ltb_ge _ _)) by (rewrite length_app; lia).
Qed.

Lemma scan_start_code_bounds l n off :
  scan_start_code l = Some (n, off) -> (3 <= off <= length l)%nat.
Proof.
  revert n off. induction l as [|b l IH]; intros n off; [done |]. cbn [scan_start_code].
  destruct (Nat.ltb_spec (length (b :: l)) 3) as [|H3]; [done |].
  destruct (start_code_len (b :: l)) as [k|] eqn:E.
  - intros [= <- <-]. apply start_code_len_bounds in E. lia.
  - destruct (scan_start_code l) as [(n', off')|]; [| done]. intros [= <- <-].
    specialize (IH _ _ eq_refl). cbn [length]. lia.
Qed.

Lemma nal_end_bound l : (nal_end l <= length l)%nat.
Proof.
  induction l as [|b l IH]; cbn [nal_end]; [done |].
  destruct (_ <? _)%nat; [done |]. destruct (start_code_len _); cbn [length] in *; lia.
Qed.

(** Enough fuel: every round drops at least a start code. *)
Lemma patch_packet_fuel codec f1 f2 l out :
  (length l <= f1)%nat -> (length l <= f2)%nat ->
  patch_packet_loop f1 codec l out = patch_packet_loop f2 codec l out.
Proof.
  revert f2 l out. induction f1 as [|f1 IH]; intros f2 l out H1 H2.
  - destruct l; [| cbn in H1; lia]. by destruct f2.
  - destruct f2 as [|f2]; [by destruct l; [| cbn in H2; lia] |]. cbn [patch_packet_loop].
    destruct (_ <? _)%nat; [| done].
    destruct (scan_start_code l) as [(n & off)|] eqn:E; [| done].
    apply scan_start_code_bounds in E. cbv zeta.
    destruct (_ <? _)%nat; [done |]. destruct (negb _).
    + apply IH; rewrite length_drop; lia.
    + destruct (patch_sps_rbsp _ _); [| done]. cbn. apply IH; rewrite length_drop; lia.
Qed.

(** One round on a well-formed unit. *)
Lemma patch_packet_unit codec n ns out : unit_ok codec n ->
  patch_packet_loop (length (annex_b_of (n :: ns))) codec (annex_b_of (n :: ns)) out
  = n' ← patch_unit codec n;
    patch_packet_loop (length (annex_b_of ns)) codec (annex_b_of ns) (out ++ nal_bytes n').
Proof.
  intros ([Hf Hl] & Hh).
  assert (El : annex_b_of (n :: ns) = start_code n ++ nal_body n ++ annex_b_of ns)
    by (unfold annex_b_of, nal_bytes; cbn; by rewrite <- app_assoc).
  set (sc := length (start_code n)) in *. set (l := annex_b_of (n :: ns)) in *.
  assert (Hd : drop sc l = nal_body n ++ annex_b_of ns) by (rewrite El; apply drop_app_length).
  assert (He : nal_end (drop sc l) = length (nal_body n))
    by (rewrite Hd; apply nal_end_body; auto using stops_annex_b).
  assert (Hlen : length l = (sc + (length (nal_body n) + length (annex_b_of ns)))%nat)
    by (rewrite El, !length_app; done).
  assert (Hsc : (3 <= sc)%nat) by (unfold sc, start_code; destruct (sc_long n); cbn; lia).
  rewrite (patch_packet_fuel codec _ (S (length l))) by lia. cbn [patch_packet_loop].
  rewrite (proj2 (Nat.ltb_lt _ _)) by lia.
  assert (scan_start_code l = Some (sc, sc)) as -> by (rewrite El; apply scan_start_code_unit).
  cbv zeta. rewrite He. rewrite (proj2 (Nat.ltb_ge _ _)) by lia.
  assert (Hget : get l sc = get (nal_body n) 0).
  { rewrite El. unfold sc. rewrite get_start_code. unfold get.
    rewrite lookup_app_l; [done |]. destruct codec; cbn in Hh; lia. }
  assert (Htail : drop (sc + length (nal_body n)) l = annex_b_of ns).
  { rewrite El, app_assoc. unfold sc. rewrite <- length_app. apply drop_app_length. }
  rewrite Hget, Htail. unfold patch_unit, is_sps, nal_type.
  assert (Hfuel : forall o, patch_packet_loop (length l) codec (annex_b_of ns) o
    = patch_packet_loop (length (annex_b_of ns)) codec (annex_b_of ns) o)
    by (intros; apply patch_packet_fuel; lia).
  destruct (_ =? _); cbn [negb].
  - assert (Esub : sub_slice (sc + nal_header_len codec)
      (sc + length (nal_body n) - (sc + nal_header_len codec)) l
      = drop (nal_header_len codec) (nal_body n)).
    { unfold sub_slice. rewrite <- drop_drop, Hd, drop_app_le by lia.
      apply take_app_length'. rewrite length_drop. lia. }
    rewrite Esub. destruct (patch_sps_rbsp _ _) as [p|]; [| done].
    cbn [mbind result_bind]. rewrite Hfuel. f_equal. unfold nal_bytes. cbn [nal_body].
    assert (Et : take (sc + nal_header_len codec) l
      = start_code n ++ take (nal_header_len codec) (nal_body n)).
    { rewrite El. unfold sc. rewrite take_app_add. by rewrite take_app_le by lia. }
    rewrite Et, <- !app_assoc. done.
  - cbn [mbind result_bind]. rewrite Hfuel. f_equal. f_equal. rewrite El, app_assoc.
    unfold sc. rewrite <- length_app. apply take_app_length.
Qed.

Lemma patch_packet_units codec ns out : Forall (unit_ok codec) ns ->
  patch_packet_loop (length (annex_b_of ns)) codec (annex_b_of ns) out
  = (fun ns' => out ++ annex_b_of ns') <$> mapM (patch_unit codec) ns.
Proof.
  intros H. revert out. induction H as [|n ns Hn _ IH]; intros out.
  - cbn. by rewrite app_nil_r.
  - rewrite patch_packet_unit by done. cbn [mapM].
    destruct (patch_unit codec n) as [n'|]; [| done]. cbn [mbind result_bind]. rewrite IH.
    destruct (mapM (patch_unit codec) ns) as [ns'|]; [| done]. cbn. f_equal.
    unfold annex_b_of. cbn. by rewrite app_assoc.
Qed.

(** C1. On a well-formed stream the packet patcher is exactly the unit-wise
    map: every sequence parameter set has its payload unescaped, patched and
    escaped again behind its own start code and header, every other unit is
    byte-identical, order is kept; and the packet is refused exactly when
    some parameter set is. *)
Theorem patch_packet_exact codec ns :
  Forall (unit_ok codec) ns ->
  patch_packet_for_low_latency_dpb codec (annex_b_of ns)
  = annex_b_of <$> mapM (patch_unit codec) ns.
Proof. intros H. unfold patch_packet_for_low_latency_dpb. by rewrite patch_packet_units. Qed.

(** No start code of the buffer introduces a parameter set. *)
Definition no_sps (codec : Codec) (l : list Z) : Prop :=
  forall j n, start_code_len (drop j l) = Some n ->
  nal_type_of codec (get (drop j l) n) <> sps_type codec.

Lemma no_sps_drop codec k l : no_sps codec l -> no_sps codec (drop k l).
Proof. intros H j n. rewrite drop_drop. apply H. Qed.

Lemma scan_start_code_found l n off :
  scan_start_code l = Some (n, off) -> (n <= off)%nat /\ start_code_len (drop (off - n) l) = Some n.
Proof.
  revert n off. induction l as [|b l IH]; intros n off; [done |]. cbn [scan_start_code].
  destruct (Nat.ltb_spec (length (b :: l)) 3) as [|H3]; [done |].
  destruct (start_code_len (b :: l)) as [k|] eqn:E.
  - intros [= <- <-]. rewrite Nat.sub_diag. by split; [lia |].
  - destruct (scan_start_code l) as [(n', off')|]; [| done]. intros [= <- <-].
    destruct (IH _ _ eq_refl) as (Hle & Hs). cbn [fst snd] in *. split; [lia |].
    by replace (S off' - n')%nat with (S (off' - n'))%nat by lia.
Qed.

Lemma patch_packet_no_sps codec fuel l out :
  (length l <= fuel)%nat -> no_sps codec l -> patch_packet_loop fuel codec l out = Ok (out ++ l).
Proof.
  revert l out. induction fuel as [|fuel IH]; intros l out Hl Hn; cbn [patch_packet_loop].
  - destruct l; [by rewrite app_nil_r | cbn in Hl; lia].
  - destruct (Nat.ltb_spec 0 (length l)) as [Hpos | Hz].
    2: { destruct l; [by rewrite app_nil_r | cbn in Hz; lia]. }
    destruct (scan_start_code l) as [(n & off)|] eqn:E; [| done].
    pose proof (scan_start_code_bounds _ _ _ E) as Hb.
    apply scan_start_code_found in E as (Hle & E). cbv zeta.
    destruct (_ <? _)%nat; [done |].
    assert (Hg : get (drop (off - n) l) n = get l off).
    { unfold get. rewrite lookup_drop. by replace (off - n + n)%nat with off by lia. }
    pose proof (Hn _ _ E) as Ht. rewrite Hg in Ht.
    rewrite (proj2 (Z.eqb_neq _ _)) by done. cbn [negb].
    rewrite IH by (try apply no_sps_drop; rewrite ?length_drop; done || lia).
    by rewrite <- app_assoc, take_drop.
Qed.

(** A packet without a parameter set, whatever its bytes, comes out
    unchanged: the patcher only ever touches parameter sets. *)
Theorem patch_packet_identity codec bytes :
  no_sps codec bytes -> patch_packet_for_low_latency_dpb codec bytes = Ok bytes.
Proof. intros H. unfold patch_packet_for_low_latency_dpb. by rewrite patch_packet_no_sps. Qed.

(** ** Framing *)

Lemma last_nz_with_trailing l bs : bits_of l = with_trailing bs -> last_nz l.
Proof.
  unfold with_trailing. intros E.
  destruct l as [|x h _] using rev_ind.
  { apply (f_equal length) in E. rewrite length_app in E. cbn in E. lia. }
  exists h, x. split; [done |]. intros ->.
  pose proof (f_equal length E) as El. rewrite length_bits_of, !length_app in El.
  unfold trailing in *. cbn [length] in El. rewrite length_replicate in El.
  assert (Hp : bits_of (h ++ [0]) !! length bs = Some true)
    by (rewrite E, lookup_app_r, Nat.sub_diag by lia; done).
  rewrite bits_of_app, lookup_app_r in Hp by (rewrite length_bits_of; lia).
  change (bits_of [0]) with (replicate 8 false) in Hp.
  apply lookup_replicate in Hp as (? & _). done.
Qed.

(** The header of a parameter set is kept, so its first byte is not zero. *)
Lemma sps_header_nz codec b : nal_type_of codec b = sps_type codec -> b <> 0.
Proof. by intros H ->; destruct codec. Qed.

Lemma last_nz_app k l : last_nz l -> last_nz (k ++ l).
Proof. intros (h & x & -> & Hx). exists (k ++ h), x. by rewrite app_assoc. Qed.

(** What the framing needs of a unit: nothing for H.264; for HEVC that the
    second header byte (which holds [nuh_temporal_id_plus1]) is not zero and
    that the set is of the fully supported syntax. *)
Definition reframes (codec : Codec) (n : Nal) : Prop :=
  match codec with
  | H264 => True
  | Hevc =>
      is_sps Hevc n = true ->
      get (nal_body n) 1 <> 0
      /\ exists h t rest, hevc_head_wf h /\ hevc_tail_wf (hh_log2_max_poc_minus4 h) t
         /\ bits_of (rbsp_unescape (drop 2 (nal_body n)))
            = hevc_head_bits h ++ hevc_tail_bits (hh_log2_max_poc_minus4 h) t ++ rest
  end.

Lemma patched_payload codec n p : is_sps codec n = true -> reframes codec n ->
  patch_sps_rbsp codec (rbsp_unescape (drop (nal_header_len codec) (nal_body n))) = Ok p ->
  bytes_ok p /\ last_nz p.
Proof.
  intros Hs Hr E. destruct codec; cbn [reframes patch_sps_rbsp nal_header_len] in *.
  - destruct (patch_h264_reads _ _ E) as (s & rest & Hwf & Hb).
    destruct (patch_h264_of_sps s _ rest Hwf Hb) as (out & E' & Hok & Ho).
    rewrite E in E'. injection E' as <-. split; [done | by eapply last_nz_with_trailing].
  - destruct (Hr Hs) as (_ & h & t & rest & Hh & Ht & Hb).
    destruct (patch_full_of_syntax h t _ rest Hh Ht Hb) as (out & E' & Hok & Ho).
    unfold patch_hevc_sps_rbsp in E. rewrite E' in E. injection E as <-.
    split; [done | by eapply last_nz_with_trailing].
Qed.

(** What the patcher may change of a unit. *)
Definition same_frame (codec : Codec) (n n' : Nal) : Prop :=
  sc_long n' = sc_long n /\ nal_type codec n' = nal_type codec n
  /\ take (nal_header_len codec) (nal_body n') = take (nal_header_len codec) (nal_body n)
  /\ (is_sps codec n = false -> n' = n).

Lemma sc_free_nz b l : b <> 0 -> sc_free l -> sc_free (b :: l).
Proof.
  intros Hb. apply sc_free_cons_iff. unfold SC3. cbn [starts_with].
  by rewrite (proj2 (Z.eqb_neq 0 b)) by done.
Qed.

Lemma patch_unit_framing codec n n' : unit_ok codec n -> reframes codec n ->
  patch_unit codec n = Ok n' -> unit_ok codec n' /\ same_frame codec n n'.
Proof.
  intros Hn Hr E. unfold patch_unit in E. destruct (is_sps codec n) eqn:Hs.
  2: { injection E as <-. split; [done | by repeat split]. }
  apply bind_Ok in E as (p & E & [= <-]).
  destruct (patched_payload codec n p Hs Hr E) as (Hok & Hnz).
  pose proof (emulation_free_sc_free _ (emulation_free_escape p (bytes_nonneg p Hok))) as Hfree.
  pose proof (last_nz_escape p Hnz) as Hlast.
  pose proof Hs as Hs0. unfold is_sps, nal_type in Hs. apply Z.eqb_eq in Hs as Ht.
  apply sps_header_nz in Ht as Hb0. destruct Hn as (_ & Hh).
  unfold unit_ok, nal_ok, same_frame, nal_type, is_sps, nal_type. cbn [nal_body sc_long].
  destruct (nal_body n) as [|b0 body] eqn:Eb; [destruct codec; cbn in Hh; lia |].
  change (get (b0 :: body) 0) with b0 in *.
  destruct codec; cbn [nal_header_len] in *.
  - change (take 1 (b0 :: body)) with [b0]. cbn [app]. split; [split; [split |]|].
    + by apply sc_free_nz.
    + by apply (last_nz_app [b0]).
    + cbn. lia.
    + split_and!; try done. by rewrite Hs.
  - destruct body as [|b1 body]; [cbn in Hh; lia |].
    change (take 2 (b0 :: b1 :: body)) with [b0; b1]. cbn [app].
    assert (Hb1 : b1 <> 0) by (destruct (Hr Hs0) as (Hb1 & _); by rewrite Eb in Hb1).
    split; [split; [split |]|].
    + by do 2 (apply sc_free_nz; [done |]).
    + by apply (last_nz_app [b0; b1]).
    + cbn. lia.
    + split_and!; try done. by rewrite Hs.
Qed.

Lemma patch_units_framing codec ns ns' : Forall (unit_ok codec) ns -> Forall (reframes codec) ns ->
  mapM (patch_unit codec) ns = Ok ns' -> Forall (unit_ok codec) ns' /\ Forall2 (same_frame codec) ns ns'.
Proof.
  intros H. revert ns'. induction H as [|n ns Hn _ IH]; intros ns' Hr E; cbn [mapM] in E.
  - injection E as <-. by split; constructor.
  - apply Forall_cons_1 in Hr as (Hrn & Hr).
    apply bind_Ok in E as (n' & E1 & E). apply bind_Ok in E as (ns1 & E2 & E). injection E as <-.
    destruct (patch_unit_framing codec n n' Hn Hrn E1). destruct (IH ns1 Hr E2).
    by split; constructor.
Qed.

(** Patching never breaks the framing: the output of a well-formed
    stream is again a well-formed stream, with as many units, the same start
    codes, the same NAL headers and types, and byte-identical non-SPS units,
    so that no start code appears inside a rewritten parameter set. *)
Theorem patch_packet_framing codec ns out :
  Forall (unit_ok codec) ns -> Forall (reframes codec) ns ->
  patch_packet_for_low_latency_dpb codec (annex_b_of ns) = Ok out ->
  exists ns', out = annex_b_of ns' /\ Forall (unit_ok codec) ns'
    /\ Forall2 (same_frame codec) ns ns'.
Proof.
  intros Hns Hr E. unfold patch_packet_for_low_latency_dpb in E.
  rewrite patch_packet_units in E by done.
  destruct (mapM (patch_unit codec) ns) as [ns'|] eqn:Em; [| done]. injection E as <-.
  exists ns'. split; [done |]. by eapply patch_units_framing.
Qed.

(** A packet as the encoder emits it: AUD, SPS, PPS and an IDR slice. *)
Definition demo_packet : list Nal :=
  [ {| sc_long := true; nal_body := [9; 240] |};
    {| sc_long := true; nal_body := 103 :: rbsp_escape demo_sps_rbsp |};
    {| sc_long := true; nal_body := [104; 206; 60; 128] |};
    {| sc_long := false; nal_body := [101; 136; 132; 0; 255] |} ].

Definition demo_packet_patched : list Nal :=
  [ {| sc_long := true; nal_body := [9; 240] |};
    {| sc_long := true; nal_body := 103 :: rbsp_escape demo_sps_patched |};
    {| sc_long := true; nal_body := [104; 206; 60; 128] |};
    {| sc_long := false; nal_body := [101; 136; 132; 0; 255] |} ].

Lemma demo_packet_ok : Forall (unit_ok H264) demo_packet.
Proof.
  unfold demo_packet. repeat apply Forall_cons_2; [.. | apply Forall_nil_2];
    (split; [| cbn; lia]); cbn -[Z.lt].
  - solve_unit [9] 240.
  - solve_unit [103; 66; 192; 40; 242; 128; 240; 4; 76] 128.
  - solve_unit [104; 206; 60] 128.
  - solve_unit [101; 136; 132; 0] 255.
Qed.

Lemma patch_packet_exact_witness :
  patch_packet_for_low_latency_dpb H264 (annex_b_of demo_packet) = Ok (annex_b_of demo_packet_patched).
Proof. rewrite (patch_packet_exact H264 demo_packet demo_packet_ok). vm_compute. reflexivity. Defined.

Lemma patch_packet_framing_witness :
  exists ns', annex_b_of demo_packet_patched = annex_b_of ns' /\ Forall (unit_ok H264) ns'
    /\ Forall2 (same_frame H264) demo_packet ns'.
Proof.
  apply (patch_packet_framing H264 demo_packet _ demo_packet_ok); [by repeat constructor |].
  vm_compute. reflexivity.
Defined.

(** A lone slice. *)
Lemma demo_slice_no_sps : no_sps H264 [0; 0; 1; 65; 154; 0; 0; 3; 2].
Proof.
  intros j n E.
  do 10 (destruct j as [|j];
    [vm_compute in E; first [ discriminate E | injection E as <-; vm_compute; congruence ] |]).
  done.
Qed.

Lemma patch_packet_identity_witness :
  patch_packet_for_low_latency_dpb H264 [0; 0; 1; 65; 154; 0; 0; 3; 2]
  = Ok [0; 0; 1; 65; 154; 0; 0; 3; 2].
Proof. exact (patch_packet_identity H264 _ demo_slice_no_sps). Defined.
