(* ===== verification/SpsReaders.v ===== *)
(** The independent readers of the unit tests in
    [crates/penflow-core/src/encoder/sps_patcher.rs]: what a decoder reads of
    a parameter set, and the theorems that it reads the low-latency values of
    every set the rewriters return, not only of the tests' own inputs. *)
From S2P Require Import Prelude Bytes Engine AnnexB Rbsp BitIO BitSim SpsH264 SpsHevc SpsPatcher.

(** * The readers

    An [unwrap], [assert] or [panic!] that fires is an [Err] here: the test
    stops. *)

Definition panic {A} : SP A := fail NotInitialized.

(** The VUI of either codec, up to its video signal type. *)
Definition skip_to_video_signal_type : SP Z :=
  aspect_present ← rd (read_bits 1);
  when (aspect_present =? 1)
    (aspect_idc ← rd (read_bits 8); when (aspect_idc =? 255) (skip_u 16;; skip_u 16));;
  overscan_present ← rd (read_bits 1);
  when (overscan_present =? 1) (skip_u 1);;
  rd (read_bits 1).

(** The VUI of a H.264 set, up to its bitstream restriction. *)
Definition read_h264_vui_restriction : SP (option (Z * Z)) :=
  video_signal_type_present ← skip_to_video_signal_type;
  when (video_signal_type_present =? 1) skip_video_signal_type;;
  chroma_present ← rd (read_bits 1);
  when (chroma_present =? 1) (skip_ue;; skip_ue);;
  timing_present ← rd (read_bits 1);
  when (timing_present =? 1) (skip_u 32;; skip_u 32;; skip_u 1);;
  nal_hrd ← rd (read_bits 1);
  when (nal_hrd =? 1) panic;;
  vcl_hrd ← rd (read_bits 1);
  when (vcl_hrd =? 1) panic;;
  skip_u 1;;
  bs_restr ← rd (read_bits 1);
  if bs_restr =? 1 then
    skip_u 1;; skip_ue;; skip_ue;; skip_ue;; skip_ue;;
    reorder ← rd read_ue;
    dpb ← rd read_ue;
    mret (Some (reorder, dpb))
  else mret None.

Definition h264_sps_dpb_fields : SP (Z * option (Z * Z)) :=
  skip_u 8;; skip_u 8;; skip_u 8;; skip_ue;; skip_ue;;
  pic_order_cnt_type ← rd read_ue;
  (if pic_order_cnt_type =? 0 then skip_ue
   else if pic_order_cnt_type =? 1 then panic else mret tt);;
  max_num_ref_frames ← rd read_ue;
  skip_u 1;; skip_ue;; skip_ue;;
  frame_mbs_only ← rd (read_bits 1);
  when (frame_mbs_only =? 0) (skip_u 1);;
  skip_u 1;;
  crop ← rd (read_bits 1);
  when (crop =? 1) (repeat_sp 4 skip_ue);;
  vui ← rd (read_bits 1);
  restriction ← (if vui =? 1 then read_h264_vui_restriction else mret None);
  mret (max_num_ref_frames, restriction).

Definition read_h264_sps_dpb_fields (rbsp : list Z) : EngineResult (Z * option (Z * Z)) :=
  fst <$> run_sp h264_sps_dpb_fields rbsp.

(** [(r.read_bits(8), r.read_bits(8), r.read_bits(8))] behind its flag. *)
Definition read_colour_description : SP (option (Z * Z * Z)) :=
  colour_desc ← rd (read_bits 1);
  if colour_desc =? 1 then
    p ← rd (read_bits 8);
    t ← rd (read_bits 8);
    m ← rd (read_bits 8);
    mret (Some (p, t, m))
  else mret None.

Definition h264_sps_video_signal_type : SP (bool * option (Z * bool * option (Z * Z * Z))) :=
  skip_u 8;; skip_u 8;; skip_u 8;; skip_ue;; skip_ue;;
  pic_order_cnt_type ← rd read_ue;
  when (pic_order_cnt_type =? 0) skip_ue;;
  skip_ue;;
  skip_u 1;; skip_ue;; skip_ue;;
  frame_mbs_only ← rd (read_bits 1);
  when (frame_mbs_only =? 0) (skip_u 1);;
  skip_u 1;;
  crop ← rd (read_bits 1);
  when (crop =? 1) (repeat_sp 4 skip_ue);;
  vui ← rd (read_bits 1);
  if vui =? 0 then mret (false, None)
  else
    vst_present ← skip_to_video_signal_type;
    if vst_present =? 0 then mret (true, None)
    else
      video_format ← rd (read_bits 3);
      full_range ← rd (read_bits 1);
      cd ← read_colour_description;
      mret (true, Some (video_format, full_range =? 1, cd)).

Definition read_h264_sps_video_signal_type (rbsp : list Z)
  : EngineResult (bool * option (Z * bool * option (Z * Z * Z))) :=
  fst <$> run_sp h264_sps_video_signal_type rbsp.

(** The reader of the synthetic sets: no sub-layers, twelve bytes of profile,
    no separate planes, no window. *)
Definition hevc_sps_dpb_fields : SP (Z * Z * Z) :=
  skip_u 4;; skip_u 3;; skip_u 1;;
  repeat_sp 12 (skip_u 8);;
  skip_ue;; skip_ue;; skip_ue;; skip_ue;;
  skip_u 1;;
  skip_ue;; skip_ue;; skip_ue;;
  skip_u 1;;
  dpb ← rd read_ue;
  reorder ← rd read_ue;
  latency ← rd read_ue;
  mret (dpb, reorder, latency).

Definition read_hevc_sps_dpb_fields (rbsp : list Z) : EngineResult (Z * Z * Z) :=
  fst <$> run_sp hevc_sps_dpb_fields rbsp.

(** Up to [log2_max_pic_order_cnt_lsb_minus4]; the profile is walked by the
    rewriter's own [copy_hevc_profile_tier_level], into a throwaway. *)
Definition skip_hevc_prefix : SP Z :=
  skip_u 4;;
  sps_max_sub_layers_minus1 ← rd (read_bits 3);
  skip_u 1;;
  copy_hevc_profile_tier_level sps_max_sub_layers_minus1;;
  skip_ue;;
  chroma_format_idc ← rd read_ue;
  when (chroma_format_idc =? 3) (skip_u 1);;
  skip_ue;; skip_ue;;
  conformance ← rd (read_bits 1);
  when (conformance =? 1) (repeat_sp 4 skip_ue);;
  skip_ue;; skip_ue;; skip_ue;;
  mret sps_max_sub_layers_minus1.

Definition hevc_sps_dpb_fields_via_full_walk : SP (Z * Z * Z) :=
  skip_hevc_prefix;;
  skip_u 1;;
  dpb ← rd read_ue;
  reorder ← rd read_ue;
  latency ← rd read_ue;
  mret (dpb, reorder, latency).

Definition read_hevc_sps_dpb_fields_via_full_walk (rbsp : list Z) : EngineResult (Z * Z * Z) :=
  fst <$> run_sp hevc_sps_dpb_fields_via_full_walk rbsp.

Definition hevc_sps_video_signal_type : SP (bool * option (bool * option (Z * Z * Z))) :=
  sps_max_sub_layers_minus1 ← skip_hevc_prefix;
  sub_layer_info_present ← rd (read_bits 1);
  let i_start := if sub_layer_info_present =? 1 then 0 else sps_max_sub_layers_minus1 in
  repeat_sp (Z.to_nat (sps_max_sub_layers_minus1 - i_start + 1)) (skip_ue;; skip_ue;; skip_ue);;
  skip_ue;; skip_ue;; skip_ue;; skip_ue;; skip_ue;; skip_ue;;
  scaling_enabled ← rd (read_bits 1);
  when (negb (scaling_enabled =? 0)) panic;;
  skip_u 1;;
  skip_u 1;;
  pcm_enabled ← rd (read_bits 1);
  when (negb (pcm_enabled =? 0)) panic;;
  n_rps ← rd read_ue;
  when (negb (n_rps =? 0)) panic;;
  lt_present ← rd (read_bits 1);
  when (negb (lt_present =? 0)) panic;;
  skip_u 1;;
  skip_u 1;;
  vui_present ← rd (read_bits 1);
  if vui_present =? 0 then mret (false, None)
  else
    vst ← skip_to_video_signal_type;
    if vst =? 0 then mret (true, None)
    else
      skip_u 3;;
      full_range ← rd (read_bits 1);
      cd ← read_colour_description;
      mret (true, Some (full_range =? 1, cd)).

Definition read_hevc_sps_video_signal_type (rbsp : list Z)
  : EngineResult (bool * option (bool * option (Z * Z * Z))) :=
  fst <$> run_sp hevc_sps_video_signal_type rbsp.

(** * Reading a known beginning

    [sees m i v]: on a reader that holds the bits [i] next, whatever follows
    them, [m] returns [v]. *)

Definition sees {A} (m : SP A) (i : list bool) (v : A) : Prop :=
  forall r w rest bs, reader_at r (i ++ rest) -> writer_at w bs ->
  exists s, m (r, w) = Ok (v, s).

Lemma sees_of_sim {A} (m : SP A) i o v tl : sim m i o v -> sees m (i ++ tl) v.
Proof.
  intros H r w rest bs Hr Hw. rewrite <- app_assoc in Hr.
  destruct (H _ _ _ _ Hr Hw) as (r' & w' & E & _). by eexists.
Qed.

Lemma sees_of_sim' {A} (m : SP A) i o v : sim m i o v -> sees m i v.
Proof. intros H. rewrite <- (app_nil_r i). by eapply sees_of_sim. Qed.

Lemma sees_bind {A B} (m : SP A) (f : A -> SP B) i o a j v :
  sim m i o a -> sees (f a) j v -> sees (m ≫= f) (i ++ j) v.
Proof.
  intros Hm Hf r w rest bs Hr Hw. rewrite <- app_assoc in Hr.
  destruct (Hm _ _ _ _ Hr Hw) as (r' & w' & E & Hr' & Hw').
  unfold mbind, SP_bind. rewrite E. by eapply Hf.
Qed.

Lemma sees_ret {A} (v : A) i : sees (mret v) i v.
Proof. intros r w rest bs _ _. by exists (r, w). Qed.

Lemma sees_map {A B} (m : SP A) (g : A -> B) i a : sees m i a -> sees (x ← m; mret (g x)) i (g a).
Proof.
  intros H r w rest bs Hr Hw. destruct (H r w rest bs Hr Hw) as (s & E). exists s.
  unfold mbind, SP_bind. by rewrite E.
Qed.

(** A program that sees a value and then more. *)
Lemma sees_more {A} (m : SP A) i v tl : sees m i v -> sees m (i ++ tl) v.
Proof. intros H r w rest bs Hr. rewrite <- app_assoc in Hr. by apply (H r w (tl ++ rest)). Qed.

Lemma sees_run {A} (m : SP A) i v rbsp rest : sees m i v -> bits_of rbsp = i ++ rest ->
  fst <$> run_sp m rbsp = Ok v.
Proof.
  intros H E. destruct (H (BitReader_new rbsp) BitWriter_new rest [] E writer_new_at) as (s & Es).
  unfold run_sp. by rewrite Es.
Qed.

(** An assertion that holds. *)
Lemma sees_check {B} (b : bool) (f : unit -> SP B) i v :
  b = false -> sees (f tt) i v -> sees (when b panic ≫= f) i v.
Proof. by intros ->. Qed.

Ltac sees_step ext :=
  rewrite ?b2z_is_1, ?b2z_is_0;
  repeat match goal with H : is_some _ = _ |- _ => rewrite <- H end;
  lazymatch goal with
  | |- sees (_ ≫= _) _ _ =>
      first [ eapply sees_bind; [ solve [ sim_stmt ext ] |] | apply sees_check; [ reflexivity |] ]
  | |- sees (mret _) _ _ => apply sees_ret
  end.

Ltac sees_go ext := unfold opt_bits; rewrite <- ?app_assoc; repeat sees_step ext.

(** * What the readers see of a H.264 set *)

(** The sets the readers follow: no chroma block, no picture order cycle. *)
Definition plain_h264 (s : H264Sps) : Prop :=
  sps_chroma s = None /\ match sps_poc s with PocCycle _ _ _ _ => False | _ => True end.

Definition no_hrd (v : H264Vui) : Prop := vui_nal_hrd v = None /\ vui_vcl_hrd v = None.

(** Reorder frames and decode buffering, as the set declares them. *)
Definition declared_buffering (s : H264Sps) : option (Z * Z) :=
  v ← sps_vui s;
  b ← vui_restriction v;
  Some (br_max_num_reorder_frames b, br_max_dec_frame_buffering b).

Definition signal_of (v : VideoSignal) : Z * bool * option (Z * Z * Z) :=
  (vs_format v, vs_full_range v, vs_colour v).

Definition declared_signal (s : H264Sps) : bool * option (Z * bool * option (Z * Z * Z)) :=
  match sps_vui s with
  | None => (false, None)
  | Some v => (true, signal_of <$> vui_video_signal v)
  end.

Lemma sim_aspect_skip a : aspect_wf a ->
  sim (aspect_idc ← rd (read_bits 8); when (aspect_idc =? 255) (skip_u 16;; skip_u 16))
    (aspect_bits a) [] tt.
Proof.
  intros (H1 & H2 & H3). unfold aspect_bits. sim_go idtac.
  eapply sim_opt_skip; [| exact H3]. intros (x & y) (? & ?). cbn [fst snd] in *.
  sim_go idtac.
Qed.

Lemma sim_ue2_skip p : ue2_wf p -> sim (skip_ue;; skip_ue) (ue2_bits p) [] tt.
Proof. intros (? & ?). unfold ue2_bits. sim_go idtac. Qed.

Lemma sim_timing_skip t : u32 t.1.1 /\ u32 t.1.2 ->
  sim (skip_u 32;; skip_u 32;; skip_u 1) (timing_bits t) [] tt.
Proof. intros (? & ?). unfold timing_bits. sim_go idtac. Qed.

(** The two optional blocks before the video signal type. *)
Lemma sim_to_signal (a : option Aspect) (o : option bool) (b : bool) : opt_wf aspect_wf a ->
  sim skip_to_video_signal_type (opt_bits aspect_bits a ++ opt_bits flag o ++ flag b) [] (Z.b2z b).
Proof.
  intros Ha. unfold skip_to_video_signal_type.
  sim_go ltac:(first [ eapply sim_opt_skip; [exact sim_aspect_skip | assumption] | apply sim_flag_skip ]).
Qed.

Lemma sim_panic_unless {A} (f : A -> list bool) : sim (when (is_some (@None A)) panic) (body_bits f None) [] tt.
Proof. apply sim_ret. Qed.

Definition vui_buffering (v : H264Vui) : option (Z * Z) :=
  (fun b => (br_max_num_reorder_frames b, br_max_dec_frame_buffering b)) <$> vui_restriction v.

Lemma vui_bits_regroup v : exists tl,
  vui_bits v = (opt_bits aspect_bits (vui_aspect v) ++ opt_bits flag (vui_overscan v)
                ++ flag (is_some (vui_video_signal v)))
               ++ body_bits video_signal_bits (vui_video_signal v) ++ tl
  /\ tl = opt_bits ue2_bits (vui_chroma_loc v) ++ opt_bits timing_bits (vui_timing v)
       ++ opt_bits hrd_bits (vui_nal_hrd v) ++ opt_bits hrd_bits (vui_vcl_hrd v)
       ++ body_bits flag (vui_low_delay_hrd v) ++ flag (vui_pic_struct v)
       ++ opt_bits restriction_bits (vui_restriction v).
Proof. eexists. split; [| reflexivity]. unfold vui_bits, opt_bits. by rewrite <- !app_assoc. Qed.

Ltac reader_call :=
  first [ eapply sim_opt_skip; [ first [exact sim_skip_video_signal | exact sim_ue2_skip
                                       | exact sim_timing_skip] | assumption ]
        | apply sim_flag_skip | by apply sim_crop_skip | apply sim_panic_unless ].

Lemma sees_vui_restriction v : vui_wf v -> no_hrd v ->
  sees read_h264_vui_restriction (vui_bits v) (vui_buffering v).
Proof.
  intros (? & ? & ? & ? & ? & ? & Hl & Hr) (Hn & Hc).
  destruct (vui_bits_regroup v) as (tl & -> & ->). rewrite Hn, Hc in *.
  destruct (vui_low_delay_hrd v); [done |]. cbn [body_bits].
  unfold read_h264_vui_restriction. eapply sees_bind; [by apply sim_to_signal |].
  sees_go reader_call. rewrite ?app_nil_l. sees_go reader_call.
  unfold vui_buffering. destruct (vui_restriction v) as [b|]; cbn [is_some fmap option_fmap option_map body_bits]; [| apply sees_ret].
  destruct Hr as (? & ? & ? & ? & ? & ?). unfold restriction_bits.
  rewrite <- (app_nil_r (ue_bits (br_max_dec_frame_buffering b))). sees_go reader_call.
Qed.

(** The picture order count, as each reader passes over it. *)
Lemma sim_poc_skip s : plain_h264 s -> poc_wf (sps_poc s) ->
  sim (pic_order_cnt_type ← rd read_ue;
       if pic_order_cnt_type =? 0 then skip_ue
       else if pic_order_cnt_type =? 1 then panic else mret tt) (poc_bits (sps_poc s)) [] tt.
Proof.
  intros (_ & Hp). destruct (sps_poc s) as [v | |k]; [| done |]; cbn [poc_wf poc_bits].
  - intros H. sim_step idtac. cbn [Z.eqb]. sim_step idtac.
  - intros (? & ?). rewrite <- (app_nil_r (ue_bits k)). sim_step idtac.
    destruct (Z.eqb_spec k 0); [lia |]. destruct (Z.eqb_spec k 1); [lia |]. apply sim_ret.
Qed.

Lemma sim_poc_skip_lsb s : plain_h264 s -> poc_wf (sps_poc s) ->
  sim (pic_order_cnt_type ← rd read_ue; when (pic_order_cnt_type =? 0) skip_ue)
    (poc_bits (sps_poc s)) [] tt.
Proof.
  intros (_ & Hp). destruct (sps_poc s) as [v | |k]; [| done |]; cbn [poc_wf poc_bits].
  - intros H. sim_step idtac. cbn [Z.eqb when]. sim_step idtac.
  - intros (? & ?). rewrite <- (app_nil_r (ue_bits k)). sim_step idtac.
    destruct (Z.eqb_spec k 0); [lia |]. apply sim_ret.
Qed.

(** [bind] is associative, so a block of statements is a program. *)
Lemma sees_assoc {A B C} (m : SP A) (f : A -> SP B) (g : B -> SP C) i v :
  sees ((m ≫= f) ≫= g) i v -> sees (m ≫= (fun a => f a ≫= g)) i v.
Proof.
  intros H r w rest bs Hr Hw. destruct (H r w rest bs Hr Hw) as (s & E). exists s.
  rewrite <- E. unfold mbind, SP_bind. by destruct (m (r, w)) as [(a & s')|].
Qed.

Lemma sees_h264_dpb_fields s : h264_sps_wf s -> plain_h264 s -> opt_wf no_hrd (sps_vui s) ->
  sees h264_sps_dpb_fields (h264_sps_bits s) (sps_max_num_ref_frames s, declared_buffering s).
Proof.
  intros (? & ? & ? & ? & ? & ? & ? & Hpoc & ? & ? & ? & ? & Hcrop & Hvui) Hs Hh.
  unfold h264_sps_dpb_fields, h264_sps_bits.
  rewrite (proj1 Hs). cbn [body_bits]. rewrite app_nil_l.
  do 5 sees_step reader_call. apply sees_assoc.
  eapply sees_bind; [by apply sim_poc_skip |]. sees_go reader_call.
  apply sees_map. unfold declared_buffering.
  destruct (sps_vui s) as [v|]; [by apply sees_vui_restriction | apply sees_ret].
Qed.

Lemma sees_colour c tl : opt_wf (fun c => u8 c.1.1 /\ u8 c.1.2 /\ u8 c.2) c ->
  sees read_colour_description (opt_bits colour_bits c ++ tl) c.
Proof.
  intros Hc. unfold read_colour_description.
  destruct c as [((p & t) & m)|]; unfold opt_bits; cbn [is_some body_bits].
  - destruct Hc as (? & ? & ?). unfold colour_bits. cbn [fst snd] in *. sees_go idtac.
  - sees_go idtac.
Qed.

Lemma sees_h264_video_signal_type s : h264_sps_wf s -> plain_h264 s ->
  sees h264_sps_video_signal_type (h264_sps_bits s) (declared_signal s).
Proof.
  intros (? & ? & ? & ? & ? & ? & ? & Hpoc & ? & ? & ? & ? & Hcrop & Hvui) Hs.
  unfold h264_sps_video_signal_type, h264_sps_bits.
  rewrite (proj1 Hs). cbn [body_bits]. rewrite app_nil_l.
  do 5 sees_step reader_call. apply sees_assoc.
  eapply sees_bind; [by apply sim_poc_skip_lsb |]. sees_go reader_call.
  unfold declared_signal. destruct (sps_vui s) as [v|]; [| apply sees_ret].
  destruct Hvui as (Ha & Hv & _). cbn [is_some negb body_bits].
  destruct (vui_bits_regroup v) as (tl & -> & _). eapply sees_bind; [by apply sim_to_signal |].
  destruct (vui_video_signal v) as [vs|]; [| apply sees_ret].
  destruct Hv as (? & ?). cbn [is_some body_bits fmap option_fmap option_map Z.b2z Z.eqb Pos.eqb].
  unfold video_signal_bits. sees_go idtac.
  unfold signal_of. rewrite b2z_is_1.
  refine (sees_map _ (fun cd => (true, Some (vs_format vs, vs_full_range vs, cd))) _ (vs_colour vs) _).
  rewrite app_assoc. by apply sees_colour.
Qed.

(** * What the readers see of a HEVC set *)

Lemma sim_skip_bytes n : forall i, length i = (8 * n)%nat -> sim (repeat_sp n (skip_u 8)) i [] tt.
Proof.
  induction n as [|n IH]; intros i Hi; cbn [repeat_sp]; [destruct i; [apply sim_ret | done] |].
  rewrite <- (take_drop 8 i). eapply sim_bind_r; [| apply IH; rewrite length_drop; lia].
  assert (Hl : length (take 8 i) = 8%nat) by (rewrite length_take; lia).
  rewrite <- (u_bits_val (take 8 i)), Hl. unfold skip_u. eapply sim_drop, sim_read_u; [done | | lia].
  pose proof (bits_val_range (take 8 i)) as Hr. by rewrite Hl in Hr.
Qed.

Lemma sim_hevc_prefix h : hevc_head_wf h ->
  sim skip_hevc_prefix (hh_prefix_bits h) (ptl_bits (hh_ptl h)) (Z.of_nat (hh_sub_layers h)).
Proof.
  intros (? & Hptl & ? & ? & ? & ? & ? & ? & ? & ? & ? & Hn & Hd).
  unfold skip_hevc_prefix, hh_prefix_bits, hh_sub_layers.
  assert (unsigned 3 (Z.of_nat (length (ptl_sub_layers (hh_ptl h))))) by (destruct Hptl as (_ & _ & _ & _ & ? & _); urange).
  rewrite <- (app_nil_r (ptl_bits (hh_ptl h))) at 2.
  rewrite <- (app_nil_r (ue_bits (hh_log2_max_poc_minus4 h))).
  sim_go ltac:(first [ by apply sim_ptl | by apply sim_crop_skip | apply sim_flag_skip ]).
Qed.

(** The first of the reported triplets. *)
Definition first_triplet (h : HevcHead) : Z * Z * Z :=
  let d := default dpb_one (head (hh_dpb h)) in
  (dpb_buffering_minus1 d, dpb_num_reorder d, dpb_latency_plus1 d).

Lemma head_dpb_cons h : hevc_head_wf h -> exists d l,
  hh_dpb h = d :: l /\ dpb_wf d /\ first_triplet h
    = (dpb_buffering_minus1 d, dpb_num_reorder d, dpb_latency_plus1 d).
Proof.
  intros (_ & _ & _ & _ & _ & _ & _ & _ & _ & _ & _ & Hn & Hd). unfold first_triplet.
  destruct (hh_dpb h) as [|d l]; [cbn in Hn; destruct (hh_sub_layer_ordering_info h); lia |].
  apply Forall_cons_1 in Hd as (Hd & _). by exists d, l.
Qed.

Lemma sees_triplet h tl : hevc_head_wf h ->
  sees (skip_u 1;; dpb ← rd read_ue; reorder ← rd read_ue; latency ← rd read_ue; mret (dpb, reorder, latency))
    (flag (hh_sub_layer_ordering_info h) ++ all_bits dpb_bits (hh_dpb h) ++ tl) (first_triplet h).
Proof.
  intros Hh. destruct (head_dpb_cons h Hh) as (d & l & -> & (? & ? & ?) & ->).
  unfold all_bits. cbn [map concat]. unfold dpb_bits at 1. sees_go idtac.
Qed.

(** Whatever follows the head: the tail of a supported set or not. *)
Lemma sees_hevc_dpb_via_full_walk h tl : hevc_head_wf h ->
  sees hevc_sps_dpb_fields_via_full_walk (hevc_head_bits h ++ tl) (first_triplet h).
Proof.
  intros Hh. unfold hevc_sps_dpb_fields_via_full_walk, hevc_head_bits. rewrite <- !app_assoc.
  eapply sees_bind; [by apply sim_hevc_prefix | by apply sees_triplet].
Qed.

(** The heads the simple reader follows. *)
Definition plain_head (h : HevcHead) : Prop :=
  hh_sub_layers h = 0%nat /\ hh_separate_plane h = None /\ hh_conformance_window h = None.

Lemma length_bytes_bits l : length (all_bits (u_bits 8) l) = (8 * length l)%nat.
Proof. induction l as [|b l IH]; [done |]. unfold all_bits in *. cbn [map concat]. rewrite length_app, length_u_bits, IH. cbn [length]. lia. Qed.

Lemma length_plain_ptl p : ptl_wf p -> length (ptl_sub_layers p) = 0%nat ->
  length (ptl_bits p) = (8 * 12)%nat.
Proof.
  intros (_ & _ & H7 & _ & _ & _ & Hr & _) Hn. unfold ptl_bits. rewrite Hn in Hr.
  destruct (ptl_sub_layers p); [| done]. destruct (ptl_reserved p); [| done].
  by rewrite !length_app, !length_u_bits, length_bytes_bits, H7.
Qed.

Lemma sees_hevc_dpb_fields h tl : hevc_head_wf h -> plain_head h ->
  sees hevc_sps_dpb_fields (hevc_head_bits h ++ tl) (first_triplet h).
Proof.
  intros Hh (Hn & Hs & Hw). pose proof Hh as (? & Hptl & ? & ? & ? & ? & ? & ? & ? & ? & ? & _ & _).
  pose proof (length_plain_ptl _ Hptl Hn) as Hl.
  unfold hevc_sps_dpb_fields, hevc_head_bits, hh_prefix_bits. rewrite Hn, Hs, Hw.
  unfold opt_bits. cbn [is_some body_bits]. rewrite ?app_nil_l, ?app_nil_r, <- ?app_assoc.
  assert (unsigned 3 (Z.of_nat 0)) by done.
  do 12 sees_step ltac:(by apply sim_skip_bytes). by apply sees_triplet.
Qed.

(** The tails the reader of the video signal type follows. *)
Definition plain_tail (t : HevcTail) : Prop :=
  tl_default_scaling_lists t = false /\ tl_pcm t = None /\ tl_rps t = [] /\ tl_long_term t = None.

Definition declared_hevc_signal (t : HevcTail) : bool * option (bool * option (Z * Z * Z)) :=
  match tl_vui t with
  | None => (false, None)
  | Some v => (true, (fun s => (vs_full_range s, vs_colour s)) <$> hv_video_signal v)
  end.

Lemma hevc_vui_regroup v : exists tl,
  hevc_vui_bits v = (opt_bits aspect_bits (hv_aspect v) ++ opt_bits flag (hv_overscan v)
                     ++ flag (is_some (hv_video_signal v)))
                    ++ body_bits video_signal_bits (hv_video_signal v) ++ tl.
Proof. eexists. unfold hevc_vui_bits, opt_bits. by rewrite <- !app_assoc. Qed.

Lemma sees_hevc_vui_signal v tl : hevc_vui_wf v ->
  sees (vst ← skip_to_video_signal_type;
        if vst =? 0 then mret (true, None)
        else skip_u 3;; full_range ← rd (read_bits 1); cd ← read_colour_description;
             mret (true, Some (full_range =? 1, cd)))
    (hevc_vui_bits v ++ tl)
    (true, (fun s => (vs_full_range s, vs_colour s)) <$> hv_video_signal v).
Proof.
  intros (Ha & Hv & _). destruct (hevc_vui_regroup v) as (tl' & ->). apply sees_more.
  eapply sees_bind; [by apply sim_to_signal |].
  destruct (hv_video_signal v) as [vs|]; [| apply sees_ret]. destruct Hv as (? & ?).
  cbn [is_some body_bits fmap option_fmap option_map Z.b2z Z.eqb Pos.eqb].
  unfold video_signal_bits. sees_go idtac. rewrite b2z_is_1.
  refine (sees_map _ (fun cd => (true, Some (vs_full_range vs, cd))) _ (vs_colour vs) _).
  rewrite app_assoc. by apply sees_colour.
Qed.

Lemma sim_triplets_skip n l : length l = n -> Forall dpb_wf l ->
  sim (repeat_sp n (skip_ue;; skip_ue;; skip_ue)) (all_bits dpb_bits l) [] tt.
Proof.
  intros <- Hl. replace [] with (all_bits (fun _ : DpbTriplet => []) l) by (clear; induction l; done).
  apply sim_repeat; [done |]. eapply Forall_impl; [| exact Hl]. intros d (? & ? & ?). unfold dpb_bits. sim_go idtac.
Qed.

Lemma sees_hevc_video_signal_type h t tl :
  hevc_head_wf h -> hevc_tail_wf (hh_log2_max_poc_minus4 h) t -> plain_tail t ->
  sees hevc_sps_video_signal_type
    (hevc_head_bits h ++ hevc_tail_bits (hh_log2_max_poc_minus4 h) t ++ tl) (declared_hevc_signal t).
Proof.
  intros Hh (? & ? & ? & ? & ? & ? & _ & _ & _ & _ & Hvui) (Hs & Hp & Hr & Hl).
  pose proof Hh as (_ & _ & _ & _ & _ & _ & _ & _ & _ & _ & _ & Hn & Hd).
  unfold hevc_sps_video_signal_type, hevc_head_bits, hevc_tail_bits. rewrite Hs, Hp, Hr, Hl.
  unfold scaling_bits, opt_bits. cbn [is_some body_bits length rps_list_bits]. rewrite ?app_nil_r, <- ?app_assoc.
  eapply sees_bind; [by apply sim_hevc_prefix |].
  sees_step idtac.
  eapply sees_bind.
  { cbv zeta. apply sim_triplets_skip; [rewrite Hn | exact Hd].
    destruct (hh_sub_layer_ordering_info h); cbn [Z.b2z Z.eqb Pos.eqb]; lia. }
  assert (Hz : ue_range (Z.of_nat 0)) by done.
  rewrite ?app_nil_l. sees_go idtac.
  unfold declared_hevc_signal. destruct (tl_vui t) as [v|]; [| apply sees_ret].
  cbn [is_some negb body_bits]. by apply sees_hevc_vui_signal.
Qed.

(** * Patched sets read back

    A set behind a four-byte start code and its NAL header, as the tests
    assemble it. *)

Definition sps_nal (hdr rbsp : list Z) : list Z := [0; 0; 0; 1] ++ hdr ++ rbsp_escape rbsp.

(** A header of a parameter set without zero bytes. *)
Definition sps_header (codec : Codec) (hdr : list Z) : Prop :=
  length hdr = nal_header_len codec /\ nal_type_of codec (get hdr 0) = sps_type codec
  /\ Forall (fun b => b <> 0) hdr.

Lemma sps_nal_unit codec hdr rbsp : sps_header codec hdr -> bytes_ok rbsp -> last_nz rbsp ->
  let n := {| sc_long := true; nal_body := hdr ++ rbsp_escape rbsp |} in
  unit_ok codec n /\ is_sps codec n = true /\ annex_b_of [n] = sps_nal hdr rbsp.
Proof.
  intros (Hl & Ht & Hnz) Hok Hlast n.
  pose proof (emulation_free_sc_free _ (emulation_free_escape rbsp (bytes_nonneg rbsp Hok))) as Hfree.
  assert (Hpos : (0 < length hdr)%nat) by (rewrite Hl; destruct codec; cbn; lia).
  split_and!.
  - split; [split |]; cbn [n nal_body].
    + clear -Hnz Hfree. induction Hnz as [|b hdr Hb _ IH]; [done |]. by apply sc_free_nz.
    + apply last_nz_app, last_nz_escape, Hlast.
    + rewrite length_app. lia.
  - unfold is_sps, nal_type. cbn [n nal_body].
    replace (get (hdr ++ rbsp_escape rbsp) 0) with (get hdr 0)
      by (unfold get; by rewrite lookup_app_l by lia).
    by rewrite Ht, Z.eqb_refl.
  - unfold annex_b_of, nal_bytes, sps_nal. cbn. by rewrite app_nil_r.
Qed.

Lemma patch_sps_nal codec hdr rbsp p : sps_header codec hdr -> bytes_ok rbsp -> last_nz rbsp ->
  patch_sps_rbsp codec rbsp = Ok p ->
  patch_packet_for_low_latency_dpb codec (sps_nal hdr rbsp) = Ok (sps_nal hdr p).
Proof.
  intros Hh Hok Hlast E. destruct (sps_nal_unit codec hdr rbsp Hh Hok Hlast) as (Hu & Hs & <-).
  unfold patch_packet_for_low_latency_dpb. rewrite patch_packet_units by (by apply list.Forall_singleton).
  cbn [mapM]. unfold patch_unit. rewrite Hs. cbn [nal_body sc_long]. destruct Hh as (<- & _ & _).
  rewrite drop_app_length, take_app_length, rbsp_unescape_escape, E.
  cbn [mbind result_bind fmap]. unfold annex_b_of, nal_bytes. cbn. by rewrite app_nil_r.
Qed.

Lemma unescape_sps_nal codec hdr p : sps_header codec hdr ->
  let k := (4 + nal_header_len codec)%nat in
  take k (sps_nal hdr p) = [0; 0; 0; 1] ++ hdr /\ rbsp_unescape (drop k (sps_nal hdr p)) = p.
Proof.
  intros (<- & _ & _). cbv zeta. unfold sps_nal. rewrite app_assoc.
  change (4 + length hdr)%nat with (length ([0; 0; 0; 1] ++ hdr)).
  by rewrite take_app_length, drop_app_length, rbsp_unescape_escape.
Qed.

Lemma read_back_dpb s l rest : h264_sps_wf s -> plain_h264 s -> opt_wf no_hrd (sps_vui s) ->
  bits_of l = h264_sps_bits s ++ rest ->
  read_h264_sps_dpb_fields l = Ok (sps_max_num_ref_frames s, declared_buffering s).
Proof. intros Hs Hp Hh. apply sees_run. by apply sees_h264_dpb_fields. Qed.

Lemma read_back_signal s l rest : h264_sps_wf s -> plain_h264 s ->
  bits_of l = h264_sps_bits s ++ rest -> read_h264_sps_video_signal_type l = Ok (declared_signal s).
Proof. intros Hs Hp. apply sees_run. by apply sees_h264_video_signal_type. Qed.

Lemma low_latency_plain s : plain_h264 s -> opt_wf no_hrd (sps_vui s) ->
  plain_h264 (h264_low_latency s) /\ opt_wf no_hrd (sps_vui (h264_low_latency s)).
Proof. intros Hp Hh. split; [done |]. cbn. by destruct (sps_vui s). Qed.

(** Every H.264 set the readers follow, not only the synthetic ones: sent as
    a packet it is patched behind its own start code and header, and the
    readers, which see the set's own values before, see one reference frame,
    a one-frame buffer without reordering and full-range BT.709 after. *)
Theorem h264_set_reads_back hdr s rbsp :
  h264_sps_wf s -> plain_h264 s -> opt_wf no_hrd (sps_vui s) ->
  sps_header H264 hdr -> bytes_ok rbsp -> bits_of rbsp = with_trailing (h264_sps_bits s) ->
  read_h264_sps_dpb_fields rbsp = Ok (sps_max_num_ref_frames s, declared_buffering s)
  /\ read_h264_sps_video_signal_type rbsp = Ok (declared_signal s)
  /\ exists patched,
       patch_packet_for_low_latency_dpb H264 (sps_nal hdr rbsp) = Ok patched
       /\ take 5 patched = take 5 (sps_nal hdr rbsp)
       /\ read_h264_sps_dpb_fields (rbsp_unescape (drop 5 patched)) = Ok (1, Some (0, 1))
       /\ read_h264_sps_video_signal_type (rbsp_unescape (drop 5 patched))
          = Ok (true, Some (5, true, Some (1, 1, 1))).
Proof.
  intros Hs Hp Hh Hhdr Hok Hb.
  split; [by eapply read_back_dpb |]. split; [by eapply read_back_signal |].
  destruct (patch_h264_of_sps s rbsp _ Hs Hb) as (p & E & Hokp & Hbp).
  destruct (low_latency_plain s Hp Hh) as (Hp' & Hh'). pose proof (h264_low_latency_wf s Hs) as Hs'.
  exists (sps_nal hdr p).
  split; [by apply patch_sps_nal; [.. | eapply last_nz_with_trailing |] |].
  destruct (unescape_sps_nal H264 hdr p Hhdr) as (T1 & T2).
  destruct (unescape_sps_nal H264 hdr rbsp Hhdr) as (T3 & _). cbn [nal_header_len Nat.add] in *.
  rewrite T1, T2, T3. split; [done |]. split.
  - exact (read_back_dpb _ p _ Hs' Hp' Hh' Hbp).
  - exact (read_back_signal _ p _ Hs' Hp' Hbp).
Qed.

Lemma low_latency_triplet h : hevc_head_wf h -> first_triplet (hevc_head_low_latency h) = (0, 0, 0).
Proof.
  intros Hh. destruct (head_dpb_cons h Hh) as (d & l & E & _).
  unfold first_triplet. cbn [hevc_head_low_latency hh_dpb]. by rewrite E.
Qed.

Lemma hevc_head_low_latency_wf h : hevc_head_wf h -> hevc_head_wf (hevc_head_low_latency h).
Proof.
  intros (? & ? & ? & ? & ? & ? & ? & ? & ? & ? & ? & Hn & Hd). split_and!; try assumption.
  - cbn [hevc_head_low_latency hh_dpb hh_sub_layer_ordering_info]. by rewrite length_map.
  - cbn [hevc_head_low_latency hh_dpb]. apply List.Forall_map, list.Forall_true.
    intros _. by repeat split.
Qed.

Lemma hevc_tail_full_range_wf k t : hevc_tail_wf k t -> hevc_tail_wf k (hevc_tail_full_range t).
Proof.
  intros (? & ? & ? & ? & ? & ? & ? & ? & ? & ? & Hv). split_and!; try assumption.
  cbn [opt_wf hevc_tail_full_range tl_vui].
  assert (H' : hevc_vui_wf (default empty_hevc_vui (tl_vui t)))
    by (destruct (tl_vui t); [exact Hv | by repeat split]).
  destruct H' as (? & ? & ? & ? & ? & ?). split_and!; try assumption. by repeat split.
Qed.

Lemma read_back_triplet h l rest : hevc_head_wf h -> bits_of l = hevc_head_bits h ++ rest ->
  read_hevc_sps_dpb_fields_via_full_walk l = Ok (first_triplet h).
Proof.
  intros Hh E. apply (sees_run _ (hevc_head_bits h ++ rest) _ l []); [| by rewrite app_nil_r].
  by apply sees_hevc_dpb_via_full_walk.
Qed.

Lemma read_back_hevc_signal h t l rest :
  hevc_head_wf h -> hevc_tail_wf (hh_log2_max_poc_minus4 h) t -> plain_tail t ->
  bits_of l = hevc_head_bits h ++ hevc_tail_bits (hh_log2_max_poc_minus4 h) t ++ rest ->
  read_hevc_sps_video_signal_type l = Ok (declared_hevc_signal t).
Proof.
  intros Hh Ht Hp E. eapply (sees_run _ _ _ l []); [by apply sees_hevc_video_signal_type |].
  by rewrite app_nil_r, E.
Qed.

(** Every supported HEVC set: the first buffering triplet and the video
    signal type read back as the patched values; the head may have
    sub-layers, a window or separate planes. *)
Theorem hevc_set_reads_back hdr h t rbsp :
  hevc_head_wf h -> hevc_tail_wf (hh_log2_max_poc_minus4 h) t -> plain_tail t ->
  sps_header Hevc hdr -> bytes_ok rbsp ->
  bits_of rbsp = with_trailing (hevc_head_bits h ++ hevc_tail_bits (hh_log2_max_poc_minus4 h) t) ->
  read_hevc_sps_dpb_fields_via_full_walk rbsp = Ok (first_triplet h)
  /\ read_hevc_sps_video_signal_type rbsp = Ok (declared_hevc_signal t)
  /\ exists patched,
       patch_packet_for_low_latency_dpb Hevc (sps_nal hdr rbsp) = Ok patched
       /\ take 6 patched = take 6 (sps_nal hdr rbsp)
       /\ read_hevc_sps_dpb_fields_via_full_walk (rbsp_unescape (drop 6 patched)) = Ok (0, 0, 0)
       /\ read_hevc_sps_video_signal_type (rbsp_unescape (drop 6 patched))
          = Ok (true, Some (true, Some (1, 1, 1))).
Proof.
  intros Hh Ht Hp Hhdr Hok Hb. pose proof (last_nz_with_trailing _ _ Hb) as Hlast.
  unfold with_trailing in Hb. rewrite <- app_assoc in Hb.
  split; [by eapply read_back_triplet |]. split; [by eapply read_back_hevc_signal |].
  destruct (patch_full_of_syntax h t rbsp _ Hh Ht Hb) as (p & E & Hokp & Hbp).
  unfold with_trailing in Hbp. rewrite <- app_assoc in Hbp.
  exists (sps_nal hdr p).
  assert (Ep : patch_sps_rbsp Hevc rbsp = Ok p) by (cbn [patch_sps_rbsp]; unfold patch_hevc_sps_rbsp; by rewrite E).
  split; [by apply patch_sps_nal |].
  destruct (unescape_sps_nal Hevc hdr p Hhdr) as (T1 & T2).
  destruct (unescape_sps_nal Hevc hdr rbsp Hhdr) as (T3 & _). cbn [nal_header_len Nat.add] in *.
  rewrite T1, T2, T3. split; [done |]. split.
  - rewrite <- (low_latency_triplet h Hh).
    exact (read_back_triplet _ p _ (hevc_head_low_latency_wf h Hh) Hbp).
  - exact (read_back_hevc_signal (hevc_head_low_latency h) _ p _ (hevc_head_low_latency_wf h Hh)
             (hevc_tail_full_range_wf _ t Ht) Hp Hbp).
Qed.

(** The fallback: whatever follows a head that parses, the packet is patched
    and the triplet reads back as zeros. *)
Theorem hevc_fallback_reads_back hdr h rbsp rest :
  hevc_head_wf h -> sps_header Hevc hdr -> bytes_ok rbsp -> last_nz rbsp ->
  bits_of rbsp = hevc_head_bits h ++ rest -> is_ok (patch_hevc_sps_full rbsp) = false ->
  exists patched,
    patch_packet_for_low_latency_dpb Hevc (sps_nal hdr rbsp) = Ok patched
    /\ read_hevc_sps_dpb_fields_via_full_walk (rbsp_unescape (drop 6 patched)) = Ok (0, 0, 0).
Proof.
  intros Hh Hhdr Hok Hlast Hb Hf.
  destruct (patch_dpb_only_of_head h rbsp rest Hh Hb) as (p & E & Hokp & Hbp).
  exists (sps_nal hdr p).
  assert (Ep : patch_sps_rbsp Hevc rbsp = Ok p)
    by (cbn [patch_sps_rbsp]; unfold patch_hevc_sps_rbsp; by destruct (patch_hevc_sps_full rbsp)).
  split; [by apply patch_sps_nal |].
  destruct (unescape_sps_nal Hevc hdr p Hhdr) as (_ & T2). cbn [nal_header_len Nat.add] in T2.
  rewrite T2, <- (low_latency_triplet h Hh). unfold zero_padded in Hbp. rewrite <- app_assoc in Hbp.
  exact (read_back_triplet _ p _ (hevc_head_low_latency_wf h Hh) Hbp).
Qed.
