(* ===== verification/SpsConformance.v ===== *)
(** The unit tests of [crates/penflow-core/src/encoder/sps_patcher.rs]: the
    builders of the synthetic parameter sets, each proved to write the syntax
    of a set for every argument, and the tests themselves as executable
    checks, which all pass. *)
From S2P Require Import Prelude Bytes Engine AnnexB Rbsp BitIO BitSim SpsH264 SpsHevc SpsPatcher SpsReaders.

(** [assert_eq!(result.unwrap(), v)]. *)
Definition returns {A} `{EqDecision A} (m : EngineResult A) (v : A) : bool :=
  match m with Ok a => bool_decide (a = v) | Err _ => false end.

(** * Round trips of the codecs *)

Definition rbsp_round_trip : bool :=
  let rbsp := [0; 0; 0; 1; 2; 0; 0; 66] in
  bool_decide (rbsp_unescape (rbsp_escape rbsp) = rbsp).

(** [while w.bit_pos & 7 != 0], then read back. *)
Definition ue_comes_back (v : Z) : bool :=
  returns (fst <$> read_ue (BitReader_new (bw_bytes (pad_to_byte 8 (write_ue v BitWriter_new))))) v.

Definition ue_round_trip_small_values : bool := forallb ue_comes_back (seqZ 0 32).

Definition ue_round_trip_larger_values : bool :=
  forallb ue_comes_back [100; 1023; 1024; 65535; 65536; 1000000].

Definition se_comes_back (v : Z) : bool :=
  returns (fst <$> read_se (BitReader_new (bw_bytes (pad_to_byte 8 (write_se v BitWriter_new))))) v.

Definition se_round_trip : bool :=
  forallb se_comes_back [0; 1; -1; 2; -2; 100; -100; 16384; -16384].

(** * The builders *)

(** [BitWriter::new()] to [into_bytes()]. *)
Definition build_set (fields : SP unit) : list Z :=
  match fields (BitReader_new [], BitWriter_new) with
  | Ok (_, (_, w)) => bw_bytes (write_rbsp_trailing_bits w)
  | Err _ => []
  end.

Definition bit (b : bool) : Z := if b then 1 else 0.

(** The seven fields that close the synthetic VUI. *)
Definition synthetic_restriction : SP unit :=
  put_u 1 1;; put_u 1 1;; put_ue 0;; put_ue 0;; put_ue 16;; put_ue 16;; put_ue 2;; put_ue 4.

Definition synthetic_h264_baseline_fields (max_num_ref_frames : Z) (with_vui : bool) : SP unit :=
  put_u 66 8;; put_u 192 8;; put_u 40 8;;
  put_ue 0;;
  put_ue 0;; put_ue 0;; put_ue 0;;
  put_ue max_num_ref_frames;;
  put_u 0 1;;
  put_ue 119;; put_ue 67;;
  put_u 1 1;; put_u 1 1;; put_u 0 1;;
  put_u (bit with_vui) 1;;
  when with_vui (repeat_sp 7 (put_u 0 1);; put_u 0 1;; synthetic_restriction).

Definition build_synthetic_h264_baseline_sps (max_num_ref_frames : Z) (with_vui : bool) : list Z :=
  build_set (synthetic_h264_baseline_fields max_num_ref_frames with_vui).

Definition h264_video_signal_fields (full_range : bool) (primaries transfer matrix : Z) : SP unit :=
  put_u 66 8;; put_u 192 8;; put_u 40 8;;
  put_ue 0;; put_ue 0;; put_ue 0;; put_ue 0;; put_ue 4;;
  put_u 0 1;;
  put_ue 119;; put_ue 67;;
  put_u 1 1;; put_u 1 1;; put_u 0 1;; put_u 1 1;;
  put_u 0 1;; put_u 0 1;; put_u 1 1;;
  put_u 5 3;; put_u (bit full_range) 1;; put_u 1 1;;
  put_u primaries 8;; put_u transfer 8;; put_u matrix 8;;
  put_u 0 1;; put_u 0 1;; put_u 0 1;; put_u 0 1;; put_u 0 1;; put_u 0 1.

Definition build_h264_sps_with_video_signal_type (full_range : bool) (primaries transfer matrix : Z)
  : list Z := build_set (h264_video_signal_fields full_range primaries transfer matrix).

(** The head of every synthetic HEVC set, up to its buffering triplet. *)
Definition hevc_head_fields (width log2_max_poc : Z) (dpb reorder latency : Z) : SP unit :=
  put_u 0 4;; put_u 0 3;; put_u 1 1;;
  repeat_sp 12 (put_u 0 8);;
  put_ue 0;; put_ue 1;; put_ue width;; put_ue 1080;;
  put_u 0 1;;
  put_ue 0;; put_ue 0;; put_ue log2_max_poc;;
  put_u 1 1;;
  put_ue dpb;; put_ue reorder;; put_ue latency.

Definition build_synthetic_hevc_sps (dpb reorder latency : Z) : list Z :=
  build_set (hevc_head_fields 1919 0 dpb reorder latency;; repeat_sp 4 (put_u 171 8)).

(** [scaling_list_enabled_flag] comes after these six. *)
Definition hevc_block_sizes : SP unit :=
  put_ue 0;; put_ue 3;; put_ue 0;; put_ue 3;; put_ue 0;; put_ue 0.

Definition hevc_vui_fields (full_range : bool) (primaries transfer matrix : Z) : SP unit :=
  put_u 0 1;; put_u 0 1;; put_u 1 1;;
  put_u 5 3;; put_u (bit full_range) 1;; put_u 1 1;;
  put_u primaries 8;; put_u transfer 8;; put_u matrix 8;;
  put_u 0 1;; put_u 0 1;; put_u 0 1;; put_u 0 1;; put_u 0 1;; put_u 0 1;; put_u 0 1.

Definition hevc_tail_fields (full_range : bool) (primaries transfer matrix : Z) (with_vui : bool)
  : SP unit :=
  hevc_block_sizes;;
  put_u 0 1;; put_u 1 1;; put_u 1 1;; put_u 0 1;;
  put_ue 0;;
  put_u 0 1;; put_u 1 1;; put_u 0 1;;
  put_u (bit with_vui) 1;;
  when with_vui (hevc_vui_fields full_range primaries transfer matrix);;
  put_u 0 1.

Definition build_complete_hevc_sps (dpb : Z) (full_range : bool) (primaries transfer matrix : Z)
    (with_vui : bool) : list Z :=
  build_set (hevc_head_fields 1920 4 dpb 0 0;;
         hevc_tail_fields full_range primaries transfer matrix with_vui).

(** The set of the fallback test: in-band scaling lists, then garbage. *)
Definition scaling_list_sps : list Z :=
  build_set (hevc_head_fields 1920 4 3 2 5;;
         hevc_block_sizes;; put_u 1 1;; put_u 1 1;; repeat_sp 8 (put_u 171 8)).

(** * The tests

    [patched codec rbsp] is the set read back from the patched packet, or
    [None] when the patcher refuses; [prefix_kept] the assertion on the start
    code and header. *)

Definition h264_header : list Z := [103].
Definition hevc_header : list Z := [66; 1].

Definition header_of (codec : Codec) : list Z :=
  match codec with H264 => h264_header | Hevc => hevc_header end.

Definition patched (codec : Codec) (rbsp : list Z) : EngineResult (list Z) :=
  out ← patch_packet_for_low_latency_dpb codec (sps_nal (header_of codec) rbsp);
  Ok (rbsp_unescape (drop (4 + length (header_of codec)) out)).

Definition prefix_kept (codec : Codec) (rbsp : list Z) : bool :=
  let nal := sps_nal (header_of codec) rbsp in
  let k := (4 + length (header_of codec))%nat in
  returns (take k <$> patch_packet_for_low_latency_dpb codec nal) (take k nal).

Definition patch_h264_sps_with_vui : bool :=
  let rbsp := build_synthetic_h264_baseline_sps 4 true in
  returns (read_h264_sps_dpb_fields rbsp) (4, Some (2, 4))
  && prefix_kept H264 rbsp
  && returns (p ← patched H264 rbsp; read_h264_sps_dpb_fields p) (1, Some (0, 1)).

Definition patch_h264_sps_without_vui_synthesises_one : bool :=
  let rbsp := build_synthetic_h264_baseline_sps 4 false in
  returns (read_h264_sps_dpb_fields rbsp) (4, None)
  && returns (p ← patched H264 rbsp; read_h264_sps_dpb_fields p) (1, Some (0, 1)).

Definition patch_hevc_sps : bool :=
  let rbsp := build_synthetic_hevc_sps 3 2 5 in
  returns (read_hevc_sps_dpb_fields rbsp) (3, 2, 5)
  && prefix_kept Hevc rbsp
  && returns (p ← patched Hevc rbsp; read_hevc_sps_dpb_fields p) (0, 0, 0).

(** A PPS followed by an IDR slice. *)
Definition patch_passes_non_sps_nals_through_unchanged : bool :=
  let bytes := [0; 0; 0; 1; 104; 206; 56; 128; 0; 0; 0; 1; 101; 184; 64; 18] in
  returns (patch_packet_for_low_latency_dpb H264 bytes) bytes.

(** [full_range] and [cd == Some((1, 1, 1))]; the format is not looked at. *)
Definition is_full_range_bt709 (v : bool * option (Z * bool * option (Z * Z * Z))) : bool :=
  match v with
  | (true, Some (_, true, cd)) => bool_decide (cd = Some (1, 1, 1))
  | _ => false
  end.

Definition reads_full_range_bt709 (rbsp : list Z) : bool :=
  match p ← patched H264 rbsp; read_h264_sps_video_signal_type p with
  | Ok v => is_full_range_bt709 v
  | Err _ => false
  end.

Definition patch_h264_sps_no_vui_synthesises_full_range_bt709 : bool :=
  let rbsp := build_synthetic_h264_baseline_sps 4 false in
  returns (fst <$> read_h264_sps_video_signal_type rbsp) false && reads_full_range_bt709 rbsp.

Definition patch_h264_sps_existing_vui_gets_full_range_bt709 : bool :=
  let rbsp := build_synthetic_h264_baseline_sps 4 true in
  returns (read_h264_sps_video_signal_type rbsp) (true, None) && reads_full_range_bt709 rbsp.

Definition patch_h264_sps_overrides_wrong_video_signal_type : bool :=
  let rbsp := build_h264_sps_with_video_signal_type false 6 6 6 in
  returns (read_h264_sps_video_signal_type rbsp) (true, Some (5, false, Some (6, 6, 6)))
  && reads_full_range_bt709 rbsp.

Definition patch_hevc_sps_overrides_wrong_video_signal_type : bool :=
  let rbsp := build_complete_hevc_sps 3 false 6 6 6 true in
  returns (read_hevc_sps_video_signal_type rbsp) (true, Some (false, Some (6, 6, 6)))
  && returns (p ← patched Hevc rbsp; read_hevc_sps_dpb_fields_via_full_walk p) (0, 0, 0)
  && returns (p ← patched Hevc rbsp; read_hevc_sps_video_signal_type p) (true, Some (true, Some (1, 1, 1))).

Definition patch_hevc_sps_no_vui_synthesises_full_range_bt709 : bool :=
  let rbsp := build_complete_hevc_sps 3 false 0 0 0 false in
  returns (fst <$> read_hevc_sps_video_signal_type rbsp) false
  && returns (p ← patched Hevc rbsp; read_hevc_sps_video_signal_type p) (true, Some (true, Some (1, 1, 1))).

Definition patch_hevc_sps_with_scaling_list_falls_back_to_dpb_only : bool :=
  returns (p ← patched Hevc scaling_list_sps; read_hevc_sps_dpb_fields_via_full_walk p) (0, 0, 0).

Definition all_tests : list bool :=
  [rbsp_round_trip; ue_round_trip_small_values; ue_round_trip_larger_values; se_round_trip;
   patch_h264_sps_with_vui; patch_h264_sps_without_vui_synthesises_one; patch_hevc_sps;
   patch_passes_non_sps_nals_through_unchanged;
   patch_h264_sps_no_vui_synthesises_full_range_bt709;
   patch_h264_sps_existing_vui_gets_full_range_bt709;
   patch_h264_sps_overrides_wrong_video_signal_type;
   patch_hevc_sps_overrides_wrong_video_signal_type;
   patch_hevc_sps_no_vui_synthesises_full_range_bt709;
   patch_hevc_sps_with_scaling_list_falls_back_to_dpb_only].

(** The whole test module passes. *)
Lemma sps_tests_pass : forallb id all_tests = true.
Proof. vm_compute. reflexivity. Qed.

(** * The builders write the syntax

    What each builder means, for every argument. *)

Lemma build_bits fields bs : sim fields [] bs tt ->
  bytes_ok (build_set fields) /\ bits_of (build_set fields) = with_trailing bs.
Proof.
  intros H. destruct (H (BitReader_new []) BitWriter_new [] [] eq_refl writer_new_at) as (r & w & E & _ & Hw).
  unfold build_set. rewrite E. by apply bits_with_trailing.
Qed.

Definition synthetic_h264_vui : H264Vui :=
  {| vui_aspect := None; vui_overscan := None; vui_video_signal := None; vui_chroma_loc := None;
     vui_timing := None; vui_nal_hrd := None; vui_vcl_hrd := None; vui_low_delay_hrd := None;
     vui_pic_struct := false;
     vui_restriction := Some {| br_mv_over_boundaries := true; br_max_bytes_per_pic := 0;
       br_max_bits_per_mb := 0; br_log2_mv_horizontal := 16; br_log2_mv_vertical := 16;
       br_max_num_reorder_frames := 2; br_max_dec_frame_buffering := 4 |} |}.

(** 1920x1088, level 4.0, baseline. *)
Definition baseline_h264 (max_num_ref_frames : Z) (vui : option H264Vui) : H264Sps :=
  {| sps_profile_idc := 66; sps_constraint_flags := 192; sps_level_idc := 40; sps_id := 0;
     sps_chroma := None; sps_log2_max_frame_num := 0; sps_poc := PocLsb 0;
     sps_max_num_ref_frames := max_num_ref_frames; sps_gaps_allowed := false; sps_width_in_mbs := 119;
     sps_height_in_map_units := 67; sps_frame_mbs_only := true; sps_mb_adaptive := None;
     sps_direct_8x8 := true; sps_crop := None; sps_vui := vui |}.

Definition synthetic_h264 (max_num_ref_frames : Z) (with_vui : bool) : H264Sps :=
  baseline_h264 max_num_ref_frames (if with_vui then Some synthetic_h264_vui else None).

Definition signal_vui (full_range : bool) (primaries transfer matrix : Z) : H264Vui :=
  {| vui_aspect := None; vui_overscan := None;
     vui_video_signal := Some {| vs_format := 5; vs_full_range := full_range;
                                 vs_colour := Some (primaries, transfer, matrix) |};
     vui_chroma_loc := None; vui_timing := None; vui_nal_hrd := None; vui_vcl_hrd := None;
     vui_low_delay_hrd := None; vui_pic_struct := false; vui_restriction := None |}.

(** A program of writes, statement by statement; what it wrote is compared
    with the syntax by conversion. *)
Lemma sim_conv {A} (m : SP A) i o o' a : sim m i o a -> o = o' -> sim m i o' a.
Proof. by intros H <-. Qed.

Ltac puts :=
  repeat lazymatch goal with
  | |- sim (_ ≫= _) _ _ _ => eapply sim_bind_w
  | |- sim (put_u _ _) _ _ _ => apply sim_put_u; [reflexivity | lia]
  | |- sim (put_ue _) _ _ _ => apply sim_put_ue; sim_range
  | |- sim (mret _) _ _ _ => apply sim_ret
  end.

Ltac writes := eapply sim_conv; [puts | reflexivity].

Lemma sim_synthetic_h264 n v : ue_range n ->
  sim (synthetic_h264_baseline_fields n v) [] (h264_sps_bits (synthetic_h264 n v)) tt.
Proof.
  intros Hn. unfold synthetic_h264_baseline_fields, synthetic_restriction.
  destruct v; cbn [when bit repeat_sp]; writes.
Qed.

Lemma sim_h264_video_signal f p t m :
  sim (h264_video_signal_fields f p t m) []
    (h264_sps_bits (baseline_h264 4 (Some (signal_vui f p t m)))) tt.
Proof. unfold h264_video_signal_fields. destruct f; cbn [bit]; writes. Qed.

(** The head of every synthetic HEVC set. *)
Definition synthetic_head (width log2_max_poc : Z) (dpb reorder latency : Z) : HevcHead :=
  {| hh_vps_id := 0; hh_temporal_nesting := true;
     hh_ptl := {| ptl_profile := 0; ptl_compatibility := 0;
                  ptl_constraints_level := [0; 0; 0; 0; 0; 0; 0]; ptl_sub_layers := [];
                  ptl_reserved := [] |};
     hh_sps_id := 0; hh_chroma_format_idc := 1; hh_separate_plane := None;
     hh_width := width; hh_height := 1080; hh_conformance_window := None;
     hh_bit_depth_luma := 0; hh_bit_depth_chroma := 0; hh_log2_max_poc_minus4 := log2_max_poc;
     hh_sub_layer_ordering_info := true;
     hh_dpb := [{| dpb_buffering_minus1 := dpb; dpb_num_reorder := reorder; dpb_latency_plus1 := latency |}] |}.

Lemma sim_hevc_head w k d r l : ue_range w -> ue_range k -> ue_range d -> ue_range r -> ue_range l ->
  sim (hevc_head_fields w k d r l) [] (hevc_head_bits (synthetic_head w k d r l)) tt.
Proof.
  intros. unfold hevc_head_fields. cbn [repeat_sp]. eapply sim_conv; [puts |].
  unfold hevc_head_bits, hh_prefix_bits, all_bits, dpb_bits.
  cbn [synthetic_head hh_dpb map concat]. by rewrite ?app_nil_r, <- ?app_assoc.
Qed.

Definition synthetic_tail (vui : option HevcVui) : HevcTail :=
  {| tl_log2_min_coding := 0; tl_log2_diff_coding := 3; tl_log2_min_transform := 0;
     tl_log2_diff_transform := 3; tl_depth_inter := 0; tl_depth_intra := 0;
     tl_default_scaling_lists := false; tl_amp := true; tl_sao := true; tl_pcm := None;
     tl_rps := []; tl_long_term := None; tl_temporal_mvp := true; tl_strong_smoothing := false;
     tl_vui := vui |}.

Definition hevc_signal_vui (full_range : bool) (primaries transfer matrix : Z) : HevcVui :=
  {| hv_aspect := None; hv_overscan := None;
     hv_video_signal := Some {| vs_format := 5; vs_full_range := full_range;
                                vs_colour := Some (primaries, transfer, matrix) |};
     hv_chroma_loc := None; hv_neutral_chroma := false; hv_field_seq := false;
     hv_frame_field_info := false; hv_display_window := None; hv_timing := None;
     hv_restriction := None |}.

Definition complete_tail (full_range : bool) (primaries transfer matrix : Z) (with_vui : bool)
  : HevcTail :=
  synthetic_tail (if with_vui then Some (hevc_signal_vui full_range primaries transfer matrix) else None).

Lemma sim_hevc_tail k f p t m v :
  sim (hevc_tail_fields f p t m v) [] (hevc_tail_bits k (complete_tail f p t m v)) tt.
Proof.
  unfold hevc_tail_fields, hevc_block_sizes, hevc_vui_fields.
  destruct f, v; cbn [bit when]; writes.
Qed.

(** ** What the builders return *)

Lemma synthetic_h264_bits n v : ue_range n ->
  let rbsp := build_synthetic_h264_baseline_sps n v in
  bytes_ok rbsp /\ bits_of rbsp = with_trailing (h264_sps_bits (synthetic_h264 n v)).
Proof. intros Hn. by apply build_bits, sim_synthetic_h264. Qed.

Lemma h264_video_signal_bits f p t m :
  let rbsp := build_h264_sps_with_video_signal_type f p t m in
  bytes_ok rbsp
  /\ bits_of rbsp = with_trailing (h264_sps_bits (baseline_h264 4 (Some (signal_vui f p t m)))).
Proof. apply build_bits, sim_h264_video_signal. Qed.

Lemma complete_hevc_bits d f p t m v : ue_range d ->
  let rbsp := build_complete_hevc_sps d f p t m v in
  bytes_ok rbsp
  /\ bits_of rbsp = with_trailing (hevc_head_bits (synthetic_head 1920 4 d 0 0)
                                    ++ hevc_tail_bits 4 (complete_tail f p t m v)).
Proof.
  intros Hd. apply build_bits. eapply sim_bind_w; [by apply sim_hevc_head | apply sim_hevc_tail].
Qed.

Lemma synthetic_hevc_bits d r l : ue_range d -> ue_range r -> ue_range l ->
  let rbsp := build_synthetic_hevc_sps d r l in
  bytes_ok rbsp
  /\ bits_of rbsp = with_trailing (hevc_head_bits (synthetic_head 1919 0 d r l)
                                    ++ all_bits (u_bits 8) [171; 171; 171; 171]).
Proof.
  intros Hd Hr Hl. apply build_bits. eapply sim_bind_w; [by apply sim_hevc_head |].
  cbn [repeat_sp]. writes.
Qed.

(** ** Their side conditions *)

Lemma baseline_wf n vui : ue_range n -> opt_wf vui_wf vui -> h264_sps_wf (baseline_h264 n vui).
Proof. intros Hn Hv. unfold h264_sps_wf. cbn [baseline_h264]. split_and!; try done. Qed.

Lemma signal_vui_wf f p t m : u8 p -> u8 t -> u8 m -> vui_wf (signal_vui f p t m).
Proof. intros. unfold vui_wf, video_signal_wf. ground_wf. Qed.

Lemma synthetic_h264_ok n v : ue_range n ->
  h264_sps_wf (synthetic_h264 n v) /\ plain_h264 (synthetic_h264 n v)
  /\ opt_wf no_hrd (sps_vui (synthetic_h264 n v)).
Proof.
  intros Hn. split; [apply baseline_wf; [done |] | split; [done |]]; destruct v; by repeat split.
Qed.

Lemma synthetic_head_wf w k d r l :
  ue_range w -> ue_range k -> ue_range d -> ue_range r -> ue_range l ->
  hevc_head_wf (synthetic_head w k d r l).
Proof.
  intros. unfold hevc_head_wf, ptl_wf, dpb_wf. ground_wf.
Qed.

(** * The tests, for every argument of their builders *)

Lemma h264_header_ok : sps_header H264 h264_header.
Proof. split_and!; [done | done | by repeat constructor]. Qed.

Lemma hevc_header_ok : sps_header Hevc hevc_header.
Proof. split_and!; [done | done | by repeat constructor]. Qed.

(** [patch_h264_sps_with_vui] and its three siblings hold for any number of
    reference frames the field can carry. *)
Theorem synthetic_h264_patches n v : ue_range n ->
  let rbsp := build_synthetic_h264_baseline_sps n v in
  read_h264_sps_dpb_fields rbsp = Ok (n, if v then Some (2, 4) else None)
  /\ read_h264_sps_video_signal_type rbsp = Ok (v, None)
  /\ exists patched,
       patch_packet_for_low_latency_dpb H264 (sps_nal h264_header rbsp) = Ok patched
       /\ take 5 patched = take 5 (sps_nal h264_header rbsp)
       /\ read_h264_sps_dpb_fields (rbsp_unescape (drop 5 patched)) = Ok (1, Some (0, 1))
       /\ read_h264_sps_video_signal_type (rbsp_unescape (drop 5 patched))
          = Ok (true, Some (5, true, Some (1, 1, 1))).
Proof.
  intros Hn rbsp. destruct (synthetic_h264_bits n v Hn) as (Hok & Hb).
  destruct (synthetic_h264_ok n v Hn) as (Hs & Hp & Hh).
  destruct (h264_set_reads_back h264_header _ rbsp Hs Hp Hh h264_header_ok Hok Hb) as (R1 & R2 & R3).
  split; [| split; [| exact R3]]; [rewrite R1 | rewrite R2]; by destruct v.
Qed.

(** Whatever colour the encoder declared, the patched set says full-range
    BT.709. *)
Theorem wrong_signal_overridden f p t m : u8 p -> u8 t -> u8 m ->
  let rbsp := build_h264_sps_with_video_signal_type f p t m in
  read_h264_sps_video_signal_type rbsp = Ok (true, Some (5, f, Some (p, t, m)))
  /\ exists patched,
       patch_packet_for_low_latency_dpb H264 (sps_nal h264_header rbsp) = Ok patched
       /\ read_h264_sps_video_signal_type (rbsp_unescape (drop 5 patched))
          = Ok (true, Some (5, true, Some (1, 1, 1))).
Proof.
  intros Hp Ht Hm rbsp. destruct (h264_video_signal_bits f p t m) as (Hok & Hb).
  assert (H4 : ue_range 4) by (unfold ue_range; lia).
  pose proof (baseline_wf 4 (Some (signal_vui f p t m)) H4 (signal_vui_wf f p t m Hp Ht Hm)) as Hs.
  destruct (h264_set_reads_back h264_header _ rbsp Hs (conj eq_refl I) (conj eq_refl eq_refl)
              h264_header_ok Hok Hb)
    as (_ & R & out & E & _ & _ & R'). split; [exact R |]. exists out. exact (conj E R').
Qed.

Lemma complete_tail_ok f p t m v : u8 p -> u8 t -> u8 m ->
  hevc_tail_wf 4 (complete_tail f p t m v) /\ plain_tail (complete_tail f p t m v).
Proof.
  intros. split; [| done]. unfold hevc_tail_wf. destruct v; cbn; unfold hevc_vui_wf, video_signal_wf; ground_wf.
Qed.

Theorem complete_hevc_patches d f p t m v : ue_range d -> u8 p -> u8 t -> u8 m ->
  let rbsp := build_complete_hevc_sps d f p t m v in
  read_hevc_sps_dpb_fields_via_full_walk rbsp = Ok (d, 0, 0)
  /\ read_hevc_sps_video_signal_type rbsp
     = Ok (if v then (true, Some (f, Some (p, t, m))) else (false, None))
  /\ exists patched,
       patch_packet_for_low_latency_dpb Hevc (sps_nal hevc_header rbsp) = Ok patched
       /\ take 6 patched = take 6 (sps_nal hevc_header rbsp)
       /\ read_hevc_sps_dpb_fields_via_full_walk (rbsp_unescape (drop 6 patched)) = Ok (0, 0, 0)
       /\ read_hevc_sps_video_signal_type (rbsp_unescape (drop 6 patched))
          = Ok (true, Some (true, Some (1, 1, 1))).
Proof.
  intros Hd Hp Ht Hm.
  assert (Hh : hevc_head_wf (synthetic_head 1920 4 d 0 0))
    by (apply synthetic_head_wf; unfold ue_range in *; lia).
  destruct (complete_hevc_bits d f p t m v Hd) as (Hok & Hb).
  destruct (complete_tail_ok f p t m v Hp Ht Hm) as (Hwf & Hpl). intros rbsp.
  destruct (hevc_set_reads_back hevc_header _ _ rbsp Hh Hwf Hpl hevc_header_ok Hok Hb) as (R1 & R2 & R3).
  split; [exact R1 |]. split; [| exact R3]. rewrite R2. destruct v; reflexivity.
Qed.

(** Eight reference frames; a narrow colour declaration; and in-band scaling
    lists after a Main profile head. *)
Lemma synthetic_h264_patches_witness : ue_range 8
  /\ read_h264_sps_dpb_fields (build_synthetic_h264_baseline_sps 8 true) = Ok (8, Some (2, 4)).
Proof.
  assert (H8 : ue_range 8) by (unfold ue_range; lia). split; [exact H8 |].
  exact (proj1 (synthetic_h264_patches 8 true H8)).
Defined.

Lemma complete_hevc_patches_witness :
  read_hevc_sps_video_signal_type (build_complete_hevc_sps 3 false 9 16 9 true)
  = Ok (true, Some (false, Some (9, 16, 9))).
Proof.
  refine (proj1 (proj2 (complete_hevc_patches 3 false 9 16 9 true _ _ _ _)));
    unfold ue_range, unsigned; lia.
Defined.

Lemma hevc_fallback_reads_back_witness : exists patched,
  patch_packet_for_low_latency_dpb Hevc (sps_nal hevc_header demo_scaling_rbsp) = Ok patched
  /\ read_hevc_sps_dpb_fields_via_full_walk (rbsp_unescape (drop 6 patched)) = Ok (0, 0, 0).
Proof.
  apply (hevc_fallback_reads_back hevc_header demo_head demo_scaling_rbsp
           (scaling_list_tail ++ trailing 186) demo_head_wf hevc_header_ok).
  - unfold demo_scaling_rbsp. repeat constructor; unfold unsigned; lia.
  - exists (removelast demo_scaling_rbsp), 96. split; [vm_compute; reflexivity | discriminate].
  - vm_compute. reflexivity.
  - vm_compute. reflexivity.
Defined.
