(* ===== verification/Monitors.v ===== *)
(** Adapters and outputs ([crates/penflow-core/src/monitors.rs]): the walk over
    what DXGI presents, and reopening what it found.  Names are ASCII. *)
From stdpp Require Import list strings.
From S2P Require Import Prelude Engine Text.

(** * What DXGI presents *)

Record AdapterDesc := {
  ad_description : string; ad_luid_high : Z; ad_luid_low : Z;
  ad_vendor_id : Z; ad_device_id : Z; ad_flags : Z }.

Record OutputDesc := {
  od_device_name : string; od_left : Z; od_top : Z; od_right : Z; od_bottom : Z;
  od_rotation : Z; od_attached : bool }.

Record Output := { out_desc : result Z OutputDesc }.

Record Adapter := { adp_desc : result Z AdapterDesc; adp_outputs : Z -> result Z Output }.

Definition Factory : Type := Z -> result Z Adapter.

(** * The implementation *)

(** [trim_end_matches] of the NUL character. *)
Fixpoint trim_nul (s : string) : string :=
  match s with
  | EmptyString => EmptyString
  | String c s' =>
      match trim_nul s' with
      | EmptyString => if Ascii.eqb c Ascii.zero then EmptyString else String c EmptyString
      | t => String c t
      end
  end.

(** The LUID as one [i64]. *)
Definition luid_of (d : AdapterDesc) : Z := Z.lor (Z.shiftl (ad_luid_high d) 32) (ad_luid_low d).

Definition name_looks_virtual (name : string) : bool :=
  let n := to_lowercase name in
  existsb (fun needle => contains needle n)
    ["virtual display"%string; "virtual monitor"%string; "iddcx"%string; "iddsample"%string;
     "iddsampledriver"%string; "vdd"%string; "mttvdd"%string; "amyuni"%string; "spacedesk"%string;
     "superdisplay"%string].

Definition monitor_of (ai : Z) (d : AdapterDesc) (oi : Z) (o : OutputDesc) : MonitorInfo :=
  let adapter_name := trim_nul (ad_description d) in
  let device_name := trim_nul (od_device_name o) in
  {| adapter_index := ai; adapter_luid := luid_of d; adapter_name := adapter_name;
     adapter_vendor_id := ad_vendor_id d; adapter_device_id := ad_device_id d;
     adapter_is_software := negb (Z.land (ad_flags d) 2 =? 0);
     output_index_within_adapter := oi; device_name := device_name;
     mon_width := Z.max (swrap 32 (od_right o - od_left o)) 0;
     mon_height := Z.max (swrap 32 (od_bottom o - od_top o)) 0;
     desktop_coords := (od_left o, od_top o, od_right o, od_bottom o);
     rotation := uwrap 32 (od_rotation o); attached_to_desktop := od_attached o;
     looks_virtual := name_looks_virtual adapter_name || name_looks_virtual device_name |}.

Section Enumerate.
Context (DXGI_ERROR_NOT_FOUND : Z).

(** Fuel counts the calls that find something. *)
Fixpoint enum_outputs (fuel : nat) (ai : Z) (d : AdapterDesc) (outputs : Z -> result Z Output) (oi : Z)
  : option (EngineResult (list MonitorInfo)) :=
  match outputs oi with
  | Err hr => Some (if hr =? DXGI_ERROR_NOT_FOUND then Ok [] else Err (Win32 hr))
  | Ok output =>
      match fuel with
      | O => None
      | S fuel' =>
          match out_desc output with
          | Err hr => Some (Err (Win32 hr))
          | Ok odesc =>
              rest ← enum_outputs fuel' ai d outputs (uwrap 32 (oi + 1));
              Some (rest ← rest; Ok (monitor_of ai d oi odesc :: rest))
          end
      end
  end.

Fixpoint enum_adapters (fuel fuel_outputs : nat) (factory : Factory) (ai : Z)
  : option (EngineResult (list MonitorInfo)) :=
  match factory ai with
  | Err hr => Some (if hr =? DXGI_ERROR_NOT_FOUND then Ok [] else Err (Win32 hr))
  | Ok adapter =>
      match fuel with
      | O => None
      | S fuel' =>
          match adp_desc adapter with
          | Err hr => Some (Err (Win32 hr))
          | Ok desc =>
              match enum_outputs fuel_outputs ai desc (adp_outputs adapter) 0 with
              | None => None
              | Some (Err e) => Some (Err e)
              | Some (Ok mons) =>
                  rest ← enum_adapters fuel' fuel_outputs factory (uwrap 32 (ai + 1));
                  Some (rest ← rest; Ok (mons ++ rest))
              end
          end
      end
  end.

Definition enumerate (fuel : nat) (factory : Factory) : option (EngineResult (list MonitorInfo)) :=
  enum_adapters fuel fuel factory 0.

Definition open_adapter (m : MonitorInfo) (factory : Factory) : EngineResult Adapter :=
  adapter ← win (factory (adapter_index m));
  desc ← win (adp_desc adapter);
  if luid_of desc =? adapter_luid m then Ok adapter
  else Err (AdapterMismatch (adapter_luid m) (luid_of desc)).

Definition open_output (m : MonitorInfo) (adapter : Adapter) : EngineResult Output :=
  win (adp_outputs adapter (output_index_within_adapter m)).

(** * The walk *)

(** Presents [l] from index [i] on, and then nothing. *)
Definition presents_outputs (outputs : Z -> result Z Output) (l : list OutputDesc) : Prop :=
  (forall j o, l !! j = Some o -> outputs (Z.of_nat j) = Ok {| out_desc := Ok o |})
  /\ outputs (Z.of_nat (length l)) = Err DXGI_ERROR_NOT_FOUND.

Definition presents (factory : Factory) (l : list (AdapterDesc * list OutputDesc)) : Prop :=
  (forall i d outs, l !! i = Some (d, outs) -> exists outputs,
      factory (Z.of_nat i) = Ok {| adp_desc := Ok d; adp_outputs := outputs |} /\ presents_outputs outputs outs)
  /\ factory (Z.of_nat (length l)) = Err DXGI_ERROR_NOT_FOUND.

(** The monitors of one adapter, and of all. *)
Definition monitors_of (ai : Z) (d : AdapterDesc) (outs : list OutputDesc) : list MonitorInfo :=
  imap (fun j o => monitor_of ai d (Z.of_nat j) o) outs.

Definition all_monitors (l : list (AdapterDesc * list OutputDesc)) : list MonitorInfo :=
  concat (imap (fun i a => monitors_of (Z.of_nat i) a.1 a.2) l).

Definition fits_u32 {A} (l : list A) : Prop := Z.of_nat (length l) < 2 ^ 32.

Lemma next_index {A} (l : list A) j : fits_u32 l -> (j < length l)%nat ->
  uwrap 32 (Z.of_nat j + 1) = Z.of_nat (S j).
Proof. unfold fits_u32. intros. rewrite uwrap_small by urange. lia. Qed.

Lemma enum_outputs_ok ai d outputs l : presents_outputs outputs l -> fits_u32 l ->
  forall fuel j, (length l - j <= fuel)%nat -> (j <= length l)%nat ->
  enum_outputs fuel ai d outputs (Z.of_nat j)
  = Some (Ok (imap (fun k o => monitor_of ai d (Z.of_nat (j + k)) o) (drop j l))).
Proof.
  intros (Ho & Hn) Hu. induction fuel as [|fuel IH]; intros j Hf Hj.
  - replace j with (length l) by lia. rewrite drop_all. unfold enum_outputs. by rewrite Hn, Z.eqb_refl.
  - destruct (decide (j = length l)) as [-> | Hne].
    { rewrite drop_all. cbn [enum_outputs]. by rewrite Hn, Z.eqb_refl. }
    destruct (lookup_lt_is_Some_2 l j) as (o & Eo); [lia |]. cbn [enum_outputs].
    rewrite (Ho j o Eo), (drop_S _ _ _ Eo). cbn [out_desc].
    rewrite (next_index l j) by (done || lia). rewrite IH by lia. cbn. rewrite Nat.add_0_r.
    do 3 f_equal. apply imap_ext. intros k x _. cbn. by rewrite Nat.add_succ_r.
Qed.

Lemma enum_adapters_ok factory l fo : presents factory l -> fits_u32 l ->
  Forall (fun a => fits_u32 a.2 /\ (length a.2 <= fo)%nat) l ->
  forall fuel i, (length l - i <= fuel)%nat -> (i <= length l)%nat ->
  enum_adapters fuel fo factory (Z.of_nat i)
  = Some (Ok (concat (imap (fun k a => monitors_of (Z.of_nat (i + k)) a.1 a.2) (drop i l)))).
Proof.
  intros (Ha & Hn) Hu Hout. induction fuel as [|fuel IH]; intros i Hf Hi.
  - replace i with (length l) by lia. rewrite drop_all. unfold enum_adapters. by rewrite Hn, Z.eqb_refl.
  - destruct (decide (i = length l)) as [-> | Hne].
    { rewrite drop_all. cbn [enum_adapters]. by rewrite Hn, Z.eqb_refl. }
    destruct (lookup_lt_is_Some_2 l i) as ([d outs] & Ei); [lia |]. cbn [enum_adapters].
    destruct (Ha i d outs Ei) as (outputs & -> & Hp). cbn [adp_desc adp_outputs].
    destruct (Forall_lookup_1 _ _ _ _ Hout Ei) as (Hu' & Hl). cbn in Hu', Hl.
    pose proof (enum_outputs_ok (Z.of_nat i) d outputs outs Hp Hu' fo 0) as Eo.
    rewrite drop_0 in Eo. change (Z.of_nat 0) with 0 in Eo. rewrite Eo by lia.
    rewrite (drop_S _ _ _ Ei), (next_index l i), IH by (done || lia). cbn. rewrite Nat.add_0_r.
    do 3 f_equal. f_equal. apply imap_ext. intros k x _. cbn. by rewrite Nat.add_succ_r.
Qed.

(** Reopening a monitor from the factory that listed it. *)
Definition reopens (factory : Factory) (m : MonitorInfo) : Prop :=
  exists adapter output d o, open_adapter m factory = Ok adapter /\ open_output m adapter = Ok output
    /\ adp_desc adapter = Ok d /\ out_desc output = Ok o
    /\ m = monitor_of (adapter_index m) d (output_index_within_adapter m) o.

(** The list of monitors is what DXGI presents: for every adapter and
    every output, in order, one entry that describes it; and each entry leads
    back to its adapter and its output as long as the factory is the same. *)
Theorem enumerate_exact factory l fuel :
  presents factory l -> fits_u32 l -> (length l <= fuel)%nat ->
  Forall (fun a => fits_u32 a.2 /\ (length a.2 <= fuel)%nat) l ->
  enumerate fuel factory = Some (Ok (all_monitors l)) /\ Forall (reopens factory) (all_monitors l).
Proof.
  intros Hp Hu Hf Hout. split.
  - pose proof (enum_adapters_ok factory l fuel Hp Hu Hout fuel 0) as E. rewrite drop_0 in E. apply E; lia.
  - unfold all_monitors. apply Forall_concat, Forall_lookup_2. intros i ms Ei.
    rewrite list_lookup_imap in Ei. destruct (l !! i) as [[d outs]|] eqn:El; [| done]. injection Ei as <-.
    apply Forall_lookup_2. intros j m Ej. unfold monitors_of in Ej. rewrite list_lookup_imap in Ej.
    destruct (outs !! j) as [o|] eqn:Eo; [| done]. injection Ej as <-.
    destruct Hp as (Ha & _). destruct (Ha i d outs El) as (outputs & Ef & Ho & _).
    exists {| adp_desc := Ok d; adp_outputs := outputs |}, {| out_desc := Ok o |}, d, o.
    unfold open_adapter, open_output. cbn. rewrite Ef. cbn. rewrite Z.eqb_refl, (Ho j o Eo). by split_and!.
Qed.
End Enumerate.

(** Different LUIDs never collide in the packed form. *)
Lemma luid_injective d d' : u32 (ad_luid_low d) -> u32 (ad_luid_low d') ->
  luid_of d = luid_of d' -> ad_luid_high d = ad_luid_high d' /\ ad_luid_low d = ad_luid_low d'.
Proof. intros H H'. unfold luid_of. rewrite !lor_shiftl_add by urange. urange. Qed.

(** Sizes are not negative, and are those of the desktop rectangle. *)
Lemma monitor_size ai d oi o :
  0 <= od_right o - od_left o < 2 ^ 31 -> 0 <= od_bottom o - od_top o < 2 ^ 31 ->
  mon_width (monitor_of ai d oi o) = od_right o - od_left o
  /\ mon_height (monitor_of ai d oi o) = od_bottom o - od_top o.
Proof. intros H1 H2. cbn. rewrite !swrap_small by urange. lia. Qed.

(** * Witness *)

Definition demo_adapter : AdapterDesc :=
  {| ad_description := "NVIDIA GeForce"; ad_luid_high := -1; ad_luid_low := 7; ad_vendor_id := 0x10DE;
     ad_device_id := 5; ad_flags := 0 |}.

Definition demo_output (name : string) (l : Z) : OutputDesc :=
  {| od_device_name := name; od_left := l; od_top := 0; od_right := l + 1920; od_bottom := 1080;
     od_rotation := 1; od_attached := true |}.

Definition demo_presented : list (AdapterDesc * list OutputDesc) :=
  [(demo_adapter, [demo_output "DISPLAY1" 0; demo_output "MttVDD" 1920])].

Definition demo_outputs (j : Z) : result Z Output :=
  if j =? 0 then Ok {| out_desc := Ok (demo_output "DISPLAY1" 0) |}
  else if j =? 1 then Ok {| out_desc := Ok (demo_output "MttVDD" 1920) |}
  else Err 2.

Definition demo_factory : Factory :=
  fun i => if i =? 0 then Ok {| adp_desc := Ok demo_adapter; adp_outputs := demo_outputs |} else Err 2.

Lemma demo_presents : presents 2 demo_factory demo_presented.
Proof.
  split; [| done]. intros [|i] d outs; [| by destruct i]. intros [= <- <-]. exists demo_outputs.
  split; [done |]. split; [| done]. intros [|[|j]] o; [by intros [= <-] | by intros [= <-] | by destruct j].
Qed.

Lemma enumerate_exact_witness :
  enumerate 2 8 demo_factory = Some (Ok (all_monitors demo_presented))
  /\ Forall (reopens demo_factory) (all_monitors demo_presented).
Proof.
  apply (enumerate_exact 2 demo_factory demo_presented 8 demo_presents); [done | cbn; lia |].
  repeat constructor; cbn; lia.
Defined.

Example demo_virtual : looks_virtual <$> all_monitors demo_presented = [false; true].
Proof. vm_compute. reflexivity. Qed.
