(* ===== verification/Encoder.v ===== *)
(** The Media Foundation encoder session while it streams
    ([crates/penflow-core/src/encoder/mf.rs]): submission of a frame, the two
    ways of reading the transform's events, and what becomes of an output.

    The transform is asynchronous and not part of the program: it is the list
    of the events that are still to come, which every accepted input may
    change at will.  A blocking read of an empty list never returns. *)
From stdpp Require Import list.
From S2P Require Import Prelude Bytes Engine AnnexB Rbsp BitIO BitSim SpsH264 SpsHevc SpsPatcher.

(** * The transform *)

(** The constants of the system's headers. *)
Record MfConstants := {
  METransformNeedInput : Z;
  METransformHaveOutput : Z;
  MFT_OUTPUT_STREAM_PROVIDES_SAMPLES : Z;
  MF_E_NO_EVENTS_AVAILABLE : Z;
}.

(** An output sample: its bytes, the transform's own time stamp (in 100 ns),
    and the time at which the host received it (in ns). *)
Record Sample := {
  smp_bytes : result Z (list Z);
  smp_time : option Z;
  smp_finished_at : Z;
}.

(** How the calls that fetch an output end: the stream's flags and buffer
    size, the allocation of a buffer of a given size, and [ProcessOutput] on
    that buffer, or on none when the transform provides it.  A failed call
    carries its HRESULT. *)
Record OutputAnswer := {
  oa_info : result Z (Z * Z);
  oa_alloc : Z -> result Z unit;
  oa_process : option Z -> result Z (option Sample);
}.

(** What [GetEvent] hands out: an event, whose type has to be asked for, or
    an error. *)
Inductive Got :=
| GotEvent (etype : result Z Z) (out : OutputAnswer)
| GetEventErr (hresult : Z).

(** What the host tells the transform. *)
Inductive MftCall :=
| ForceKeyFrame
| ProcessInput (sample_time sample_duration : Z).

(** How a submission goes: the calls that may fail, the time at which
    [ProcessInput] returned, and what is then still to come, given what was
    to come before. *)
Record SubmitEnv := {
  se_sample : result Z unit;
  se_process_input : result Z unit;
  se_submitted_at : Z;
  se_events : list Got -> list Got;
}.

(** * The session *)

Record MfSession := {
  sequence_header : list Z;
  have_need_input_credit : bool;
  output_queue : list EncodedPacket;
  pending_input_meta : list (Z * Z);
}.

Definition set_credit (b : bool) (s : MfSession) : MfSession :=
  {| sequence_header := sequence_header s; have_need_input_credit := b;
     output_queue := output_queue s; pending_input_meta := pending_input_meta s |}.

Definition set_queue (q : list EncodedPacket) (s : MfSession) : MfSession :=
  {| sequence_header := sequence_header s; have_need_input_credit := have_need_input_credit s;
     output_queue := q; pending_input_meta := pending_input_meta s |}.

Definition push_meta (m : Z * Z) (s : MfSession) : MfSession :=
  {| sequence_header := sequence_header s; have_need_input_credit := have_need_input_credit s;
     output_queue := output_queue s; pending_input_meta := pending_input_meta s ++ [m] |}.

(** The session with the transform it drives and the calls made to it. *)
Record Enc := { e_session : MfSession; e_events : list Got; e_calls : list MftCall }.

Section Streaming.
Context (mf : MfConstants) (cfg : SessionConfig).

(** The size asked of a buffer; the product is computed in 32 bits. *)
Definition output_buffer_size (cb_size : Z) : Z :=
  Z.max cb_size (uwrap 32 (uwrap 32 (enc_width cfg * enc_height cfg) * 2)).

(** [ProcessOutput] with what precedes it. *)
Definition fetch_output (a : OutputAnswer) : EngineResult (option Sample) :=
  '(flags, cb_size) ← win (oa_info a);
  if negb (Z.land flags (MFT_OUTPUT_STREAM_PROVIDES_SAMPLES mf) =? 0) then win (oa_process a None)
  else
    let needed := output_buffer_size cb_size in
    _ ← win (oa_alloc a needed);
    win (oa_process a (Some needed)).

(** Patched, or as it is when it cannot be patched. *)
Definition patched_or_raw (raw : list Z) : list Z :=
  match patch_packet_for_low_latency_dpb (enc_codec cfg) raw with Ok patched => patched | Err _ => raw end.

(** Whole microseconds, saturating at both ends. *)
Definition encode_us (finished_at submit_instant : Z) : Z :=
  Z.min (Z.max 0 (finished_at - submit_instant) / 1000) (2 ^ 32 - 1).

(** The stamp of an output and its encoding time. *)
Definition stamp_output (smp : Sample) (meta : list (Z * Z)) : Z * option Z :=
  match meta with
  | (pts, submit_instant) :: _ => (pts, Some (encode_us (smp_finished_at smp) submit_instant))
  | [] => (match smp_time smp with Some t => swrap 64 (t * 100) | None => 0 end, None)
  end.

Definition packet_of (smp : Sample) (raw : list Z) (meta : list (Z * Z)) : EncodedPacket :=
  let bytes := patched_or_raw raw in
  let '(pts_ns, us) := stamp_output smp meta in
  {| pkt_bytes := bytes; pkt_pts_ns := pts_ns;
     pkt_is_keyframe := first_nal_is_idr bytes (enc_codec cfg); pkt_encode_us := us |}.

(** The session after an output: one entry of the queue is used up, and the
    first key frame is kept. *)
Definition record_output (p : EncodedPacket) (s : MfSession) : MfSession :=
  {| sequence_header := if pkt_is_keyframe p && bool_decide (sequence_header s = [])
                        then pkt_bytes p else sequence_header s;
     have_need_input_credit := have_need_input_credit s;
     output_queue := output_queue s; pending_input_meta := tail (pending_input_meta s) |}.

Definition collect_output_packet (a : OutputAnswer) (s : MfSession)
  : EngineResult (option EncodedPacket) * MfSession :=
  match fetch_output a with
  | Err e => (Err e, s)
  | Ok None => (Ok None, s)
  | Ok (Some smp) =>
      match smp_bytes smp with
      | Err hr => (Err (Win32 hr), s)
      | Ok raw =>
          let p := packet_of smp raw (pending_input_meta s) in
          (Ok (Some p), record_output p s)
      end
  end.

(** An output that comes up while events are read goes to the queue. *)
Definition collect_into_queue (a : OutputAnswer) (s : MfSession) : EngineResult unit * MfSession :=
  match collect_output_packet a s with
  | (Err e, s) => (Err e, s)
  | (Ok None, s) => (Ok tt, s)
  | (Ok (Some p), s) => (Ok tt, set_queue (output_queue s ++ [p]) s)
  end.

(** [None]: it waits for ever. *)
Fixpoint wait_for_need_input (evs : list Got) (s : MfSession)
  : option (EngineResult unit) * MfSession * list Got :=
  match evs with
  | [] => (None, s, [])
  | GetEventErr hr :: evs' => (Some (Err (Win32 hr)), s, evs')
  | GotEvent (Err hr) _ :: evs' => (Some (Err (Win32 hr)), s, evs')
  | GotEvent (Ok etype) out :: evs' =>
      if etype =? METransformNeedInput mf then (Some (Ok tt), s, evs')
      else if etype =? METransformHaveOutput mf then
        match collect_into_queue out s with
        | (Err e, s') => (Some (Err e), s', evs')
        | (Ok _, s') => wait_for_need_input evs' s'
        end
      else wait_for_need_input evs' s
  end.

(** The first [n] events have arrived; behind them [GetEvent] answers that
    there are none. *)
Fixpoint drain_events_nowait (n : nat) (evs : list Got) (s : MfSession)
  : EngineResult unit * MfSession * list Got :=
  match n, evs with
  | O, _ | _, [] => (Ok tt, s, evs)
  | S n', GetEventErr hr :: evs' =>
      (if hr =? MF_E_NO_EVENTS_AVAILABLE mf then Ok tt else Err (Win32 hr), s, evs')
  | S n', GotEvent (Err hr) _ :: evs' => (Err (Win32 hr), s, evs')
  | S n', GotEvent (Ok etype) out :: evs' =>
      if etype =? METransformHaveOutput mf then
        match collect_into_queue out s with
        | (Err e, s') => (Err e, s', evs')
        | (Ok _, s') => drain_events_nowait n' evs' s'
        end
      else drain_events_nowait n' evs' s
  end.

(** [SetSampleTime] and [SetSampleDuration] in units of 100 ns. *)
Definition sample_time (pts_ns : Z) : Z := Z.quot pts_ns 100.

Definition dur_100ns : Z := if 0 <? enc_fps cfg then 10000000 / enc_fps cfg else 166667.

(** The wait of a submission, on the whole state. *)
Definition wait (e : Enc) : option (EngineResult unit) * Enc :=
  let '(r, s, evs) := wait_for_need_input (e_events e) (e_session e) in
  (r, {| e_session := s; e_events := evs; e_calls := e_calls e |}).

Definition on_session (f : MfSession -> MfSession) (e : Enc) : Enc :=
  {| e_session := f (e_session e); e_events := e_events e; e_calls := e_calls e |}.

Definition record_call (c : MftCall) (e : Enc) : Enc :=
  {| e_session := e_session e; e_events := e_events e; e_calls := e_calls e ++ [c] |}.

(** Step 3 and the push that follows it: the sample goes to the transform,
    which decides what is to come. *)
Definition process_input (env : SubmitEnv) (pts_ns : Z) (e : Enc) : EngineResult unit * Enc :=
  match win (se_sample env) with
  | Err err => (Err err, e)
  | Ok _ =>
      let e := record_call (ProcessInput (sample_time pts_ns) dur_100ns) e in
      let e := {| e_session := e_session e; e_events := se_events env (e_events e); e_calls := e_calls e |} in
      match win (se_process_input env) with
      | Err err => (Err err, e)
      | Ok _ => (Ok tt, on_session (push_meta (pts_ns, se_submitted_at env)) e)
      end
  end.

(** Steps 2 to 4; a refused request for a key frame is ignored. *)
Definition submit_with_credit (env : SubmitEnv) (pts_ns : Z) (force_idr : bool) (e : Enc)
  : option (EngineResult unit) * Enc :=
  let e := on_session (set_credit false) e in
  let e := if force_idr then record_call ForceKeyFrame e else e in
  match process_input env pts_ns e with
  | (Err err, e) => (Some (Err err), e)
  | (Ok _, e) =>
      match wait e with
      | (Some (Ok _), e) => (Some (Ok tt), on_session (set_credit true) e)
      | (r, e) => (r, e)
      end
  end.

Definition submit_frame (env : SubmitEnv) (pts_ns : Z) (force_idr : bool) (e : Enc)
  : option (EngineResult unit) * Enc :=
  if have_need_input_credit (e_session e) then submit_with_credit env pts_ns force_idr e
  else
    match wait e with
    | (Some (Ok _), e) => submit_with_credit env pts_ns force_idr e
    | (r, e) => (r, e)
    end.

Definition try_packet (n : nat) (e : Enc) : EngineResult (option EncodedPacket) * Enc :=
  let '(r, s, evs) := drain_events_nowait n (e_events e) (e_session e) in
  let e := {| e_session := s; e_events := evs; e_calls := e_calls e |} in
  match r with
  | Err err => (Err err, e)
  | Ok _ => (Ok (head (output_queue s)), on_session (set_queue (tail (output_queue s))) e)
  end.

(** [MfSession::new] returns with nothing queued and no credit. *)
Definition new_session : MfSession :=
  {| sequence_header := []; have_need_input_credit := false; output_queue := []; pending_input_meta := [] |}.

Definition new_enc (evs : list Got) : Enc :=
  {| e_session := new_session; e_events := evs; e_calls := [] |}.
End Streaming.

(** * What the client sees *)

(** The two calls of a session. *)
Inductive Op :=
| OSubmit (env : SubmitEnv) (pts_ns : Z) (force_idr : bool)
| OPoll (arrived : nat).

Section Runs.
Context (mf : MfConstants) (cfg : SessionConfig).

(** One call: the packet it hands out, if any. *)
Definition enc_step (op : Op) (e : Enc) : option (EngineResult (list EncodedPacket)) * Enc :=
  match op with
  | OSubmit env pts force =>
      let '(r, e) := submit_frame mf cfg env pts force e in
      ((fun r => _ ← r; Ok []) <$> r, e)
  | OPoll n =>
      let '(r, e) := try_packet mf cfg n e in
      (Some (o ← r; Ok (option_list o)), e)
  end.

(** A client that stops at the first error, with all it was handed. *)
Fixpoint enc_run (ops : list Op) (e : Enc) (handed : list EncodedPacket)
  : option (EngineResult unit) * list EncodedPacket * Enc :=
  match ops with
  | [] => (Some (Ok tt), handed, e)
  | op :: ops' =>
      match enc_step op e with
      | (Some (Ok ps), e') => enc_run ops' e' (handed ++ ps)
      | (Some (Err err), e') => (Some (Err err), handed, e')
      | (None, e') => (None, handed, e')
      end
  end.

(** The stamps the client submitted. *)
Definition op_pts (op : Op) : list Z := match op with OSubmit _ pts _ => [pts] | OPoll _ => [] end.

Definition submitted_pts (ops : list Op) : list Z := concat (op_pts <$> ops).

(** The stamps of the packets that were matched with an input. *)
Definition paired_pts (ps : list EncodedPacket) : list Z :=
  pkt_pts_ns <$> List.filter (fun p => bool_decide (is_Some (pkt_encode_us p))) ps.

Definition first_keyframe (ps : list EncodedPacket) : list Z :=
  match List.filter pkt_is_keyframe ps with p :: _ => pkt_bytes p | [] => [] end.

(** The flag of a packet is the verdict of the byte walker on its own bytes,
    and its numbers are of their types. *)
Definition packet_wf (p : EncodedPacket) : Prop :=
  pkt_is_keyframe p = first_nal_is_idr (pkt_bytes p) (enc_codec cfg)
  /\ i64 (pkt_pts_ns p) /\ (forall us, pkt_encode_us p = Some us -> u32 us).

(** A session that accepted the stamps [acc] and handed out [handed]. *)
Record session_inv (acc : list Z) (handed : list EncodedPacket) (s : MfSession) : Prop := {
  inv_pairs : paired_pts (handed ++ output_queue s) ++ (pending_input_meta s).*1 = acc;
  inv_header : sequence_header s = first_keyframe (handed ++ output_queue s);
  inv_packets : Forall packet_wf (handed ++ output_queue s);
  inv_pending : Forall (fun m => i64 m.1) (pending_input_meta s);
}.

Lemma encode_us_range finished_at submit_instant : u32 (encode_us finished_at submit_instant).
Proof.
  unfold encode_us. assert (0 <= Z.max 0 (finished_at - submit_instant) / 1000) by (apply Z.div_pos; lia).
  urange.
Qed.

Lemma paired_pts_app ps qs : paired_pts (ps ++ qs) = paired_pts ps ++ paired_pts qs.
Proof. unfold paired_pts. by rewrite List.filter_app, fmap_app. Qed.

Lemma first_keyframe_snoc ps p :
  first_keyframe (ps ++ [p])
  = match List.filter pkt_is_keyframe ps with
    | [] => if pkt_is_keyframe p then pkt_bytes p else []
    | q :: _ => pkt_bytes q
    end.
Proof.
  unfold first_keyframe. rewrite List.filter_app. cbn.
  destruct (List.filter pkt_is_keyframe ps); [| done]. by destruct (pkt_is_keyframe p).
Qed.

(** A key frame is not empty, so an empty header means there was none. *)
Lemma keyframe_nonempty p : packet_wf p -> pkt_is_keyframe p = true -> pkt_bytes p <> [].
Proof. intros (E & _) Hk Hb. rewrite E, Hb in Hk. by destruct (enc_codec cfg). Qed.

Lemma first_keyframe_nil ps : Forall packet_wf ps ->
  first_keyframe ps = [] <-> List.filter pkt_is_keyframe ps = [].
Proof.
  intros H. unfold first_keyframe. split; [| by intros ->].
  destruct (List.filter pkt_is_keyframe ps) as [|p l] eqn:E; [done |]. intros Hb. exfalso.
  assert (Hin : In p (List.filter pkt_is_keyframe ps)) by (rewrite E; by left).
  apply filter_In in Hin as (Hin & Hk).
  eapply keyframe_nonempty; [| done..]. rewrite List.Forall_forall in H. by apply H.
Qed.

(** An output that is fetched keeps the invariant once it is queued. *)
Lemma packet_of_inv acc handed s smp raw :
  let p := packet_of cfg smp raw (pending_input_meta s) in
  session_inv acc handed s ->
  session_inv acc handed (set_queue (output_queue s ++ [p]) (record_output p s)).
Proof.
  intros p [Hp Hh Hk Hm]. assert (Hwf : packet_wf p).
  { unfold p, packet_of, stamp_output. destruct (pending_input_meta s) as [|(pts, t) l].
    - split_and!; [done | | done]. destruct (smp_time smp); cbn; [apply swrap_range; lia | urange].
    - apply Forall_cons_1 in Hm as (Hm & _). split_and!; [done | done |].
      intros us [= <-]. apply encode_us_range. }
  constructor; cbn [set_queue record_output output_queue pending_input_meta sequence_header].
  - rewrite <- Hp, app_assoc, paired_pts_app, <- app_assoc. f_equal.
    unfold p, packet_of, stamp_output. by destruct (pending_input_meta s) as [|(pts, t) l].
  - rewrite app_assoc, first_keyframe_snoc. pose proof (first_keyframe_nil _ Hk) as Hn.
    rewrite <- Hh in Hn.
    case_bool_decide as Hd; rewrite ?andb_true_r, ?andb_false_r.
    + rewrite (proj1 Hn Hd). by destruct (pkt_is_keyframe p).
    + unfold first_keyframe in Hh. rewrite Hh.
      destruct (List.filter pkt_is_keyframe (handed ++ output_queue s)) as [|q l]; [| done].
      by destruct Hd; apply Hn.
  - rewrite app_assoc. by apply Forall_app_2; [| constructor].
  - destruct (pending_input_meta s); [done | by apply Forall_cons_1 in Hm as (_ & ?)].
Qed.

Lemma collect_into_queue_inv acc handed a s :
  session_inv acc handed s -> session_inv acc handed (collect_into_queue mf cfg a s).2.
Proof.
  intros H. unfold collect_into_queue, collect_output_packet.
  destruct (fetch_output mf cfg a) as [[smp|]|]; [| done..].
  destruct (smp_bytes smp) as [raw|]; [exact (packet_of_inv acc handed s smp raw H) | done].
Qed.

Lemma wait_inv acc handed evs s : session_inv acc handed s ->
  session_inv acc handed (wait_for_need_input mf cfg evs s).1.2.
Proof.
  revert s. induction evs as [|[[t|]|] evs IH]; intros s H; cbn [wait_for_need_input]; try done.
  pose proof (collect_into_queue_inv acc handed out s H) as Hc.
  destruct (_ =? _); [done |]. destruct (_ =? _); [| auto].
  destruct (collect_into_queue mf cfg out s) as ([|] & s'); auto.
Qed.

Lemma drain_inv acc handed n evs s : session_inv acc handed s ->
  session_inv acc handed (drain_events_nowait mf cfg n evs s).1.2.
Proof.
  revert n s. induction evs as [|[[t|]|] evs IH]; intros [|n] s H; cbn [drain_events_nowait]; try done.
  pose proof (collect_into_queue_inv acc handed out s H) as Hc.
  destruct (_ =? _); [| auto]. destruct (collect_into_queue mf cfg out s) as ([|] & s'); auto.
Qed.

(** What a call may change of a session without touching what it accepted. *)
Lemma set_credit_inv acc handed b s : session_inv acc handed s -> session_inv acc handed (set_credit b s).
Proof. by intros []. Qed.

Lemma push_meta_inv acc handed pts t s : i64 pts ->
  session_inv acc handed s -> session_inv (acc ++ [pts]) handed (push_meta (pts, t) s).
Proof.
  intros Hpts [Hp Hh Hk Hm]. constructor; cbn; [| done..|].
  - by rewrite fmap_app, app_assoc, Hp.
  - by apply Forall_app_2; [| constructor].
Qed.

Lemma wait_enc_inv acc handed e : session_inv acc handed (e_session e) ->
  session_inv acc handed (e_session (wait mf cfg e).2).
Proof.
  intros H. unfold wait. pose proof (wait_inv acc handed (e_events e) _ H) as Hw.
  by destruct (wait_for_need_input mf cfg _ _) as ((r & s) & evs).
Qed.

(** A submission appends its stamp or fails; a stamp it does not append was
    not accepted. *)
Definition accepts (acc : list Z) (pts : Z) (handed : list EncodedPacket)
    (r : option (EngineResult unit)) (s : MfSession) : Prop :=
  session_inv (acc ++ [pts]) handed s \/ (session_inv acc handed s /\ r <> Some (Ok tt)).

Lemma process_input_inv acc handed env pts e : i64 pts ->
  session_inv acc handed (e_session e) ->
  session_inv (if is_ok (process_input cfg env pts e).1 then acc ++ [pts] else acc) handed
    (e_session (process_input cfg env pts e).2).
Proof.
  intros Hpts H. unfold process_input. destruct (se_sample env); cbn [win]; [| done].
  destruct (se_process_input env); cbn [win]; [by apply push_meta_inv | done].
Qed.

Lemma submit_with_credit_inv acc handed env pts force e : i64 pts ->
  session_inv acc handed (e_session e) ->
  accepts acc pts handed (submit_with_credit mf cfg env pts force e).1
    (e_session (submit_with_credit mf cfg env pts force e).2).
Proof.
  intros Hpts H. unfold submit_with_credit, accepts. cbv zeta.
  assert (Hi : session_inv acc handed (e_session
    (if force then record_call ForceKeyFrame (on_session (set_credit false) e)
     else on_session (set_credit false) e))) by (destruct force; by apply set_credit_inv).
  apply (process_input_inv _ _ env pts) in Hi; [| done].
  destruct (process_input cfg env pts _) as ([|] & e1); cbn in Hi; [| by right].
  apply wait_enc_inv in Hi. destruct (wait mf cfg e1) as ([[[]|]|] & e2); left; [| done..].
  by apply set_credit_inv.
Qed.

Lemma submit_frame_inv acc handed env pts force e : i64 pts ->
  session_inv acc handed (e_session e) ->
  accepts acc pts handed (submit_frame mf cfg env pts force e).1
    (e_session (submit_frame mf cfg env pts force e).2).
Proof.
  intros Hpts H. unfold submit_frame.
  destruct (have_need_input_credit _); [by apply submit_with_credit_inv |].
  apply wait_enc_inv in H. destruct (wait mf cfg e) as ([[[]|]|] & e');
    [by apply submit_with_credit_inv | by right..].
Qed.

Lemma try_packet_inv acc handed n e : session_inv acc handed (e_session e) ->
  session_inv acc
    (handed ++ match (try_packet mf cfg n e).1 with Ok o => option_list o | Err _ => [] end)
    (e_session (try_packet mf cfg n e).2).
Proof.
  intros H. unfold try_packet. pose proof (drain_inv acc handed n (e_events e) _ H) as Hd.
  destruct (drain_events_nowait mf cfg n _ _) as ((r & s) & evs). cbn in Hd.
  destruct r; cbn; [| by rewrite app_nil_r].
  destruct Hd as [Hp Hh Hk Hm]. destruct (output_queue s) as [|p q] eqn:Eq; cbn.
  - rewrite app_nil_r. constructor; cbn; by rewrite ?Eq.
  - constructor; cbn; rewrite <- ?app_assoc; done.
Qed.

Lemma enc_run_inv ops acc handed e : Forall i64 (submitted_pts ops) ->
  session_inv acc handed (e_session e) ->
  exists pts, session_inv (acc ++ pts) (enc_run ops e handed).1.2 (e_session (enc_run ops e handed).2)
    /\ pts `prefix_of` submitted_pts ops
    /\ ((enc_run ops e handed).1.1 = Some (Ok tt) -> pts = submitted_pts ops).
Proof.
  revert acc handed e. induction ops as [|op ops IH]; intros acc handed e Hpts H.
  { exists []. rewrite app_nil_r. done. }
  destruct op as [env pts force | n]; cbn [enc_run enc_step].
  - apply Forall_cons_1 in Hpts as (Hpt & Hpts).
    pose proof (submit_frame_inv acc handed env pts force e Hpt H) as Hs.
    destruct (submit_frame mf cfg env pts force e) as ([[[]|err]|] & e'); cbn in Hs |- *.
    + destruct Hs as [Hs | (_ & Hx)]; [| by destruct Hx]. rewrite app_nil_r.
      destruct (IH _ _ _ Hpts Hs) as (l & Hi & Hl & Hr). rewrite <- app_assoc in Hi.
      exists (pts :: l). split_and!; [done | by apply (prefix_app [pts]) |].
      intros Hok. by rewrite (Hr Hok).
    + destruct Hs as [Hs | (Hs & _)]; [exists [pts] | exists []; rewrite app_nil_r]; split_and!; try done.
      * by apply (prefix_app [pts]), prefix_nil.
      * apply prefix_nil.
    + destruct Hs as [Hs | (Hs & _)]; [exists [pts] | exists []; rewrite app_nil_r]; split_and!; try done.
      * by apply (prefix_app [pts]), prefix_nil.
      * apply prefix_nil.
  - pose proof (try_packet_inv acc handed n e H) as Ht.
    destruct (try_packet mf cfg n e) as ([o|err] & e'); cbn in Ht |- *; [by apply IH |].
    exists []. rewrite app_nil_r in Ht. rewrite app_nil_r. split_and!; [done | apply prefix_nil | done].
Qed.

Lemma new_session_inv : session_inv [] [] new_session.
Proof. by constructor. Qed.

(** C3. Whatever the transform does, packets and stamps stay paired: in a run
    of the session the matched packets handed out or queued, followed by the
    inputs not yet matched, carry exactly the stamps of the accepted inputs
    in their order, and those are the stamps submitted (up to a call that
    failed or hangs).  The cached header is the first key frame handed out or
    queued, and every packet's flag and numbers are right. *)
Theorem packets_paired ops evs :
  Forall i64 (submitted_pts ops) ->
  exists acc, session_inv acc (enc_run ops (new_enc evs) []).1.2
                (e_session (enc_run ops (new_enc evs) []).2)
    /\ acc `prefix_of` submitted_pts ops
    /\ ((enc_run ops (new_enc evs) []).1.1 = Some (Ok tt) -> acc = submitted_pts ops).
Proof.
  intros H. apply (enc_run_inv ops [] [] (new_enc evs) H new_session_inv).
Qed.

(** * Nothing waits for ever *)

Definition is_need_input (g : Got) : bool :=
  match g with GotEvent (Ok etype) _ => etype =? METransformNeedInput mf | _ => false end.

(** A request for input is still to come. *)
Definition input_wanted (evs : list Got) : bool := existsb is_need_input evs.

Lemma wait_returns evs s : input_wanted evs = true -> (wait_for_need_input mf cfg evs s).1.1 <> None.
Proof.
  revert s. induction evs as [|[[t|]|] evs IH]; intros s H; cbn [wait_for_need_input]; try done.
  unfold input_wanted in *. cbn in H. destruct (_ =? METransformNeedInput mf); [done |]. cbn in H.
  destruct (_ =? _); [| auto]. destruct (collect_into_queue mf cfg out s) as ([|] & s'); [auto | done].
Qed.

(** What the documentation of asynchronous transforms promises: an accepted
    input is followed by a further request. *)
Definition answers_inputs (op : Op) : Prop :=
  match op with
  | OSubmit env _ _ =>
      is_ok (se_process_input env) = true -> forall evs, input_wanted (se_events env evs) = true
  | OPoll _ => True
  end.

Lemma wait_enc_returns e : input_wanted (e_events e) = true -> (wait mf cfg e).1 <> None.
Proof.
  intros H. unfold wait. apply (wait_returns _ (e_session e)) in H.
  by destruct (wait_for_need_input mf cfg _ _) as ((r & s) & evs).
Qed.

Lemma process_input_wants env pts force e : answers_inputs (OSubmit env pts force) ->
  is_ok (process_input cfg env pts e).1 = true -> input_wanted (e_events (process_input cfg env pts e).2) = true.
Proof.
  cbn. intros H. unfold process_input. destruct (se_sample env); cbn [win]; [| done].
  destruct (se_process_input env); cbn [win]; [intros _; by apply H | done].
Qed.

Lemma submit_with_credit_returns env pts force e : answers_inputs (OSubmit env pts force) ->
  (submit_with_credit mf cfg env pts force e).1 <> None
  /\ ((submit_with_credit mf cfg env pts force e).1 = Some (Ok tt) ->
      have_need_input_credit (e_session (submit_with_credit mf cfg env pts force e).2) = true).
Proof.
  intros H. unfold submit_with_credit. cbv zeta.
  match goal with |- context [process_input cfg env pts ?e] =>
    pose proof (process_input_wants env pts force e H) as Hw;
    destruct (process_input cfg env pts e) as ([|] & e1) end; [| done].
  pose proof (wait_enc_returns _ (Hw eq_refl)) as Hr. cbn in Hr.
  by destruct (wait mf cfg e1) as ([[[]|]|] & e2).
Qed.

Lemma submit_frame_returns env pts force e : answers_inputs (OSubmit env pts force) ->
  have_need_input_credit (e_session e) || input_wanted (e_events e) = true ->
  (submit_frame mf cfg env pts force e).1 <> None
  /\ ((submit_frame mf cfg env pts force e).1 = Some (Ok tt) ->
      have_need_input_credit (e_session (submit_frame mf cfg env pts force e).2) = true).
Proof.
  intros H He. unfold submit_frame.
  destruct (have_need_input_credit _); [by apply submit_with_credit_returns |].
  apply wait_enc_returns in He. destruct (wait mf cfg e) as ([[[]|]|] & e');
    [by apply submit_with_credit_returns | done..].
Qed.

(** Reading events without waiting does not touch the credit. *)
Lemma drain_keeps_credit n evs s :
  have_need_input_credit (drain_events_nowait mf cfg n evs s).1.2 = have_need_input_credit s.
Proof.
  revert n s. induction evs as [|[[t|]|] evs IH]; intros [|n] s; cbn [drain_events_nowait]; try done.
  destruct (_ =? _); [| done].
  assert (have_need_input_credit (collect_into_queue mf cfg out s).2 = have_need_input_credit s) as Hc.
  { unfold collect_into_queue, collect_output_packet. destruct (fetch_output mf cfg out) as [[smp|]|]; try done.
    by destruct (smp_bytes smp). }
  destruct (collect_into_queue mf cfg out s) as ([|] & s'); cbn in Hc; [by rewrite IH | done].
Qed.

Lemma try_packet_keeps_credit n e :
  have_need_input_credit (e_session (try_packet mf cfg n e).2) = have_need_input_credit (e_session e).
Proof.
  unfold try_packet. pose proof (drain_keeps_credit n (e_events e) (e_session e)) as H.
  by destruct (drain_events_nowait mf cfg n _ _) as (([|] & s) & evs).
Qed.

Lemma enc_run_returns ops handed e : Forall answers_inputs ops ->
  have_need_input_credit (e_session e) = true -> (enc_run ops e handed).1.1 <> None.
Proof.
  revert handed e. induction ops as [|op ops IH]; intros handed e Ho Hc; [done |].
  apply Forall_cons_1 in Ho as (Hop & Ho). cbn [enc_run]. destruct op as [env pts force | n]; cbn [enc_step].
  - destruct (submit_frame_returns env pts force e Hop) as (Hr & Hc'); [by rewrite Hc |].
    destruct (submit_frame mf cfg env pts force e) as ([[[]|]|] & e'); cbn; [by apply IH, Hc' | done..].
  - pose proof (try_packet_keeps_credit n e) as Hk. rewrite Hc in Hk.
    destruct (try_packet mf cfg n e) as ([o|] & e'); cbn in Hk |- *; [by apply IH | done].
Qed.

(** C16. No call waits for ever, although [try_packet] throws away requests
    for input: if the transform asks for input at all and again after every
    input it accepts, a client that submits before it polls always gets an
    answer from every call. *)
Theorem session_never_hangs env pts force ops evs :
  input_wanted evs = true -> Forall answers_inputs (OSubmit env pts force :: ops) ->
  (enc_run (OSubmit env pts force :: ops) (new_enc evs) []).1.1 <> None.
Proof.
  intros He Ho. apply Forall_cons_1 in Ho as (Hop & Ho). cbn [enc_run enc_step].
  destruct (submit_frame_returns env pts force (new_enc evs) Hop He) as (Hr & Hc).
  destruct (submit_frame mf cfg env pts force (new_enc evs)) as ([[[]|]|] & e'); cbn;
    [by apply enc_run_returns, Hc | done..].
Qed.

(** * The key-frame flag and the patcher *)

Lemma same_frames_verdict codec ns ns' :
  Forall2 (same_frame codec) ns ns' -> first_verdict codec ns' = first_verdict codec ns.
Proof.
  induction 1 as [|n n' ns ns' (_ & Ht & _) _ IH]; [done |]. cbn [first_verdict]. by rewrite Ht, IH.
Qed.

(** The flag is read from the patched bytes, but patching never changes
    it: on a packet of well-formed units it is the flag of the encoder's own
    bytes, whether the patch succeeds or is given up. *)
Theorem keyframe_flag_unpatched ns :
  Forall (unit_ok (enc_codec cfg)) ns -> Forall (reframes (enc_codec cfg)) ns ->
  first_nal_is_idr (patched_or_raw cfg (annex_b_of ns)) (enc_codec cfg)
  = first_nal_is_idr (annex_b_of ns) (enc_codec cfg).
Proof.
  intros Hns Hr. unfold patched_or_raw.
  destruct (patch_packet_for_low_latency_dpb _ _) as [out|] eqn:E; [| done].
  unfold patch_packet_for_low_latency_dpb in E. rewrite patch_packet_units in E by done.
  destruct (mapM (patch_unit (enc_codec cfg)) ns) as [ns'|] eqn:Em; [| done]. injection E as <-.
  destruct (patch_units_framing _ _ _ Hns Hr Em) as (Hok & Hf). cbn [app].
  rewrite !first_nal_is_idr_units by done. by apply same_frames_verdict.
Qed.

(** * Why the request is fetched ahead *)

Definition output_event (smp : Sample) : Got :=
  GotEvent (Ok (METransformHaveOutput mf))
    {| oa_info := Ok (MFT_OUTPUT_STREAM_PROVIDES_SAMPLES mf, 0); oa_alloc _ := Ok tt; oa_process _ := Ok (Some smp) |}.

Definition input_event : Got :=
  GotEvent (Ok (METransformNeedInput mf))
    {| oa_info := Err 0; oa_alloc _ := Err 0; oa_process _ := Err 0 |}.

(** A frame whose output comes before the next request for input is
    stamped by its own submission: when all earlier frames are delivered and
    [submit_frame] returns, the packet is there without another event, with
    the frame's stamp and the time from its [ProcessInput] to its output. *)
Theorem output_claimed_by_submit env pts force e smp raw rest :
  METransformHaveOutput mf <> METransformNeedInput mf ->
  MFT_OUTPUT_STREAM_PROVIDES_SAMPLES mf <> 0 ->
  have_need_input_credit (e_session e) = true ->
  output_queue (e_session e) = [] -> pending_input_meta (e_session e) = [] ->
  se_sample env = Ok tt -> se_process_input env = Ok tt ->
  se_events env (e_events e) = output_event smp :: input_event :: rest ->
  smp_bytes smp = Ok raw ->
  (submit_frame mf cfg env pts force e).1 = Some (Ok tt)
  /\ (try_packet mf cfg 0 (submit_frame mf cfg env pts force e).2).1
     = Ok (Some {| pkt_bytes := patched_or_raw cfg raw; pkt_pts_ns := pts;
                   pkt_is_keyframe := first_nal_is_idr (patched_or_raw cfg raw) (enc_codec cfg);
                   pkt_encode_us := Some (encode_us (smp_finished_at smp) (se_submitted_at env)) |})
  /\ e_events (submit_frame mf cfg env pts force e).2 = rest.
Proof.
  intros Hne Hfl Hc Hq Hm Hs Hp Hev Hraw. unfold submit_frame. rewrite Hc.
  unfold submit_with_credit, process_input. rewrite Hs, Hp. cbv zeta. cbn [win].
  set (e0 := if force then _ else _).
  assert (E0 : e_session e0 = set_credit false (e_session e) /\ e_events e0 = e_events e)
    by (unfold e0; by destruct force).
  destruct E0 as (Es & Ee). unfold wait. cbn [e_session e_events e_calls on_session record_call].
  rewrite Es, Ee, Hev. unfold output_event, input_event. cbn [wait_for_need_input].
  rewrite (proj2 (Z.eqb_neq _ _)), !Z.eqb_refl by done.
  unfold collect_into_queue, collect_output_packet, fetch_output.
  cbn [win oa_info oa_process mbind result_bind].
  rewrite Z.land_diag, (proj2 (Z.eqb_neq _ _)) by done. cbn [negb].
  rewrite Hraw. unfold packet_of, stamp_output.
  cbn [pending_input_meta push_meta set_credit e_session on_session]. rewrite Hm. cbn. rewrite Hq. done.
Qed.
End Runs.

(** * Witnesses *)

Definition demo_mf : MfConstants :=
  {| METransformNeedInput := 601; METransformHaveOutput := 602;
     MFT_OUTPUT_STREAM_PROVIDES_SAMPLES := 256; MF_E_NO_EVENTS_AVAILABLE := 0xC00D3E80 |}.

Definition demo_cfg : SessionConfig :=
  {| enc_width := 1280; enc_height := 720; enc_fps := 60; enc_bitrate_bps := 5000000;
     enc_codec := H264; enc_input_format := Nv12 |}.

Definition demo_sample (bytes : list Z) (t : Z) : Sample :=
  {| smp_bytes := Ok bytes; smp_time := Some 7; smp_finished_at := t |}.

(** A transform that answers an input with its output and a request. *)
Definition demo_submit (t : Z) (bytes : list Z) : SubmitEnv :=
  {| se_sample := Ok tt; se_process_input := Ok tt; se_submitted_at := t;
     se_events evs := evs ++ [output_event demo_mf (demo_sample bytes (t + 3000000)); input_event demo_mf] |}.

Definition demo_idr : list Z := [0; 0; 1; 0x65; 1].
Definition demo_slice : list Z := [0; 0; 1; 0x41; 2].

(** It asks for two inputs at once, so every poll throws one request away. *)
Definition demo_ops : list Op :=
  [OSubmit (demo_submit 10 demo_idr) 100 true; OPoll 3;
   OSubmit (demo_submit 16000010 demo_slice) 200 false; OPoll 3; OPoll 3; OPoll 3].

Definition demo_events : list Got := [input_event demo_mf; input_event demo_mf].

Example demo_encoder_run :
  (enc_run demo_mf demo_cfg demo_ops (new_enc demo_events) []).1
  = (Some (Ok tt),
     [{| pkt_bytes := demo_idr; pkt_pts_ns := 100; pkt_is_keyframe := true; pkt_encode_us := Some 3000 |};
      {| pkt_bytes := demo_slice; pkt_pts_ns := 200; pkt_is_keyframe := false; pkt_encode_us := Some 3000 |}]).
Proof. vm_compute. reflexivity. Qed.

(** A client that polls first throws the first request away and hangs. *)
Lemma poll_first_hangs :
  (enc_run demo_mf demo_cfg (OPoll 1 :: demo_ops) (new_enc [input_event demo_mf]) []).1.1 = None.
Proof. vm_compute. reflexivity. Qed.

Lemma packets_paired_witness :
  exists acc, session_inv demo_cfg acc (enc_run demo_mf demo_cfg demo_ops (new_enc demo_events) []).1.2
                (e_session (enc_run demo_mf demo_cfg demo_ops (new_enc demo_events) []).2)
    /\ acc = [100; 200].
Proof.
  destruct (packets_paired demo_mf demo_cfg demo_ops demo_events) as (acc & Hi & _ & Hr).
  - cbn. repeat constructor; vm_compute; done.
  - exists acc. split; [exact Hi |]. apply Hr. vm_compute. reflexivity.
Defined.

Lemma input_wanted_snoc evs g : input_wanted demo_mf (evs ++ [g; input_event demo_mf]) = true.
Proof. unfold input_wanted. rewrite existsb_app. cbn. by rewrite orb_true_r, orb_true_r. Qed.

Lemma session_never_hangs_witness :
  (enc_run demo_mf demo_cfg demo_ops (new_enc demo_events) []).1.1 <> None.
Proof.
  apply (session_never_hangs demo_mf demo_cfg (demo_submit 10 demo_idr) 100 true (tail demo_ops) demo_events).
  - reflexivity.
  - repeat constructor; intros _ evs; apply input_wanted_snoc.
Defined.

Lemma keyframe_flag_unpatched_witness :
  first_nal_is_idr (patched_or_raw demo_cfg (annex_b_of demo_packet)) H264 = true.
Proof.
  etransitivity.
  - apply (keyframe_flag_unpatched demo_cfg demo_packet); [exact demo_packet_ok | by repeat constructor].
  - vm_compute. reflexivity.
Defined.

Lemma output_claimed_by_submit_witness :
  (try_packet demo_mf demo_cfg 0
    (submit_frame demo_mf demo_cfg (demo_submit 50 demo_slice) 200 false
      {| e_session := set_credit true new_session; e_events := []; e_calls := [] |}).2).1
  = Ok (Some {| pkt_bytes := demo_slice; pkt_pts_ns := 200; pkt_is_keyframe := false; pkt_encode_us := Some 3000 |}).
Proof.
  apply (output_claimed_by_submit demo_mf demo_cfg (demo_submit 50 demo_slice) 200 false
    {| e_session := set_credit true new_session; e_events := []; e_calls := [] |}
    (demo_sample demo_slice 3000050) demo_slice []); (discriminate || reflexivity).
Defined.
