(* ===== verification/EncoderSetup.v ===== *)
(** How an encoder session comes about ([crates/penflow-core/src/encoder/mf.rs]):
    start of Media Foundation, choice of the transform, and
    [MfSession::new] up to the first frame. *)
From stdpp Require Import list sets strings.
From S2P Require Import Prelude Engine Text Calls Encoder.

(** * The choice of the transform *)

(** [ensure_mf_started]: the flag is swapped before the call. *)
Definition ensure_mf_started (initialized : bool) (startup : EngineResult unit)
  : EngineResult unit * bool :=
  if initialized then (Ok tt, true) else (startup, true).

(** An activation object with its vendor attribute, if it can be read. *)
Record Mft := { mft_id : nat; read_mft_vendor_id : option string }.

Definition eq_ignore_ascii_case (a b : string) : bool := String.eqb (to_lowercase a) (to_lowercase b).

Definition target_tag (adapter_vendor_id : Z) : string :=
  String.append "VEN_" (hex_upper 4 adapter_vendor_id).

Definition has_vendor (tag : string) (a : Mft) : bool :=
  match read_mft_vendor_id a with Some v => eq_ignore_ascii_case v tag | None => false end.

(** The slots [MFTEnumEx] filled, in its order of merit; a slot may be null. *)
Definition pick_mft_for_adapter (adapter_vendor_id : Z) (enum : EngineResult (list (option Mft)))
  : EngineResult Mft :=
  raw ← enum;
  if Nat.eqb (length raw) 0 then Err NoCompatibleEncoder
  else
    let activates := omap id raw in
    match List.find (has_vendor (target_tag adapter_vendor_id)) activates with
    | Some a => Ok a
    | None => ok_or (head activates) NoCompatibleEncoder
    end.

(** * The session *)

Definition pack_2u32 (hi lo : Z) : Z := Z.lor (Z.shiftl hi 32) lo.

Inductive VideoFormat := MFVideoFormat_H264 | MFVideoFormat_HEVC | MFVideoFormat_NV12.

Inductive VideoProfile := ConstrainedBase | Main_420_8.

(** The media types that are built: the output's, the input's, and the
    input's second version. *)
Inductive MediaType := OutType | InType | RetryType.

Inductive Attribute :=
| MajorTypeVideo
| Subtype (f : VideoFormat)
| AvgBitrate (bps : Z)
| FrameSize (packed : Z)
| FrameRate (packed : Z)
| PixelAspectRatio (packed : Z)
| InterlaceProgressive
| Mpeg2Profile (p : VideoProfile)
| NominalRange_0_255
| Primaries_BT709
| TransFunc_709
| YuvMatrix_BT709.

Inductive CodecProperty :=
| RateControlMode_CBR
| MeanBitRate (bps : Z)
| LowLatencyMode
| RealTime
| DefaultBPictureCount (n : Z)
| VideoMaxNumRefFrame (n : Z)
| MPVGOPSize (n : Z).

Inductive SetupCall :=
| ActivateObject (mft : nat)
| GetAttributes
| SetAsyncUnlock
| SetLowLatency
| CreateDeviceManager
| ResetDevice
| SetD3dManager
| CreateMediaType (t : MediaType)
| SetAttribute (t : MediaType) (a : Attribute)
| SetOutputType
| SetInputType (t : MediaType)
| CastCodecApi
| SetCodecProperty (p : CodecProperty)
| CommandFlush
| NotifyBeginStreaming
| NotifyStartOfStream
| CastEventGenerator
| NotifyEndOfStream
| NotifyEndStreaming.

Section Setup.
Context (answer : CallLog SetupCall -> SetupCall -> EngineResult unit).
Context (MF_E_INVALIDMEDIATYPE : Z) (cfg : SessionConfig).

Definition set (t : MediaType) (a : Attribute) : Calls SetupCall unit := call answer (SetAttribute t a).
Definition try_set (t : MediaType) (a : Attribute) : Calls SetupCall unit :=
  _ ← attempt answer (SetAttribute t a); mret tt.

Definition create_dev_mgr : Calls SetupCall unit :=
  call answer CreateDeviceManager;; call answer ResetDevice.

Definition codec_format : VideoFormat * VideoProfile :=
  match enc_codec cfg with
  | H264 => (MFVideoFormat_H264, ConstrainedBase)
  | Hevc => (MFVideoFormat_HEVC, Main_420_8)
  end.

Definition configure_video_output_type : Calls SetupCall unit :=
  let '(subtype, profile) := codec_format in
  set OutType MajorTypeVideo;;
  set OutType (Subtype subtype);;
  set OutType (AvgBitrate (enc_bitrate_bps cfg));;
  set OutType (FrameSize (pack_2u32 (enc_width cfg) (enc_height cfg)));;
  set OutType (FrameRate (pack_2u32 (enc_fps cfg) 1));;
  set OutType (PixelAspectRatio (pack_2u32 1 1));;
  set OutType InterlaceProgressive;;
  set OutType (Mpeg2Profile profile).

Definition configure_nv12_input_type (t : MediaType) (set_nominal_range : bool) : Calls SetupCall unit :=
  set t MajorTypeVideo;;
  set t (Subtype MFVideoFormat_NV12);;
  set t (FrameSize (pack_2u32 (enc_width cfg) (enc_height cfg)));;
  set t (FrameRate (pack_2u32 (enc_fps cfg) 1));;
  set t (PixelAspectRatio (pack_2u32 1 1));;
  set t InterlaceProgressive;;
  (if set_nominal_range then try_set t NominalRange_0_255 else mret tt);;
  try_set t Primaries_BT709;;
  try_set t TransFunc_709;;
  try_set t YuvMatrix_BT709.

Definition set_codec (p : CodecProperty) : Calls SetupCall unit := call answer (SetCodecProperty p).
Definition try_set_codec (p : CodecProperty) : Calls SetupCall unit :=
  _ ← attempt answer (SetCodecProperty p); mret tt.

(** Steps 2 to 4: unlock, device manager, output type. *)
Definition setup_output (mft : nat) : Calls SetupCall unit :=
  call answer (ActivateObject mft);;
  call answer GetAttributes;;
  (_ ← attempt answer SetAsyncUnlock; mret tt);;
  (_ ← attempt answer SetLowLatency; mret tt);;
  create_dev_mgr;;
  call answer SetD3dManager;;
  call answer (CreateMediaType OutType);;
  configure_video_output_type;;
  call answer SetOutputType.

Definition create_input_type (t : MediaType) (set_nominal_range : bool) : Calls SetupCall unit :=
  call answer (CreateMediaType t);; configure_nv12_input_type t set_nominal_range.

(** Step 5: the second version of the input type is tried only after the
    one refusal that Intel's transform is known for. *)
Definition setup_input : Calls SetupCall unit :=
  create_input_type InType true;;
  r ← attempt answer (SetInputType InType);
  match r with
  | Ok _ => mret tt
  | Err e =>
      if bool_decide (e = Win32 MF_E_INVALIDMEDIATYPE) then
        create_input_type RetryType false;;
        call answer (SetInputType RetryType)
      else calls_lift (Err e)
  end.

(** Steps 6 and 7: rate control, latency, and the start of the stream. *)
Definition setup_stream : Calls SetupCall unit :=
  call answer CastCodecApi;;
  set_codec RateControlMode_CBR;;
  set_codec (MeanBitRate (enc_bitrate_bps cfg));;
  try_set_codec LowLatencyMode;;
  try_set_codec RealTime;;
  try_set_codec (DefaultBPictureCount 0);;
  try_set_codec (VideoMaxNumRefFrame 1);;
  try_set_codec (MPVGOPSize 600);;
  call answer CommandFlush;;
  call answer NotifyBeginStreaming;;
  call answer NotifyStartOfStream;;
  call answer CastEventGenerator.

(** [Drop]: both notifications, whatever becomes of them. *)
Definition MfSession_drop : Calls SetupCall unit :=
  (_ ← attempt answer NotifyEndOfStream; mret tt);;
  (_ ← attempt answer NotifyEndStreaming; mret tt).

(** [MfSession::new] behind [ensure_mf_started]. *)
Definition MfSession_new (adapter_vendor_id : Z) (enum : EngineResult (list (option Mft)))
  : Calls SetupCall MfSession :=
  activate ← calls_lift (pick_mft_for_adapter adapter_vendor_id enum);
  setup_output (mft_id activate);;
  setup_input;;
  setup_stream;;
  mret new_session.

(** [MfBackend::make_session]; the only pixel format is the one it takes. *)
Definition make_session (adapter_vendor_id : Z) (enum : EngineResult (list (option Mft)))
  : Calls SetupCall MfSession :=
  match enc_input_format cfg with
  | Nv12 => MfSession_new adapter_vendor_id enum
  end.

(** * What it amounts to *)

(** The failures a session survives. *)
Definition tolerated (c : SetupCall) (e : EngineError) : bool :=
  match c with
  | SetAsyncUnlock | SetLowLatency | NotifyEndOfStream | NotifyEndStreaming => true
  | SetAttribute _ (NominalRange_0_255 | Primaries_BT709 | TransFunc_709 | YuvMatrix_BT709) => true
  | SetCodecProperty (LowLatencyMode | RealTime | DefaultBPictureCount _ | VideoMaxNumRefFrame _ | MPVGOPSize _) => true
  | SetInputType InType => bool_decide (e = Win32 MF_E_INVALIDMEDIATYPE)
  | _ => false
  end.

Definition output_attributes : list Attribute :=
  [MajorTypeVideo; Subtype codec_format.1; AvgBitrate (enc_bitrate_bps cfg);
   FrameSize (pack_2u32 (enc_width cfg) (enc_height cfg)); FrameRate (pack_2u32 (enc_fps cfg) 1);
   PixelAspectRatio (pack_2u32 1 1); InterlaceProgressive; Mpeg2Profile codec_format.2].

Definition input_attributes (nominal_range : bool) : list Attribute :=
  [MajorTypeVideo; Subtype MFVideoFormat_NV12;
   FrameSize (pack_2u32 (enc_width cfg) (enc_height cfg)); FrameRate (pack_2u32 (enc_fps cfg) 1);
   PixelAspectRatio (pack_2u32 1 1); InterlaceProgressive]
  ++ (if nominal_range then [NominalRange_0_255] else []) ++ [Primaries_BT709; TransFunc_709; YuvMatrix_BT709].

Definition build (t : MediaType) (attributes : list Attribute) : list SetupCall :=
  CreateMediaType t :: (SetAttribute t <$> attributes).

Definition output_calls (mft : nat) : list SetupCall :=
  [ActivateObject mft; GetAttributes; SetAsyncUnlock; SetLowLatency; CreateDeviceManager; ResetDevice;
   SetD3dManager] ++ build OutType output_attributes ++ [SetOutputType].

Definition input_calls (retried : bool) : list SetupCall :=
  build InType (input_attributes true) ++ [SetInputType InType]
  ++ (if retried then build RetryType (input_attributes false) ++ [SetInputType RetryType] else []).

Definition stream_calls : list SetupCall :=
  CastCodecApi
  :: (SetCodecProperty <$> [RateControlMode_CBR; MeanBitRate (enc_bitrate_bps cfg); LowLatencyMode; RealTime;
                            DefaultBPictureCount 0; VideoMaxNumRefFrame 1; MPVGOPSize 600])
  ++ [CommandFlush; NotifyBeginStreaming; NotifyStartOfStream; CastEventGenerator].

Definition session_calls (mft : nat) (retried : bool) : list SetupCall :=
  output_calls mft ++ input_calls retried ++ stream_calls.

(** The refusal of the fully tagged input type. *)
Definition refusal : SetupCall * EngineResult unit := (SetInputType InType, Err (Win32 MF_E_INVALIDMEDIATYPE)).

Lemma setup_output_runs mft : runs tolerated (setup_output mft) (output_calls mft).
Proof.
  unfold setup_output, create_dev_mgr, configure_video_output_type, set, output_calls, output_attributes.
  destruct codec_format as (f & p). eapply runs_conv; [runs | done].
Qed.

Lemma create_input_runs t b : runs tolerated (create_input_type t b) (build t (input_attributes b)).
Proof.
  unfold create_input_type, configure_nv12_input_type, set, try_set. destruct b; (eapply runs_conv; [runs | done]).
Qed.

(** A dropped session has told the transform that the stream is over. *)
Lemma session_drop_runs : runs tolerated MfSession_drop [NotifyEndOfStream; NotifyEndStreaming].
Proof. eapply runs_conv; [unfold MfSession_drop; runs | done]. Qed.

Lemma setup_stream_runs : runs tolerated setup_stream stream_calls.
Proof. eapply runs_conv; [unfold setup_stream, set_codec, try_set_codec; runs | done]. Qed.

Lemma build_no_set_input t b : SetInputType InType ∉ build t (input_attributes b).
Proof. unfold build, input_attributes. intros Hin. set_unfold in Hin. destruct b; naive_solver. Qed.

(** The second version of the input type is sent exactly on the refusal. *)
Lemma setup_input_runs log : exists ext retried,
  (setup_input log).2 = log ++ ext /\ outcome tolerated (input_calls retried) (setup_input log).1 ext
  /\ (refusal ∈ ext <-> retried = true).
Proof.
  destruct (create_input_runs InType true log) as (ext1 & El1 & Ho1).
  assert (Hn1 : refusal ∉ ext1).
  { intros Hin. by eapply build_no_set_input, (outcome_calls _ _ _ _ refusal Ho1). }
  unfold setup_input, input_calls.
  destruct (create_input_type InType true log) as ([[]|e] & log1) eqn:E1; cbn [fst snd] in El1, Ho1; subst log1;
    [rewrite (calls_bind_ok _ _ _ _ _ E1) | rewrite (calls_bind_err _ _ _ _ _ E1)].
  2: { exists ext1, false. split_and!; [done | by eapply outcome_stop | done..]. }
  erewrite calls_bind_ok by reflexivity.
  set (r := answer (log ++ ext1) (SetInputType InType)).
  destruct Ho1 as (Hc1 & Hf1).
  assert (Hin : forall k, refusal ∈ (ext1 ++ (SetInputType InType, r) :: k) <->
    r = Err (Win32 MF_E_INVALIDMEDIATYPE) \/ refusal ∈ k).
  { intros k. rewrite elem_of_app, elem_of_cons. unfold refusal.
    split; [intros [|[|]]; [done | left; congruence | by right] | intros [->|]; auto]. }
  destruct r as [[]|e] eqn:Er; [| case_bool_decide as He].
  - exists (ext1 ++ [(SetInputType InType, Ok tt)]), false. rewrite <- app_assoc. split; [done |].
    split; [apply outcome_app; [done.. |]; by repeat constructor |].
    rewrite Hin. split; [intros [|?%elem_of_nil]; done | done].
  - subst e. destruct (runs_seq tolerated _ _ _ _ (create_input_runs RetryType false)
      (runs_call answer tolerated (SetInputType RetryType) (fun _ => eq_refl))
      ((log ++ ext1) ++ [(SetInputType InType, Err (Win32 MF_E_INVALIDMEDIATYPE))])) as (ext2 & El2 & Ho2).
    exists (ext1 ++ (SetInputType InType, Err (Win32 MF_E_INVALIDMEDIATYPE)) :: ext2), true.
    split; [rewrite El2, <- !app_assoc; done |].
    split; [apply outcome_app; [done.. |] | rewrite Hin; tauto].
    apply (outcome_app tolerated [SetInputType InType] _ _ [(SetInputType InType, _)]); [done | | done].
    constructor; [| done]. unfold fine. cbn. by apply bool_decide_eq_true.
  - exists (ext1 ++ [(SetInputType InType, Err e)]), false. rewrite <- app_assoc. split; [done |].
    split; [apply outcome_app; [done.. |] |].
    + split; [| done]. exists [], (SetInputType InType). split_and!; [done | | done].
      cbn. by apply bool_decide_eq_false.
    + rewrite Hin. split; [intros [[= ->] | ?%elem_of_nil]; done | done].
Qed.

(** C17. What opening an encoder session does, whatever the system answers: it
    makes the calls of the plan in their order, with the second version of the
    input type exactly when the first was refused as an invalid media type.
    It succeeds when all of them succeeded or may fail; otherwise it ends with
    the error of the first call that must not fail, and makes no call after
    it. *)
Theorem session_setup_exact vendor enum mft :
  pick_mft_for_adapter vendor enum = Ok mft ->
  exists retried, outcome tolerated (session_calls (mft_id mft) retried)
      (make_session vendor enum []).1 (make_session vendor enum []).2
    /\ (refusal ∈ (make_session vendor enum []).2 <-> retried = true).
Proof.
  intros Hp. unfold make_session, MfSession_new. destruct (enc_input_format cfg).
  erewrite calls_bind_ok by (unfold calls_lift; rewrite Hp; reflexivity).
  assert (Hno : forall cs {A} (r : EngineResult A) ext, outcome tolerated cs r ext ->
    SetInputType InType ∉ cs -> refusal ∉ ext).
  { intros cs A r ext Ho Hn Hin. by apply Hn, (outcome_calls _ _ _ _ refusal Ho). }
  destruct (setup_output_runs (mft_id mft) []) as (ext1 & El1 & Ho1).
  pose proof (Hno _ _ _ _ Ho1) as Hn1.
  assert (Hn1' : refusal ∉ ext1) by (apply Hn1; unfold output_calls, output_attributes; set_unfold; naive_solver).
  clear Hn1.
  destruct (setup_output (mft_id mft) []) as ([[]|e] & log1) eqn:E1; cbn [fst snd] in El1, Ho1; subst log1;
    [rewrite (calls_bind_ok _ _ _ _ _ E1) | rewrite (calls_bind_err _ _ _ _ _ E1)].
  2: { exists false. split; [by apply outcome_stop | done]. }
  destruct Ho1 as (Hc1 & Hf1). destruct (setup_input_runs ext1) as (ext2 & retried & El2 & Ho2 & Hr).
  exists retried. unfold session_calls.
  destruct (setup_input ext1) as ([[]|e] & log2) eqn:E2; cbn [fst snd] in El2, Ho2; subst log2;
    [rewrite (calls_bind_ok _ _ _ _ _ E2) | rewrite (calls_bind_err _ _ _ _ _ E2)]; cbn [fst snd].
  2: { split; [apply outcome_app; [done.. |]; by apply outcome_stop | rewrite elem_of_app, <- Hr; tauto]. }
  destruct Ho2 as (Hc2 & Hf2). destruct (setup_stream_runs (ext1 ++ ext2)) as (ext3 & El3 & Ho3).
  assert (Hn3 : refusal ∉ ext3).
  { apply (Hno _ _ _ _ Ho3). unfold stream_calls. set_unfold. naive_solver. }
  destruct (setup_stream (ext1 ++ ext2)) as ([[]|e] & log3) eqn:E3; cbn [fst snd] in El3, Ho3; subst log3;
    [rewrite (calls_bind_ok _ _ _ _ _ E3) | rewrite (calls_bind_err _ _ _ _ _ E3)]; cbn [fst snd].
  all: unfold mret, Calls_ret; cbn [fst snd]; rewrite <- app_assoc; split; [| rewrite !elem_of_app, <- Hr; tauto].
  all: apply outcome_app; [done.. |]; by apply outcome_app.
Qed.
End Setup.

(** * The choice *)

(** What the choice promises: the first transform of the adapter's vendor, or
    the first of all when there is none of it. *)
Definition chosen (tag : string) (activates : list Mft) (a : Mft) : Prop :=
  (exists before after, activates = before ++ a :: after
     /\ has_vendor tag a = true /\ Forall (fun b => has_vendor tag b = false) before)
  \/ (Forall (fun b => has_vendor tag b = false) activates /\ head activates = Some a).

Lemma find_spec {A} (f : A -> bool) l :
  match List.find f l with
  | Some a => exists before after, l = before ++ a :: after /\ f a = true /\ Forall (fun b => f b = false) before
  | None => Forall (fun b => f b = false) l
  end.
Proof.
  induction l as [|b l IH]; cbn; [done |]. destruct (f b) eqn:E.
  - by exists [], l.
  - destruct (List.find f l); [| by constructor].
    destruct IH as (before & after & -> & Ha & Hb). exists (b :: before), after. by split_and!; [..| constructor].
Qed.

(** The choice of the encoder: it fails only when the enumeration failed
    or offered nothing, and otherwise takes the first transform whose vendor
    attribute is the adapter's, ignoring case, or the first transform when
    there is no such one. *)
Theorem pick_exact vendor slots :
  match pick_mft_for_adapter vendor (Ok slots) with
  | Ok a => chosen (target_tag vendor) (omap id slots) a
  | Err e => e = NoCompatibleEncoder /\ omap id slots = []
  end.
Proof.
  unfold pick_mft_for_adapter. cbn. destruct slots as [|o slots]; [done |]. cbn [length Nat.eqb].
  pose proof (find_spec (has_vendor (target_tag vendor)) (omap id (o :: slots))) as H.
  destruct (List.find _ _) as [a|]; [by left |].
  destruct (omap id (o :: slots)) as [|a l] eqn:E; cbn; [done | by right].
Qed.

(** The packed attribute holds both halves. *)
Lemma pack_2u32_unpack hi lo : u32 hi -> u32 lo ->
  Z.shiftr (pack_2u32 hi lo) 32 = hi /\ Z.land (pack_2u32 hi lo) (Z.ones 32) = lo
  /\ unsigned 64 (pack_2u32 hi lo).
Proof.
  unfold pack_2u32, unsigned. pow2. intros Hhi Hlo. rewrite lor_shiftl_add by (pow2; lia). pow2.
  rewrite Z.shiftr_div_pow2, Z.land_ones by lia. pow2. Z.to_euclidean_division_equations; lia.
Qed.

(** A failed start of Media Foundation is not tried again. *)
Lemma failed_start_forgotten hr :
  let first := ensure_mf_started false (Err (Win32 hr)) in
  first.1 = Err (Win32 hr) /\ ensure_mf_started first.2 (Err (Win32 hr)) = (Ok tt, true).
Proof. done. Qed.

(** * Witnesses *)

Definition intel_quirk (log : CallLog SetupCall) (c : SetupCall) : EngineResult unit :=
  match c with
  | SetInputType InType => Err (Win32 0xC00D36B4)
  | SetCodecProperty RealTime => Err (Win32 1)
  | _ => Ok tt
  end.

Definition demo_mfts : list (option Mft) :=
  [Some {| mft_id := 0; read_mft_vendor_id := Some "VEN_10DE"%string |}; None;
   Some {| mft_id := 2; read_mft_vendor_id := Some "ven_8086"%string |}].

Example pick_by_vendor : pick_mft_for_adapter 0x8086 (Ok demo_mfts)
  = Ok {| mft_id := 2; read_mft_vendor_id := Some "ven_8086"%string |}.
Proof. vm_compute. reflexivity. Qed.

Lemma session_setup_exact_witness : exists retried,
  outcome (tolerated 0xC00D36B4) (session_calls demo_cfg 2 retried)
    (make_session intel_quirk 0xC00D36B4 demo_cfg 0x8086 (Ok demo_mfts) []).1
    (make_session intel_quirk 0xC00D36B4 demo_cfg 0x8086 (Ok demo_mfts) []).2
  /\ (refusal 0xC00D36B4 ∈ (make_session intel_quirk 0xC00D36B4 demo_cfg 0x8086 (Ok demo_mfts) []).2 <-> retried = true).
Proof.
  apply (session_setup_exact intel_quirk 0xC00D36B4 demo_cfg 0x8086 (Ok demo_mfts)
    {| mft_id := 2; read_mft_vendor_id := Some "ven_8086"%string |}).
  vm_compute. reflexivity.
Defined.

Example quirk_session_starts :
  is_ok (make_session intel_quirk 0xC00D36B4 demo_cfg 0x8086 (Ok demo_mfts) []).1 = true.
Proof. vm_compute. reflexivity. Qed.
