(* ===== verification/PacketQueue.v ===== *)
(** The drop-oldest queue between the encoder and the transport
    ([crates/penflow-core/src/packet_queue.rs]).

    Every operation runs under the queue's mutex, so each is one atomic step
    on the state; the condition variable is modelled in the second half by
    counting the consumers that wait and those that were woken. *)
From S2P Require Import Prelude.

Section Queue.
Context {T : Type}.

(** [Inner]. *)
Record Queue := {
  deque : list T;
  capacity : nat;
  closed : bool;
  dropped_overflow : Z;
}.

Record QueueStats := {
  st_depth : nat;
  st_capacity : nat;
  st_dropped_overflow : Z;
  st_closed : bool;
}.

Definition new (cap : nat) : Queue :=
  {| deque := []; capacity := Nat.max cap 1; closed := false; dropped_overflow := 0 |}.

Definition saturating_add_u64 (x y : Z) : Z := Z.min (2 ^ 64 - 1) (x + y).

(** The new state and the drops accumulated so far. *)
Definition push (item : T) (g : Queue) : Queue * Z :=
  if closed g then (g, dropped_overflow g)
  else
    let g1 :=
      if Nat.eqb (length (deque g)) (capacity g)
      then {| deque := tail (deque g); capacity := capacity g; closed := closed g;
              dropped_overflow := saturating_add_u64 (dropped_overflow g) 1 |}
      else g in
    let g2 := {| deque := deque g1 ++ [item]; capacity := capacity g1; closed := closed g1;
                 dropped_overflow := dropped_overflow g1 |} in
    (g2, dropped_overflow g2).

(** One round of the consumers' loop: the value it returns with the new
    state, or [None] when it has to wait. *)
Definition pop_round (g : Queue) : option (option T * Queue) :=
  match deque g with
  | item :: rest =>
      Some (Some item, {| deque := rest; capacity := capacity g; closed := closed g;
                          dropped_overflow := dropped_overflow g |})
  | [] => if closed g then Some (None, g) else None
  end.

Definition close (g : Queue) : Queue :=
  {| deque := deque g; capacity := capacity g; closed := true;
     dropped_overflow := dropped_overflow g |}.

Definition stats (g : Queue) : QueueStats :=
  {| st_depth := length (deque g); st_capacity := capacity g;
     st_dropped_overflow := dropped_overflow g; st_closed := closed g |}.

(** * Histories *)

Inductive Op := OpPush (item : T) | OpPop | OpClose.

(** The state with everything accepted and everything delivered so far;
    a pop that would wait changes nothing. *)
Record History := { queue : Queue; accepted : list T; delivered : list T }.

Definition exec (h : History) (o : Op) : History :=
  match o with
  | OpPush x =>
      {| queue := (push x (queue h)).1;
         accepted := if closed (queue h) then accepted h else accepted h ++ [x];
         delivered := delivered h |}
  | OpPop =>
      match pop_round (queue h) with
      | Some (Some x, g) => {| queue := g; accepted := accepted h; delivered := delivered h ++ [x] |}
      | Some (None, g) => {| queue := g; accepted := accepted h; delivered := delivered h |}
      | None => h
      end
  | OpClose => {| queue := close (queue h); accepted := accepted h; delivered := delivered h |}
  end.

Definition run (cap : nat) (ops : list Op) : History :=
  foldl exec {| queue := new cap; accepted := []; delivered := [] |} ops.

(** What the queue promises: bounded, in order, newest kept, nothing
    invented, every loss counted. *)
Definition queue_spec (cap : nat) (h : History) : Prop :=
  capacity (queue h) = Nat.max cap 1
  /\ (length (deque (queue h)) <= Nat.max cap 1)%nat
  /\ sublist (delivered h ++ deque (queue h)) (accepted h)
  /\ (exists old, accepted h = old ++ deque (queue h))
  /\ dropped_overflow (queue h)
     = Z.min (2 ^ 64 - 1) (Z.of_nat (length (accepted h)) - Z.of_nat (length (delivered h))
                           - Z.of_nat (length (deque (queue h)))).

Lemma sublist_drop_head (d : list T) x q acc :
  sublist (d ++ x :: q) acc -> sublist (d ++ q) acc.
Proof. intros H. etransitivity; [| exact H]. apply sublist_app; [done |]. by constructor. Qed.

Lemma push_spec cap h x : queue_spec cap h -> queue_spec cap (exec h (OpPush x)).
Proof.
  intros (Hc & Hl & Hs & (old & Ho) & Hd). unfold exec, push, queue_spec, saturating_add_u64.
  destruct (closed (queue h)) eqn:Hcl; cbn [queue accepted delivered fst].
  { eauto 6. }
  pose proof (sublist_length _ _ Hs) as Hlen. rewrite length_app in Hlen.
  destruct (Nat.eqb_spec (length (deque (queue h))) (capacity (queue h))) as [E | E];
    cbn [deque capacity dropped_overflow].
  - destruct (deque (queue h)) as [|y q] eqn:Eq; [cbn in E; lia |]. cbn [tail length] in *.
    rewrite !length_app. cbn [length]. split_and!; [done | lia | | | lia].
    + rewrite app_assoc. apply sublist_app; [| done]. by eapply sublist_drop_head.
    + exists (old ++ [y]). rewrite Ho, <- !app_assoc. done.
  - rewrite !length_app. cbn [length]. split_and!; [done | lia | | | lia].
    + rewrite app_assoc. by apply sublist_app.
    + exists old. by rewrite Ho, <- app_assoc.
Qed.

Lemma pop_spec cap h : queue_spec cap h -> queue_spec cap (exec h OpPop).
Proof.
  intros (Hc & Hl & Hs & (old & Ho) & Hd). unfold exec, pop_round, queue_spec in *.
  destruct (deque (queue h)) as [|x q] eqn:Eq.
  { destruct (closed (queue h)); rewrite ?Eq; cbn; rewrite ?Eq; eauto 7. }
  cbn [queue accepted delivered deque capacity dropped_overflow length] in *.
  rewrite length_app. cbn [length]. split_and!; [done | lia | | | lia].
  - by rewrite <- app_assoc.
  - exists (old ++ [x]). by rewrite Ho, <- app_assoc.
Qed.

Lemma exec_spec cap h o : queue_spec cap h -> queue_spec cap (exec h o).
Proof. destruct o; [apply push_spec | apply pop_spec | done]. Qed.

(** Two histories of one queue, of which one began with [d] delivered. *)
Lemma exec_parallel (h h' : History) d o :
  queue h = queue h' -> delivered h = d ++ delivered h' ->
  queue (exec h o) = queue (exec h' o) /\ delivered (exec h o) = d ++ delivered (exec h' o).
Proof.
  intros Hq Hd. destruct o as [p | |]; cbn [exec]; rewrite <- ?Hq; cbn; [done | | done].
  destruct (pop_round (queue h)) as [[[p|] q]|]; cbn; [by rewrite Hd, app_assoc | done | done].
Qed.

Lemma exec_all_parallel ops : forall (h h' : History) d,
  queue h = queue h' -> delivered h = d ++ delivered h' ->
  queue (foldl exec h ops) = queue (foldl exec h' ops)
  /\ delivered (foldl exec h ops) = d ++ delivered (foldl exec h' ops).
Proof.
  induction ops as [|o ops IH]; intros h h' d Hq Hd; [done |]. cbn [foldl].
  destruct (exec_parallel h h' d o Hq Hd). by apply IH.
Qed.

Lemma exec_open (h : History) o : o <> OpClose -> closed (queue (exec h o)) = closed (queue h).
Proof.
  destruct o as [p | |]; [| | done]; intros _; cbn [exec].
  - cbn. unfold push. destruct (closed (queue h)) eqn:E; [done |]. by destruct (Nat.eqb _ _).
  - unfold pop_round. destruct (deque _); [destruct (closed (queue h)) eqn:E |]; done.
Qed.

Lemma queue_new_spec cap : queue_spec cap {| queue := new cap; accepted := []; delivered := [] |}.
Proof. unfold queue_spec. cbn. split_and!; [done | lia | constructor | by exists [] | lia]. Qed.

(** C13. The queue refines "keep the newest [capacity] packets": after any
    history of pushes, pops and closes, what was delivered followed by what
    is queued is in push order without duplicates or inventions, the queue
    is exactly the most recent accepted packets and never longer than its
    capacity, and the drop counter equals the number of packets that were
    accepted and neither delivered nor queued (up to saturation). *)
Theorem queue_refines cap ops : queue_spec cap (run cap ops).
Proof.
  unfold run. pose proof (queue_new_spec cap) as H. revert H. generalize {| queue := new cap; accepted := []; delivered := [] |}.
  induction ops as [|o ops IH]; intros h H; [done |]. cbn [foldl]. by apply IH, exec_spec.
Qed.

(** * Waiting with a deadline *)

(** [pop_timeout]: every element of [waits] is what other threads do with the
    queue during one [wait_timeout]; after the last the deadline has passed. *)
Fixpoint pop_timeout (waits : list (list Op)) (h : History) : option T * History :=
  match pop_round (queue h) with
  | Some (r, _) => (r, exec h OpPop)
  | None =>
      match waits with
      | [] => (None, h)
      | ops :: waits => pop_timeout waits (foldl exec h ops)
      end
  end.

Lemma pop_now h r g : pop_round (queue h) = Some (r, g) ->
  match r with
  | Some x => delivered (exec h OpPop) = delivered h ++ [x] /\ deque (queue h) = x :: deque (queue (exec h OpPop))
  | None => exec h OpPop = h /\ deque (queue h) = [] /\ closed (queue h) = true
  end.
Proof.
  intros R. unfold exec. rewrite R. unfold pop_round in R. destruct (deque (queue h)) as [|x q] eqn:E.
  - destruct (closed (queue h)) eqn:C; [| done]. injection R as <- <-. by destruct h.
  - injection R as <- <-. done.
Qed.

(** It is a history of the other threads' operations with at most one pop at its
    end, which delivers what is returned; nothing comes back only from an empty
    queue that was closed or stayed empty until the deadline. *)
Theorem pop_timeout_exact waits : forall h,
  let '(r, h') := pop_timeout waits h in
  exists n, let others := foldl exec h (concat (take n waits)) in
    match r with
    | Some x => h' = exec others OpPop /\ delivered h' = delivered others ++ [x]
                /\ deque (queue others) = x :: deque (queue h')
    | None => h' = others /\ deque (queue h') = [] /\ (closed (queue h') = true \/ (length waits <= n)%nat)
    end.
Proof.
  induction waits as [|ops waits IH]; intros h; cbn [pop_timeout].
  - destruct (pop_round (queue h)) as [[r g]|] eqn:R; exists 0%nat; cbn [take concat foldl].
    + apply pop_now in R. destruct r; [by split |]. destruct R as (-> & R1 & R2). auto.
    + unfold pop_round in R. destruct (deque (queue h)); [auto | done].
  - destruct (pop_round (queue h)) as [[r g]|] eqn:R.
    + exists 0%nat. cbn [take concat foldl]. apply pop_now in R. destruct r; [by split |]. destruct R as (-> & R1 & R2). auto.
    + pose proof (IH (foldl exec h ops)) as H. destruct (pop_timeout waits (foldl exec h ops)) as [r h'].
      destruct H as (n & H). exists (S n). cbn [take concat length]. rewrite foldl_app.
      destruct r; [exact H |]. destruct H as (-> & H1 & H2). split_and!; [done | done |]. destruct H2; [by left | right; lia].
Qed.

Lemma pop_timeout_spec cap waits h : queue_spec cap h -> queue_spec cap (pop_timeout waits h).2.
Proof.
  assert (forall ops h, queue_spec cap h -> queue_spec cap (foldl exec h ops)) as Hops.
  { intros ops. induction ops as [|o ops IH]; intros h0 H0; [done |]. cbn [foldl]. by apply IH, exec_spec. }
  intros H. pose proof (pop_timeout_exact waits h) as E. destruct (pop_timeout waits h) as [[x|] h']; cbn [snd].
  - destruct E as (n & -> & _). by apply exec_spec, Hops.
  - destruct E as (n & -> & _). by apply Hops.
Qed.

(** * The condition variable *)

(** Consumers that sleep in [wait], consumers that were woken and will run
    their loop again, producers past the unlock and before [notify_one],
    closers before [notify_all]. *)
Record Sync := {
  sq : Queue;
  waiting : nat;
  woken : nat;
  notifies : nat;
  closers : nat;
}.

(** What a consumer does with a round of its loop. *)
Inductive consumer_round (g : Queue) : Queue -> bool -> Prop :=
| round_returns v g' : pop_round g = Some (v, g') -> consumer_round g g' false
| round_waits : pop_round g = None -> consumer_round g g true.

Definition sleep (b : bool) : nat := if b then 1%nat else 0%nat.

(** The threads' steps, in any interleaving. *)
Inductive sync_step : Sync -> Sync -> Prop :=
| step_push x g g' d w k n c : push x g = (g', d) ->
    sync_step (Build_Sync g w k n c)
              (Build_Sync g' w k (if closed g then n else S n) c)
| step_notify_one g w k n c :
    sync_step (Build_Sync g (S w) k (S n) c) (Build_Sync g w (S k) n c)
| step_notify_nobody g k n c :
    sync_step (Build_Sync g 0 k (S n) c) (Build_Sync g 0 k n c)
| step_arrive g g' b w k n c : consumer_round g g' b ->
    sync_step (Build_Sync g w k n c) (Build_Sync g' (w + sleep b) k n c)
| step_retry g g' b w k n c : consumer_round g g' b ->
    sync_step (Build_Sync g w (S k) n c) (Build_Sync g' (w + sleep b) k n c)
| step_spurious g w k n c :  (* a spurious wake-up, or the timeout *)
    sync_step (Build_Sync g (S w) k n c) (Build_Sync g w (S k) n c)
| step_deadline g w k n c :  (* past the deadline with nothing to take *)
    pop_round g = None ->
    sync_step (Build_Sync g w (S k) n c) (Build_Sync g w k n c)
| step_close g w k n c :
    sync_step (Build_Sync g w k n c) (Build_Sync (close g) w k n (S c))
| step_notify_all g w k n c :
    sync_step (Build_Sync g w k n (S c)) (Build_Sync g 0 (k + w) n c).

Inductive reachable (cap : nat) : Sync -> Prop :=
| reach_start : reachable cap (Build_Sync (new cap) 0 0 0 0)
| reach_step s s' : reachable cap s -> sync_step s s' -> reachable cap s'.

Definition wakeups_pending (s : Sync) : Prop :=
  ((waiting s > 0)%nat -> (length (deque (sq s)) <= woken s + notifies s)%nat)
  /\ (closed (sq s) = true -> waiting s = 0%nat \/ (closers s > 0)%nat).

Lemma push_length x g g' d : push x g = (g', d) ->
  (length (deque g') <= S (length (deque g)))%nat /\ closed g' = closed g
  /\ (closed g = true -> g' = g).
Proof.
  unfold push. destruct (closed g) eqn:Hc; intros E; injection E as <- <-; [by split_and!; auto |].
  destruct (Nat.eqb _ _); cbn; rewrite length_app; cbn; [| by split_and!; auto; lia].
  destruct (deque g); cbn; split_and!; auto; lia.
Qed.

Lemma consumer_round_cases g g' b : consumer_round g g' b ->
  closed g' = closed g
  /\ (if b then deque g = [] /\ closed g = false /\ g' = g
      else length (deque g') = pred (length (deque g))).
Proof.
  intros H. destruct H as [v g' H | H]; unfold pop_round in H; destruct (deque g) eqn:E, (closed g) eqn:C;
    try done; injection H as <- <-; cbn; by rewrite ?E, ?C.
Qed.

Lemma sync_step_inv s s' : wakeups_pending s -> sync_step s s' -> wakeups_pending s'.
Proof.
  intros (H1 & H2) St. unfold wakeups_pending in *. destruct St; cbn [sq waiting woken notifies closers] in *.
  - apply push_length in H as (Hl & Hc & Hsame). destruct (closed g) eqn:E.
    + rewrite Hsame by done. rewrite E. auto.
    + split; [intros ?; lia |]. congruence.
  - split; [intros ?; lia |]. intros ?. destruct H2; auto. lia.
  - split; [lia |]. auto.
  - apply consumer_round_cases in H as (Hc & Hb). destruct b; cbn [sleep].
    + destruct Hb as (Hd & Ho & ->). rewrite Hd. cbn. split; [lia | congruence].
    + rewrite Hc, Nat.add_0_r. split; [intros ?; lia | done].
  - apply consumer_round_cases in H as (Hc & Hb). destruct b; cbn [sleep].
    + destruct Hb as (Hd & Ho & ->). rewrite Hd. cbn. split; [lia | congruence].
    + rewrite Hc, Nat.add_0_r. split; [intros ?; lia | done].
  - split; [intros ?; lia |]. intros ?. destruct H2; auto. lia.
  - unfold pop_round in H. destruct (deque g) eqn:E; [| done]. cbn. split; [lia | done].
  - cbn. split; [done |]. right. lia.
  - split; [lia |]. by left.
Qed.

(** C36. No consumer sleeps through a packet or through the end of the
    stream: in every interleaving of producers, consumers and closers, with
    spurious wake-ups and timeouts, when a consumer waits while a packet is
    queued or the queue is closed, a wake-up is already on its way (a woken
    consumer has yet to look again, or a notification has yet to be sent),
    and a depth of [n] packets is covered by [n] such wake-ups. *)
Theorem no_lost_wakeup cap s :
  reachable cap s -> (waiting s > 0)%nat ->
  (length (deque (sq s)) <= woken s + notifies s)%nat
  /\ (closed (sq s) = true -> (closers s > 0)%nat).
Proof.
  intros Hr Hw. assert (Hi : wakeups_pending s).
  { induction Hr as [|s s' _ IH St]; [split; cbn; [lia | done] |].
    destruct s as [g [|w] k n c]; [| eapply sync_step_inv; [apply IH; cbn; lia | exact St]].
    eapply sync_step_inv; [| exact St]. split; cbn; [lia | by left]. }
  destruct Hi as (H1 & H2). split; [by apply H1 |]. intros Hc. destruct (H2 Hc); lia.
Qed.
End Queue.

Arguments Queue : clear implicits.
Arguments Op : clear implicits.
Arguments Sync : clear implicits.

(** A consumer goes to sleep on the empty queue, a producer pushes. *)
Lemma no_lost_wakeup_witness :
  let g := (push 7%nat (new 2)).1 in
  let s := Build_Sync g 1 0 1 0 in
  (length (deque (sq s)) <= woken s + notifies s)%nat
  /\ (closed (sq s) = true -> (closers s > 0)%nat).
Proof.
  apply (no_lost_wakeup 2).
  - eapply reach_step; [| by eapply (step_push 7%nat (new 2) _ _ 1 0 0 0)].
    eapply reach_step; [apply reach_start |].
    apply (step_arrive (new 2) (new 2) true 0 0 0 0). by constructor.
  - cbn. lia.
Defined.
