(* ===== verification/F32.v ===== *)
(** The [f32] arithmetic of the coordinate and pressure code, on the Standard
    Library's executable IEEE 754 model ([SpecFloat]), with Rust's [clamp],
    [round] and saturating casts.  Comparisons are made on the exact values,
    so they are right for every representation of a number. *)
From Stdlib Require Export Floats.SpecFloat.
From S2P Require Import Prelude.

(** 24 bits of precision, exponents below 2^128. *)
Definition f32 : Type := spec_float.

Definition f32_of_Z (n : Z) : f32 := binary_normalize 24 128 n 0 false.

Definition f32_add : f32 -> f32 -> f32 := SFadd 24 128.

Definition f32_sub : f32 -> f32 -> f32 := SFsub 24 128.

Definition f32_mul : f32 -> f32 -> f32 := SFmul 24 128.

Definition f32_div : f32 -> f32 -> f32 := SFdiv 24 128.

Definition f32_neg : f32 -> f32 := SFopp.

(** [m * 2 ^ e] of a finite number. *)
Definition f32_value (x : f32) : option (Z * Z) :=
  match x with
  | S754_zero _ => Some (0, 0)
  | S754_finite s m e => Some (if s then Z.neg m else Z.pos m, e)
  | _ => None
  end.

Definition dyadic_ltb (x y : Z * Z) : bool :=
  let e := Z.min x.2 y.2 in x.1 * 2 ^ (x.2 - e) <? y.1 * 2 ^ (y.2 - e).

(** [x < y]: false when either is a NaN. *)
Definition f32_ltb (x y : f32) : bool :=
  match x, y with
  | S754_nan, _ | _, S754_nan => false
  | S754_infinity s, S754_infinity t => s && negb t
  | S754_infinity s, _ => s
  | _, S754_infinity t => negb t
  | _, _ =>
      match f32_value x, f32_value y with
      | Some a, Some b => dyadic_ltb a b
      | _, _ => false
      end
  end.

(** [f32::clamp]: a NaN stays a NaN. *)
Definition f32_clamp (lo hi x : f32) : f32 :=
  let x := if f32_ltb x lo then lo else x in
  if f32_ltb hi x then hi else x.

(** Half away from zero. *)
Definition round_dyadic (v : Z * Z) : Z :=
  let (m, e) := v in
  if 0 <=? e then m * 2 ^ e
  else Z.sgn m * ((Z.abs m + 2 ^ (- e - 1)) / 2 ^ (- e)).

(** [x.round() as iN/uN]: the rounded value is an integer, exact in [f32];
    the cast saturates and sends NaN to zero. *)
Definition f32_round_as (lo hi : Z) (x : f32) : Z :=
  match x with
  | S754_nan => 0
  | S754_infinity s => if s then lo else hi
  | _ => match f32_value x with Some v => clampZ lo hi (round_dyadic v) | None => 0 end
  end.

Definition f32_round_u16 : f32 -> Z := f32_round_as 0 (2 ^ 16 - 1).

Definition f32_round_u32 : f32 -> Z := f32_round_as 0 (2 ^ 32 - 1).

Definition f32_round_i32 : f32 -> Z := f32_round_as (- 2 ^ 31) (2 ^ 31 - 1).

(** [f32::from_be_bytes], from the 32-bit pattern: sign, eight exponent bits,
    twenty-three fraction bits. *)
Definition f32_of_bits (b : Z) : f32 :=
  let s := Z.testbit b 31 in
  let e := Z.land (Z.shiftr b 23) 255 in
  let m := Z.land b (2 ^ 23 - 1) in
  if e =? 255 then if m =? 0 then S754_infinity s else S754_nan
  else if e =? 0 then
    if m =? 0 then S754_zero s else S754_finite s (Z.to_pos m) (-149)
  else S754_finite s (Z.to_pos (m + 2 ^ 23)) (e - 150).

(** Towards zero. *)
Definition trunc_dyadic (v : Z * Z) : Z :=
  let (m, e) := v in if 0 <=? e then m * 2 ^ e else Z.quot m (2 ^ (- e)).

(** [x as i32]: truncates, saturates, and sends NaN to zero. *)
Definition f32_as_i32 (x : f32) : Z :=
  match x with
  | S754_nan => 0
  | S754_infinity s => if s then - 2 ^ 31 else 2 ^ 31 - 1
  | _ => match f32_value x with
         | Some v => clampZ (- 2 ^ 31) (2 ^ 31 - 1) (trunc_dyadic v)
         | None => 0
         end
  end.

(** * Bounds after a clamp *)

(** A float that is exactly the integer [n]. *)
Definition is_int (x : f32) (n : Z) : Prop :=
  exists m e, f32_value x = Some (m, e) /\ e <= 0 /\ m = n * 2 ^ (- e).

Lemma round_dyadic_le m e n : m * 2 ^ (e - Z.min e 0) <= n * 2 ^ (- Z.min e 0) -> 0 <= n ->
  round_dyadic (m, e) <= n.
Proof.
  intros H Hn. unfold round_dyadic. destruct (Z.leb_spec 0 e).
  - rewrite Z.min_r, Z.sub_0_r in H by lia. change (2 ^ (- 0)) with 1 in H. lia.
  - rewrite Z.min_l, Z.sub_diag in H by lia. change (2 ^ 0) with 1 in H. rewrite Z.mul_1_r in H.
    assert (Hp : 2 ^ (- e) = 2 * 2 ^ (- e - 1)) by (rewrite <- Z.pow_succ_r by lia; f_equal; lia).
    assert (0 < 2 ^ (- e - 1)) by (apply Z.pow_pos_nonneg; lia).
    destruct m as [|m|m]; [| |]; cbn [Z.sgn Z.abs].
    + lia.
    + change (Z.abs (Z.pos m)) with (Z.pos m).
      assert ((Z.pos m + 2 ^ (- e - 1)) / 2 ^ (- e) <= n); [| lia].
      apply Z.lt_succ_r, Z.div_lt_upper_bound; nia.
    + change (Z.abs (Z.neg m)) with (Z.pos m).
      assert (0 <= (Z.pos m + 2 ^ (- e - 1)) / 2 ^ (- e)); [apply Z.div_pos; lia | lia].
Qed.

Lemma round_dyadic_nonneg m e : 0 <= m -> 0 <= round_dyadic (m, e).
Proof.
  intros Hm. unfold round_dyadic. destruct (Z.leb_spec 0 e).
  - apply Z.mul_nonneg_nonneg; [done | apply Z.pow_nonneg; lia].
  - apply Z.mul_nonneg_nonneg; [lia |]. apply Z.div_pos.
    + assert (0 < 2 ^ (- e - 1)) by (apply Z.pow_pos_nonneg; lia). lia.
    + apply Z.pow_pos_nonneg; lia.
Qed.

(** Not above an integer [n >= 0]: the rounded value is not either. *)
Lemma not_gt_round hi n x v : is_int hi n -> 0 <= n ->
  f32_value x = Some v -> f32_ltb hi x = false -> round_dyadic v <= n.
Proof.
  intros (mh & eh & Hh & Heh & ->) Hn Hx Hlt. destruct v as (m & e).
  assert (Hd : dyadic_ltb (n * 2 ^ (- eh), eh) (m, e) = false)
    by (destruct hi, x; cbn in *; congruence).
  unfold dyadic_ltb in Hd. cbn [fst snd] in Hd. apply Z.ltb_ge in Hd.
  apply round_dyadic_le; [| done].
  rewrite <- Z.mul_assoc, <- Z.pow_add_r in Hd by lia.
  replace (- eh + (eh - Z.min eh e)) with (- Z.min eh e) in Hd by lia.
  apply (Z.mul_le_mono_pos_r _ _ (2 ^ (Z.min e 0 - Z.min eh e))); [apply Z.pow_pos_nonneg; lia |].
  rewrite <- !Z.mul_assoc, <- !Z.pow_add_r by lia.
  replace (e - Z.min e 0 + (Z.min e 0 - Z.min eh e)) with (e - Z.min eh e) by lia.
  by replace (- Z.min e 0 + (Z.min e 0 - Z.min eh e)) with (- Z.min eh e) by lia.
Qed.

Lemma not_lt_zero_round x v : f32_value x = Some v -> f32_ltb x (S754_zero false) = false ->
  0 <= round_dyadic v.
Proof.
  destruct v as (m & e). intros Hx Hlt. apply round_dyadic_nonneg.
  assert (Hd : dyadic_ltb (m, e) (0, 0) = false) by (destruct x; cbn in *; congruence).
  unfold dyadic_ltb in Hd. cbn [fst snd] in Hd. apply Z.ltb_ge in Hd. rewrite Z.mul_0_l in Hd.
  assert (0 < 2 ^ (e - Z.min e 0)) by (apply Z.pow_pos_nonneg; lia). nia.
Qed.

Lemma is_int_ltb_zero hi n : is_int hi n -> 0 <= n -> f32_ltb hi (S754_zero false) = false.
Proof.
  intros (m & e & Hv & He & ->) Hn.
  assert (Hd : dyadic_ltb (n * 2 ^ (- e), e) (0, 0) = false).
  { unfold dyadic_ltb. cbn [fst snd]. apply Z.ltb_ge. rewrite Z.mul_0_l.
    repeat apply Z.mul_nonneg_nonneg; try apply Z.pow_nonneg; lia. }
  destruct hi; cbn in *; try done; injection Hv as Hm ->; by rewrite Hm.
Qed.

(** [x.clamp(0.0, n).round() as uN] is in [0, n] for every [x], NaN and the
    infinities included. *)
Lemma clamp_round_range hi n max x : is_int hi n -> 0 <= n <= max ->
  0 <= f32_round_as 0 max (f32_clamp (S754_zero false) hi x) <= n.
Proof.
  intros Hi Hn. pose proof (is_int_ltb_zero hi n Hi ltac:(lia)) as Hhz.
  assert (Hhi : forall v, f32_value hi = Some v -> 0 <= round_dyadic v <= n).
  { intros v Hv. split; [by eapply not_lt_zero_round |].
    eapply (not_gt_round hi n hi); [done | lia | done |].
    destruct Hi as (m & e & Hv' & _). destruct hi; cbn in *; try done.
    injection Hv' as -> ->. unfold dyadic_ltb. cbn. apply Z.ltb_irrefl. }
  set (c := f32_clamp _ _ _).
  assert (Hc : c = S754_nan \/ exists v, f32_value c = Some v /\ 0 <= round_dyadic v <= n).
  { subst c. unfold f32_clamp. destruct (f32_ltb x (S754_zero false)) eqn:E1.
    - destruct (f32_ltb hi (S754_zero false)) eqn:E2; [congruence |].
      right. exists (0, 0). split; [done | change (round_dyadic (0, 0)) with 0; lia].
    - destruct (f32_ltb hi x) eqn:E2.
      + right. destruct Hi as (m & e & Hv & _). eauto.
      + destruct x as [s | s | | s m e]; [right | | by left | right].
        * exists (0, 0). split; [done | change (round_dyadic (0, 0)) with 0; lia].
        * destruct s; [done |]. destruct Hi as (m & e & Hv & _). destruct hi; done.
        * eexists. split; [done |].
          split; [by apply (not_lt_zero_round (S754_finite s m e)) |].
          apply (not_gt_round hi n (S754_finite s m e)); done || lia. }
  destruct Hc as [-> | (v & Hv & Hr)]; [cbn; lia |].
  assert (E : f32_round_as 0 max c = clampZ 0 max (round_dyadic v))
    by (unfold f32_round_as; destruct c; try (cbn in Hv; done); by rewrite Hv).
  rewrite E, clampZ_id; lia.
Qed.

(** * Exact quotients *)

Definition f32_zero : f32 := S754_zero false.

Definition f32_one : f32 := f32_of_Z 1.

(** A finite number divided by itself is one, whatever its representation. *)
Lemma f32_div_self s m e : f32_div (S754_finite s m e) (S754_finite s m e) = f32_one.
Proof.
  unfold f32_div, SFdiv, SFdiv_core_binary. rewrite xorb_nilpotent, !Z.sub_diag.
  change (Z.min (fexp 24 128 0) 0) with (-24). cbv zeta. change (0 - -24) with 24. cbn match.
  rewrite Z.shiftl_mul_pow2 by lia.
  assert (E : Z.div_eucl (Z.pos m * 2 ^ 24) (Z.pos m) = (2 ^ 24, 0)).
  { pose proof (Z.div_eucl_eq (Z.pos m * 2 ^ 24) (Z.pos m)) as H.
    pose proof (Z_div_mult (2 ^ 24) (Z.pos m)) as Hd. pose proof (Z_mod_mult (2 ^ 24) (Z.pos m)) as Hm.
    unfold Z.div, Z.modulo in Hd, Hm. rewrite (Z.mul_comm (2 ^ 24)) in Hd, Hm.
    destruct (Z.div_eucl _ _) as (q & r). rewrite Hd, Hm by lia. done. }
  rewrite E. destruct m; vm_compute; reflexivity.
Qed.

Lemma digits2_size p : digits2_pos p = Pos.size p.
Proof. induction p; cbn; by rewrite ?IHp. Qed.

Lemma digits2_shift p d : digits2_pos (Pos.iter xO p d) = (digits2_pos p + d)%positive.
Proof. induction d using Pos.peano_ind; [cbn; lia |]. rewrite Pos.iter_succ. cbn. rewrite IHd. lia. Qed.

Lemma digits2_bound p k : 0 <= k -> Z.pos p < 2 ^ k -> Z.pos (digits2_pos p) <= k.
Proof.
  intros Hk Hp. rewrite digits2_size. pose proof (Pos.size_le p) as H.
  assert (Hs : 2 ^ Z.pos (Pos.size p) <= 2 * Z.pos p) by (rewrite <- Pos2Z.inj_pow; lia).
  assert (Hlt : 2 ^ Z.pos (Pos.size p) < 2 ^ (k + 1)) by (rewrite Z.pow_add_r by lia; lia).
  apply Z.pow_lt_mono_r_iff in Hlt; lia.
Qed.

(** A mantissa of 24 bits is not rounded. *)
Lemma round_aux_exact s m e : digits2_pos m = 24%positive -> -149 <= e <= 104 ->
  binary_round_aux 24 128 s (Z.pos m) e loc_Exact = S754_finite s m e.
Proof.
  intros Hm He. unfold binary_round_aux, shr_fexp, fexp, SpecFloat.emin. cbn [Zdigits2]. rewrite Hm.
  replace (Z.max (24 + e - 24) (3 - 128 - 24) - e) with 0 by lia.
  cbn [shr shr_record_of_loc shr_m loc_of_shr_record round_nearest_even Zdigits2]. rewrite Hm.
  replace (Z.max (24 + e - 24) (3 - 128 - 24) - e) with 0 by lia.
  cbn [shr shr_record_of_loc shr_m]. destruct (Z.leb_spec e (128 - 24)); [done | lia].
Qed.

(** A positive integer below 2^24 has an exact, finite representation. *)
Lemma extent_finite n : 0 < n < 2 ^ 24 -> exists m e, f32_of_Z n = S754_finite false m e.
Proof.
  intros Hn. destruct n as [|p|p]; [lia | | lia]. pose proof (digits2_bound p 24 ltac:(lia) ltac:(lia)) as Hd.
  unfold f32_of_Z, binary_normalize, binary_round, fexp, SpecFloat.emin, shl_align.
  replace (Z.max _ _ - 0) with (Z.pos (digits2_pos p) - 24) by lia.
  destruct (Z.pos (digits2_pos p) - 24) as [|d|d] eqn:E; [| lia |].
  - exists p, 0. apply round_aux_exact; lia.
  - eexists _, _. apply round_aux_exact; [rewrite digits2_shift; lia | lia].
Qed.

Lemma f32_div_zero m e : f32_div f32_zero (S754_finite false m e) = f32_zero.
Proof. done. Qed.
