(* ===== verification/Coords.v ===== *)
(** The input-area to output-area mapping
    ([crates/penflow-core/src/inject/coords.rs]). *)
From S2P Require Import Prelude F32.

(** Row-major: [x' = a x + c y + e], [y' = b x + d y + f]. *)
Record AffineTransform := { ta : f32; tb : f32; tc : f32; td : f32; te : f32; tf : f32 }.

Definition identity : AffineTransform :=
  {| ta := f32_of_Z 1; tb := f32_zero; tc := f32_zero; td := f32_of_Z 1; te := f32_zero;
     tf := f32_zero |}.

(** Rotations other than 90, 180 and 270 degrees are treated as none. *)
Definition from_normalized_to_rect (output_left output_top output_w output_h rotation_deg : Z)
  : AffineTransform :=
  let ow := f32_of_Z output_w in
  let oh := f32_of_Z output_h in
  let ol := f32_of_Z output_left in
  let ot := f32_of_Z output_top in
  let zero := {| ta := ow; tb := f32_zero; tc := f32_zero; td := oh; te := ol; tf := ot |} in
  let r := rotation_deg mod 360 in
  if r =? 0 then zero
  else if r =? 90 then
    {| ta := f32_zero; tb := ow; tc := f32_neg ow; td := f32_zero; te := f32_add ol ow; tf := ot |}
  else if r =? 180 then
    {| ta := f32_neg ow; tb := f32_zero; tc := f32_zero; td := f32_neg oh; te := f32_add ol ow;
       tf := f32_add ot oh |}
  else if r =? 270 then
    {| ta := f32_zero; tb := f32_neg oh; tc := ow; td := f32_zero; te := ol; tf := f32_add ot oh |}
  else zero.

Definition map_point (t : AffineTransform) (x y : f32) : f32 * f32 :=
  (f32_add (f32_add (f32_mul (ta t) x) (f32_mul (tc t) y)) (te t),
   f32_add (f32_add (f32_mul (tb t) x) (f32_mul (td t) y)) (tf t)).

Definition map_to_pixel (t : AffineTransform) (x y : f32) : Z * Z :=
  let '(fx, fy) := map_point t x y in (f32_round_i32 fx, f32_round_i32 fy).

Definition map_to_vmulti (t : AffineTransform) (x y : f32) (target_w_px target_h_px : Z) : Z * Z :=
  let '(fx, fy) := map_point t x y in
  let tw := f32_of_Z (Z.max target_w_px 1) in
  let th := f32_of_Z (Z.max target_h_px 1) in
  let axis v extent :=
    f32_round_u16 (f32_clamp f32_zero (f32_of_Z 32767) (f32_mul (f32_div v extent) (f32_of_Z 32767))) in
  (axis fx tw, axis fy th).

Lemma is_int_32767 : is_int (f32_of_Z 32767) 32767.
Proof. eexists _, _. split; [vm_compute; reflexivity |]. split; [lia | done]. Qed.

Lemma round_as_range lo hi x : lo <= 0 <= hi -> lo <= f32_round_as lo hi x <= hi.
Proof.
  intros H. unfold f32_round_as, clampZ. destruct x as [s | s | | s m e]; try lia.
  - cbn. lia.
  - destruct s; lia.
  - cbn. lia.
Qed.

Lemma points_in_range t x y w h :
  let '(ux, uy) := map_to_vmulti t x y w h in
  let '(px, py) := map_to_pixel t x y in
  (0 <= ux <= 32767 /\ 0 <= uy <= 32767) /\ (i32 px /\ i32 py).
Proof.
  unfold map_to_vmulti, map_to_pixel, map_point. cbv zeta.
  split; split.
  1, 2: apply (clamp_round_range _ 32767); [exact is_int_32767 | lia].
  1, 2: assert (H : forall v, i32 (f32_round_i32 v))
    by (intros v; pose proof (round_as_range (- 2 ^ 31) (2 ^ 31 - 1) v ltac:(lia)) as Hv;
        unfold f32_round_i32; urange).
  1, 2: apply H.
Qed.

(** Whatever the client sends (NaN, infinities, coordinates far outside
    the tablet) and whatever the target rectangle, a point mapped for VMulti
    lies in the descriptor's logical range [0, 32767] on both axes, and a
    point mapped to pixels is an [i32] on both axes. *)
Theorem mapped_points_in_range t x y w h :
  let '(ux, uy) := map_to_vmulti t x y w h in
  let '(px, py) := map_to_pixel t x y in
  (0 <= ux <= 32767 /\ 0 <= uy <= 32767) /\ (i32 px /\ i32 py).
Proof. apply points_in_range. Qed.

(** The corners of the unit tests, and the fixed points of a rotation. *)
Lemma corner_values :
  let t := from_normalized_to_rect 100 200 1920 1080 0 in
  map_to_pixel t f32_zero f32_zero = (100, 200)
  /\ map_to_pixel t (f32_of_Z 1) (f32_of_Z 1) = (2020, 1280)
  /\ map_to_pixel t (S754_finite false 8388608 (-24)) (S754_finite false 8388608 (-24)) = (1060, 740).
Proof. vm_compute. auto. Qed.

(** A quarter turn onto a rectangle that is not square: the ordinate is
    scaled by the width, so the image misses half of a 100 by 200 target and
    leaves a 200 by 100 one; the other rotations map corners to corners. *)
Lemma quarter_turn_misses_target :
  let one := f32_of_Z 1 in
  let tall := from_normalized_to_rect 0 0 100 200 90 in
  let wide := from_normalized_to_rect 0 0 200 100 90 in
  map_to_pixel tall one f32_zero = (100, 100) /\ map_to_pixel wide one f32_zero = (200, 200)
  /\ map_to_pixel (from_normalized_to_rect 0 0 100 200 270) one f32_zero = (0, 0)
  /\ map_to_pixel (from_normalized_to_rect 0 0 100 200 270) f32_zero one = (100, 200).
Proof. vm_compute. auto. Qed.
