(* ===== verification/CursorShape.v ===== *)
(** Decoding of mouse-cursor shapes
    ([crates/penflow-core/src/capture/cursor_shape.rs]): the three DXGI
    formats normalised to packed BGRA.

    Dimensions are [nat]; [usize] is 64 bits wide and none of the products of
    two [u32] below overflows it.  An out-of-bounds index panics, which is
    [None]. *)
From S2P Require Import Prelude Bytes Engine.

Inductive ShapeKind := Monochrome | Color | MaskedColor.

#[export] Instance ShapeKind_eq_dec : EqDecision ShapeKind.
Proof. solve_decision. Defined.

Definition from_raw (t : Z) : option ShapeKind :=
  if t =? 1 then Some Monochrome
  else if t =? 2 then Some Color
  else if t =? 4 then Some MaskedColor
  else None.

Record CursorShape := {
  cs_kind : ShapeKind;
  cs_width : nat;
  cs_height : nat;
  cs_hot_x : Z;
  cs_hot_y : Z;
  cs_pixels : list Z;
}.

(** The rows [y .. y + n), until one fails. *)
Fixpoint decode_rows (row : nat -> EngineResult (list Z)) (n y : nat) : EngineResult (list Z) :=
  match n with
  | O => Ok []
  | S n' => r ← row y; rest ← decode_rows row n' (S y); Ok (r ++ rest)
  end.

(** [chunks_exact(4)]. *)
Fixpoint chunks4 (l : list Z) : list (list Z) :=
  match l with
  | a :: b :: c :: d :: l' => [a; b; c; d] :: chunks4 l'
  | _ => []
  end.

Definition masked_pixel (chunk : list Z) : list Z :=
  if get chunk 3 =? 0 then [get chunk 0; get chunk 1; get chunk 2; 0xFF] else [0; 0; 0; 0].

Definition mono_pixel (and_bit xor_bit : bool) : list Z :=
  match and_bit, xor_bit with
  | false, false => [0; 0; 0; 0xFF]
  | false, true => [0xFF; 0xFF; 0xFF; 0xFF]
  | true, false => [0; 0; 0; 0]
  | true, true => [0; 0; 0; 0]
  end.

Section Decode.
(** The [HRESULT] of an invalid argument, from the Windows headers. *)
Context (E_INVALIDARG : Z).

Definition short_buffer_err : EngineError := Win32 E_INVALIDARG.

Definition raw_row (row_bytes pitch : nat) (raw : list Z) (y : nat) : EngineResult (list Z) :=
  let off := (y * pitch)%nat in
  if Nat.leb (off + row_bytes) (length raw) then Ok (sub_slice off row_bytes raw)
  else Err short_buffer_err.

Definition decode_color (width height pitch : nat) (hot_x hot_y : Z) (raw : list Z)
  : EngineResult CursorShape :=
  pixels ← decode_rows (raw_row (width * 4) pitch raw) height 0;
  Ok {| cs_kind := Color; cs_width := width; cs_height := height; cs_hot_x := hot_x;
        cs_hot_y := hot_y; cs_pixels := pixels |}.

Definition decode_masked_color (width height pitch : nat) (hot_x hot_y : Z) (raw : list Z)
  : EngineResult CursorShape :=
  pixels ← decode_rows (fun y => row ← raw_row (width * 4) pitch raw y;
                                 Ok (concat (map masked_pixel (chunks4 row)))) height 0;
  Ok {| cs_kind := MaskedColor; cs_width := width; cs_height := height; cs_hot_x := hot_x;
        cs_hot_y := hot_y; cs_pixels := pixels |}.

(** [(raw[i] & mask) != 0]; [None] when the index is out of bounds. *)
Definition bit_at (raw : list Z) (i : nat) (mask : Z) : option bool :=
  b ← raw !! i; Some (negb (Z.land b mask =? 0)).

Definition mono_at (raw : list Z) (pitch xor_off x y : nat) : option (list Z) :=
  let byte_idx := (x / 8)%nat in
  let mask := Z.shiftl 1 (Z.of_nat (7 - x mod 8)) in
  and_bit ← bit_at raw (y * pitch + byte_idx) mask;
  xor_bit ← bit_at raw (xor_off + y * pitch + byte_idx) mask;
  Some (mono_pixel and_bit xor_bit).

Definition decode_monochrome (width height_raw pitch : nat) (hot_x hot_y : Z) (raw : list Z)
  : option (EngineResult CursorShape) :=
  if negb (Nat.eqb (height_raw mod 2) 0) then Some (Err short_buffer_err)
  else
    let height := (height_raw / 2)%nat in
    let xor_off := (height * pitch)%nat in
    if Nat.ltb (length raw) (xor_off * 2) then Some (Err short_buffer_err)
    else
      pixels ← mapM (fun y => mapM (fun x => mono_at raw pitch xor_off x y) (seq 0 width)) (seq 0 height);
      Some (Ok {| cs_kind := Monochrome; cs_width := width; cs_height := height; cs_hot_x := hot_x;
                  cs_hot_y := hot_y; cs_pixels := concat (map (@concat Z) pixels) |}).

Definition decode_shape (kind_raw : Z) (width height_raw pitch : nat) (hot_x hot_y : Z) (raw : list Z)
  : option (EngineResult CursorShape) :=
  match from_raw kind_raw with
  | None => Some (Err (Win32 E_INVALIDARG))
  | Some kind =>
      if Nat.eqb width 0 || Nat.eqb height_raw 0 then Some (Err (Win32 E_INVALIDARG))
      else
        match kind with
        | Color => Some (decode_color width height_raw pitch hot_x hot_y raw)
        | MaskedColor => Some (decode_masked_color width height_raw pitch hot_x hot_y raw)
        | Monochrome => decode_monochrome width height_raw pitch hot_x hot_y raw
        end
  end.
End Decode.

(** The rows of the unit tests. *)
Lemma decode_rows_of_tests :
  option_map (result_fmap _ _ _ cs_pixels)
    (decode_shape 0 2 2 2 12 0 0
      [0xAA; 0xBB; 0xCC; 0xFF; 0x11; 0x22; 0x33; 0xFF; 0; 0; 0; 0;
       0x44; 0x55; 0x66; 0xFF; 0x77; 0x88; 0x99; 0xFF; 0; 0; 0; 0])
  = Some (Ok [0xAA; 0xBB; 0xCC; 0xFF; 0x11; 0x22; 0x33; 0xFF;
              0x44; 0x55; 0x66; 0xFF; 0x77; 0x88; 0x99; 0xFF])
  /\ option_map (result_fmap _ _ _ cs_pixels) (decode_shape 0 4 1 1 4 0 0 [0; 0; 0xFF; 0xFF])
     = Some (Ok [0; 0; 0; 0])
  /\ option_map (result_fmap _ _ _ (fun s => take 20 (cs_pixels s)))
       (decode_shape 0 1 8 8 1 0 0 [0; 0; 0; 0; 0xF0; 0; 0; 0])
     = Some (Ok (replicate 16 0xFF ++ [0; 0; 0; 0xFF])).
Proof. vm_compute. auto. Qed.

(** A row of a monochrome shape wider than its pitch reads past the mask and,
    in the last row, past the buffer: the decoder panics. *)
Lemma narrow_pitch_panics : decode_shape 0 1 16 2 1 0 0 [0; 0] = None.
Proof. vm_compute. reflexivity. Qed.

(** * Lemmas *)

Lemma length_sub_slice off n (l : list Z) : (off + n <= length l)%nat -> length (sub_slice off n l) = n.
Proof. intros H. unfold sub_slice. rewrite length_take, length_drop. lia. Qed.

Lemma sub_slice_sub a b c d (l : list Z) : (a + b <= d)%nat ->
  sub_slice a b (sub_slice c d l) = sub_slice (c + a) b l.
Proof.
  intros H. unfold sub_slice. rewrite skipn_firstn_comm, drop_drop, take_take.
  f_equal. lia.
Qed.

Lemma sub_slice_concat {A} (f : A -> list Z) k l : forall i x,
  Forall (fun a => length (f a) = k) l -> l !! i = Some x ->
  sub_slice (i * k) k (concat (map f l)) = f x.
Proof.
  induction l as [|a l IH]; intros i x Hl Hi; [done |]. apply Forall_cons_1 in Hl as [Ha Hl].
  destruct i as [|i]; cbn [map concat].
  - cbn in Hi. injection Hi as ->. unfold sub_slice. cbn [Nat.mul]. rewrite drop_0.
    rewrite take_app_le by lia. by rewrite take_ge by lia.
  - cbn in Hi. rewrite <- (IH i x Hl Hi). unfold sub_slice. f_equal.
    rewrite drop_app_ge by lia. f_equal. lia.
Qed.

Lemma length_concat_map {A} (f : A -> list Z) k l :
  Forall (fun a => length (f a) = k) l -> length (concat (map f l)) = (length l * k)%nat.
Proof. induction 1 as [|a l Ha _ IH]; cbn [map concat length]; [done |]. rewrite length_app, IH, Ha. lia. Qed.

(** A list as the concatenation of its groups of four. *)
Lemma slices_of_4 n : forall (l : list Z), length l = (n * 4)%nat ->
  l = concat (map (fun x => sub_slice (x * 4) 4 l) (seq 0 n)).
Proof.
  induction n as [|n IH]; intros l Hl; [by destruct l |].
  destruct l as [|a [|b [|c [|d l]]]]; try discriminate Hl.
  cbn [seq map concat]. change (sub_slice (0 * 4) 4 (a :: b :: c :: d :: l)) with [a; b; c; d].
  cbn [app]. do 4 f_equal. rewrite <- seq_shift, map_map.
  rewrite (IH l) at 1 by (cbn in Hl; lia). f_equal.
Qed.

Lemma chunks4_slices n : forall (l : list Z), length l = (n * 4)%nat ->
  chunks4 l = map (fun x => sub_slice (x * 4) 4 l) (seq 0 n).
Proof.
  induction n as [|n IH]; intros l Hl; [by destruct l |].
  destruct l as [|a [|b [|c [|d l]]]]; try discriminate Hl.
  cbn [chunks4 seq map]. f_equal. rewrite (IH l) by (cbn in Hl; lia).
  by rewrite <- seq_shift, map_map.
Qed.

Lemma decode_rows_ok row f n : forall y,
  (forall i, (y <= i < y + n)%nat -> row i = Ok (f i)) ->
  decode_rows row n y = Ok (concat (map f (seq y n))).
Proof.
  induction n as [|n IH]; intros y H; [done |]. cbn [decode_rows seq map concat].
  rewrite H by lia. cbn [mbind result_bind]. rewrite IH by (intros i Hi; apply H; lia). done.
Qed.

Lemma decode_rows_err row e n : forall y,
  (forall i, is_ok (row i) = false -> row i = Err e) ->
  (exists i, (y <= i < y + n)%nat /\ is_ok (row i) = false) -> decode_rows row n y = Err e.
Proof.
  induction n as [|n IH]; intros y He (i & Hi & Hr); [lia |]. cbn [decode_rows].
  destruct (row y) as [r|e'] eqn:Ey.
  - cbn [mbind result_bind]. rewrite IH; [done | done |]. exists i. split; [| done].
    assert (i <> y) by (intros ->; by rewrite Ey in Hr). lia.
  - specialize (He y). rewrite Ey in He. rewrite (He eq_refl). done.
Qed.

Lemma has_mask b i : 0 <= i -> negb (Z.land b (Z.shiftl 1 i) =? 0) = Z.testbit b i.
Proof.
  intros Hi. rewrite Z.shiftl_1_l. destruct (Z.testbit b i) eqn:E.
  - apply negb_true_iff, Z.eqb_neq. intros H. apply (f_equal (fun z => Z.testbit z i)) in H.
    by rewrite Z.land_spec, E, Z.pow2_bits_true, Z.testbit_0_l in H by lia.
  - apply negb_false_iff, Z.eqb_eq, Z.bits_inj'. intros n Hn.
    rewrite Z.land_spec, Z.pow2_bits_eqb, Z.testbit_0_l by lia.
    destruct (Z.eqb_spec i n) as [<- | ?]; [by rewrite E | apply andb_false_r].
Qed.

Lemma mapM_some {A B} (f : A -> option B) g l :
  Forall (fun x => f x = Some (g x)) l -> mapM f l = Some (map g l).
Proof. induction 1 as [|x l Hx _ IH]; [done |]. cbn. rewrite Hx. cbn. by rewrite IH. Qed.

(** * The specification *)

(** The mask bit of pixel [x] in a row that starts at [off]. *)
Definition mask_bit (raw : list Z) (off x : nat) : bool :=
  Z.testbit (get raw (off + x / 8)) (Z.of_nat (7 - x mod 8)).

Definition ref_pixel (kind : ShapeKind) (height pitch : nat) (raw : list Z) (x y : nat) : list Z :=
  match kind with
  | Color => sub_slice (y * pitch + x * 4) 4 raw
  | MaskedColor => masked_pixel (sub_slice (y * pitch + x * 4) 4 raw)
  | Monochrome => mono_pixel (mask_bit raw (y * pitch) x) (mask_bit raw (height * pitch + y * pitch) x)
  end.

Definition visible_height (kind : ShapeKind) (height_raw : nat) : nat :=
  match kind with Monochrome => (height_raw / 2)%nat | _ => height_raw end.

Definition fits (kind : ShapeKind) (width height_raw pitch : nat) (raw : list Z) : bool :=
  match kind with
  | Monochrome => Nat.eqb (height_raw mod 2) 0 && Nat.leb (height_raw * pitch) (length raw)
  | _ => Nat.leb ((height_raw - 1) * pitch + width * 4) (length raw)
  end.

Definition pixel (s : CursorShape) (x y : nat) : list Z :=
  sub_slice ((y * cs_width s + x) * 4) 4 (cs_pixels s).

(** Packed rows of packed pixels. *)
Lemma packed_pixels (f : nat -> nat -> list Z) w h :
  (forall x y, (x < w)%nat -> (y < h)%nat -> length (f x y) = 4%nat) ->
  let px := concat (map (fun y => concat (map (fun x => f x y) (seq 0 w))) (seq 0 h)) in
  length px = (w * h * 4)%nat
  /\ forall x y, (x < w)%nat -> (y < h)%nat -> sub_slice ((y * w + x) * 4) 4 px = f x y.
Proof.
  intros Hf px.
  assert (Hrow : forall y, (y < h)%nat -> length (concat (map (fun x => f x y) (seq 0 w))) = (w * 4)%nat).
  { intros y Hy. rewrite (length_concat_map _ 4), length_seq; [lia |].
    apply Forall_forall. intros x Hx%in_seq. apply Hf; lia. }
  assert (Hrows : Forall (fun y => length (concat (map (fun x => f x y) (seq 0 w))) = (w * 4)%nat) (seq 0 h))
    by (apply Forall_forall; intros y Hy%in_seq; apply Hrow; lia).
  split.
  - unfold px. rewrite (length_concat_map _ _ _ Hrows), length_seq. lia.
  - intros x y Hx Hy.
    pose proof (sub_slice_concat _ (w * 4) (seq 0 h) y y Hrows) as Hy'.
    rewrite lookup_seq_lt in Hy' by lia. specialize (Hy' eq_refl).
    pose proof (sub_slice_concat (fun x => f x y) 4 (seq 0 w) x x) as Hx'.
    rewrite lookup_seq_lt in Hx' by lia.
    rewrite <- Hx'; [| apply Forall_forall; intros i Hi%in_seq; apply Hf; lia | done].
    rewrite <- Hy'. fold px. rewrite sub_slice_sub by nia. f_equal. nia.
Qed.

Section Spec.
Context (E_INVALIDARG : Z).

Lemma raw_row_fits w h pitch raw y : (y < h)%nat ->
  fits Color w h pitch raw = true ->
  raw_row E_INVALIDARG (w * 4) pitch raw y
  = Ok (concat (map (fun x => sub_slice (y * pitch + x * 4) 4 raw) (seq 0 w)))
  /\ (forall x, (x < w)%nat -> length (sub_slice (y * pitch + x * 4) 4 raw) = 4%nat).
Proof.
  intros Hy Hf%Nat.leb_le.
  assert (Hle : (y * pitch <= (h - 1) * pitch)%nat) by (apply Nat.mul_le_mono_r; lia).
  split; [| intros x Hx; apply length_sub_slice; lia].
  unfold raw_row. rewrite (proj2 (Nat.leb_le _ _)) by lia. f_equal.
  rewrite (slices_of_4 w) at 1 by (apply length_sub_slice; lia).
  f_equal. apply map_ext_in. intros x Hx%in_seq. apply sub_slice_sub. lia.
Qed.

Lemma raw_rows_short w h pitch raw : (0 < h)%nat -> fits Color w h pitch raw = false ->
  exists y, (0 <= y < 0 + h)%nat /\ is_ok (raw_row E_INVALIDARG (w * 4) pitch raw y) = false.
Proof.
  intros Hh Hf. exists (h - 1)%nat. split; [lia |]. unfold raw_row. cbn [fits] in Hf. by rewrite Hf.
Qed.

Lemma raw_row_err w pitch raw y : is_ok (raw_row E_INVALIDARG w pitch raw y) = false ->
  raw_row E_INVALIDARG w pitch raw y = Err (Win32 E_INVALIDARG).
Proof. unfold raw_row. by destruct (Nat.leb _ _). Qed.

Lemma length_masked c : length (masked_pixel c) = 4%nat.
Proof. unfold masked_pixel. by destruct (_ =? _). Qed.

Lemma masked_row_ok w h pitch raw y : (y < h)%nat -> fits Color w h pitch raw = true ->
  (row ← raw_row E_INVALIDARG (w * 4) pitch raw y; Ok (concat (map masked_pixel (chunks4 row))))
  = Ok (concat (map (fun x => ref_pixel MaskedColor h pitch raw x y) (seq 0 w))).
Proof.
  intros Hy Hf. pose proof Hf as Hle%Nat.leb_le.
  assert (Hpy : (y * pitch <= (h - 1) * pitch)%nat) by (apply Nat.mul_le_mono_r; lia).
  unfold raw_row. rewrite (proj2 (Nat.leb_le _ _)) by lia. cbn [mbind result_bind].
  rewrite (chunks4_slices w) by (apply length_sub_slice; lia). rewrite map_map. do 2 f_equal.
  apply map_ext_in. intros x Hx%in_seq. cbn [ref_pixel]. by rewrite sub_slice_sub by lia.
Qed.

Lemma masked_row_err w pitch raw i :
  is_ok (row ← raw_row E_INVALIDARG (w * 4) pitch raw i; Ok (concat (map masked_pixel (chunks4 row)))) = false ->
  (row ← raw_row E_INVALIDARG (w * 4) pitch raw i; Ok (concat (map masked_pixel (chunks4 row))))
  = Err (Win32 E_INVALIDARG).
Proof. unfold raw_row. by destruct (Nat.leb _ _). Qed.

Lemma mono_at_ok w h pitch raw x y : (x < w)%nat -> (y < h / 2)%nat -> (w <= 8 * pitch)%nat ->
  fits Monochrome w h pitch raw = true ->
  mono_at raw pitch (h / 2 * pitch) x y = Some (ref_pixel Monochrome (h / 2) pitch raw x y).
Proof.
  intros Hx Hy Hw Hf. cbn [fits] in Hf. apply andb_true_iff in Hf as (He%Nat.eqb_eq & Hl%Nat.leb_le).
  assert (Hh : h = (2 * (h / 2))%nat) by (pose proof (Nat.div_mod_eq h 2); lia).
  assert (Hb : (x / 8 < pitch)%nat) by (apply Nat.Div0.div_lt_upper_bound; lia).
  assert (Hyp : (y * pitch + pitch <= h / 2 * pitch)%nat) by nia.
  assert (Htot : (h * pitch = h / 2 * pitch + h / 2 * pitch)%nat) by nia.
  unfold mono_at, bit_at.
  destruct (lookup_lt_is_Some_2 raw (y * pitch + x / 8)) as (a & Ha); [lia |].
  destruct (lookup_lt_is_Some_2 raw (h / 2 * pitch + y * pitch + x / 8)) as (b & Hb'); [lia |].
  rewrite Ha, Hb'. cbn [mbind option_bind ref_pixel]. unfold mask_bit, get.
  rewrite Ha, Hb'. cbn [default from_option id]. by rewrite !has_mask by lia.
Qed.

Lemma length_mono a b : length (mono_pixel a b) = 4%nat.
Proof. by destruct a, b. Qed.
End Spec.

(** C38. Decoding a cursor shape is exact.  When the buffer holds every row the
    format calls for (and, for a monochrome shape, the pitch covers the
    width), the result has the visible size, four bytes per pixel, and each
    pixel is the one the format defines at that position: the stored BGRA;
    the stored BGR made opaque, or transparent where the mask byte is set;
    the colour of the AND and XOR bits.  When the buffer is too short, or the
    height of a monochrome shape is odd, the result is the invalid-argument
    error. *)
Theorem decode_shape_exact E_INVALIDARG kind_raw kind w h pitch hx hy raw :
  from_raw kind_raw = Some kind -> (0 < w)%nat -> (0 < h)%nat ->
  (kind = Monochrome -> (w <= 8 * pitch)%nat) ->
  if fits kind w h pitch raw then
    exists s, decode_shape E_INVALIDARG kind_raw w h pitch hx hy raw = Some (Ok s)
      /\ cs_kind s = kind /\ cs_width s = w /\ cs_height s = visible_height kind h
      /\ cs_hot_x s = hx /\ cs_hot_y s = hy
      /\ length (cs_pixels s) = (w * visible_height kind h * 4)%nat
      /\ forall x y, (x < w)%nat -> (y < visible_height kind h)%nat ->
           pixel s x y = ref_pixel kind (visible_height kind h) pitch raw x y
  else decode_shape E_INVALIDARG kind_raw w h pitch hx hy raw = Some (Err (Win32 E_INVALIDARG)).
Proof.
  intros Hk Hw Hh Hpitch. unfold decode_shape. rewrite Hk.
  rewrite (proj2 (Nat.eqb_neq w 0)), (proj2 (Nat.eqb_neq h 0)) by lia. cbn [orb].
  destruct kind; cbn [visible_height]; destruct (fits _ w h pitch raw) eqn:Hf.
  - (* monochrome *) unfold decode_monochrome. pose proof Hf as Hf'. cbn [fits] in Hf'.
    apply andb_true_iff in Hf' as (He & Hl%Nat.leb_le). rewrite He. cbn [negb]. apply Nat.eqb_eq in He.
    pose proof (Nat.div_mod_eq h 2). rewrite (proj2 (Nat.ltb_ge _ _)) by nia. cbv zeta.
    destruct (packed_pixels (ref_pixel Monochrome (h / 2) pitch raw) w (h / 2)) as (Hlen & Hpx);
      [intros; apply length_mono |].
    erewrite (mapM_some _ (fun y => map (fun x => ref_pixel Monochrome (h / 2) pitch raw x y) (seq 0 w))).
    2: { apply Forall_forall. intros y Hy%in_seq. apply mapM_some, Forall_forall. intros x Hx%in_seq.
         apply (mono_at_ok w h); auto; lia. }
    cbn [mbind option_bind]. eexists. split; [reflexivity |]. rewrite map_map. by split_and!.
  - unfold decode_monochrome. cbn [fits] in Hf. destruct (Nat.eqb (h mod 2) 0) eqn:He; cbn [negb]; [| done].
    cbn [andb] in Hf. apply Nat.leb_gt in Hf. apply Nat.eqb_eq in He. pose proof (Nat.div_mod_eq h 2).
    by rewrite (proj2 (Nat.ltb_lt _ _)) by nia.
  - (* colour *) unfold decode_color.
    destruct (packed_pixels (ref_pixel Color h pitch raw) w h) as (Hlen & Hpx);
      [intros x y Hx Hy; by apply (raw_row_fits E_INVALIDARG w h pitch raw y) |].
    erewrite decode_rows_ok by (intros i Hi; apply (raw_row_fits E_INVALIDARG w h pitch raw i); [lia | done]).
    eexists. split; [reflexivity |]. by split_and!.
  - unfold decode_color. by rewrite (decode_rows_err _ (Win32 E_INVALIDARG))
      by (auto using raw_row_err, raw_rows_short).
  - (* masked colour *) unfold decode_masked_color.
    destruct (packed_pixels (ref_pixel MaskedColor h pitch raw) w h) as (Hlen & Hpx);
      [intros; apply length_masked |].
    erewrite decode_rows_ok by (intros i Hi; apply (masked_row_ok E_INVALIDARG w h pitch raw i); [lia | done]).
    eexists. split; [reflexivity |]. by split_and!.
  - unfold decode_masked_color. rewrite (decode_rows_err _ (Win32 E_INVALIDARG)); [done | apply masked_row_err |].
    destruct (raw_rows_short E_INVALIDARG w h pitch raw Hh Hf) as (y & Hy & Hr). exists y. split; [done |].
    by apply raw_row_err in Hr as ->.
Qed.

Definition demo_mono : list Z := [0; 0; 0; 0; 0xF0; 0; 0; 0].

Lemma decode_shape_exact_witness : exists s,
  decode_shape 0x80070057 1 8 8 1 2 3 demo_mono = Some (Ok s)
  /\ length (cs_pixels s) = 128%nat /\ pixel s 3 0 = [0xFF; 0xFF; 0xFF; 0xFF] /\ pixel s 4 0 = [0; 0; 0; 0xFF].
Proof.
  destruct (decode_shape_exact 0x80070057 1 Monochrome 8 8 1 2 3 demo_mono)
    as (s & E & _ & _ & _ & _ & _ & Hl & Hp); [done | lia | lia | lia |].
  exists s. split; [exact E |]. split; [exact Hl |]. split.
  - rewrite (Hp 3%nat 0%nat); [reflexivity | lia | cbn; lia].
  - rewrite (Hp 4%nat 0%nat); [reflexivity | lia | cbn; lia].
Defined.
