(* ===== verification/CursorQuad.v ===== *)
(** Drawing the mouse cursor into the frame
    ([crates/penflow-core/src/cursor_blit.rs]): the cached sprite, the part of
    it that is on the target, and the quad that is drawn. *)
From stdpp Require Import list.
From S2P Require Import Prelude Engine F32.

Record ClippedQuad := {
  ndc_l : f32; ndc_r : f32; ndc_t : f32; ndc_b : f32;
  u_l : f32; u_r : f32; v_t : f32; v_b : f32 }.

(** [dst / extent * 2 - 1] and its mirror image for the vertical axis. *)
Definition ndc_x (dst extent : Z) : f32 :=
  f32_sub (f32_mul (f32_div (f32_of_Z dst) (f32_of_Z extent)) (f32_of_Z 2)) (f32_of_Z 1).

Definition ndc_y (dst extent : Z) : f32 :=
  f32_sub (f32_of_Z 1) (f32_mul (f32_div (f32_of_Z dst) (f32_of_Z extent)) (f32_of_Z 2)).

Definition uv (dst origin extent : Z) : f32 :=
  f32_div (f32_of_Z (swrap 32 (dst - origin))) (f32_of_Z extent).

Definition compute_clipped_quad (cursor_x cursor_y cursor_w cursor_h target_w target_h : Z)
  : option ClippedQuad :=
  let cw := swrap 32 cursor_w in
  let ch := swrap 32 cursor_h in
  let tw := swrap 32 target_w in
  let th := swrap 32 target_h in
  let dst_l := Z.max cursor_x 0 in
  let dst_t := Z.max cursor_y 0 in
  let dst_r := Z.min (swrap 32 (cursor_x + cw)) tw in
  let dst_b := Z.min (swrap 32 (cursor_y + ch)) th in
  if (dst_r <=? dst_l) || (dst_b <=? dst_t) then None
  else Some {| ndc_l := ndc_x dst_l tw; ndc_r := ndc_x dst_r tw;
               ndc_t := ndc_y dst_t th; ndc_b := ndc_y dst_b th;
               u_l := uv dst_l cursor_x cw; u_r := uv dst_r cursor_x cw;
               v_t := uv dst_t cursor_y ch; v_b := uv dst_b cursor_y ch |}.

(** A corner: its place and its texture coordinates. *)
Record Vertex := { v_pos : f32 * f32; v_uv : f32 * f32 }.

(** The strip: top left, top right, bottom left, bottom right. *)
Definition quad_vertices (q : ClippedQuad) : list Vertex :=
  [ {| v_pos := (ndc_l q, ndc_t q); v_uv := (u_l q, v_t q) |};
    {| v_pos := (ndc_r q, ndc_t q); v_uv := (u_r q, v_t q) |};
    {| v_pos := (ndc_l q, ndc_b q); v_uv := (u_l q, v_b q) |};
    {| v_pos := (ndc_r q, ndc_b q); v_uv := (u_r q, v_b q) |} ].

(** A decoded shape as the blitter takes it, and the sprite it caches; the
    texture stands for the shape's pixels. *)
Record SpriteShape := { ss_width : Z; ss_height : Z; ss_hot_x : Z; ss_hot_y : Z; ss_pixels : list Z }.

Record CachedCursor := {
  cc_width : Z; cc_height : Z; cc_hot_x : Z; cc_hot_y : Z; cc_generation : Z; cc_texture : list Z }.

Record CursorBlitter := { target_w : Z; target_h : Z; cursor : option CachedCursor }.

(** [create] is the outcome of the two calls that build texture and view. *)
Definition update_shape (create : EngineResult unit) (shape : SpriteShape) (b : CursorBlitter)
  : EngineResult Z * CursorBlitter :=
  let next_gen := match cursor b with Some c => uwrap 64 (cc_generation c + 1) | None => 1 end in
  match create with
  | Err e => (Err e, b)
  | Ok _ =>
      (Ok next_gen,
       {| target_w := target_w b; target_h := target_h b;
          cursor := Some {| cc_width := ss_width shape; cc_height := ss_height shape;
                            cc_hot_x := ss_hot_x shape; cc_hot_y := ss_hot_y shape;
                            cc_generation := next_gen; cc_texture := ss_pixels shape |} |})
  end.

(** What is drawn: the sprite on the corners.  [map] is the outcome of mapping
    the vertex buffer. *)
Definition composite (map : EngineResult unit) (pos_x pos_y : Z) (b : CursorBlitter)
  : EngineResult (option (list Z * list Vertex)) :=
  match cursor b with
  | None => Ok None
  | Some c =>
      let bitmap_x := swrap 32 (pos_x - cc_hot_x c) in
      let bitmap_y := swrap 32 (pos_y - cc_hot_y c) in
      match compute_clipped_quad bitmap_x bitmap_y (cc_width c) (cc_height c) (target_w b) (target_h b) with
      | None => Ok None
      | Some quad => _ ← map; Ok (Some (cc_texture c, quad_vertices quad))
      end
  end.

Definition current_shape_dims (b : CursorBlitter) : option (Z * Z) :=
  (fun c => (cc_width c, cc_height c)) <$> cursor b.

(** * What is drawn *)

(** An extent of a Direct3D 11 texture. *)
Definition extent_ok (n : Z) : Prop := 1 <= n <= 16384.

(** Far from the ends of [i32]. *)
Definition place_ok (n : Z) : Prop := - 2 ^ 30 <= n <= 2 ^ 30.

(** A pixel of the sprite, placed at [origin], that is on the target. *)
Definition visible (origin extent target p : Z) : Prop :=
  origin <= p < origin + extent /\ 0 <= p < target.

Lemma visible_span origin extent target p :
  visible origin extent target p <-> Z.max origin 0 <= p < Z.min (origin + extent) target.
Proof. unfold visible. lia. Qed.

Lemma uv_start origin extent : extent_ok extent -> uv origin origin extent = f32_zero.
Proof.
  intros He. destruct (extent_finite extent) as (m & e & E); [unfold extent_ok in He; lia |]. unfold uv. by rewrite Z.sub_diag, E.
Qed.

Lemma uv_end origin extent : extent_ok extent -> uv (origin + extent) origin extent = f32_one.
Proof.
  intros He. destruct (extent_finite extent) as (m & e & E); [unfold extent_ok in He; lia |]. unfold uv, extent_ok in *.
  rewrite Z.add_simpl_l, swrap_small by urange. rewrite E. apply f32_div_self.
Qed.

Lemma ndc_x_edges extent : extent_ok extent ->
  ndc_x 0 extent = f32_of_Z (-1) /\ ndc_x extent extent = f32_of_Z 1.
Proof.
  intros He. destruct (extent_finite extent) as (m & e & E); [unfold extent_ok in He; lia |]. unfold ndc_x. rewrite E.
  split; [done |]. rewrite f32_div_self. vm_compute. reflexivity.
Qed.

Lemma ndc_y_edges extent : extent_ok extent ->
  ndc_y 0 extent = f32_of_Z 1 /\ ndc_y extent extent = f32_of_Z (-1).
Proof.
  intros He. destruct (extent_finite extent) as (m & e & E); [unfold extent_ok in He; lia |]. unfold ndc_y. rewrite E.
  split; [done |]. rewrite f32_div_self. vm_compute. reflexivity.
Qed.

(** A quad that covers the pixels from [l] to [r] and from [t] to [b]: its
    corners and texture coordinates are theirs, and exact at the edges of the
    target and of the sprite. *)
Record covers (x y w h tw th l r t b : Z) (q : ClippedQuad) : Prop := {
  cov_ndc : ndc_l q = ndc_x l tw /\ ndc_r q = ndc_x r tw /\ ndc_t q = ndc_y t th /\ ndc_b q = ndc_y b th;
  cov_uv : u_l q = uv l x w /\ u_r q = uv r x w /\ v_t q = uv t y h /\ v_b q = uv b y h;
  cov_left : (l = 0 -> ndc_l q = f32_of_Z (-1)) /\ (l = x -> u_l q = f32_zero);
  cov_right : (r = tw -> ndc_r q = f32_of_Z 1) /\ (r = x + w -> u_r q = f32_one);
  cov_top : (t = 0 -> ndc_t q = f32_of_Z 1) /\ (t = y -> v_t q = f32_zero);
  cov_bottom : (b = th -> ndc_b q = f32_of_Z (-1)) /\ (b = y + h -> v_b q = f32_one);
}.

Definition quad_spec (x y w h tw th : Z) (o : option ClippedQuad) : Prop :=
  match o with
  | None => forall px py, ~ (visible x w tw px /\ visible y h th py)
  | Some q => exists l r t b, covers x y w h tw th l r t b q /\ l < r /\ t < b
      /\ forall px py, visible x w tw px /\ visible y h th py <-> l <= px < r /\ t <= py < b
  end.

Lemma quad_of_span x y w h tw th : place_ok x -> place_ok y ->
  extent_ok w -> extent_ok h -> extent_ok tw -> extent_ok th ->
  quad_spec x y w h tw th (compute_clipped_quad x y w h tw th).
Proof.
  intros Hx Hy Hw Hh Htw Hth. unfold compute_clipped_quad. cbv zeta. unfold place_ok, extent_ok in *.
  rewrite (swrap_small 32 w), (swrap_small 32 h), (swrap_small 32 tw), (swrap_small 32 th) by urange.
  rewrite (swrap_small 32 (x + w)), (swrap_small 32 (y + h)) by urange.
  destruct (Z.leb_spec (Z.min (x + w) tw) (Z.max x 0)); cbn [orb quad_spec];
    [intros px py; rewrite !visible_span; lia |].
  destruct (Z.leb_spec (Z.min (y + h) th) (Z.max y 0)); cbn [quad_spec];
    [intros px py; rewrite !visible_span; lia |].
  exists (Z.max x 0), (Z.min (x + w) tw), (Z.max y 0), (Z.min (y + h) th).
  split_and!; [| lia | lia | intros px py; rewrite !visible_span; tauto].
  pose proof (ndc_x_edges tw Htw) as (Hl & Hr). pose proof (ndc_y_edges th Hth) as (Ht & Hb).
  constructor; cbn; try done; split; intros ->; try done; auto using uv_start, uv_end.
Qed.

(** C29. The cursor is drawn where it is, clipped to the target: nothing is
    drawn when no shape is cached or no pixel of the sprite, placed with its
    hotspot at the pointer, is on the target; otherwise the quad covers
    exactly the pixels of the sprite that are, in strip order, with texture
    coordinates 0 and 1 at the sprite's own edges and -1 and 1 at the
    target's. *)
Theorem cursor_drawn_exact b pos_x pos_y :
  extent_ok (target_w b) -> extent_ok (target_h b) ->
  match composite (Ok tt) pos_x pos_y b, cursor b with
  | Err _, _ => False
  | Ok None, None => True
  | Ok (Some _), None => False
  | Ok drawn, Some c =>
      extent_ok (cc_width c) -> extent_ok (cc_height c) ->
      place_ok (pos_x - cc_hot_x c) -> place_ok (pos_y - cc_hot_y c) ->
      exists o, quad_spec (pos_x - cc_hot_x c) (pos_y - cc_hot_y c) (cc_width c) (cc_height c)
                  (target_w b) (target_h b) o
        /\ drawn = (fun q => (cc_texture c, quad_vertices q)) <$> o
  end.
Proof.
  intros Htw Hth. unfold composite. destruct (cursor b) as [c|]; [| done].
  destruct (compute_clipped_quad _ _ _ _ _ _) as [q|] eqn:E; cbn.
  all: intros Hw Hh Hx Hy; rewrite !(swrap_small 32) in E by (unfold place_ok in *; urange).
  all: pose proof (quad_of_span _ _ _ _ _ _ Hx Hy Hw Hh Htw Hth) as H; rewrite E in H; eauto.
Qed.

(** A shape that cannot be uploaded leaves the sprite as it was; one that can
    replaces it and is numbered. *)
Lemma update_shape_exact create shape b :
  match update_shape create shape b with
  | (Err e, b') => create = Err e /\ b' = b
  | (Ok gen, b') => current_shape_dims b' = Some (ss_width shape, ss_height shape)
      /\ target_w b' = target_w b /\ target_h b' = target_h b
      /\ gen = match cursor b with Some c => uwrap 64 (cc_generation c + 1) | None => 1 end
  end.
Proof. unfold update_shape. destruct create as [[]|]; [by split_and! | done]. Qed.

Definition demo_blitter : CursorBlitter :=
  {| target_w := 1920; target_h := 1080;
     cursor := Some {| cc_width := 32; cc_height := 32; cc_hot_x := 10; cc_hot_y := 10;
                       cc_generation := 1; cc_texture := [1; 2] |} |}.

Lemma cursor_drawn_exact_witness : exists o,
  quad_spec (-10) (-10) 32 32 1920 1080 o
  /\ Some ([1; 2], quad_vertices
       {| ndc_l := f32_of_Z (-1); ndc_r := ndc_x 22 1920; ndc_t := f32_of_Z 1; ndc_b := ndc_y 22 1080;
          u_l := f32_div (f32_of_Z 10) (f32_of_Z 32); u_r := f32_one;
          v_t := f32_div (f32_of_Z 10) (f32_of_Z 32); v_b := f32_one |})
     = (fun q => ([1; 2], quad_vertices q)) <$> o.
Proof.
  pose proof (cursor_drawn_exact demo_blitter 0 0) as H.
  unfold extent_ok, place_ok in H. cbn [target_w target_h demo_blitter cursor cc_width cc_height cc_hot_x cc_hot_y] in H.
  specialize (H ltac:(lia) ltac:(lia)).
  destruct H as (o & Ho & Hd); try (pow2; lia). exists o. split; [exact Ho |].
  etransitivity; [| exact Hd]. vm_compute. reflexivity.
Defined.
