(* ===== verification/Gpu.v ===== *)
(** The drawing calls of the two blitters ([crates/penflow-core/src/cursor_blit.rs],
    [tonemap_blit.rs]): the commands that they give to the immediate context
    they share.  Direct3D is not modelled: a context is the commands it was
    given, and what is shown is which of them every draw comes after. *)
From stdpp Require Import list.
From S2P Require Import Prelude Engine Calls F32 CursorQuad.

(** * The immediate context *)

(** An object of Direct3D, by its number. *)
Definition Handle : Type := Z.

(** The compiled programs: two vertex shaders and two pixel shaders. *)
Inductive VertexShader := QuadVs | TriangleVs.

Inductive PixelShader := SpritePs | TonemapPs.

(** What a shader samples: a sprite, or a frame read in a format. *)
Inductive Source := SrcSprite (pixels : list Z) | SrcFrame (texture : Handle) (format : Z).

(** [ConvertParams] without its padding. *)
Record ConvertParams := { input_color_space : Z; scrgb_sdr_scale : f32 }.

Inductive BufferData := VertexData (vs : list Vertex) | ParamData (p : ConvertParams).

Inductive Topology := TriangleList | TriangleStrip.

(** A call on the context; [Upload] is a map that discards, a copy and an
    unmap. *)
Inductive Cmd :=
| Upload (b : Handle) (d : BufferData)
| OMSetRenderTargets (t : Handle)
| OMSetBlendState (b : option Handle)
| RSSetState (r : Handle)
| RSSetViewports (width height : f32)
| IASetInputLayout (l : option Handle)
| IASetPrimitiveTopology (t : Topology)
| IASetVertexBuffers (b : Handle)
| VSSetShader (v : VertexShader)
| PSSetShader (p : PixelShader)
| PSSetShaderResources (s : option Source)
| PSSetSamplers (s : Handle)
| PSSetConstantBuffers (b : Handle)
| Draw (vertices : nat).

(** The commands that a context was given. *)
Definition Gpu : Type := list Cmd.

Definition exec_cmd (g : Gpu) (x : Cmd) : Gpu := g ++ [x].

Definition exec_all (xs : list Cmd) (g : Gpu) : Gpu := foldl exec_cmd g xs.

(** * The cursor *)

(** The objects of a cursor blitter; the sprite is [CursorQuad]'s. *)
Record SpriteObjects := {
  so_input_layout : Handle; so_vertex_buffer : Handle; so_sampler : Handle; so_blend_state : Handle;
  so_rasterizer : Handle; so_target_rtv : Handle }.

Definition sprite_cmds (o : SpriteObjects) (w h : Z) (pixels : list Z) (vs : list Vertex) : list Cmd :=
  [Upload (so_vertex_buffer o) (VertexData vs);
   OMSetRenderTargets (so_target_rtv o); OMSetBlendState (Some (so_blend_state o));
   RSSetState (so_rasterizer o); RSSetViewports (f32_of_Z w) (f32_of_Z h);
   IASetInputLayout (Some (so_input_layout o)); IASetPrimitiveTopology TriangleStrip;
   IASetVertexBuffers (so_vertex_buffer o); VSSetShader QuadVs; PSSetShader SpritePs;
   PSSetShaderResources (Some (SrcSprite pixels)); PSSetSamplers (so_sampler o); Draw 4;
   PSSetShaderResources None].

(** [CursorBlitter::composite]; [map] is the outcome of mapping the vertex
    buffer. *)
Definition composite_gpu (o : SpriteObjects) (b : CursorBlitter) (map : EngineResult unit) (pos_x pos_y : Z)
    (g : Gpu) : EngineResult unit * Gpu :=
  match composite map pos_x pos_y b with
  | Err e => (Err e, g)
  | Ok None => (Ok tt, g)
  | Ok (Some (pixels, vs)) => (Ok tt, exec_all (sprite_cmds o (target_w b) (target_h b) pixels vs) g)
  end.

(** * The tonemap *)

Inductive InputColorSpace := SdrSrgb | ScrgbLinear | Hdr10Pq.

Definition color_space_code (cs : InputColorSpace) : Z :=
  match cs with SdrSrgb => 0 | ScrgbLinear => 1 | Hdr10Pq => 2 end.

(** The constants of [DXGI_FORMAT]. *)
Record DxgiFormats := {
  DXGI_FORMAT_B8G8R8A8_UNORM : Z; DXGI_FORMAT_R8G8B8A8_UNORM : Z;
  DXGI_FORMAT_R16G16B16A16_FLOAT : Z; DXGI_FORMAT_R10G10B10A2_UNORM : Z }.

Record TonemapBlitter := {
  tb_target_w : Z; tb_target_h : Z; tb_sampler : Handle; tb_rasterizer : Handle;
  tb_target_rtv : Handle; tb_constant_buffer : Handle; tb_scrgb_sdr_scale : f32 }.

Section Tonemap.
Context (fmts : DxgiFormats).

Definition input_color_space_for (fmt : Z) : option InputColorSpace :=
  if fmt =? DXGI_FORMAT_B8G8R8A8_UNORM fmts then Some SdrSrgb
  else if fmt =? DXGI_FORMAT_R8G8B8A8_UNORM fmts then Some SdrSrgb
  else if fmt =? DXGI_FORMAT_R16G16B16A16_FLOAT fmts then Some ScrgbLinear
  else if fmt =? DXGI_FORMAT_R10G10B10A2_UNORM fmts then Some Hdr10Pq
  else None.

Definition set_scrgb_sdr_scale (scale : f32) (b : TonemapBlitter) : TonemapBlitter :=
  {| tb_target_w := tb_target_w b; tb_target_h := tb_target_h b; tb_sampler := tb_sampler b;
     tb_rasterizer := tb_rasterizer b; tb_target_rtv := tb_target_rtv b;
     tb_constant_buffer := tb_constant_buffer b; tb_scrgb_sdr_scale := scale |}.

Definition tonemap_params (b : TonemapBlitter) (cs : InputColorSpace) : ConvertParams :=
  {| input_color_space := color_space_code cs; scrgb_sdr_scale := tb_scrgb_sdr_scale b |}.

Definition tonemap_cmds (b : TonemapBlitter) (frame fmt : Z) : list Cmd :=
  [OMSetRenderTargets (tb_target_rtv b); OMSetBlendState None; RSSetState (tb_rasterizer b);
   RSSetViewports (f32_of_Z (tb_target_w b)) (f32_of_Z (tb_target_h b));
   IASetInputLayout None; IASetPrimitiveTopology TriangleList; VSSetShader TriangleVs; PSSetShader TonemapPs;
   PSSetShaderResources (Some (SrcFrame frame fmt)); PSSetSamplers (tb_sampler b);
   PSSetConstantBuffers (tb_constant_buffer b); Draw 3; PSSetShaderResources None].

(** [TonemapBlitter::convert]; [map] and [view] are the outcomes of mapping
    the constant buffer and of creating the view of the frame. *)
Definition convert_gpu (b : TonemapBlitter) (map view : EngineResult unit) (frame fmt : Z) (g : Gpu)
  : EngineResult unit * Gpu :=
  match input_color_space_for fmt with
  | None => (Err NotInitialized, g)
  | Some cs =>
      match map with
      | Err e => (Err e, g)
      | Ok _ =>
          let g := exec_cmd g (Upload (tb_constant_buffer b) (ParamData (tonemap_params b cs))) in
          match view with
          | Err e => (Err e, g)
          | Ok _ => (Ok tt, exec_all (tonemap_cmds b frame fmt) g)
          end
      end
  end.

Definition dimensions (b : TonemapBlitter) : Z * Z := (tb_target_w b, tb_target_h b).

(** * Any sequence of calls *)

(** A call of the pipeline, with the blitter as it is then. *)
Inductive BlitOp :=
| BComposite (o : SpriteObjects) (b : CursorBlitter) (map : EngineResult unit) (pos_x pos_y : Z)
| BConvert (b : TonemapBlitter) (map view : EngineResult unit) (frame fmt : Z).

Definition blit (op : BlitOp) (g : Gpu) : EngineResult unit * Gpu :=
  match op with
  | BComposite o b map x y => composite_gpu o b map x y g
  | BConvert b map view frame fmt => convert_gpu b map view frame fmt g
  end.

Definition blit_all (ops : list BlitOp) (g : Gpu) : Gpu := foldl (fun g op => (blit op g).2) g ops.

(** ** What a draw comes after *)

(** What a command sets. *)
Inductive Slot :=
| Target | Blend | Raster | Viewport | Layout | Primitives | VertexBuffer | VertexStage | PixelStage
| Resource | Sampler | Constants | Contents (b : Handle).

#[export] Instance Slot_eq_dec : EqDecision Slot.
Proof. solve_decision. Defined.

Definition sets (x : Cmd) : option Slot :=
  match x with
  | Upload b _ => Some (Contents b)
  | OMSetRenderTargets _ => Some Target
  | OMSetBlendState _ => Some Blend
  | RSSetState _ => Some Raster
  | RSSetViewports _ _ => Some Viewport
  | IASetInputLayout _ => Some Layout
  | IASetPrimitiveTopology _ => Some Primitives
  | IASetVertexBuffers _ => Some VertexBuffer
  | VSSetShader _ => Some VertexStage
  | PSSetShader _ => Some PixelStage
  | PSSetShaderResources _ => Some Resource
  | PSSetSamplers _ => Some Sampler
  | PSSetConstantBuffers _ => Some Constants
  | Draw _ => None
  end.

(** The last command on a slot. *)
Definition in_force (s : Slot) (g : Gpu) : option Cmd :=
  foldl (fun last x => if bool_decide (sets x = Some s) then Some x else last) None g.

(** The corners of a strip, read through a layout, or the whole viewport. *)
Inductive Shape := Strip (layout : Handle) (vs : list Vertex) | WholeViewport.

(** A draw, with the settings it is made under. *)
Record Pass := {
  pa_target : Handle; pa_blend : option Handle; pa_raster : Handle; pa_viewport : f32 * f32;
  pa_shape : Shape; pa_shader : PixelShader; pa_source : Source; pa_sampler : Handle;
  pa_params : option ConvertParams }.

(** The vertices come from the vertex buffer, or from the vertex numbers. *)
Definition shape_set (g : Gpu) (n : nat) (shape : Shape) : Prop :=
  match shape with
  | Strip layout vs =>
      n = length vs /\ in_force VertexStage g = Some (VSSetShader QuadVs)
      /\ in_force Layout g = Some (IASetInputLayout (Some layout))
      /\ in_force Primitives g = Some (IASetPrimitiveTopology TriangleStrip)
      /\ exists b, in_force VertexBuffer g = Some (IASetVertexBuffers b)
           /\ in_force (Contents b) g = Some (Upload b (VertexData vs))
  | WholeViewport =>
      n = 3%nat /\ in_force VertexStage g = Some (VSSetShader TriangleVs)
      /\ in_force Layout g = Some (IASetInputLayout None)
      /\ in_force Primitives g = Some (IASetPrimitiveTopology TriangleList)
  end.

(** The constants of the tonemap's shader; the sprite's has none. *)
Definition params_set (g : Gpu) (shader : PixelShader) (params : option ConvertParams) : Prop :=
  match shader, params with
  | SpritePs, None => True
  | TonemapPs, Some q =>
      exists b, in_force Constants g = Some (PSSetConstantBuffers b)
        /\ in_force (Contents b) g = Some (Upload b (ParamData q))
  | _, _ => False
  end.

Definition drawn_under (g : Gpu) (n : nat) (p : Pass) : Prop :=
  in_force Target g = Some (OMSetRenderTargets (pa_target p))
  /\ in_force Blend g = Some (OMSetBlendState (pa_blend p))
  /\ in_force Raster g = Some (RSSetState (pa_raster p))
  /\ in_force Viewport g = Some (RSSetViewports (pa_viewport p).1 (pa_viewport p).2)
  /\ shape_set g n (pa_shape p)
  /\ in_force PixelStage g = Some (PSSetShader (pa_shader p))
  /\ in_force Resource g = Some (PSSetShaderResources (Some (pa_source p)))
  /\ in_force Sampler g = Some (PSSetSamplers (pa_sampler p))
  /\ params_set g (pa_shader p) (pa_params p).

(** The draws among commands that follow the ones of [g]. *)
Fixpoint draws (g : Gpu) (xs : list Cmd) (ps : list Pass) : Prop :=
  match xs with
  | [] => ps = []
  | x :: xs' =>
      match x with
      | Draw n => exists p ps', ps = p :: ps' /\ drawn_under g n p /\ draws (exec_cmd g x) xs' ps'
      | _ => draws (exec_cmd g x) xs' ps
      end
  end.

(** No frame or sprite is bound as a source. *)
Definition source_free (g : Gpu) : Prop :=
  in_force Resource g = None \/ in_force Resource g = Some (PSSetShaderResources None).

(** What a call paints, from its own arguments alone. *)
Definition sprite_pass (o : SpriteObjects) (b : CursorBlitter) (pixels : list Z) (vs : list Vertex) : Pass :=
  {| pa_target := so_target_rtv o; pa_blend := Some (so_blend_state o); pa_raster := so_rasterizer o;
     pa_viewport := (f32_of_Z (target_w b), f32_of_Z (target_h b)); pa_shape := Strip (so_input_layout o) vs;
     pa_shader := SpritePs; pa_source := SrcSprite pixels; pa_sampler := so_sampler o; pa_params := None |}.

Definition tonemap_pass (b : TonemapBlitter) (cs : InputColorSpace) (frame fmt : Z) : Pass :=
  {| pa_target := tb_target_rtv b; pa_blend := None; pa_raster := tb_rasterizer b;
     pa_viewport := (f32_of_Z (tb_target_w b), f32_of_Z (tb_target_h b)); pa_shape := WholeViewport;
     pa_shader := TonemapPs; pa_source := SrcFrame frame fmt; pa_sampler := tb_sampler b;
     pa_params := Some (tonemap_params b cs) |}.

Definition painted (op : BlitOp) : list Pass :=
  match op with
  | BComposite o b map x y =>
      match composite map x y b with Ok (Some (pixels, vs)) => [sprite_pass o b pixels vs] | _ => [] end
  | BConvert b map view frame fmt =>
      match input_color_space_for fmt with
      | Some cs => if is_ok map && is_ok view then [tonemap_pass b cs frame fmt] else []
      | None => []
      end
  end.

(** The outcome, from the arguments alone. *)
Definition blit_result (op : BlitOp) : EngineResult unit :=
  match op with
  | BComposite _ b map x y => _ ← composite map x y b; Ok tt
  | BConvert _ map view _ fmt =>
      match input_color_space_for fmt with Some _ => _ ← map; view | None => Err NotInitialized end
  end.

(** The commands of one call. *)
Definition blit_cmds (op : BlitOp) : list Cmd :=
  match op with
  | BComposite o b map x y =>
      match composite map x y b with
      | Ok (Some (pixels, vs)) => sprite_cmds o (target_w b) (target_h b) pixels vs
      | _ => []
      end
  | BConvert b map view frame fmt =>
      match input_color_space_for fmt, map, view with
      | Some cs, Ok _, Ok _ => Upload (tb_constant_buffer b) (ParamData (tonemap_params b cs)) :: tonemap_cmds b frame fmt
      | Some cs, Ok _, Err _ => [Upload (tb_constant_buffer b) (ParamData (tonemap_params b cs))]
      | _, _, _ => []
      end
  end.

Lemma exec_all_app xs : forall g, exec_all xs g = g ++ xs.
Proof.
  unfold exec_all. induction xs as [|x xs IH]; intros g; cbn [foldl]; [by rewrite app_nil_r |].
  rewrite IH. unfold exec_cmd. by rewrite <- app_assoc.
Qed.

Lemma in_force_app s g xs : in_force s (g ++ xs) =
  match in_force s xs with Some x => Some x | None => in_force s g end.
Proof.
  unfold in_force. induction xs as [|x xs IH] using rev_ind; [by rewrite app_nil_r |].
  rewrite app_assoc, !foldl_snoc, IH. by destruct (bool_decide _).
Qed.

(** Whatever came before, the last command on a slot is the last of these, if
    one of these is on it. *)
Lemma in_force_own s g xs x : in_force s xs = Some x -> in_force s (g ++ xs) = Some x.
Proof. intros H. by rewrite in_force_app, H. Qed.

Lemma in_force_upload b d xs : Forall (fun x => sets x <> Some (Contents b)) xs ->
  in_force (Contents b) (Upload b d :: xs) = Some (Upload b d).
Proof.
  intros H. change (Upload b d :: xs) with ([Upload b d] ++ xs). rewrite in_force_app.
  replace (in_force (Contents b) xs) with (@None Cmd).
  - unfold in_force. cbn. by rewrite bool_decide_true.
  - unfold in_force. induction xs as [|x xs IH] using rev_ind; [done |]. apply Forall_app in H as (H & Hx).
    rewrite foldl_snoc, bool_decide_false by (by apply Forall_inv in Hx). by apply IH.
Qed.

Lemma draws_app g xs ys ps qs : draws g xs ps -> draws (g ++ xs) ys qs -> draws g (xs ++ ys) (ps ++ qs).
Proof.
  revert g ps. induction xs as [|x xs IH]; intros g ps.
  - cbn [draws app]. rewrite app_nil_r. by intros ->.
  - assert (forall ps, draws (exec_cmd g x) xs ps -> draws (g ++ x :: xs) ys qs ->
      draws (exec_cmd g x) (xs ++ ys) (ps ++ qs)) as Hnext.
    { intros ps' H Hys. apply IH; [done |]. unfold exec_cmd. by rewrite <- app_assoc. }
    destruct x; cbn [draws app]; try by apply Hnext.
    intros (p & ps' & -> & Hp & H) Hys. exists p, (ps' ++ qs). split; [done |]. split; [done |]. by apply Hnext.
Qed.

(** A draw at the end of commands that set all it needs. *)
Lemma draws_one g xs n p (rest : list Cmd) : Forall (fun x => sets x <> None) xs -> drawn_under (g ++ xs) n p ->
  Forall (fun x => sets x <> None) rest -> draws g (xs ++ Draw n :: rest) [p].
Proof.
  intros Hxs Hp Hrest.
  assert (forall ys g, Forall (fun x => sets x <> None) ys -> draws g ys []) as Hnone.
  { induction ys as [|y ys IH]; intros g'; [done |]. intros (Hy & Hys)%Forall_cons_1.
    destruct y; cbn [draws]; try (by apply IH); done. }
  apply (draws_app g xs _ [] [p]); [by apply Hnone |]. cbn [draws]. exists p, []. split_and!; [done | done |].
  by apply Hnone.
Qed.

Lemma sprite_draws o b pixels vs g : length vs = 4%nat ->
  draws g (sprite_cmds o (target_w b) (target_h b) pixels vs) [sprite_pass o b pixels vs].
Proof.
  intros Hl. eapply (draws_one g (take 12 (sprite_cmds o (target_w b) (target_h b) pixels vs)) 4); [by repeat constructor | | by repeat constructor].
  unfold drawn_under, shape_set, params_set. cbn [pa_target pa_blend pa_raster pa_viewport pa_shape pa_shader pa_source pa_sampler pa_params sprite_pass fst snd].
  split_and!; try (by apply in_force_own); [done | | done].
  exists (so_vertex_buffer o). split; [by apply in_force_own |]. apply in_force_own.
  apply (in_force_upload (so_vertex_buffer o)). by repeat constructor.
Qed.

Lemma tonemap_draws b cs frame fmt g :
  draws g (Upload (tb_constant_buffer b) (ParamData (tonemap_params b cs)) :: tonemap_cmds b frame fmt)
    [tonemap_pass b cs frame fmt].
Proof.
  eapply (draws_one g (Upload (tb_constant_buffer b) (ParamData (tonemap_params b cs)) :: take 11 (tonemap_cmds b frame fmt)) 3);
    [by repeat constructor | | by repeat constructor].
  unfold drawn_under, shape_set, params_set. cbn [pa_target pa_blend pa_raster pa_viewport pa_shape pa_shader pa_source pa_sampler pa_params tonemap_pass fst snd].
  split_and!; try (by apply in_force_own); [done |].
  exists (tb_constant_buffer b). split; [by apply in_force_own |]. apply in_force_own.
  apply (in_force_upload (tb_constant_buffer b)). by repeat constructor.
Qed.

Lemma composite_corners map x y b pixels vs : composite map x y b = Ok (Some (pixels, vs)) -> length vs = 4%nat.
Proof.
  unfold composite. destruct (cursor b); [| done]. destruct (compute_clipped_quad _ _ _ _ _ _); [| done].
  destruct map; cbn; [| done]. by intros [= _ <-].
Qed.

(** One call: its outcome, its commands and its draws, and a source is never
    left bound. *)
Lemma blit_exact op g : blit op g = (blit_result op, g ++ blit_cmds op)
  /\ draws g (blit_cmds op) (painted op)
  /\ (source_free g -> source_free (g ++ blit_cmds op)).
Proof.
  unfold source_free. rewrite in_force_app.
  destruct op as [o b map x y | b map view frame fmt]; cbn [blit blit_result blit_cmds painted].
  - unfold composite_gpu. destruct (composite map x y b) as [[[pixels vs]|]|e] eqn:E;
      [| by rewrite app_nil_r..].
    apply composite_corners in E. rewrite exec_all_app. split_and!; [done | by apply sprite_draws | by right].
  - unfold convert_gpu. destruct (input_color_space_for fmt) as [cs|]; [| by rewrite app_nil_r].
    destruct map as [[]|e]; [| by rewrite app_nil_r]. destruct view as [[]|e]; cbn [is_ok andb].
    + rewrite exec_all_app. unfold exec_cmd. rewrite <- app_assoc. split_and!; [done | apply tonemap_draws | by right].
    + split_and!; [done.. |]. unfold in_force. cbn. by rewrite bool_decide_false.
Qed.

Lemma blit_all_app ops : forall g, blit_all ops g = g ++ concat (blit_cmds <$> ops).
Proof.
  unfold blit_all. induction ops as [|op ops IH]; intros g; cbn [foldl]; [by rewrite app_nil_r |].
  destruct (blit_exact op g) as (-> & _). rewrite IH. cbn [fmap list_fmap concat snd]. by rewrite app_assoc.
Qed.

End Tonemap.

Definition demo_formats : DxgiFormats :=
  {| DXGI_FORMAT_B8G8R8A8_UNORM := 87; DXGI_FORMAT_R8G8B8A8_UNORM := 28;
     DXGI_FORMAT_R16G16B16A16_FLOAT := 10; DXGI_FORMAT_R10G10B10A2_UNORM := 24 |}.

Definition demo_sprite : SpriteObjects :=
  {| so_input_layout := 11; so_vertex_buffer := 12; so_sampler := 13; so_blend_state := 14;
     so_rasterizer := 15; so_target_rtv := 16 |}.

Definition demo_tonemap : TonemapBlitter :=
  {| tb_target_w := 1920; tb_target_h := 1080; tb_sampler := 21; tb_rasterizer := 22; tb_target_rtv := 23;
     tb_constant_buffer := 24; tb_scrgb_sdr_scale := f32_one |}.

(** A frame in scRGB, the cursor over it, a frame in a format that is not
    supported, and another frame. *)
Definition demo_blits : list BlitOp :=
  [BConvert demo_tonemap (Ok tt) (Ok tt) 100 10; BComposite demo_sprite demo_blitter (Ok tt) 0 0;
   BConvert demo_tonemap (Ok tt) (Ok tt) 101 2; BConvert demo_tonemap (Ok tt) (Ok tt) 102 87].

(** After a draw of somebody else's. *)
Definition demo_used : Gpu := [OMSetBlendState (Some 99); VSSetShader QuadVs; PSSetShaderResources None; Draw 6].

