(* ===== verification/Shader.v ===== *)
(** The tonemap shader of [crates/penflow-core/src/tonemap_blit.rs]: the two
    HLSL programs in exact arithmetic.  The constants and the formulas are the
    text's; how a GPU rounds them is not modelled. *)
From Stdlib Require Import Reals Lra Psatz.
From S2P Require Import Prelude.

(** * The programs *)

(** HLSL's [pow] for a base that is not negative and a positive exponent. *)
Definition pow (x y : R) : R := if Req_dec_T x 0 then 0%R else Rpower x y.

Definition saturate (x : R) : R := Rmax 0 (Rmin x 1).

(** A [float3], and a pixel. *)
Record Rgb := { red : R; green : R; blue : R }.

Definition rgb_map (f : R -> R) (c : Rgb) : Rgb :=
  {| red := f (red c); green := f (green c); blue := f (blue c) |}.

(** The denominator of the film curve, and of the PQ curve. *)
Definition aces_den (x : R) : R := (x * (2.43 * x + 0.59) + 0.14)%R.

Definition pq_den (m : R) : R := (18.8515625 - 18.6875 * m)%R.

Definition ToneMapACESFilmic (x : R) : R := saturate (x * (2.51 * x + 0.03) / aces_den x)%R.

Definition ST2084ToLinear (v : R) : R :=
  let m := pow (Rabs v) (1.0 / 78.84375) in
  pow (Rmax (m - 0.8359375) 0.0 / pq_den m) (1.0 / 0.1593017578).

Definition LinearToSRGB (c : R) : R := pow (Rabs c) (1.0 / 2.2).

(** [mul(REC2020_TO_REC709, c)]. *)
Definition REC2020_TO_REC709 (c : Rgb) : Rgb :=
  {| red := 1.6605 * red c + -0.5876 * green c + -0.0728 * blue c;
     green := -0.1246 * red c + 1.1329 * green c + -0.0083 * blue c;
     blue := -0.0182 * red c + -0.1006 * green c + 1.1187 * blue c |}%R.

(** The divisor of the scRGB branch. *)
Definition sdr_divisor (scrgb_sdr_scale : R) : R := Rmax scrgb_sdr_scale 0.0001.

Definition sdr_linear (input_color_space : Z) (scrgb_sdr_scale : R) (src : Rgb) : Rgb :=
  if input_color_space =? 1 then rgb_map (fun c => saturate (c / sdr_divisor scrgb_sdr_scale)) src
  else
    let linear_bt2020_abs := rgb_map ST2084ToLinear src in
    let linear_bt2020_scrgb := rgb_map (fun c => c * (10000.0 / 80.0))%R linear_bt2020_abs in
    rgb_map ToneMapACESFilmic (REC2020_TO_REC709 linear_bt2020_scrgb).

(** Colour and alpha. *)
Definition ps_main (input_color_space : Z) (scrgb_sdr_scale : R) (src : Rgb * R) : Rgb * R :=
  if input_color_space =? 0 then src
  else (rgb_map LinearToSRGB (sdr_linear input_color_space scrgb_sdr_scale src.1), 1.0%R).

(** A vertex of the full-screen triangle: position and texture coordinates. *)
Definition vs_main (vid : Z) : (Z * Z) * (Z * Z) :=
  let ndc_x := Z.land (Z.shiftl vid 1) 2 in
  let ndc_y := Z.land vid 2 in
  ((ndc_x * 2 + -1, ndc_y * -2 + 1), (ndc_x, ndc_y)).

(** * Their arithmetic *)

Lemma pow_range x y : (0 <= x <= 1)%R -> (0 < y)%R -> (0 <= pow x y <= 1)%R.
Proof.
  intros Hx Hy. unfold pow. destruct (Req_dec_T x 0); [lra |].
  unfold Rpower. split; [left; apply exp_pos |].
  rewrite <- exp_0. assert (Hl : (ln x <= 0)%R).
  { rewrite <- ln_1. destruct (Req_dec_T x 1) as [->|]; [lra |]. left. apply ln_increasing; lra. }
  assert (H : (y * ln x <= 0)%R) by nra.
  destruct (Req_dec_T (y * ln x) 0) as [E|]; [rewrite E; lra |]. left. apply exp_increasing. lra.
Qed.

Lemma pow_mono x x' y : (0 <= x <= x')%R -> (0 < y)%R -> (pow x y <= pow x' y)%R.
Proof.
  intros Hx Hy. unfold pow. destruct (Req_dec_T x 0), (Req_dec_T x' 0); [lra | | lra |].
  - left. apply exp_pos.
  - apply Rle_Rpower_l; lra.
Qed.

Lemma pow_one y : pow 1 y = 1%R.
Proof. unfold pow. destruct (Req_dec_T 1 0); [lra |]. unfold Rpower. by rewrite ln_1, Rmult_0_r, exp_0. Qed.

Lemma saturate_range x : (0 <= saturate x <= 1)%R.
Proof. unfold saturate, Rmax, Rmin. repeat destruct (Rle_dec _ _); lra. Qed.

Lemma saturate_mono x y : (x <= y)%R -> (saturate x <= saturate y)%R.
Proof. unfold saturate, Rmax, Rmin. intros H. repeat destruct (Rle_dec _ _); lra. Qed.

Lemma srgb_range c : (0 <= c <= 1)%R -> (0 <= LinearToSRGB c <= 1)%R.
Proof. intros H. unfold LinearToSRGB. rewrite Rabs_right by lra. apply pow_range; lra. Qed.

Lemma srgb_mono c d : (0 <= c <= d)%R -> (LinearToSRGB c <= LinearToSRGB d)%R.
Proof. intros H. unfold LinearToSRGB. rewrite !Rabs_right by lra. apply pow_mono; lra. Qed.

(** The film curve divides by a positive number, also outside the gamut. *)
Lemma aces_den_pos x : (0 < aces_den x)%R.
Proof. unfold aces_den. nra. Qed.

Lemma aces_mono x y : (0 <= x <= y)%R -> (ToneMapACESFilmic x <= ToneMapACESFilmic y)%R.
Proof.
  intros H. unfold ToneMapACESFilmic. apply saturate_mono.
  pose proof (aces_den_pos x) as Hx. pose proof (aces_den_pos y) as Hy.
  apply (Rmult_le_reg_r (aces_den x)); [done |]. apply (Rmult_le_reg_r (aces_den y)); [done |].
  replace (x * (2.51 * x + 0.03) / aces_den x * aces_den x * aces_den y)%R
    with (x * (2.51 * x + 0.03) * aces_den y)%R by (field; lra).
  replace (y * (2.51 * y + 0.03) / aces_den y * aces_den x * aces_den y)%R
    with (y * (2.51 * y + 0.03) * aces_den x)%R by (field; lra).
  apply Rminus_le. unfold aces_den.
  match goal with |- (?d <= 0)%R =>
    replace d with ((x - y) * (1.408 * (x * y) + 0.3514 * (x + y) + 0.0042))%R by lra end.
  assert (0 <= x * y)%R by nra. nra.
Qed.

(** A source value of a texture without sign is between 0 and 1; there the PQ
    curve is defined, and maps the ends to the ends. *)
Lemma pq_base_range v : (0 <= v <= 1)%R -> (0 <= pow (Rabs v) (1.0 / 78.84375) <= 1)%R.
Proof. intros H. rewrite Rabs_right by lra. apply pow_range; lra. Qed.

Lemma pq_den_pos m : (m <= 1)%R -> (0.164 <= pq_den m)%R.
Proof. unfold pq_den. lra. Qed.

Lemma pq_quotient_range m : (0 <= m <= 1)%R -> (0 <= Rmax (m - 0.8359375) 0.0 / pq_den m <= 1)%R.
Proof.
  intros H. pose proof (pq_den_pos m ltac:(lra)) as Hd. split.
  - apply Rmult_le_pos; [apply (Rle_trans _ 0.0); [lra | apply Rmax_r] |]. left. apply Rinv_0_lt_compat. lra.
  - apply (Rmult_le_reg_r (pq_den m)); [lra |].
    unfold Rdiv. rewrite Rmult_assoc, Rinv_l, Rmult_1_r, Rmult_1_l by lra.
    unfold pq_den. unfold Rmax. destruct (Rle_dec _ _); lra.
Qed.

Lemma pq_range v : (0 <= v <= 1)%R -> (0 <= ST2084ToLinear v <= 1)%R.
Proof.
  intros H. unfold ST2084ToLinear. apply pow_range; [| lra]. by apply pq_quotient_range, pq_base_range.
Qed.

Lemma pq_mono v w : (0 <= v <= w)%R -> (w <= 1)%R -> (ST2084ToLinear v <= ST2084ToLinear w)%R.
Proof.
  intros H Hw. unfold ST2084ToLinear. cbv zeta.
  pose proof (pq_base_range v ltac:(lra)) as Hm. pose proof (pq_base_range w ltac:(lra)) as Hn.
  assert (Hmn : (pow (Rabs v) (1.0 / 78.84375) <= pow (Rabs w) (1.0 / 78.84375))%R)
    by (rewrite !Rabs_right by lra; apply pow_mono; lra).
  revert Hm Hn Hmn. generalize (pow (Rabs v) (1.0 / 78.84375)), (pow (Rabs w) (1.0 / 78.84375)).
  intros m n Hm Hn Hmn. apply pow_mono; [| lra]. split; [by apply pq_quotient_range |].
  pose proof (pq_den_pos m ltac:(lra)) as Hdm. pose proof (pq_den_pos n ltac:(lra)) as Hdn.
  assert (Ht : (0 <= Rmax (m - 0.8359375) 0.0 <= Rmax (n - 0.8359375) 0.0)%R)
    by (unfold Rmax; repeat destruct (Rle_dec _ _); lra).
  apply Rmult_le_compat; [lra | | lra |].
  - left. apply Rinv_0_lt_compat. lra.
  - apply Rinv_le_contravar; [lra |]. unfold pq_den. lra.
Qed.

Lemma pq_ends : ST2084ToLinear 0 = 0%R /\ ST2084ToLinear 1 = 1%R.
Proof.
  unfold ST2084ToLinear. rewrite Rabs_R0, Rabs_R1, pow_one. split.
  - unfold pow at 2. destruct (Req_dec_T 0 0); [| done]. unfold Rmax, pq_den.
    destruct (Rle_dec _ _); [| lra]. unfold pow. destruct (Req_dec_T _ 0); [done | lra].
  - replace (Rmax (1 - 0.8359375) 0.0 / pq_den 1)%R with 1%R; [apply pow_one |].
    unfold pq_den, Rmax. destruct (Rle_dec _ _); [lra |].
    apply (Rmult_eq_reg_r (18.8515625 - 18.6875 * 1)%R); [| lra]. unfold Rdiv. rewrite Rmult_assoc, Rinv_l by lra. lra.
Qed.

(** * What the shader does to a pixel *)

Definition rgb_in (lo hi : R) (c : Rgb) : Prop :=
  (lo <= red c <= hi /\ lo <= green c <= hi /\ lo <= blue c <= hi)%R.

Definition rgb_le (c d : Rgb) : Prop := (red c <= red d /\ green c <= green d /\ blue c <= blue d)%R.

Definition gray (v : R) : Rgb := {| red := v; green := v; blue := v |}.

(** The result is a colour of the target: opaque, every channel between 0
    and 1. *)
Lemma sdr_linear_range cs scale src : rgb_in 0 1 (sdr_linear cs scale src).
Proof. unfold sdr_linear. destruct (cs =? 1); repeat split; apply saturate_range. Qed.

Lemma ps_main_range cs scale src : cs <> 0 ->
  rgb_in 0 1 (ps_main cs scale src).1 /\ (ps_main cs scale src).2 = 1%R.
Proof.
  intros Hcs. unfold ps_main. destruct (Z.eqb_spec cs 0); [done |]. split; [| cbn; lra].
  destruct (sdr_linear_range cs scale src.1) as (Hr & Hg & Hb). cbn.
  repeat split; apply srgb_range; done.
Qed.

(** The divisor cancels the slider: content that Windows brightened by [k] is
    drawn as it would be without. *)
Lemma slider_cancels k src a : (0.0001 <= k)%R ->
  ps_main 1 k (rgb_map (fun c => k * c)%R src, a) = ps_main 1 1 (src, a).
Proof.
  intros Hk. unfold ps_main, sdr_linear. cbn [Z.eqb]. f_equal. unfold rgb_map. cbn.
  unfold sdr_divisor. rewrite !(Rmax_left) by lra.
  by f_equal; (f_equal; f_equal; field; lra).
Qed.

(** Brighter stays brighter: scRGB colours channel by channel. *)
Lemma scrgb_mono k c d a : rgb_le c d -> rgb_le (ps_main 1 k (c, a)).1 (ps_main 1 k (d, a)).1.
Proof.
  intros (Hr & Hg & Hb). unfold ps_main, sdr_linear. cbn [Z.eqb fst].
  assert (Hd : (0 < sdr_divisor k)%R) by (unfold sdr_divisor; apply (Rlt_le_trans _ 0.0001); [lra | apply Rmax_r]).
  assert (H : forall x y, (x <= y)%R ->
    (LinearToSRGB (saturate (x / sdr_divisor k)) <= LinearToSRGB (saturate (y / sdr_divisor k)))%R).
  { intros x y Hxy. apply srgb_mono. split; [apply saturate_range |]. apply saturate_mono.
    apply Rmult_le_compat_r; [| done]. left. by apply Rinv_0_lt_compat. }
  repeat split; cbn; by apply H.
Qed.

(** PQ grays; the rows of the matrix add up to about one. *)
Lemma pq_gray_mono k v w a : (0 <= v <= w)%R -> (w <= 1)%R ->
  rgb_le (ps_main 2 k (gray v, a)).1 (ps_main 2 k (gray w, a)).1.
Proof.
  intros H Hw. unfold ps_main, sdr_linear. cbn [Z.eqb fst].
  pose proof (pq_range v ltac:(lra)) as Hv. pose proof (pq_mono v w H Hw) as Hm.
  repeat split; cbn; apply srgb_mono; (split; [apply saturate_range |]); apply aces_mono; lra.
Qed.

(** The formulas of the shader, over the reals.  For the two colour spaces that
    are converted the result is a colour of the target: opaque, with channels
    between 0 and 1, and without a division by zero on the way (for PQ: of
    texture values, which lie between 0 and 1).  The formulas keep the order of
    brightness, on scRGB channel by channel and on the grays of PQ, and scRGB
    values brightened by the slider give what they give without it.  A GPU
    computes them in single precision, with an error that is not bounded
    here. *)
Theorem tonemap_shader_sound :
  (forall cs k src, cs <> 0 -> rgb_in 0 1 (ps_main cs k src).1 /\ (ps_main cs k src).2 = 1%R)
  /\ (forall k, (0 < sdr_divisor k)%R) /\ (forall x, (0 < aces_den x)%R)
  /\ (forall v, (0 <= v <= 1)%R -> (0 < pq_den (pow (Rabs v) (1.0 / 78.84375)))%R)
  /\ (forall k c d a, rgb_le c d -> rgb_le (ps_main 1 k (c, a)).1 (ps_main 1 k (d, a)).1)
  /\ (forall k v w a, (0 <= v <= w)%R -> (w <= 1)%R -> rgb_le (ps_main 2 k (gray v, a)).1 (ps_main 2 k (gray w, a)).1)
  /\ (forall k c a, (0.0001 <= k)%R -> ps_main 1 k (rgb_map (fun x => k * x)%R c, a) = ps_main 1 1 (c, a)).
Proof.
  split_and!.
  - apply ps_main_range.
  - intros k. unfold sdr_divisor. apply (Rlt_le_trans _ 0.0001); [lra | apply Rmax_r].
  - apply aces_den_pos.
  - intros v Hv. pose proof (pq_den_pos _ (proj2 (pq_base_range v Hv))). lra.
  - apply scrgb_mono.
  - apply pq_gray_mono.
  - intros k c a. apply slider_cancels.
Qed.

(** * The triangle *)

(** A mean of three vertices with the weights [u v w]. *)
Definition blend3 (u v w : R) (a b c : Z) : R := (u * IZR a + v * IZR b + w * IZR c)%R.

(** The three vertices cover the whole viewport, and at each of its points the
    texture coordinate is that of the same point of the frame. *)
Lemma triangle_covers x y : (-1 <= x <= 1)%R -> (-1 <= y <= 1)%R ->
  exists u v w, (0 <= u /\ 0 <= v /\ 0 <= w /\ u + v + w = 1)%R
    /\ blend3 u v w (vs_main 0).1.1 (vs_main 1).1.1 (vs_main 2).1.1 = x
    /\ blend3 u v w (vs_main 0).1.2 (vs_main 1).1.2 (vs_main 2).1.2 = y
    /\ blend3 u v w (vs_main 0).2.1 (vs_main 1).2.1 (vs_main 2).2.1 = ((x + 1) / 2)%R
    /\ blend3 u v w (vs_main 0).2.2 (vs_main 1).2.2 (vs_main 2).2.2 = ((1 - y) / 2)%R.
Proof.
  intros Hx Hy. exists (1 - (x + 1) / 4 - (1 - y) / 4)%R, ((x + 1) / 4)%R, ((1 - y) / 4)%R.
  change (vs_main 0) with ((-1, 1), (0, 0)). change (vs_main 1) with ((3, 1), (2, 0)).
  change (vs_main 2) with ((-1, -3), (0, 2)). unfold blend3. cbn [fst snd]. repeat split; lra.
Qed.

(** * How far the estimate of the gamma curve is off *)

(** The piecewise curve near black. *)
Definition srgb_exact_dark (c : R) : R := (12.92 * c)%R.

(** A comment says that the estimate differs from the exact curve by less than
    half a step of 8 bits; on dark colours it is off by more than seven. *)
Lemma srgb_estimate_off : (LinearToSRGB 0.001 - srgb_exact_dark 0.001 > 7 / 255)%R.
Proof.
  unfold LinearToSRGB, srgb_exact_dark. rewrite Rabs_right by lra. unfold pow.
  destruct (Req_dec_T 0.001 0); [lra |]. set (x := Rpower 0.001 (1.0 / 2.2)).
  assert (Hx : (0 < x)%R) by apply exp_pos.
  assert (E : (x ^ 11 = 0.001 ^ 5)%R).
  { rewrite <- !Rpower_pow by (done || lra). unfold x. rewrite Rpower_mult. f_equal. cbn. lra. }
  destruct (Rle_lt_dec x 0.043) as [Hle|]; [| lra]. exfalso.
  pose proof (pow_incr x 0.043 11 ltac:(lra)) as H. rewrite E in H. cbn in H. lra.
Qed.

Lemma tonemap_shader_sound_witness :
  rgb_le (ps_main 2 1 (gray 0.25, 1%R)).1 (ps_main 2 1 (gray 0.5, 1%R)).1
  /\ ps_main 1 4 (rgb_map (fun x => 4 * x)%R (gray 0.5), 1%R) = ps_main 1 1 (gray 0.5, 1%R).
Proof.
  destruct tonemap_shader_sound as (_ & _ & _ & _ & _ & Hpq & Hs). split; [apply Hpq | apply Hs]; lra.
Defined.
