(* ===== verification/Pipeline.v ===== *)
(** The capture and encode loop: [crates/penflow-core/src/pipeline.rs].

    What the graphics calls compute and whether they succeed are parameters;
    the model says which calls a tick makes, on what, and what it keeps between
    ticks: the keepalive texture, the last pointer, the IDR request, the counter
    of timeouts and the packet queue. *)
From stdpp Require Import list.
From S2P Require Import Prelude Engine PacketQueue.

Record PointerPosition := { pp_x : Z; pp_y : Z; pp_visible : bool }.

Section Pipeline.
(** Pixel contents, decoded cursor shapes and compositors. *)
Context {Image Shape Blitter : Type}.

(** A frame of the desktop duplication: its texture format and contents, its
    shape update and its pointer position. *)
Record Frame := {
  fr_format : Z;
  fr_image : Image;
  fr_shape : EngineResult (option Shape);
  fr_pointer : option PointerPosition;
}.

(** The graphics stack: [CopyResource], the tonemap shader, the compositor's
    two calls, and the format constant. *)
Record Gpu := {
  DXGI_FORMAT_B8G8R8A8_UNORM : Z;
  copy_resource : Z -> Image -> Image -> Image;
  tonemap_convert : Z -> Image -> Image -> EngineResult Image;
  update_shape : Shape -> Blitter -> EngineResult Blitter;
  composite : Blitter -> Z -> Z -> Image -> EngineResult Image;
}.

(** What a tick meets: the acquired frame or a timeout, the time, the outcome
    of the conversion and of the submission, the packets the encoder hands out
    and how that ends. *)
Record TickEnv := {
  te_acquired : EngineResult (option Frame);
  te_now_ns : Z;
  te_convert : EngineResult unit;
  te_submit : EngineResult unit;
  te_packets : list EncodedPacket;
  te_drained : EngineResult unit;
  (** [Pipeline::stop] runs on another thread once that many packets of this
      tick are pushed. *)
  te_stop_after : option nat;
}.

(** A submitted frame: what is encoded, its stamp, and the IDR flag. *)
Record Submit := { su_image : Image; su_pts_ns : Z; su_force_idr : bool }.

Record LoopState := {
  keepalive : Image;
  cursor_blitter : option Blitter;
  has_tonemap : bool;
  last_pointer : option PointerPosition;
  idr_request : bool;
  keepalive_uses : Z;
  has_real_frame : bool;
  last_dda_format : option Z;
  queue : Queue EncodedPacket;
  submits : list Submit;
}.

Context (gpu : Gpu) (start_instant_ns : Z).

Definition is_bgra8 (fmt : Z) : bool := fmt =? DXGI_FORMAT_B8G8R8A8_UNORM gpu.

(** The keepalive after the frame's pixels moved into it. *)
Definition move_pixels (has_tonemap : bool) (f : Frame) (keep : Image) : Image :=
  let copied := copy_resource gpu (fr_format f) (fr_image f) keep in
  if is_bgra8 (fr_format f) then copied
  else if has_tonemap then
    match tonemap_convert gpu (fr_format f) (fr_image f) keep with
    | Ok keep' => keep'
    | Err _ => copied
    end
  else copied.

(** A compositor whose shape update fails keeps the shape it has. *)
Definition shape_updated (f : Frame) (b : option Blitter) : option Blitter :=
  match b, fr_shape f with
  | Some b, Ok (Some shape) =>
      match update_shape gpu shape b with Ok b' => Some b' | Err _ => Some b end
  | _, _ => b
  end.

Definition composited (b : option Blitter) (pos : option PointerPosition) (keep : Image) : Image :=
  match b, pos with
  | Some b, Some pos =>
      if pp_visible pos then
        match composite gpu b (pp_x pos) (pp_y pos) keep with Ok keep' => keep' | Err _ => keep end
      else keep
  | _, _ => keep
  end.

Definition take_frame (f : Frame) (s : LoopState) : LoopState :=
  let b := shape_updated f (cursor_blitter s) in
  let pos := match fr_pointer f with Some pos => Some pos | None => last_pointer s end in
  {| keepalive := composited b pos (move_pixels (has_tonemap s) f (keepalive s));
     cursor_blitter := b; has_tonemap := has_tonemap s; last_pointer := pos;
     idr_request := idr_request s; keepalive_uses := keepalive_uses s; has_real_frame := true;
     last_dda_format := Some (fr_format f); queue := queue s; submits := submits s |}.

(** An atomic [u64] counter wraps. *)
Definition reuse_keepalive (s : LoopState) : LoopState :=
  {| keepalive := keepalive s; cursor_blitter := cursor_blitter s; has_tonemap := has_tonemap s;
     last_pointer := last_pointer s; idr_request := idr_request s;
     keepalive_uses := uwrap 64 (keepalive_uses s + 1); has_real_frame := has_real_frame s;
     last_dda_format := last_dda_format s; queue := queue s; submits := submits s |}.

Definition set_idr (b : bool) (s : LoopState) : LoopState :=
  {| keepalive := keepalive s; cursor_blitter := cursor_blitter s; has_tonemap := has_tonemap s;
     last_pointer := last_pointer s; idr_request := b; keepalive_uses := keepalive_uses s;
     has_real_frame := has_real_frame s; last_dda_format := last_dda_format s; queue := queue s;
     submits := submits s |}.

Definition close_queue (s : LoopState) : LoopState :=
  {| keepalive := keepalive s; cursor_blitter := cursor_blitter s; has_tonemap := has_tonemap s;
     last_pointer := last_pointer s; idr_request := idr_request s; keepalive_uses := keepalive_uses s;
     has_real_frame := has_real_frame s; last_dda_format := last_dda_format s; queue := close (queue s);
     submits := submits s |}.

Definition submit_frame (e : Submit) (s : LoopState) : LoopState :=
  {| keepalive := keepalive s; cursor_blitter := cursor_blitter s; has_tonemap := has_tonemap s;
     last_pointer := last_pointer s; idr_request := idr_request s; keepalive_uses := keepalive_uses s;
     has_real_frame := has_real_frame s; last_dda_format := last_dda_format s; queue := queue s;
     submits := submits s ++ [e] |}.

Definition push_all (pkts : list EncodedPacket) (q : Queue EncodedPacket) : Queue EncodedPacket :=
  foldl (fun q p => (push p q).1) q pkts.

(** The stop flag is set and the queue closed at once. *)
Definition push_packets (pkts : list EncodedPacket) (stop_after : option nat) (s : LoopState) : LoopState :=
  {| keepalive := keepalive s; cursor_blitter := cursor_blitter s; has_tonemap := has_tonemap s;
     last_pointer := last_pointer s; idr_request := idr_request s; keepalive_uses := keepalive_uses s;
     has_real_frame := has_real_frame s; last_dda_format := last_dda_format s;
     queue := match stop_after with
              | Some n => push_all (drop n pkts) (close (push_all (take n pkts) (queue s)))
              | None => push_all pkts (queue s)
              end;
     submits := submits s |}.

(** Nanoseconds since the epoch of the stamps ([duration_since] saturates),
    truncated to [i64]. *)
Definition pts_ns (now : Z) : Z := swrap 64 (Z.max 0 (now - start_instant_ns)).

Definition tick (e : TickEnv) (s : LoopState) : EngineResult unit * LoopState :=
  let force_idr := idr_request s in
  let s := set_idr false s in
  match te_acquired e with
  | Err err => (Err err, s)
  | Ok acquired =>
      let s := match acquired with Some f => take_frame f s | None => reuse_keepalive s end in
      match te_convert e with
      | Err err => (Err err, s)
      | Ok _ =>
          match te_submit e with
          | Err err => (Err err, s)
          | Ok _ =>
              let s := submit_frame {| su_image := keepalive s; su_pts_ns := pts_ns (te_now_ns e);
                                       su_force_idr := force_idr |} s in
              (te_drained e, push_packets (te_packets e) (te_stop_after e) s)
          end
      end
  end.

(** What happens to the loop: requests and [Pipeline::stop] from other threads
    between ticks, and its own ticks. *)
Inductive Input := IRequestIdr | IStop | ITick (e : TickEnv).

(** [run] with its inputs in the order they take effect; [None]: the loop
    still runs. *)
Fixpoint run_loop (stopped : bool) (ins : list Input) (s : LoopState) : option (EngineResult unit) * LoopState :=
  match ins with
  | [] => (None, s)
  | IRequestIdr :: ins' => run_loop stopped ins' (set_idr true s)
  | IStop :: ins' => run_loop true ins' (close_queue s)
  | ITick e :: ins' =>
      if stopped then (Some (Ok tt), s)
      else match tick e s with
           | (Ok _, s') => run_loop (bool_decide (is_Some (te_stop_after e))) ins' s'
           | (Err err, s') => (Some (Err err), s')
           end
  end.

(** [Pipeline::stop] and the drop: the flag is set and the queue closed
    ([IStop]), and the thread, if it was not joined before, is joined; [Err]: it
    panicked. *)
Definition stop_join (joined : option (result unit (EngineResult unit))) : EngineResult unit :=
  match joined with Some (Ok r) => r | Some (Err _) => Err NotInitialized | None => Ok tt end.

Definition drop_join (joined : option (result unit (EngineResult unit))) : unit :=
  let _ := stop_join joined in tt.

(** [Engine::stop]; the pipeline may have been taken before. *)
Definition engine_stop (pipeline : option (option (result unit (EngineResult unit)))) : EngineResult unit :=
  match pipeline with Some joined => _ ← stop_join joined; Ok tt | None => Ok tt end.

(** * What a run amounts to *)

(** Whether a tick gets as far as the encoder. *)
Definition submitted (e : TickEnv) : bool :=
  is_ok (te_acquired e) && is_ok (te_convert e) && is_ok (te_submit e).

Definition completes (e : TickEnv) : bool := submitted e && is_ok (te_drained e).

Definition stops (e : TickEnv) : bool := bool_decide (is_Some (te_stop_after e)).

(** The ticks a run performs, each with whether a request was made since the
    tick before it. *)
Fixpoint performed (pending stopped : bool) (ins : list Input) : list (TickEnv * bool) :=
  match ins with
  | [] => []
  | IRequestIdr :: ins' => performed true stopped ins'
  | IStop :: ins' => performed pending true ins'
  | ITick e :: ins' =>
      if stopped then []
      else (e, pending) :: (if completes e then performed false (stops e) ins' else [])
  end.

Definition timed_out (e : TickEnv) : bool := match te_acquired e with Ok None => true | _ => false end.

Definition flags_of (l : list (TickEnv * bool)) : list bool :=
  (List.filter (fun x => submitted x.1) l).*2.

Definition stamps_of (l : list (TickEnv * bool)) : list Z :=
  (fun x => pts_ns (te_now_ns x.1)) <$> List.filter (fun x => submitted x.1) l.

Definition timeouts_of (l : list (TickEnv * bool)) : Z :=
  Z.of_nat (length (List.filter (fun x => timed_out x.1) l)).

(** What one tick adds. *)
Lemma tick_adds e s :
  let '(r, s') := tick e s in
  is_ok r = completes e
  /\ su_force_idr <$> submits s' = (su_force_idr <$> submits s) ++ (if submitted e then [idr_request s] else [])
  /\ su_pts_ns <$> submits s' = (su_pts_ns <$> submits s) ++ (if submitted e then [pts_ns (te_now_ns e)] else [])
  /\ keepalive_uses s' = (if timed_out e then uwrap 64 (keepalive_uses s + 1) else keepalive_uses s)
  /\ idr_request s' = false.
Proof.
  unfold tick, completes, submitted, timed_out. destruct (te_acquired e) as [[f |] | err]; cbn;
    rewrite ?app_nil_r; [| | done].
  all: destruct (te_convert e); cbn; rewrite ?app_nil_r; [| done].
  all: destruct (te_submit e); cbn; rewrite ?app_nil_r; [| done].
  all: by rewrite !fmap_app.
Qed.

Lemma performed_tick_flags e b l : flags_of ((e, b) :: l) = (if submitted e then [b] else []) ++ flags_of l.
Proof. unfold flags_of. cbn. by destruct (submitted e). Qed.

Lemma performed_tick_stamps e b l :
  stamps_of ((e, b) :: l) = (if submitted e then [pts_ns (te_now_ns e)] else []) ++ stamps_of l.
Proof. unfold stamps_of. cbn. by destruct (submitted e). Qed.

Lemma performed_tick_timeouts e b l :
  timeouts_of ((e, b) :: l) = (if timed_out e then 1 else 0) + timeouts_of l.
Proof. unfold timeouts_of. cbn. destruct (timed_out e); cbn [length]; lia. Qed.

(** A run adds to the encoder's input and to the counter what its ticks add. *)
Lemma run_adds ins : forall stopped s, unsigned 64 (keepalive_uses s) ->
  let s' := (run_loop stopped ins s).2 in
  let l := performed (idr_request s) stopped ins in
  su_force_idr <$> submits s' = (su_force_idr <$> submits s) ++ flags_of l
  /\ su_pts_ns <$> submits s' = (su_pts_ns <$> submits s) ++ stamps_of l
  /\ keepalive_uses s' = uwrap 64 (keepalive_uses s + timeouts_of l).
Proof.
  induction ins as [| [| | e] ins IH]; intros stopped s Hu; cbn zeta.
  - cbn. rewrite !app_nil_r, Z.add_0_r. split_and!; try done. symmetry. by apply uwrap_small.
  - apply (IH stopped (set_idr true s)). exact Hu.
  - apply (IH true (close_queue s)). exact Hu.
  - cbn [run_loop performed]. destruct stopped.
    { cbn. rewrite !app_nil_r, Z.add_0_r. split_and!; try done. symmetry. by apply uwrap_small. }
    rewrite performed_tick_flags, performed_tick_stamps, performed_tick_timeouts.
    pose proof (tick_adds e s) as H. destruct (tick e s) as [r s1].
    destruct H as (Hr & Hf & Hp & Hk & Hi).
    assert (unsigned 64 (keepalive_uses s1)) as Hu1 by (rewrite Hk; destruct (timed_out e); [apply uwrap_range; lia | done]).
    destruct r as [u | err]; cbn [is_ok] in Hr; rewrite <- Hr.
    + destruct (IH (stops e) s1 Hu1) as (IHf & IHp & IHk). rewrite Hi in IHf, IHp, IHk.
      unfold stops in *. rewrite IHf, IHp, IHk, Hf, Hp, Hk, <- !app_assoc. split_and!; try done.
      destruct (timed_out e); [| done]. unfold uwrap. rewrite Zplus_mod_idemp_l. f_equal. lia.
    + cbn. rewrite Hf, Hp, Hk, !app_nil_r. split_and!; try done.
      destruct (timed_out e); rewrite ?Z.add_0_r; [done |]. symmetry. by apply uwrap_small.
Qed.

Definition is_tick (i : Input) : bool := match i with ITick _ => true | _ => false end.

(** A stop ends the loop when it comes round again, without another tick, and
    the stop is answered with the loop's own result. *)
Lemma stop_ends_loop pre post s : (run_loop false pre s).1 = None -> existsb is_tick post = true ->
  exists r, (run_loop false (pre ++ IStop :: post) s).1 = Some r
    /\ engine_stop (Some (Some (Ok r))) = Ok tt.
Proof.
  intros Hpre Hpost. exists (Ok tt). split; [| done].
  assert (Hs : forall s, (run_loop true post s).1 = Some (Ok tt)).
  { clear Hpre. induction post as [|[| |e] post IH]; intros s'; cbn in *; try done; by apply IH. }
  revert s Hpre. cut (forall b s, (run_loop b pre s).1 = None -> (run_loop b (pre ++ IStop :: post) s).1 = Some (Ok tt));
    [intros H s; apply H |].
  induction pre as [|[| |e] pre IH]; intros b s Hpre; cbn [app run_loop] in *; [apply Hs | by apply IH.. |].
  destruct b; [done |]. destruct (tick e s) as [[[]|err] s']; [by apply IH | done].
Qed.

Definition is_request (i : Input) : bool := match i with IRequestIdr => true | _ => false end.

Definition forced (flags : list bool) : nat := length (List.filter id flags).

(** Requests coalesce: an IDR needs a request of its own. *)
Lemma forced_bound ins : forall pending stopped,
  (forced (flags_of (performed pending stopped ins))
   <= (if pending then 1 else 0) + length (List.filter is_request ins))%nat.
Proof.
  induction ins as [| [| | e] ins IH]; intros pending stopped; [destruct pending; cbn; lia | | |].
  - cbn [performed List.filter is_request length]. specialize (IH true stopped). cbn match in IH. destruct pending; lia.
  - apply (IH pending true).
  - cbn [performed]. destruct stopped; [cbn; lia |]. rewrite performed_tick_flags. unfold forced.
    rewrite List.filter_app, length_app. cbn [List.filter is_request].
    assert (length (List.filter id (flags_of (if completes e then performed false (stops e) ins else [])))
            <= length (List.filter is_request ins))%nat as H.
    { destruct (completes e); [apply (IH false (stops e)) | cbn; lia]. }
    destruct (submitted e), pending; cbn [List.filter id length app] in *; lia.
Qed.

(** A request is taken up by the next tick, whatever happens to it. *)
Lemma performed_request pre mid e post pending :
  Forall (fun i => match i with ITick e => completes e = true /\ stops e = false | IStop => False | _ => True end) pre ->
  Forall (fun i => i = IRequestIdr) mid ->
  (e, true) ∈ performed pending false (pre ++ IRequestIdr :: mid ++ ITick e :: post).
Proof.
  intros Hpre Hmid. revert pending. induction Hpre as [| i pre Hi _ IH]; intros pending; cbn [app performed].
  - clear pending. induction Hmid as [| i mid -> _ IH]; cbn [app performed]; [left | exact IH].
  - destruct i as [| | e']; [apply IH | done |]. destruct Hi as [-> ->]. right. apply IH.
Qed.

(** C25. The encoder's input over a whole run, requests and ticks in any order.
    Every tick that reaches the encoder submits one frame, with its own stamp,
    and forces an IDR exactly when a request was made since the tick before:
    requests coalesce, each is taken up by the very next tick, and there are
    never more IDRs than requests.  A failing tick is the last.  The counter of
    reused frames counts the timeouts, modulo 2^64. *)
Theorem idr_requests_exact ins s : unsigned 64 (keepalive_uses s) ->
  let s' := (run_loop false ins s).2 in
  let l := performed (idr_request s) false ins in
  su_force_idr <$> submits s' = (su_force_idr <$> submits s) ++ flags_of l
  /\ su_pts_ns <$> submits s' = (su_pts_ns <$> submits s) ++ stamps_of l
  /\ keepalive_uses s' = uwrap 64 (keepalive_uses s + timeouts_of l)
  /\ (forced (flags_of l) <= (if idr_request s then 1 else 0) + length (List.filter is_request ins))%nat
  /\ (forall pre mid e post, ins = pre ++ IRequestIdr :: mid ++ ITick e :: post ->
        Forall (fun i => match i with ITick e => completes e = true /\ stops e = false
                                    | IStop => False | _ => True end) pre ->
        Forall (fun i => i = IRequestIdr) mid -> (e, true) ∈ l).
Proof.
  intros Hu s' l. destruct (run_adds ins false s Hu) as (Hf & Hp & Hk). split_and!; try done.
  - apply forced_bound.
  - intros pre mid e post -> Hpre Hmid. by apply performed_request.
Qed.

(** The cursor is redrawn on every frame.  When a copy between equal formats
    replaces the keepalive, the picture a frame leaves depends on the frame, on
    the last known pointer and on the last good shape alone, not on what was
    drawn before; a frame without a pointer update keeps the last pointer, and
    a timeout encodes again exactly the picture of the tick before. *)
Theorem cursor_redrawn e s :
  (forall fmt img keep, is_bgra8 fmt = true -> copy_resource gpu fmt img keep = img) ->
  submitted e = true ->
  let s' := (tick e s).2 in
  match te_acquired e with
  | Ok (Some f) =>
      is_bgra8 (fr_format f) = true ->
      let pos := match fr_pointer f with Some pos => Some pos | None => last_pointer s end in
      keepalive s' = composited (shape_updated f (cursor_blitter s)) pos (fr_image f)
      /\ last_pointer s' = pos
      /\ list.last (submits s') = Some {| su_image := keepalive s'; su_pts_ns := pts_ns (te_now_ns e);
                                     su_force_idr := idr_request s |}
  | Ok None =>
      keepalive s' = keepalive s /\ last_pointer s' = last_pointer s
      /\ list.last (submits s') = Some {| su_image := keepalive s; su_pts_ns := pts_ns (te_now_ns e);
                                     su_force_idr := idr_request s |}
  | Err _ => False
  end.
Proof.
  intros Hcopy Hsub. unfold submitted in Hsub. unfold tick.
  destruct (te_acquired e) as [[f |] | err]; cbn in Hsub; [| | done].
  all: destruct (te_convert e); cbn in Hsub; [| done]; destruct (te_submit e); cbn in Hsub; [| done].
  - intros Hb. cbn. unfold move_pixels. rewrite Hb, (Hcopy _ _ _ Hb). split_and!; try done. apply last_snoc.
  - cbn. split_and!; try done. apply last_snoc.
Qed.
End Pipeline.

Arguments TickEnv : clear implicits.
Arguments LoopState : clear implicits.
Arguments Frame : clear implicits.
Arguments Submit : clear implicits.
Arguments Gpu : clear implicits.
Arguments Input : clear implicits.

(** * Witnesses *)

Definition demo_gpu : Gpu Z Z Z :=
  {| DXGI_FORMAT_B8G8R8A8_UNORM := 87; copy_resource := fun fmt img keep => if fmt =? 87 then img else keep;
     tonemap_convert := fun _ img _ => Ok (img + 1); update_shape := fun shape _ => Ok shape;
     composite := fun b x y keep => Ok (keep + b + x + y) |}.

Definition demo_frame : Frame Z Z :=
  {| fr_format := 87; fr_image := 1000; fr_shape := Ok (Some 7);
     fr_pointer := Some {| pp_x := 10; pp_y := 20; pp_visible := true |} |}.

Definition demo_tick (f : option (Frame Z Z)) (now : Z) : TickEnv Z Z :=
  {| te_acquired := Ok f; te_now_ns := now; te_convert := Ok tt; te_submit := Ok tt; te_packets := [];
     te_drained := Ok tt; te_stop_after := None |}.

Definition demo_loop : LoopState Z Z :=
  {| keepalive := 0; cursor_blitter := Some 0; has_tonemap := true; last_pointer := None;
     idr_request := false; keepalive_uses := 0; has_real_frame := false; last_dda_format := None;
     queue := new 2; submits := [] |}.

Lemma idr_requests_exact_witness :
  su_force_idr <$> submits (run_loop demo_gpu 0 false
    [IRequestIdr; IRequestIdr; ITick (demo_tick None 5); ITick (demo_tick (Some demo_frame) 9)] demo_loop).2
  = [true; false].
Proof.
  destruct (idr_requests_exact demo_gpu 0
    [IRequestIdr; IRequestIdr; ITick (demo_tick None 5); ITick (demo_tick (Some demo_frame) 9)] demo_loop)
    as (H & _); [unfold unsigned; cbn; lia |].
  rewrite H. reflexivity.
Defined.

Lemma cursor_redrawn_witness : keepalive (tick demo_gpu 0 (demo_tick (Some demo_frame) 9) demo_loop).2 = 1037.
Proof.
  destruct (cursor_redrawn demo_gpu 0 (demo_tick (Some demo_frame) 9) demo_loop) as (H & _ & _).
  - intros fmt img keep H. unfold is_bgra8 in H. cbn in *. by rewrite H.
  - reflexivity.
  - reflexivity.
  - rewrite H. reflexivity.
Defined.
