(* ===== verification/GpuSetup.v ===== *)
(** What the pipeline builds on the GPU before its thread runs
    ([crates/penflow-core/src/color.rs], [cursor_blit.rs], [tonemap_blit.rs],
    and [Pipeline::start] of [pipeline.rs]): converter, keepalive texture, the
    two blitters; and what the first frames therefore show. *)
From stdpp Require Import list.
From S2P Require Import Prelude Engine Calls F32 PacketQueue Pipeline.

(** * Calls *)

(** The four HLSL programs. *)
Inductive Program := CursorVertex | CursorPixel | TonemapVertex | TonemapPixel.

Inductive TextureFormat := FmtNv12 | FmtBgra8.

Inductive Filter := PointFilter | LinearFilter.

(** The calls on Direct3D, with the arguments that the code chooses.  A call
    that gives an object through an out parameter fails also when there is
    none. *)
Inductive SetupCall :=
| CastVideoDevice
| CastVideoContext
| CreateVideoProcessorEnumerator (fps width height : Z)
| CreateVideoProcessor
| SetStreamColorSpace_RgbFull709
| SetOutputColorSpace_YcbcrFull709
| CreateTexture2D (format : TextureFormat) (width height : Z)
| CreateVideoProcessorOutputView
| CreateVideoProcessorInputView
| VideoProcessorBlt
| ReleaseInputView
| D3DCompile (p : Program)
| CreateVertexShader (p : Program)
| CreatePixelShader (p : Program)
| CreateInputLayout
| CreateVertexBuffer (bytes : Z)
| CreateConstantBuffer (bytes : Z)
| CreateSamplerState (f : Filter)
| CreateBlendState
| CreateRasterizerState
| CreateRenderTargetView
| ClearToBlack
| SpawnThread.

Section Setup.
Context (answer : CallLog SetupCall -> SetupCall -> EngineResult unit).

(** * Colour conversion *)

(** [ColorConverter::new]. *)
Definition ColorConverter_new (width height fps : Z) : Calls SetupCall (Z * Z) :=
  if (width =? 0) || (height =? 0) then calls_lift (Err NotInitialized)
  else
    call answer CastVideoDevice;;
    call answer CastVideoContext;;
    call answer (CreateVideoProcessorEnumerator fps width height);;
    call answer CreateVideoProcessor;;
    act SetStreamColorSpace_RgbFull709;;
    act SetOutputColorSpace_YcbcrFull709;;
    call answer (CreateTexture2D FmtNv12 width height);;
    call answer CreateVideoProcessorOutputView;;
    mret (width, height).

(** [ColorConverter::convert]; the view of the input is kept from the drop of
    the stream description, and given back at the end. *)
Definition ColorConverter_convert : Calls SetupCall unit :=
  call answer CreateVideoProcessorInputView;;
  call answer VideoProcessorBlt;;
  act ReleaseInputView.

Definition create_bgra_keepalive_texture (width height : Z) : Calls SetupCall unit :=
  call answer (CreateTexture2D FmtBgra8 width height).

Definition clear_bgra_texture_to_black : Calls SetupCall unit :=
  call answer CreateRenderTargetView;; act ClearToBlack.

(** * The blitters *)

Definition VERTEX_SIZE : Z := 16.

Definition VERTEX_BUFFER_BYTES : Z := VERTEX_SIZE * 4.

(** [CursorBlitter::new]. *)
Definition CursorBlitter_new : Calls SetupCall unit :=
  call answer (D3DCompile CursorVertex);;
  call answer (D3DCompile CursorPixel);;
  call answer (CreateVertexShader CursorVertex);;
  call answer (CreatePixelShader CursorPixel);;
  call answer CreateInputLayout;;
  call answer (CreateVertexBuffer VERTEX_BUFFER_BYTES);;
  call answer (CreateSamplerState PointFilter);;
  call answer CreateBlendState;;
  call answer CreateRasterizerState;;
  call answer CreateRenderTargetView.

(** [TonemapBlitter::new]; its scale is 1 until it is set. *)
Definition TonemapBlitter_new : Calls SetupCall f32 :=
  call answer (D3DCompile TonemapVertex);;
  call answer (D3DCompile TonemapPixel);;
  call answer (CreateVertexShader TonemapVertex);;
  call answer (CreatePixelShader TonemapPixel);;
  call answer (CreateSamplerState LinearFilter);;
  call answer CreateRasterizerState;;
  call answer CreateRenderTargetView;;
  call answer (CreateConstantBuffer 16);;
  mret f32_one.

(** * The pipeline *)

(** What the thread starts with: whether there is a cursor compositor, and the
    scale of the tonemap blitter if there is one. *)
Record Started := { st_cursor : bool; st_tonemap : option f32 }.

(** [Pipeline::start]: a blitter that cannot be built is done without. *)
Definition Pipeline_start (width height : Z) (scrgb_sdr_scale : f32) : Calls SetupCall Started :=
  create_bgra_keepalive_texture width height;;
  clear_bgra_texture_to_black;;
  cursor ← calls_try CursorBlitter_new;
  tonemap ← calls_try TonemapBlitter_new;
  spawned ← attempt answer SpawnThread;
  (if is_ok spawned then mret tt else calls_lift (Err NotInitialized));;
  mret {| st_cursor := is_ok cursor; st_tonemap := if is_ok tonemap then Some scrgb_sdr_scale else None |}.

(** Nothing is tolerated within a part. *)
Definition strict (c : SetupCall) (e : EngineError) : bool := false.

Definition keepalive_calls (width height : Z) : list SetupCall :=
  [CreateTexture2D FmtBgra8 width height; CreateRenderTargetView; ClearToBlack].

Definition cursor_calls : list SetupCall :=
  [D3DCompile CursorVertex; D3DCompile CursorPixel; CreateVertexShader CursorVertex;
   CreatePixelShader CursorPixel; CreateInputLayout; CreateVertexBuffer 64; CreateSamplerState PointFilter;
   CreateBlendState; CreateRasterizerState; CreateRenderTargetView].

Definition tonemap_calls : list SetupCall :=
  [D3DCompile TonemapVertex; D3DCompile TonemapPixel; CreateVertexShader TonemapVertex;
   CreatePixelShader TonemapPixel; CreateSamplerState LinearFilter; CreateRasterizerState;
   CreateRenderTargetView; CreateConstantBuffer 16].

Definition converter_calls (width height fps : Z) : list SetupCall :=
  [CastVideoDevice; CastVideoContext; CreateVideoProcessorEnumerator fps width height; CreateVideoProcessor;
   SetStreamColorSpace_RgbFull709; SetOutputColorSpace_YcbcrFull709; CreateTexture2D FmtNv12 width height;
   CreateVideoProcessorOutputView].

Lemma keepalive_runs w h :
  runs strict (create_bgra_keepalive_texture w h;; clear_bgra_texture_to_black) (keepalive_calls w h).
Proof.
  unfold create_bgra_keepalive_texture, clear_bgra_texture_to_black.
  eapply runs_conv; [runs | reflexivity].
Qed.

Lemma cursor_runs : runs strict CursorBlitter_new cursor_calls.
Proof. unfold CursorBlitter_new. eapply runs_conv; [runs | reflexivity]. Qed.

Lemma tonemap_runs : runs strict TonemapBlitter_new tonemap_calls.
Proof. unfold TonemapBlitter_new. eapply runs_conv; [runs | reflexivity]. Qed.

Lemma converter_runs w h fps : w <> 0 -> h <> 0 ->
  runs strict (ColorConverter_new w h fps) (converter_calls w h fps).
Proof.
  intros Hw Hh. unfold ColorConverter_new. destruct (Z.eqb_spec w 0), (Z.eqb_spec h 0); try done. cbn [orb].
  eapply runs_conv; [runs | reflexivity].
Qed.

(** How a start went: the keepalive was made and cleared, each blitter was
    built or given up at its first refusal, and the thread was spawned; or the
    start stopped at the keepalive or at the spawn, with the reason. *)
Definition start_log (w h : Z) (scale : f32) (r : EngineResult Started) (ext : CallLog SetupCall) : Prop :=
  (exists e, r = Err e /\ outcome strict (keepalive_calls w h) (Err e : EngineResult unit) ext)
  \/ exists keep rc cursor rt tonemap rs, ext = keep ++ cursor ++ tonemap ++ [(SpawnThread, rs)]
    /\ outcome strict (keepalive_calls w h) (Ok tt) keep
    /\ outcome strict cursor_calls (rc : EngineResult unit) cursor
    /\ outcome strict tonemap_calls (rt : EngineResult f32) tonemap
    /\ r = if is_ok rs then Ok {| st_cursor := is_ok rc; st_tonemap := if is_ok rt then Some scale else None |}
           else Err NotInitialized.

(** Starting the pipeline, whatever the GPU answers: the keepalive texture
    is created and cleared before anything else, a cursor or tonemap blitter
    that cannot be built is left out and stops nothing, and a start fails only
    for the keepalive or for the thread. *)
Theorem pipeline_start_exact w h scale log : exists ext,
  (Pipeline_start w h scale log).2 = log ++ ext /\ start_log w h scale (Pipeline_start w h scale log).1 ext.
Proof.
  destruct (keepalive_runs w h log) as (keep & El & Hk).
  assert (Hs : Pipeline_start w h scale log
    = ((create_bgra_keepalive_texture w h;; clear_bgra_texture_to_black) ;;
       cursor ← calls_try CursorBlitter_new; tonemap ← calls_try TonemapBlitter_new;
       spawned ← attempt answer SpawnThread;
       (if is_ok spawned then mret tt else calls_lift (Err NotInitialized));;
       mret {| st_cursor := is_ok cursor; st_tonemap := if is_ok tonemap then Some scale else None |}) log).
  { unfold Pipeline_start, mbind, Calls_bind. by destruct (create_bgra_keepalive_texture w h log) as [[]]. }
  rewrite Hs. destruct ((create_bgra_keepalive_texture w h;; clear_bgra_texture_to_black) log) as [[[]|e] log1] eqn:E;
    cbn [fst snd] in El, Hk; subst log1.
  2: { rewrite (calls_bind_err _ _ _ _ _ E). exists keep. split; [done |]. left. eauto. }
  rewrite (calls_bind_ok _ _ _ _ _ E). unfold calls_try, mbind, Calls_bind.
  destruct (cursor_runs (log ++ keep)) as (cursor & Ec & Hc).
  destruct (CursorBlitter_new (log ++ keep)) as [rc log2]. cbn [fst snd] in Ec, Hc. subst log2.
  destruct (tonemap_runs ((log ++ keep) ++ cursor)) as (tonemap & Et & Ht).
  destruct (TonemapBlitter_new ((log ++ keep) ++ cursor)) as [rt log3]. cbn [fst snd] in Et, Ht. subst log3.
  cbn [attempt].
  set (rs := answer _ SpawnThread). exists (keep ++ cursor ++ tonemap ++ [(SpawnThread, rs)]).
  split; [destruct (is_ok rs); cbn; by rewrite <- !app_assoc |].
  right. exists keep, rc, cursor, rt, tonemap, rs. split_and!; try done. by destruct (is_ok rs).
Qed.

(** * References to the input *)

(** The views that were created and not given back. *)
Definition views_held (log : CallLog SetupCall) : Z :=
  foldr (fun x n => match x with
                    | (CreateVideoProcessorInputView, Ok _) => n + 1
                    | (ReleaseInputView, _) => n - 1
                    | _ => n
                    end) 0 log.

Lemma views_held_app l1 l2 : views_held (l1 ++ l2) = views_held l1 + views_held l2.
Proof.
  unfold views_held. induction l1 as [|[c r] l1 IH]; cbn [foldr app]; [lia |]. rewrite IH.
  destruct c, r; lia.
Qed.

(** A conversion that succeeds gives its view back; one whose blit fails
    returns before it does, and the view is never released. *)
Lemma convert_views log :
  views_held (ColorConverter_convert log).2 = views_held log
    + match (ColorConverter_convert log).1 with
      | Ok _ => 0
      | Err _ => if is_ok (answer log CreateVideoProcessorInputView) then 1 else 0
      end.
Proof.
  unfold ColorConverter_convert, call, act, mbind, Calls_bind.
  destruct (answer log CreateVideoProcessorInputView) as [[]|e] eqn:E; cbn.
  - destruct (answer _ VideoProcessorBlt) as [[]|e]; cbn; rewrite !views_held_app; cbn; lia.
  - rewrite views_held_app. cbn. lia.
Qed.
End Setup.

(** * The first frames *)

Section FirstFrames.
Context {Image Shape Blitter : Type} (gpu : Gpu Image Shape Blitter) (start_instant_ns : Z).
Context (answer : CallLog SetupCall -> SetupCall -> EngineResult unit).
(** What a texture holds that was just created, what the cleared one holds, and
    a compositor without a shape.  Direct3D promises nothing of the first. *)
Context (undefined black : Image) (blank_blitter : Blitter).

(** What the keepalive texture holds after the calls. *)
Definition keepalive_call (img : Image) (x : SetupCall * EngineResult unit) : Image :=
  match x with
  | (CreateTexture2D FmtBgra8 _ _, Ok _) => undefined
  | (ClearToBlack, _) => black
  | _ => img
  end.

Definition keepalive_after (log : CallLog SetupCall) : Image := foldl keepalive_call undefined log.

(** The state that the thread starts with, after the calls of the start. *)
Definition start_state (log : CallLog SetupCall) (p : Started) (q : Queue EncodedPacket) : LoopState Image Blitter :=
  {| keepalive := keepalive_after log; cursor_blitter := if st_cursor p then Some blank_blitter else None;
     has_tonemap := bool_decide (is_Some (st_tonemap p)); last_pointer := None; idr_request := false;
     keepalive_uses := 0; has_real_frame := false; last_dda_format := None; queue := q; submits := [] |}.

(** A pipeline from its start: its thread, if it could be started. *)
Definition run_pipeline (width height : Z) (scale : f32) (q : Queue EncodedPacket) (ins : list (Input Image Shape))
    (log : CallLog SetupCall) : EngineResult (option (EngineResult unit) * LoopState Image Blitter) :=
  match Pipeline_start answer width height scale log with
  | (Ok p, log) => Ok (run_loop gpu start_instant_ns false ins (start_state log p q))
  | (Err e, _) => Err e
  end.

Lemma keepalive_untouched ext : Forall (fun x => match x.1 with CreateTexture2D FmtBgra8 _ _ | ClearToBlack => False | _ => True end) ext ->
  forall log, keepalive_after (log ++ ext) = keepalive_after log.
Proof.
  intros H log. induction ext as [|x ext IH] using rev_ind; [by rewrite app_nil_r |].
  apply Forall_app in H as (H & Hx). apply Forall_inv in Hx. unfold keepalive_after in *.
  rewrite app_assoc, foldl_snoc, IH by done. destruct x as [[| | | | | |[|] ? ?| | | | | | | | | | | | | | | |] ?]; by cbn in *.
Qed.

(** Whatever the texture held, a pipeline that starts has a black one. *)
Lemma keepalive_cleared w h scale log p log' : Pipeline_start answer w h scale log = (Ok p, log') -> keepalive_after log' = black.
Proof.
  intros E. destruct (pipeline_start_exact answer w h scale log) as (ext & El & Hs). rewrite E in El, Hs. cbn [fst snd] in *. subst log'.
  destruct Hs as [(e & [=] & _) | (keep & rc & cursor & rt & tonemap & rs & -> & (Hk & _) & Hc & Ht & _)].
  rewrite !app_assoc, keepalive_untouched by by repeat constructor.
  rewrite keepalive_untouched.
  2: { apply list.Forall_forall. intros x Hx. pose proof (outcome_calls _ _ _ _ _ Ht Hx) as Hin. revert Hin.
       unfold tonemap_calls. destruct x as [c r]. cbn [fst]. rewrite !elem_of_cons, elem_of_nil. naive_solver. }
  rewrite keepalive_untouched.
  2: { apply list.Forall_forall. intros x Hx. pose proof (outcome_calls _ _ _ _ _ Hc Hx) as Hin. revert Hin.
       unfold cursor_calls. destruct x as [c r]. cbn [fst]. rewrite !elem_of_cons, elem_of_nil. naive_solver. }
  destruct keep as [|[] [|[] [|[] [|]]]]; try done. cbn in Hk. injection Hk as -> -> ->.
  change ([?a; ?b; ?c]) with ([a; b] ++ [c]). unfold keepalive_after. by rewrite app_assoc, foldl_snoc.
Qed.

(** Pictures with a property that no call on a frame loses. *)
Record kept (good : Image -> Prop) : Prop := {
  kept_black : good black;
  kept_copy : forall fmt img keep, good img -> good keep -> good (copy_resource gpu fmt img keep);
  kept_tonemap : forall fmt img keep keep', good img -> good keep -> tonemap_convert gpu fmt img keep = Ok keep' -> good keep';
  kept_composite : forall b x y keep keep', good keep -> composite gpu b x y keep = Ok keep' -> good keep';
}.

Definition all_good (good : Image -> Prop) (s : LoopState Image Blitter) : Prop :=
  good (keepalive s) /\ Forall (fun x => good (su_image x)) (submits s).

(** The frame of an input, if it brings one. *)
Definition frame_of (i : Input Image Shape) : option (Frame Image Shape) :=
  match i with ITick e => match te_acquired e with Ok o => o | Err _ => None end | _ => None end.

Lemma moved_good good b f keep : kept good -> good (fr_image f) -> good keep -> good (move_pixels gpu b f keep).
Proof.
  intros H Hf Hk. unfold move_pixels. destruct (is_bgra8 gpu (fr_format f)), b; try by apply (kept_copy _ H).
  destruct (tonemap_convert _ _ _ _) eqn:E; [by apply (kept_tonemap _ H _ _ _ _ Hf Hk E) | by apply (kept_copy _ H)].
Qed.

Lemma composited_good good b pos keep : kept good -> good keep -> good (composited gpu b pos keep).
Proof.
  intros H Hk. unfold composited. destruct b as [b|], pos as [pos|]; try done. destruct (pp_visible pos); [| done].
  destruct (composite _ _ _ _ _) eqn:E; [by eapply (kept_composite _ H) | done].
Qed.

Lemma take_frame_good good f s : kept good -> good (fr_image f) -> all_good good s -> all_good good (take_frame gpu f s).
Proof. intros H Hf (Hk & Hs). split; [| done]. cbn. apply composited_good; [done |]. by apply moved_good. Qed.

Lemma submit_good good x s : all_good good s -> good (su_image x) -> all_good good (submit_frame x s).
Proof. intros (Hk & Hs) Hx. split; [done |]. cbn. apply Forall_app_2; [done |]. by repeat constructor. Qed.

Lemma tick_good good e s : kept good -> (forall f, frame_of (ITick e) = Some f -> good (fr_image f)) -> all_good good s -> all_good good (tick gpu start_instant_ns e s).2.
Proof.
  intros H Hf Hs. unfold tick. cbn in Hf. destruct (te_acquired e) as [acquired|err]; [| exact Hs].
  assert (Ha : all_good good (match acquired with
    | Some f => take_frame gpu f (set_idr false s) | None => reuse_keepalive (set_idr false s) end)).
  { destruct acquired; [apply take_frame_good; auto | exact Hs]. }
  destruct (te_convert e) as [|err]; [| done]. destruct (te_submit e) as [|err]; [| done].
  apply (submit_good good {| su_image := keepalive _; su_pts_ns := _; su_force_idr := _ |} _ Ha), Ha.
Qed.

Lemma run_good good ins stopped s : kept good ->
  Forall (fun i => forall f, frame_of i = Some f -> good (fr_image f)) ins -> all_good good s ->
  all_good good (run_loop gpu start_instant_ns stopped ins s).2.
Proof.
  intros H Hf. revert stopped s. induction Hf as [|[| |e] ins Hx _ IH]; intros stopped s Hs; cbn [run_loop]; [done | | |].
  - apply IH. exact Hs.
  - apply IH. exact Hs.
  - destruct stopped; [done |]. pose proof (tick_good good e s H Hx Hs) as Ht.
    destruct (tick gpu start_instant_ns e s) as [[[]|err] s']; [by apply IH | done].
Qed.

(** As long as no frame comes, the texture is submitted as it was. *)
Lemma black_until_frame ins : Forall (fun i => frame_of i = None) ins -> forall stopped s, keepalive s = black ->
  Forall (fun x => su_image x = black) (submits s) ->
  Forall (fun x => su_image x = black) (submits (run_loop gpu start_instant_ns stopped ins s).2).
Proof.
  induction 1 as [|[| |e] ins Hx _ IH]; intros stopped s Hk Hs; cbn [run_loop]; [done | by apply IH.. |].
  destruct stopped; [done |]. unfold tick. cbn in Hx.
  destruct (te_acquired e) as [[f|]|err]; [done | | done].
  destruct (te_convert e) as [|err]; [| done]. destruct (te_submit e) as [|err]; [| done].
  assert (Hb : Forall (fun x => su_image x = black) (submits s ++ [{| su_image := keepalive s;
    su_pts_ns := pts_ns start_instant_ns (te_now_ns e); su_force_idr := idr_request s |}]))
    by (apply Forall_app_2; [done |]; by repeat constructor).
  destruct (te_drained e); [by apply IH | exact Hb].
Qed.

(** C26. The encoder never sees an undefined picture, although a texture that
    was just created may hold anything: of a pipeline that starts, whatever the
    GPU answers, the texture is black before its thread runs; what holds of the
    black picture and of the acquired frames, and is kept by copying,
    tonemapping and compositing, holds of every picture submitted; and as long
    as no frame has been acquired, every picture submitted is the black one. *)
Theorem submits_defined w h scale q good ins log : kept good ->
  Forall (fun i => forall f, frame_of i = Some f -> good (fr_image f)) ins ->
  match run_pipeline w h scale q ins log with
  | Err e => (Pipeline_start answer w h scale log).1 = Err e
  | Ok (_, s) =>
      Forall (fun x => good (su_image x)) (submits s)
      /\ (Forall (fun i => frame_of i = None) ins -> Forall (fun x => su_image x = black) (submits s))
  end.
Proof.
  intros H Hf. unfold run_pipeline. pose proof (keepalive_cleared w h scale log) as Hc.
  destruct (Pipeline_start answer w h scale log) as [[p|e] log']; [| done]. specialize (Hc p log' eq_refl).
  pose proof (run_good good ins false (start_state log' p q) H Hf) as Hg.
  pose proof (fun Hi => black_until_frame ins Hi false (start_state log' p q) Hc (List.Forall_nil _)) as Hb.
  destruct (run_loop _ _ _ _ _) as [r s]. cbn [fst snd] in *. split; [| exact Hb].
  apply Hg. split; [cbn; rewrite Hc; apply (kept_black _ H) | constructor].
Qed.
End FirstFrames.

(** * Witnesses *)

(** A texture whose contents may be undefined. *)
Definition demo_gpu2 : Gpu (option Z) Z Z :=
  {| DXGI_FORMAT_B8G8R8A8_UNORM := 87; copy_resource := fun fmt img keep => if fmt =? 87 then img else keep;
     tonemap_convert := fun _ img _ => Ok ((fun n => n + 1) <$> img); update_shape := fun shape _ => Ok shape;
     composite := fun b x y keep => Ok ((fun n => n + b + x + y) <$> keep) |}.

Definition demo_blank_tick : Input (option Z) Z :=
  ITick {| te_acquired := Ok None; te_now_ns := 1; te_convert := Ok tt; te_submit := Ok tt; te_packets := [];
           te_drained := Ok tt; te_stop_after := None |}.

Definition demo_frame_tick : Input (option Z) Z :=
  ITick {| te_acquired := Ok (Some {| fr_format := 10; fr_image := Some 3; fr_shape := Ok None; fr_pointer := None |});
           te_now_ns := 2; te_convert := Ok tt; te_submit := Ok tt; te_packets := [];
           te_drained := Ok tt; te_stop_after := None |}.

Definition all_granted (log : CallLog SetupCall) (c : SetupCall) : EngineResult unit := Ok tt.

Definition demo_pipeline : EngineResult (option (EngineResult unit) * LoopState (option Z) Z) :=
  run_pipeline demo_gpu2 0 all_granted None (Some 0) 5 2560 1440 f32_one (PacketQueue.new 8)
    [demo_blank_tick; demo_frame_tick] [].

Lemma demo_kept : kept demo_gpu2 (Some 0) is_Some.
Proof.
  constructor; cbn; try by eauto.
  - intros fmt img keep Hi Hk. by destruct (fmt =? 87).
  - intros fmt img keep keep' [n ->] _ [= <-]. by eauto.
  - intros b x y keep keep' [n ->] [= <-]. by eauto.
Qed.

Lemma submits_defined_witness : exists r s, demo_pipeline = Ok (r, s)
  /\ su_image <$> submits s = [Some 0; Some 4] /\ Forall (fun x => is_Some (su_image x)) (submits s).
Proof.
  assert (exists r s, demo_pipeline = Ok (r, s) /\ su_image <$> submits s = [Some 0; Some 4]) as (r & s & E & Hs)
    by (eexists _, _; split; [vm_compute; reflexivity | reflexivity]).
  exists r, s. split; [exact E |]. split; [exact Hs |].
  pose proof (submits_defined demo_gpu2 0 all_granted None (Some 0) 5 2560 1440 f32_one (PacketQueue.new 8) is_Some
    [demo_blank_tick; demo_frame_tick] [] demo_kept) as H.
  change (run_pipeline _ _ _ _ _ _ _ _ _ _ _ _) with demo_pipeline in H. rewrite E in H. apply H. clear.
  repeat constructor; cbn; intros f [= <-]; by eauto.
Defined.
