(* ===== verification/Capture.v ===== *)
(** Desktop duplication ([crates/penflow-core/src/capture/dxgi.rs]): acquiring
    and releasing frames, recovery, and what a frame says about the cursor.

    The duplication object is not part of the program.  What is called on it
    is recorded; how a call ends is open. *)
From stdpp Require Import list strings.
From S2P Require Import Prelude Engine CursorShape Pipeline.

(** * Calls on the duplication *)

(** An acquisition with whether it succeeded, the release of the held frame,
    and the replacement of the object by a new one. *)
Inductive DuplCall := CAcquire (timeout_ms : Z) (ok : bool) | CRelease | CRecreate.

(** What DXGI demands of a sequence of calls: no frame may be acquired while
    one is held, and only a held frame is released.  [Some held] afterwards. *)
Definition dupl_step (held : bool) (c : DuplCall) : option bool :=
  match c, held with
  | CAcquire _ ok, false => Some ok
  | CRelease, true => Some false
  | CRecreate, _ => Some false
  | _, _ => None
  end.

Fixpoint dupl_run (held : bool) (cs : list DuplCall) : option bool :=
  match cs with
  | [] => Some held
  | c :: cs' => match dupl_step held c with Some held' => dupl_run held' cs' | None => None end
  end.

(** * Frames *)

(** [DXGI_OUTDUPL_FRAME_INFO], as far as it is read. *)
Record FrameInfo := {
  fi_last_present_time : Z;
  fi_last_mouse_update_time : Z;
  fi_pointer_x : Z; fi_pointer_y : Z; fi_pointer_visible : bool;
  fi_pointer_shape_buffer_size : nat;
}.

Definition is_cursor_only (fi : FrameInfo) : bool := fi_last_present_time fi =? 0.

Definition pointer_position (fi : FrameInfo) : option PointerPosition :=
  if fi_last_mouse_update_time fi =? 0 then None
  else Some {| pp_x := fi_pointer_x fi; pp_y := fi_pointer_y fi; pp_visible := fi_pointer_visible fi |}.

(** [DXGI_OUTDUPL_POINTER_SHAPE_INFO], with the filled buffer and the length
    that DXGI says it needed. *)
Record ShapeAnswer := {
  sa_buffer : list Z; sa_required : nat;
  sa_type : Z; sa_width : nat; sa_height : nat; sa_pitch : nat; sa_hot_x : Z; sa_hot_y : Z;
}.

Definition truncated (a : ShapeAnswer) : list Z :=
  if Nat.ltb (sa_required a) (length (sa_buffer a)) then take (sa_required a) (sa_buffer a) else sa_buffer a.

(** [None]: a panic of the decoder. *)
Definition take_shape_update (E_INVALIDARG : Z) (fi : FrameInfo) (get_shape : nat -> result Z ShapeAnswer)
  : option (EngineResult (option CursorShape)) :=
  if Nat.eqb (fi_pointer_shape_buffer_size fi) 0 then Some (Ok None)
  else
    match get_shape (fi_pointer_shape_buffer_size fi) with
    | Err hr => Some (Err (Win32 hr))
    | Ok a =>
        option_map (fun r => s ← r; Ok (Some s))
          (decode_shape E_INVALIDARG (sa_type a) (sa_width a) (sa_height a) (sa_pitch a)
             (sa_hot_x a) (sa_hot_y a) (truncated a))
    end.

(** * The capturer *)

(** The new interface with the four formats, if there is one and it accepts;
    the old one otherwise. *)
Definition create_duplication (output5 : result Z (result Z unit)) (output1 : result Z (result Z unit))
  : EngineResult unit :=
  match output5 with
  | Ok (Ok _) => Ok tt
  | _ => o1 ← win output1; win o1
  end.

Definition clamp_timeout_ms (ms : Z) : Z := if ms =? 0 then 0 else if 2 ^ 32 - 1 <? ms then 2 ^ 32 - 1 else ms.

Record DxgiErrors := {
  DXGI_ERROR_WAIT_TIMEOUT : Z; WAIT_TIMEOUT : Z;
  DXGI_ERROR_ACCESS_LOST : Z; DXGI_ERROR_ACCESS_DENIED : Z; DXGI_STATUS_OCCLUDED : Z;
  E_INVALIDARG : Z;
}.

(** What an acquisition meets: its outcome with the resource, if there is one
    and it is a texture; and how a new duplication would come about. *)
Record AcquireEnv := {
  ae_result : result Z (option (result Z unit) * FrameInfo);
  ae_output : EngineResult unit;
  ae_output5 : result Z (result Z unit);
  ae_output1 : result Z (result Z unit);
}.

Record Capturer := { frame_held : bool; dupl_log : list DuplCall }.

Section Capturer.
Context (dxgi : DxgiErrors).

Definition logged (c : DuplCall) (held : bool) (s : Capturer) : Capturer :=
  {| frame_held := held; dupl_log := dupl_log s ++ [c] |}.

Definition release_if_held (s : Capturer) : Capturer :=
  if frame_held s then logged CRelease false s else s.

Definition reinit (env : AcquireEnv) (s : Capturer) : EngineResult unit * Capturer :=
  let s := release_if_held s in
  match ae_output env with
  | Err e => (Err e, s)
  | Ok _ =>
      match create_duplication (ae_output5 env) (ae_output1 env) with
      | Err e => (Err e, s)
      | Ok _ => (Ok tt, logged CRecreate (frame_held s) s)
      end
  end.

Definition timed_out (hr : Z) : bool := (hr =? DXGI_ERROR_WAIT_TIMEOUT dxgi) || (hr =? WAIT_TIMEOUT dxgi).

Definition access_lost (hr : Z) : bool :=
  (hr =? DXGI_ERROR_ACCESS_LOST dxgi) || (hr =? DXGI_ERROR_ACCESS_DENIED dxgi)
  || (hr =? DXGI_STATUS_OCCLUDED dxgi).

Definition acquire_frame (timeout_ms : Z) (env : AcquireEnv) (s : Capturer)
  : EngineResult (option FrameInfo) * Capturer :=
  let s := release_if_held s in
  let call ok := CAcquire (clamp_timeout_ms timeout_ms) ok in
  match ae_result env with
  | Ok (resource, info) =>
      let s := logged (call true) true s in
      match resource with
      | None => (Err (Win32 (E_INVALIDARG dxgi)), s)
      | Some (Err hr) => (Err (Win32 hr), s)
      | Some (Ok _) => (Ok (Some info), s)
      end
  | Err hr =>
      let s := logged (call false) (frame_held s) s in
      if timed_out hr then (Ok None, s)
      else if access_lost hr then
        match reinit env s with
        | (Err e, s) => (Err e, s)
        | (Ok _, s) => (Ok None, s)
        end
      else (Err (Win32 hr), s)
  end.

(** [Drop] of the frame and of the capturer. *)
Definition drop_frame (s : Capturer) : Capturer := release_if_held s.

Definition drop_capturer (s : Capturer) : Capturer := release_if_held s.

(** [DxgiCapturer::new]. *)
Definition new_capturer (ctx_luid : Z) (m : MonitorInfo) (env : AcquireEnv) : EngineResult Capturer :=
  if negb (ctx_luid =? adapter_luid m) then Err (AdapterMismatch (adapter_luid m) ctx_luid)
  else
    _ ← ae_output env;
    _ ← create_duplication (ae_output5 env) (ae_output1 env);
    Ok {| frame_held := false; dupl_log := [] |}.

(** ** Any use of a capturer *)

Inductive CapOp := OAcquire (timeout_ms : Z) (env : AcquireEnv) | ODropFrame | OReinit (env : AcquireEnv).

Definition cap_step (s : Capturer) (op : CapOp) : Capturer :=
  match op with
  | OAcquire t env => (acquire_frame t env s).2
  | ODropFrame => drop_frame s
  | OReinit env => (reinit env s).2
  end.

(** The flag knows whether a frame is held, and all calls were allowed. *)
Definition cap_ok (s : Capturer) : Prop := dupl_run false (dupl_log s) = Some (frame_held s).

Lemma dupl_run_app held cs ds : dupl_run held (cs ++ ds)
  = match dupl_run held cs with Some held' => dupl_run held' ds | None => None end.
Proof. revert held. induction cs as [|c cs IH]; intros held; cbn; [done |]. by destruct (dupl_step held c). Qed.

Lemma logged_ok c held s : cap_ok s -> dupl_step (frame_held s) c = Some held -> cap_ok (logged c held s).
Proof. unfold cap_ok. intros H Hs. cbn. by rewrite dupl_run_app, H; cbn; rewrite Hs. Qed.

Lemma release_ok s : cap_ok s -> cap_ok (release_if_held s) /\ frame_held (release_if_held s) = false.
Proof.
  intros H. unfold release_if_held. destruct (frame_held s) eqn:E; [| done].
  split; [| done]. apply logged_ok; [done | by rewrite E].
Qed.

Lemma reinit_ok env s : cap_ok s -> cap_ok (reinit env s).2.
Proof.
  intros H. unfold reinit. destruct (release_ok s H) as (Hr & Hf).
  destruct (ae_output env); [| done]. destruct (create_duplication _ _); [| done].
  apply logged_ok; [done | by rewrite Hf].
Qed.

Lemma acquire_ok t env s : cap_ok s -> cap_ok (acquire_frame t env s).2.
Proof.
  intros H. unfold acquire_frame. destruct (release_ok s H) as (Hr & Hf).
  destruct (ae_result env) as [[resource info]|hr].
  - assert (cap_ok (logged (CAcquire (clamp_timeout_ms t) true) true (release_if_held s)))
      by (apply logged_ok; [done | by rewrite Hf]).
    by destruct resource as [[]|].
  - assert (Hl : cap_ok (logged (CAcquire (clamp_timeout_ms t) false) (frame_held (release_if_held s)) (release_if_held s)))
      by (apply logged_ok; [done | by rewrite Hf]).
    destruct (timed_out hr); [done |]. destruct (access_lost hr); [| done].
    apply (reinit_ok env) in Hl. by destruct (reinit env _) as [[]].
Qed.

(** The waits that are asked for, and those that DXGI is given. *)
Definition asked (op : CapOp) : option Z := match op with OAcquire t _ => Some t | _ => None end.

Definition given (c : DuplCall) : option Z := match c with CAcquire t _ => Some t | _ => None end.

Lemma clamp_timeout_exact ms : 0 <= ms -> clamp_timeout_ms ms = Z.min ms (2 ^ 32 - 1).
Proof.
  intros H. unfold clamp_timeout_ms. destruct (Z.eqb_spec ms 0); [lia |].
  destruct (Z.ltb_spec (2 ^ 32 - 1) ms); lia.
Qed.

Lemma given_logged c held s : omap given (dupl_log (logged c held s)) = omap given (dupl_log s) ++ option_list (given c).
Proof. cbn. rewrite omap_app. by destruct c. Qed.

Lemma given_release s : omap given (dupl_log (release_if_held s)) = omap given (dupl_log s).
Proof. unfold release_if_held. destruct (frame_held s); [| done]. by rewrite given_logged, app_nil_r. Qed.

Lemma given_reinit env s : omap given (dupl_log (reinit env s).2) = omap given (dupl_log s).
Proof.
  unfold reinit. destruct (ae_output env); [| apply given_release].
  destruct (create_duplication _ _); [| apply given_release]. cbn [snd]. by rewrite given_logged, app_nil_r, given_release.
Qed.

Lemma given_acquire t env s : omap given (dupl_log (acquire_frame t env s).2)
  = omap given (dupl_log s) ++ [clamp_timeout_ms t].
Proof.
  unfold acquire_frame. rewrite <- (given_release s). destruct (ae_result env) as [[[[[]|hr]|] info]|hr].
  1-3: cbn [snd]; by rewrite given_logged.
  destruct (timed_out hr); [cbn [snd]; by rewrite given_logged |]. destruct (access_lost hr); [| cbn [snd]; by rewrite given_logged].
  pose proof (given_reinit env (logged (CAcquire (clamp_timeout_ms t) false) (frame_held (release_if_held s)) (release_if_held s))) as H.
  rewrite given_logged in H. destruct (reinit env _) as [[[]|e] s']; exact H.
Qed.

Lemma given_run ops : Forall (fun t => 0 <= t) (omap asked ops) -> forall s,
  omap given (dupl_log (foldl cap_step s ops)) = omap given (dupl_log s) ++ ((fun t => Z.min t (2 ^ 32 - 1)) <$> omap asked ops).
Proof.
  induction ops as [|op ops IH]; intros Hops s; [by rewrite app_nil_r |]. cbn [foldl]. destruct op as [t env| |env]; cbn in Hops.
  - apply Forall_cons_1 in Hops as (Ht & Hops). rewrite IH by done. cbn [cap_step]. rewrite given_acquire, clamp_timeout_exact by done.
    by rewrite <- app_assoc.
  - rewrite IH by done. cbn [cap_step]. unfold drop_frame. by rewrite given_release.
  - rewrite IH by done. cbn [cap_step]. by rewrite given_reinit.
Qed.

(** C28. The capturer never breaks the duplication's rules: whatever DXGI
    answers and in whatever order frames are acquired, dropped and the
    duplication is rebuilt, no frame is acquired while one is held and only
    held frames are released; the flag says at every moment whether one is
    held, and none is after the capturer is dropped.  Every acquisition waits
    once, for the time it is asked to, or for the largest 32-bit number of
    milliseconds if that is less.  A capturer is only made for an adapter of
    the context's own. *)
Theorem duplication_rules ops env ctx_luid m s0 :
  new_capturer ctx_luid m env = Ok s0 ->
  let s := foldl cap_step s0 ops in
  dupl_run false (dupl_log s) = Some (frame_held s)
  /\ dupl_run false (dupl_log (drop_capturer s)) = Some false
  /\ (Forall (fun t => 0 <= t) (omap asked ops) ->
      omap given (dupl_log s) = (fun t => Z.min t (2 ^ 32 - 1)) <$> omap asked ops)
  /\ ctx_luid = adapter_luid m.
Proof.
  unfold new_capturer. destruct (Z.eqb_spec ctx_luid (adapter_luid m)) as [-> |]; [| done]. cbn [negb].
  intros E. inv_binds. injection E as <-.
  assert (Hs : forall s, cap_ok s -> cap_ok (foldl cap_step s ops)).
  { induction ops as [|op ops IH]; intros s Hs; [done |]. cbn. apply IH.
    destruct op; [by apply acquire_ok | by apply release_ok | by apply reinit_ok]. }
  cbv zeta. specialize (Hs {| frame_held := false; dupl_log := [] |} eq_refl).
  destruct (release_ok _ Hs) as (Hr & Hf). unfold cap_ok in Hr. split_and!; [done | | by intros; rewrite given_run | done].
  unfold drop_capturer. by rewrite Hr, Hf.
Qed.

(** How an acquisition ends: a frame, with its information and the flag
    set; no frame after a timeout; no frame, and a new duplication, after the
    access was lost, was denied or the output was occluded; the recovery's own
    error when that failed; and any other error as it is.  A frame is reported
    only when its resource is a texture. *)
Theorem acquire_exact t env s :
  match acquire_frame t env s with
  | (Ok (Some info), s') => ae_result env = Ok (Some (Ok tt), info) /\ frame_held s' = true
  | (Ok None, s') => frame_held s' = false /\ exists hr, ae_result env = Err hr
      /\ (timed_out hr = true \/ (access_lost hr = true /\ list.last (dupl_log s') = Some CRecreate))
  | (Err e, s') =>
      (exists hr, ae_result env = Err hr /\ timed_out hr = false
        /\ (if access_lost hr then (reinit env (logged (CAcquire (clamp_timeout_ms t) false)
                                     (frame_held (release_if_held s)) (release_if_held s))).1 = Err e
            else e = Win32 hr))
      \/ exists resource info, ae_result env = Ok (resource, info) /\ frame_held s' = true
        /\ match resource with
           | None => e = Win32 (E_INVALIDARG dxgi)
           | Some r => exists hr, r = Err hr /\ e = Win32 hr
           end
  end.
Proof.
  assert (Hrel : frame_held (release_if_held s) = false).
  { unfold release_if_held. by destruct (frame_held s) eqn:E. }
  unfold acquire_frame. destruct (ae_result env) as [[[[[]|hr]|] info]|hr] eqn:E; cbn.
  - done.
  - right. by exists (Some (Err hr)), info; split_and!; [| | exists hr].
  - right. by exists None, info.
  - destruct (timed_out hr) eqn:Et; [split; [done | by exists hr; auto] |].
    destruct (access_lost hr) eqn:Ea; [| left; exists hr; by rewrite Ea].
    set (s1 := logged _ _ _).
    assert (Hs1 : release_if_held s1 = s1) by (unfold release_if_held, s1; cbn; by rewrite Hrel).
    destruct (reinit env s1) as [[[]|e] s2] eqn:Er; [| left; exists hr; by rewrite Ea].
    unfold reinit in Er. rewrite Hs1 in Er. destruct (ae_output env); [| done].
    destruct (create_duplication _ _); [| done]. injection Er as <-. split; [exact Hrel |].
    exists hr. split; [done |]. right. split; [done |]. cbn. apply last_snoc.
Qed.
End Capturer.

(** * Witness *)

Definition demo_dxgi : DxgiErrors :=
  {| DXGI_ERROR_WAIT_TIMEOUT := -2005270489; WAIT_TIMEOUT := 258; DXGI_ERROR_ACCESS_LOST := -2005270490;
     DXGI_ERROR_ACCESS_DENIED := -2005270485; DXGI_STATUS_OCCLUDED := 142213121; E_INVALIDARG := -2147024809 |}.

Definition demo_info : FrameInfo :=
  {| fi_last_present_time := 1; fi_last_mouse_update_time := 0; fi_pointer_x := 0; fi_pointer_y := 0;
     fi_pointer_visible := false; fi_pointer_shape_buffer_size := 0 |}.

Definition demo_acquire (r : result Z (option (result Z unit) * FrameInfo)) : AcquireEnv :=
  {| ae_result := r; ae_output := Ok tt; ae_output5 := Err 1; ae_output1 := Ok (Ok tt) |}.

Definition demo_captured : MonitorInfo :=
  {| adapter_index := 0; adapter_luid := 7; adapter_name := "gpu"; adapter_vendor_id := 0x10de;
     adapter_device_id := 1; adapter_is_software := false; output_index_within_adapter := 0;
     device_name := "DISPLAY1"; mon_width := 1920; mon_height := 1080;
     desktop_coords := (0, 0, 1920, 1080); rotation := 1; attached_to_desktop := true;
     looks_virtual := false |}.

(** A frame is held over the next acquisition, and then the access is lost;
    in the middle an acquired resource is not a texture. *)
Definition demo_ops : list CapOp :=
  [ OAcquire 16 (demo_acquire (Ok (Some (Ok tt), demo_info)));
    OAcquire (2 ^ 40) (demo_acquire (Ok (Some (Err 3), demo_info)));
    OAcquire 16 (demo_acquire (Err (-2005270490)));
    OAcquire 16 (demo_acquire (Ok (Some (Ok tt), demo_info))); ODropFrame ].

Example demo_log : dupl_log (foldl (cap_step demo_dxgi) {| frame_held := false; dupl_log := [] |} demo_ops)
  = [CAcquire 16 true; CRelease; CAcquire (2 ^ 32 - 1) true; CRelease; CAcquire 16 false; CRecreate; CAcquire 16 true;
     CRelease].
Proof. vm_compute. reflexivity. Qed.

Lemma duplication_rules_witness :
  let s := foldl (cap_step demo_dxgi) {| frame_held := false; dupl_log := [] |} demo_ops in
  dupl_run false (dupl_log s) = Some (frame_held s)
  /\ dupl_run false (dupl_log (drop_capturer s)) = Some false
  /\ omap given (dupl_log s) = [16; 2 ^ 32 - 1; 16; 16].
Proof.
  destruct (duplication_rules demo_dxgi demo_ops (demo_acquire (Err 0)) 7 demo_captured {| frame_held := false; dupl_log := [] |})
    as (H1 & H2 & H3 & _); [by vm_compute |].
  split_and!; [exact H1 | exact H2 |]. rewrite H3; [by vm_compute |]. by repeat constructor.
Defined.
