(* ===== verification/Facade.v ===== *)
(** The engine's entry points ([crates/penflow-core/src/lib.rs],
    [d3d11.rs], [sdr_white_level.rs]): the builder with its defaults, and
    [EngineBuilder::start], which puts monitor, device, capturer, encoder and
    pipeline together. *)
From stdpp Require Import list strings.
From S2P Require Import Prelude Engine F32 Text Monitors.

(** * The builder *)

(** Durations are in milliseconds. *)
Record EngineBuilder := {
  eb_monitor : MonitorInfo; eb_codec : Codec; eb_bitrate_bps : Z; eb_fps : Z;
  eb_acquire_timeout : Z; eb_packet_queue_capacity : Z; eb_pts_epoch : option Z }.

(** [Engine::builder]. *)
Definition builder (m : MonitorInfo) : EngineBuilder :=
  {| eb_monitor := m; eb_codec := Hevc; eb_bitrate_bps := 50000000; eb_fps := 60;
     eb_acquire_timeout := 16; eb_packet_queue_capacity := 8; eb_pts_epoch := None |}.

Definition codec (c : Codec) (b : EngineBuilder) : EngineBuilder :=
  {| eb_monitor := eb_monitor b; eb_codec := c; eb_bitrate_bps := eb_bitrate_bps b; eb_fps := eb_fps b;
     eb_acquire_timeout := eb_acquire_timeout b; eb_packet_queue_capacity := eb_packet_queue_capacity b;
     eb_pts_epoch := eb_pts_epoch b |}.

Definition bitrate_bps (n : Z) (b : EngineBuilder) : EngineBuilder :=
  {| eb_monitor := eb_monitor b; eb_codec := eb_codec b; eb_bitrate_bps := n; eb_fps := eb_fps b;
     eb_acquire_timeout := eb_acquire_timeout b; eb_packet_queue_capacity := eb_packet_queue_capacity b;
     eb_pts_epoch := eb_pts_epoch b |}.

Definition fps (n : Z) (b : EngineBuilder) : EngineBuilder :=
  {| eb_monitor := eb_monitor b; eb_codec := eb_codec b; eb_bitrate_bps := eb_bitrate_bps b; eb_fps := n;
     eb_acquire_timeout := eb_acquire_timeout b; eb_packet_queue_capacity := eb_packet_queue_capacity b;
     eb_pts_epoch := eb_pts_epoch b |}.

Definition acquire_timeout (n : Z) (b : EngineBuilder) : EngineBuilder :=
  {| eb_monitor := eb_monitor b; eb_codec := eb_codec b; eb_bitrate_bps := eb_bitrate_bps b; eb_fps := eb_fps b;
     eb_acquire_timeout := n; eb_packet_queue_capacity := eb_packet_queue_capacity b;
     eb_pts_epoch := eb_pts_epoch b |}.

Definition packet_queue_capacity (n : Z) (b : EngineBuilder) : EngineBuilder :=
  {| eb_monitor := eb_monitor b; eb_codec := eb_codec b; eb_bitrate_bps := eb_bitrate_bps b; eb_fps := eb_fps b;
     eb_acquire_timeout := eb_acquire_timeout b; eb_packet_queue_capacity := n; eb_pts_epoch := eb_pts_epoch b |}.

Definition pts_epoch (t : Z) (b : EngineBuilder) : EngineBuilder :=
  {| eb_monitor := eb_monitor b; eb_codec := eb_codec b; eb_bitrate_bps := eb_bitrate_bps b; eb_fps := eb_fps b;
     eb_acquire_timeout := eb_acquire_timeout b; eb_packet_queue_capacity := eb_packet_queue_capacity b;
     eb_pts_epoch := Some t |}.

(** * The brightness of SDR content *)

(** A display path with the name of its source and its white level, where
    they can be read. *)
Record DisplayPath := { dp_gdi_name : option (list Z); dp_sdr_white_level : option Z }.

(** Up to the first NUL. *)
Fixpoint wide_to_string (buf : list Z) : list Z :=
  match buf with c :: buf' => if c =? 0 then [] else c :: wide_to_string buf' | [] => [] end.

(** [1000] is 80 nits. *)
Definition scale_of_level (level : Z) : f32 :=
  f32_clamp (f32_div (f32_of_Z 1) (f32_of_Z 10)) (f32_of_Z 16) (f32_div (f32_of_Z level) (f32_of_Z 1000)).

Fixpoint find_white_level (device_name : list Z) (paths : list DisplayPath) : option f32 :=
  match paths with
  | [] => None
  | p :: paths' =>
      match dp_gdi_name p with
      | None => find_white_level device_name paths'
      | Some buf =>
          if bool_decide (wide_to_string buf = device_name) then scale_of_level <$> dp_sdr_white_level p
          else find_white_level device_name paths'
      end
  end.

(** [None]: the paths could not be listed. *)
Definition query_sdr_white_level_scale (device_name : list Z) (paths : option (list DisplayPath)) : option f32 :=
  match paths with Some paths => find_white_level device_name paths | None => None end.

(** * Start *)

Record D3d11Context := { ctx_adapter : Adapter; ctx_adapter_luid : Z; ctx_adapter_vendor_id : Z }.

(** [D3d11Context::create_on_adapter]; [device] is the outcome of the calls
    that must succeed. *)
Definition create_on_adapter (adapter : Adapter) (device : EngineResult unit) : EngineResult D3d11Context :=
  desc ← win (adp_desc adapter);
  _ ← device;
  Ok {| ctx_adapter := adapter; ctx_adapter_luid := luid_of desc; ctx_adapter_vendor_id := ad_vendor_id desc |}.

Record PipelineConfig := {
  pc_width : Z; pc_height : Z; pc_fps : Z; pc_acquire_timeout : Z; pc_packet_queue_capacity : Z;
  pc_pts_epoch : Z; pc_scrgb_sdr_scale : f32 }.

(** What the system and the parts answer. *)
Record StartEnv := {
  sv_factory : EngineResult Factory;
  sv_device : EngineResult unit;
  sv_duplication : Output -> EngineResult unit;
  sv_converter : Z -> Z -> Z -> EngineResult unit;
  sv_backend : EngineResult unit;
  sv_session : Z -> SessionConfig -> EngineResult unit;
  sv_white_level : string -> option f32;
  sv_now : Z;
  sv_pipeline : PipelineConfig -> EngineResult unit;
}.

(** A started engine: its monitor, its device, and what encoder and pipeline
    were started with. *)
Record Engine := {
  eng_monitor : MonitorInfo; eng_ctx : D3d11Context;
  eng_session : SessionConfig; eng_pipeline : PipelineConfig }.

Definition same_output (a b : MonitorInfo) : bool :=
  (adapter_luid a =? adapter_luid b) && bool_decide (device_name a = device_name b).

Definition DxgiCapturer_new (ctx : D3d11Context) (m : MonitorInfo) (duplication : Output -> EngineResult unit)
  : EngineResult unit :=
  if negb (ctx_adapter_luid ctx =? adapter_luid m) then
    Err (AdapterMismatch (adapter_luid m) (ctx_adapter_luid ctx))
  else
    output ← open_output m (ctx_adapter ctx);
    duplication output.

Section Start.
Context (DXGI_ERROR_NOT_FOUND : Z) (env : StartEnv).

(** The parts, once the monitor is known. *)
Definition start_on (b : EngineBuilder) (factory : Factory) (monitor : MonitorInfo) : EngineResult Engine :=
  adapter ← open_adapter monitor factory;
  ctx ← create_on_adapter adapter (sv_device env);
  let width := mon_width monitor in
  let height := mon_height monitor in
  if (width =? 0) || (height =? 0) then Err (AdapterHasNoOutputs (adapter_name monitor) (adapter_luid monitor))
  else
    _ ← DxgiCapturer_new ctx monitor (sv_duplication env);
    _ ← sv_converter env width height (eb_fps b);
    _ ← sv_backend env;
    let session := {| enc_width := width; enc_height := height; enc_fps := eb_fps b;
                      enc_bitrate_bps := eb_bitrate_bps b; enc_codec := eb_codec b; enc_input_format := Nv12 |} in
    _ ← sv_session env (ctx_adapter_vendor_id ctx) session;
    let scale := default (f32_of_Z 1) (sv_white_level env (device_name monitor)) in
    let config := {| pc_width := width; pc_height := height; pc_fps := eb_fps b;
                     pc_acquire_timeout := eb_acquire_timeout b;
                     pc_packet_queue_capacity := eb_packet_queue_capacity b;
                     pc_pts_epoch := default (sv_now env) (eb_pts_epoch b); pc_scrgb_sdr_scale := scale |} in
    _ ← sv_pipeline env config;
    Ok {| eng_monitor := monitor; eng_ctx := ctx; eng_session := session; eng_pipeline := config |}.

(** [None]: not enough fuel for the enumeration. *)
Definition start (fuel : nat) (b : EngineBuilder) : option (EngineResult Engine) :=
  match sv_factory env with
  | Err e => Some (Err e)
  | Ok factory =>
      match enumerate DXGI_ERROR_NOT_FOUND fuel factory with
      | None => None
      | Some (Err e) => Some (Err e)
      | Some (Ok mons) =>
          let monitor := default (eb_monitor b) (List.find (fun m => same_output m (eb_monitor b)) mons) in
          Some (start_on b factory monitor)
      end
  end.

(** What a started engine is made of. *)
Definition well_assembled (b : EngineBuilder) (mons : list MonitorInfo) (e : Engine) : Prop :=
  (eng_monitor e ∈ mons /\ same_output (eng_monitor e) (eb_monitor b) = true
   \/ eng_monitor e = eb_monitor b /\ Forall (fun m => same_output m (eb_monitor b) = false) mons)
  /\ ctx_adapter_luid (eng_ctx e) = adapter_luid (eng_monitor e)
  /\ mon_width (eng_monitor e) <> 0 /\ mon_height (eng_monitor e) <> 0
  /\ eng_session e = {| enc_width := mon_width (eng_monitor e); enc_height := mon_height (eng_monitor e);
                        enc_fps := eb_fps b; enc_bitrate_bps := eb_bitrate_bps b; enc_codec := eb_codec b;
                        enc_input_format := Nv12 |}
  /\ pc_width (eng_pipeline e) = mon_width (eng_monitor e)
  /\ pc_height (eng_pipeline e) = mon_height (eng_monitor e)
  /\ pc_fps (eng_pipeline e) = eb_fps b
  /\ (forall t, eb_pts_epoch b = Some t -> pc_pts_epoch (eng_pipeline e) = t).

Lemma open_adapter_luid m factory adapter : open_adapter m factory = Ok adapter ->
  exists desc, adp_desc adapter = Ok desc /\ luid_of desc = adapter_luid m.
Proof.
  unfold open_adapter. intros E. inv_binds. destruct (Z.eqb_spec (luid_of v0) (adapter_luid m)); [| done].
  injection E as ->. exists v0. split; [| done]. by destruct (adp_desc adapter); [injection Hm0 as -> |].
Qed.

Lemma start_on_ok b factory m e : start_on b factory m = Ok e ->
  eng_monitor e = m /\ ctx_adapter_luid (eng_ctx e) = adapter_luid m /\ mon_width m <> 0 /\ mon_height m <> 0
  /\ eng_session e = {| enc_width := mon_width m; enc_height := mon_height m; enc_fps := eb_fps b;
                        enc_bitrate_bps := eb_bitrate_bps b; enc_codec := eb_codec b; enc_input_format := Nv12 |}
  /\ pc_width (eng_pipeline e) = mon_width m /\ pc_height (eng_pipeline e) = mon_height m
  /\ pc_fps (eng_pipeline e) = eb_fps b
  /\ (forall t, eb_pts_epoch b = Some t -> pc_pts_epoch (eng_pipeline e) = t).
Proof.
  unfold start_on. intros E. apply bind_Ok in E as (adapter & Ea & E). apply bind_Ok in E as (ctx & Ec & E).
  destruct (Z.eqb_spec (mon_width m) 0); [done |]. destruct (Z.eqb_spec (mon_height m) 0); [done |].
  cbn [orb] in E. inv_binds. injection E as <-. cbn.
  destruct (open_adapter_luid _ _ _ Ea) as (desc & Ed & Hl).
  unfold create_on_adapter in Ec. rewrite Ed in Ec. cbn in Ec. apply bind_Ok in Ec as ([] & _ & [= <-]).
  split_and!; try done. by intros t ->.
Qed.

(** A started engine is assembled from one monitor: the listed one with
    the LUID and name that were asked for, with the sizes of the new
    enumeration, or the one that was passed when it is not listed any more;
    device, encoder and pipeline have that monitor's adapter and sizes, never
    an empty one, and the builder's rate, codec and epoch. *)
Theorem start_assembles fuel b factory mons e :
  sv_factory env = Ok factory -> enumerate DXGI_ERROR_NOT_FOUND fuel factory = Some (Ok mons) ->
  start fuel b = Some (Ok e) -> well_assembled b mons e.
Proof.
  intros Hf Hm. unfold start. rewrite Hf, Hm. intros [= E]. apply start_on_ok in E as (He & H).
  unfold well_assembled. rewrite He.
  split; [| exact H]. destruct (List.find _ mons) as [m|] eqn:Ef; cbn.
  - left. apply List.find_some in Ef as (Hin & Hs). split; [by apply list_elem_of_In | done].
  - right. split; [done |]. apply List.Forall_forall. intros m Hin. by apply (List.find_none _ _ Ef).
Qed.

(** A monitor without an area is refused after its device was made, and no
    capture is started. *)
Lemma empty_monitor_refused b factory m adapter ctx :
  open_adapter m factory = Ok adapter -> create_on_adapter adapter (sv_device env) = Ok ctx ->
  mon_width m = 0 \/ mon_height m = 0 ->
  start_on b factory m = Err (AdapterHasNoOutputs (adapter_name m) (adapter_luid m)).
Proof.
  intros Ha Hc Hz. unfold start_on. rewrite Ha. cbn. rewrite Hc. cbn.
  destruct Hz as [-> | ->]; cbn; by rewrite ?orb_true_r.
Qed.
End Start.

(** * Witness *)

Definition demo_start : StartEnv :=
  {| sv_factory := Ok demo_factory; sv_device := Ok tt; sv_duplication _ := Ok tt; sv_converter _ _ _ := Ok tt;
     sv_backend := Ok tt; sv_session _ _ := Ok tt; sv_white_level _ := None; sv_now := 5; sv_pipeline _ := Ok tt |}.

Definition stale_monitor : MonitorInfo :=
  monitor_of 3 demo_adapter 1 {| od_device_name := "MttVDD"; od_left := 0; od_top := 0; od_right := 1280;
                                 od_bottom := 720; od_rotation := 1; od_attached := true |}.

Definition demo_engine : option (EngineResult Engine) :=
  start 2 demo_start 8 (pts_epoch 77 (fps 120 (codec H264 (builder stale_monitor)))).

(** The monitor moved and grew since it was listed. *)
Lemma start_assembles_witness : exists e, demo_engine = Some (Ok e)
  /\ well_assembled (pts_epoch 77 (fps 120 (codec H264 (builder stale_monitor)))) (all_monitors demo_presented) e
  /\ enc_width (eng_session e) = 1920 /\ adapter_index (eng_monitor e) = 0.
Proof.
  eexists. split; [vm_compute; reflexivity |]. split; [| split; reflexivity].
  apply (start_assembles 2 demo_start 8 _ demo_factory); vm_compute; reflexivity.
Defined.
