(* ===== verification/EncodedPipeline.v ===== *)
(** The capture loop with the encoder session it drives: the ticks of
    [crates/penflow-core/src/pipeline.rs] whose submissions and packets are
    those of [encoder/mf.rs].  [Pipeline] takes what the encoder does from its
    environment; here it is computed by [Encoder], and only the desktop and
    the transform are left open. *)
From stdpp Require Import list.
From S2P Require Import Prelude Bytes Engine AnnexB Encoder PacketQueue Pipeline.

(** How a run ends, if it does. *)
Inductive RunEnd := Running | Returned (r : EngineResult unit) | Hung.

Section Encoded.
Context {Image Shape Blitter : Type} (gpu : Gpu Image Shape Blitter) (start_instant_ns : Z).
Context (mf : MfConstants) (cfg : SessionConfig).

(** A tick's environment without the encoder; the [k]th poll of the tick finds
    [ti_arrived k] events. *)
Record TickInput := {
  ti_acquired : EngineResult (option (Frame Image Shape));
  ti_now_ns : Z;
  ti_convert : EngineResult unit;
  ti_submit : SubmitEnv;
  ti_arrived : nat -> nat;
  ti_stop_after : option nat;
}.

Inductive EncodedInput := ERequestIdr | EStop | ETick (t : TickInput).

(** The loop around [try_packet]: the packets it gets and how it ends. *)
Fixpoint drain_packets (fuel k : nat) (arrived : nat -> nat) (e : Enc)
  : EngineResult unit * list EncodedPacket * Enc :=
  match fuel with
  | O => (Ok tt, [], e)
  | S fuel' =>
      match try_packet mf cfg (arrived k) e with
      | (Err err, e') => (Err err, [], e')
      | (Ok None, e') => (Ok tt, [], e')
      | (Ok (Some p), e') =>
          let '(r, ps, e'') := drain_packets fuel' (S k) arrived e' in (r, p :: ps, e'')
      end
  end.

(** Every packet the loop gets was queued or comes from an event. *)
Definition drain_fuel (e : Enc) : nat := S (length (output_queue (e_session e)) + length (e_events e)).

Definition env_of (t : TickInput) (submit : EngineResult unit) (pkts : list EncodedPacket)
    (drained : EngineResult unit) : TickEnv Image Shape :=
  {| te_acquired := ti_acquired t; te_now_ns := ti_now_ns t; te_convert := ti_convert t;
     te_submit := submit; te_packets := pkts; te_drained := drained; te_stop_after := ti_stop_after t |}.

(** What the encoder does in a tick of the state [s]; [None]: it hangs. *)
Definition encode (t : TickInput) (s : LoopState Image Blitter) (e : Enc) : option (TickEnv Image Shape) * Enc :=
  if is_ok (ti_acquired t) && is_ok (ti_convert t) then
    match Encoder.submit_frame mf cfg (ti_submit t) (pts_ns start_instant_ns (ti_now_ns t)) (idr_request s) e with
    | (None, e') => (None, e')
    | (Some (Err err), e') => (Some (env_of t (Err err) [] (Ok tt)), e')
    | (Some (Ok _), e') =>
        let '(drained, pkts, e'') := drain_packets (drain_fuel e') 0 (ti_arrived t) e' in
        (Some (env_of t (Ok tt) pkts drained), e'')
    end
  else (Some (env_of t (Ok tt) [] (Ok tt)), e).

(** A run, with the inputs the plain loop has in it. *)
Fixpoint encoded_run (stopped : bool) (ins : list EncodedInput) (s : LoopState Image Blitter) (e : Enc)
  : RunEnd * list (Input Image Shape) * LoopState Image Blitter * Enc :=
  match ins with
  | [] => (Running, [], s, e)
  | ERequestIdr :: ins' =>
      let '(r, l, s', e') := encoded_run stopped ins' (set_idr true s) e in (r, IRequestIdr :: l, s', e')
  | EStop :: ins' =>
      let '(r, l, s', e') := encoded_run true ins' (close_queue s) e in (r, IStop :: l, s', e')
  | ETick t :: ins' =>
      if stopped then (Returned (Ok tt), [ITick (env_of t (Ok tt) [] (Ok tt))], s, e)
      else
        match encode t s e with
        | (None, e') => (Hung, [], s, e')
        | (Some env, e') =>
            match tick gpu start_instant_ns env s with
            | (Err err, s') => (Returned (Err err), [ITick env], s', e')
            | (Ok _, s') =>
                let '(r, l, s'', e'') :=
                  encoded_run (bool_decide (is_Some (te_stop_after env))) ins' s' e' in
                (r, ITick env :: l, s'', e'')
            end
        end
  end.

(** * Fuel *)

Lemma wait_drain_measure n evs s :
  let '(_, s', evs') := drain_events_nowait mf cfg n evs s in
  (length (output_queue s') + length evs' <= length (output_queue s) + length evs)%nat.
Proof.
  revert n s. induction evs as [|[[t|]|] evs IH]; intros [|n] s; cbn [drain_events_nowait length]; try lia.
  destruct (_ =? _).
  - assert (Hc : (length (output_queue (collect_into_queue mf cfg out s).2) <= S (length (output_queue s)))%nat).
    { unfold collect_into_queue, collect_output_packet. destruct (fetch_output mf cfg out) as [[smp|]|]; cbn; try lia.
      destruct (smp_bytes smp); cbn; rewrite ?length_app; cbn; lia. }
    destruct (collect_into_queue mf cfg out s) as ([|] & s'); cbn in Hc; [| lia].
    specialize (IH n s'). destruct (drain_events_nowait mf cfg n evs s') as ((? & s1) & evs1). lia.
  - specialize (IH n s). destruct (drain_events_nowait mf cfg n evs s) as ((? & s1) & evs1). lia.
Qed.

Lemma try_packet_measure n e p e' : try_packet mf cfg n e = (Ok (Some p), e') ->
  (drain_fuel e' < drain_fuel e)%nat.
Proof.
  unfold try_packet, drain_fuel. pose proof (wait_drain_measure n (e_events e) (e_session e)) as H.
  destruct (drain_events_nowait mf cfg n _ _) as (([|] & s) & evs); [| done].
  intros [= Hq <-]. cbn. destruct (output_queue s); [done |]. cbn in *. lia.
Qed.

(** More fuel than [drain_fuel] changes nothing: the loop ends by itself. *)
Lemma drain_packets_fuel f1 f2 k arrived e : (drain_fuel e <= f1)%nat -> (drain_fuel e <= f2)%nat ->
  drain_packets f1 k arrived e = drain_packets f2 k arrived e.
Proof.
  revert f2 k e. induction f1 as [|f1 IH]; intros f2 k e H1 H2; [unfold drain_fuel in H1; lia |].
  destruct f2 as [|f2]; [unfold drain_fuel in H2; lia |]. cbn [drain_packets].
  destruct (try_packet mf cfg (arrived k) e) as ([[p|]|] & e') eqn:E; try done.
  apply try_packet_measure in E. by rewrite (IH f2) by lia.
Qed.

(** * Links *)

(** The calls that submit frames. *)
Definition mft_calls (subs : list (Submit Image)) : list MftCall :=
  concat ((fun x => (if su_force_idr x then [ForceKeyFrame] else [])
                    ++ [ProcessInput (sample_time (su_pts_ns x)) (dur_100ns cfg)]) <$> subs).

(** All the packets a run pushed. *)
Definition pushed (l : list (Input Image Shape)) : list EncodedPacket :=
  concat ((fun i => match i with ITick env => te_packets env | _ => [] end) <$> l).

Definition failed (r : RunEnd) : bool := match r with Returned (Err _) | Hung => true | _ => false end.

(** Loop and session agree after the packets [ps]. *)
Definition linked (s : LoopState Image Blitter) (e : Enc) (ps : list EncodedPacket) : Prop :=
  session_inv cfg (su_pts_ns <$> submits s) ps (e_session e) /\ e_calls e = mft_calls (submits s).

Lemma drain_packets_inv fuel acc ps k arrived e : session_inv cfg acc ps (e_session e) ->
  session_inv cfg acc (ps ++ (drain_packets fuel k arrived e).1.2) (e_session (drain_packets fuel k arrived e).2).
Proof.
  revert ps k e. induction fuel as [|fuel IH]; intros ps k e H; cbn [drain_packets]; [by rewrite app_nil_r |].
  pose proof (try_packet_inv mf cfg acc ps (arrived k) e H) as Ht.
  destruct (try_packet mf cfg (arrived k) e) as ([[p|]|] & e'); [| exact Ht..].
  cbn [fst snd option_list] in Ht. specialize (IH _ (S k) _ Ht). revert IH. destruct (drain_packets fuel (S k) arrived e') as ((r & qs) & e'').
  intros IH. cbn [fst snd] in *. rewrite <- app_assoc in IH. exact IH.
Qed.

Lemma pts_ns_i64 now : i64 (pts_ns start_instant_ns now).
Proof. apply swrap_range. lia. Qed.

(** Reading events makes no call. *)
Lemma try_packet_calls n e : e_calls (try_packet mf cfg n e).2 = e_calls e.
Proof. unfold try_packet. by destruct (drain_events_nowait mf cfg n _ _) as (([|] & s) & evs). Qed.

Lemma drain_packets_calls fuel k arrived e : e_calls (drain_packets fuel k arrived e).2 = e_calls e.
Proof.
  revert k e. induction fuel as [|fuel IH]; intros k e; [done |]. cbn [drain_packets].
  pose proof (try_packet_calls (arrived k) e) as Ht.
  destruct (try_packet mf cfg (arrived k) e) as ([[p|]|] & e'); [| done..].
  specialize (IH (S k) e'). destruct (drain_packets fuel (S k) arrived e') as ((r & qs) & e''). cbn in *. congruence.
Qed.

(** A successful submission makes exactly the calls of its frame. *)
Lemma wait_calls e : e_calls (wait mf cfg e).2 = e_calls e.
Proof. unfold wait. by destruct (wait_for_need_input mf cfg _ _) as ((r & s) & evs). Qed.

Lemma submit_with_credit_calls env pts force e :
  (submit_with_credit mf cfg env pts force e).1 = Some (Ok tt) ->
  e_calls (submit_with_credit mf cfg env pts force e).2
  = e_calls e ++ (if force then [ForceKeyFrame] else []) ++ [ProcessInput (sample_time pts) (dur_100ns cfg)].
Proof.
  unfold submit_with_credit, process_input. cbv zeta.
  destruct (se_sample env); [| by destruct force]. destruct (se_process_input env); [cbn [win] | by destruct force].
  match goal with |- context [wait mf cfg ?e] => pose proof (wait_calls e) as Hw;
    destruct (wait mf cfg e) as ([[[]|]|] & e') end; [| done..].
  intros _. cbn in Hw |- *. rewrite Hw. destruct force; cbn; by rewrite <- ?app_assoc.
Qed.

Lemma submit_frame_calls env pts force e :
  (Encoder.submit_frame mf cfg env pts force e).1 = Some (Ok tt) ->
  e_calls (Encoder.submit_frame mf cfg env pts force e).2
  = e_calls e ++ (if force then [ForceKeyFrame] else []) ++ [ProcessInput (sample_time pts) (dur_100ns cfg)].
Proof.
  unfold Encoder.submit_frame. destruct (have_need_input_credit _); [apply submit_with_credit_calls |].
  pose proof (wait_calls e) as Hw. destruct (wait mf cfg e) as ([[[]|]|] & e'); [| done..].
  cbn in Hw. rewrite <- Hw. apply submit_with_credit_calls.
Qed.

Lemma mft_calls_snoc subs x : mft_calls (subs ++ [x])
  = mft_calls subs ++ (if su_force_idr x then [ForceKeyFrame] else [])
    ++ [ProcessInput (sample_time (su_pts_ns x)) (dur_100ns cfg)].
Proof. unfold mft_calls. by rewrite fmap_app, concat_app; cbn; rewrite app_nil_r. Qed.

(** What a tick with the encoder keeps: a completed tick keeps the link; any
    other one keeps the invariant for stamps that may be one ahead. *)
Lemma encode_linked t s e ps : linked s e ps ->
  match encode t s e with
  | (None, e') => exists acc, session_inv cfg acc ps (e_session e') /\ su_pts_ns <$> submits s `prefix_of` acc
  | (Some env, e') =>
      match tick gpu start_instant_ns env s with
      | (Ok _, s') => linked s' e' (ps ++ te_packets env)
      | (Err _, s') => exists acc, session_inv cfg acc (ps ++ te_packets env) (e_session e')
                         /\ su_pts_ns <$> submits s' `prefix_of` acc
      end
  end.
Proof.
  intros (Hi & Hc). unfold encode. destruct (is_ok (ti_acquired t) && is_ok (ti_convert t)) eqn:Eok.
  2: { unfold tick. cbn [te_acquired te_convert te_packets env_of]. rewrite app_nil_r.
       destruct (ti_acquired t) as [[f|]|]; cbn in Eok |- *.
       all: try (destruct (ti_convert t); [done | cbn]); by eexists. }
  apply andb_true_iff in Eok as (Ea & Ev).
  pose proof (submit_frame_inv mf cfg _ ps (ti_submit t) _ (idr_request s) e (pts_ns_i64 (ti_now_ns t)) Hi) as Hs.
  pose proof (submit_frame_calls (ti_submit t) (pts_ns start_instant_ns (ti_now_ns t)) (idr_request s) e) as Hsc.
  destruct (Encoder.submit_frame mf cfg _ _ _ e) as ([[[]|err]|] & e1); cbn [fst snd] in Hs, Hsc.
  - destruct Hs as [Hs | (_ & Hx)]; [| by destruct Hx]. specialize (Hsc eq_refl).
    pose proof (drain_packets_inv (drain_fuel e1) _ ps 0 (ti_arrived t) e1 Hs) as Hd.
    pose proof (drain_packets_calls (drain_fuel e1) 0 (ti_arrived t) e1) as Hdc.
    destruct (drain_packets (drain_fuel e1) 0 (ti_arrived t) e1) as ((r & pkts) & e2). cbn [fst snd] in Hd, Hdc.
    unfold tick. cbn [te_acquired te_convert te_submit te_packets te_drained env_of].
    destruct (ti_acquired t) as [[f|]|]; [| | done]; cbn [is_ok] in *.
    all: destruct (ti_convert t); [| done]; destruct r; cbn.
    1, 3: split; cbn [submits push_packets Pipeline.submit_frame];
      [rewrite fmap_app; exact Hd | rewrite Hdc, Hsc, Hc, mft_calls_snoc; done].
    all: eexists; split; [exact Hd | rewrite fmap_app; done].
  - unfold tick. cbn [te_acquired te_convert te_submit te_packets te_drained env_of]. rewrite app_nil_r.
    destruct (ti_acquired t) as [[f|]|]; [| | done]; (destruct (ti_convert t); [cbn | done]).
    all: destruct Hs as [Hs | (Hs & _)]; eexists; split; try exact Hs; try done; by apply prefix_app_r.
  - destruct Hs as [Hs | (Hs & _)]; eexists; split; try exact Hs; try done; by apply prefix_app_r.
Qed.

Definition loop_end (r : RunEnd) : option (EngineResult unit) :=
  match r with Returned x => Some x | Running | Hung => None end.

(** Where a run may leave loop and session. *)
Definition run_links (r : RunEnd) (s : LoopState Image Blitter) (e : Enc) (ps : list EncodedPacket) : Prop :=
  if failed r then
    exists acc, session_inv cfg acc ps (e_session e) /\ su_pts_ns <$> submits s `prefix_of` acc
  else linked s e ps.

Lemma encoded_run_links ins : forall stopped s e ps, linked s e ps ->
  let '(r, l, s', e') := encoded_run stopped ins s e in
  run_loop gpu start_instant_ns stopped l s = (loop_end r, s') /\ run_links r s' e' (ps ++ pushed l).
Proof.
  induction ins as [|[| | t] ins IH]; intros stopped s e ps H; cbn [encoded_run].
  - split; [done |]. unfold run_links. cbn. by rewrite app_nil_r.
  - specialize (IH stopped (set_idr true s) e ps H).
    by destruct (encoded_run stopped ins (set_idr true s) e) as (((r & l) & s') & e').
  - specialize (IH true (close_queue s) e ps H).
    by destruct (encoded_run true ins (close_queue s) e) as (((r & l) & s') & e').
  - destruct stopped; [split; [done |]; unfold run_links, pushed; cbn; by rewrite app_nil_r |].
    pose proof (encode_linked t s e ps H) as Ht. destruct (encode t s e) as ([env|] & e1).
    2: { split; [done |]. unfold run_links. cbn. by rewrite app_nil_r. }
    destruct (tick gpu start_instant_ns env s) as ([[]|err] & s1) eqn:Etick.
    + specialize (IH (bool_decide (is_Some (te_stop_after env))) s1 e1 _ Ht).
      destruct (encoded_run _ ins s1 e1) as (((r & l) & s') & e'). cbn [run_loop]. rewrite Etick.
      unfold pushed in *. cbn [fmap list_fmap concat]. by rewrite app_assoc.
    + cbn [run_loop]. rewrite Etick. split; [done |]. unfold run_links, pushed. cbn. by rewrite app_nil_r.
Qed.

(** C5. The loop with its encoder, over any run: it is a run of the plain loop
    in which the encoder's packets are those pushed; the stamps of the matched
    packets pushed or queued, followed by those still in the encoder, are the
    stamps of the frames submitted, in order; and the transform was told to
    force a key frame and given a sample exactly as the submissions say.  When
    a call failed, the encoder is at most ahead of the loop. *)
Theorem encoded_pipeline_exact ins s evs r l s' e' : submits s = [] ->
  encoded_run false ins s (new_enc evs) = (r, l, s', e') ->
  run_loop gpu start_instant_ns false l s = (loop_end r, s') /\ run_links r s' e' (pushed l).
Proof.
  intros Hs E. pose proof (encoded_run_links ins false s (new_enc evs) []) as H. rewrite E in H.
  apply H. unfold linked. rewrite Hs. split; [apply new_session_inv | done].
Qed.

(** * The loop never hangs *)

Definition ready (e : Enc) : Prop :=
  have_need_input_credit (e_session e) || input_wanted mf (e_events e) = true.

Lemma drain_packets_keeps_credit fuel k arrived e :
  have_need_input_credit (e_session (drain_packets fuel k arrived e).2) = have_need_input_credit (e_session e).
Proof.
  revert k e. induction fuel as [|fuel IH]; intros k e; [done |]. cbn [drain_packets].
  pose proof (try_packet_keeps_credit mf cfg (arrived k) e) as Ht.
  destruct (try_packet mf cfg (arrived k) e) as ([[p|]|] & e'); [| done..].
  specialize (IH (S k) e'). destruct (drain_packets fuel (S k) arrived e') as ((r & qs) & e''). cbn in *. congruence.
Qed.

Lemma encode_ready t s e : ready e ->
  answers_inputs mf (OSubmit (ti_submit t) (pts_ns start_instant_ns (ti_now_ns t)) (idr_request s)) ->
  match encode t s e with
  | (None, _) => False
  | (Some env, e') => is_ok (tick gpu start_instant_ns env s).1 = true -> ready e'
  end.
Proof.
  intros He Ha. unfold encode. destruct (is_ok (ti_acquired t) && is_ok (ti_convert t)) eqn:Eok.
  2: { unfold tick. cbn [te_acquired te_convert env_of].
       destruct (ti_acquired t) as [[f|]|]; cbn in Eok |- *; try done; by destruct (ti_convert t). }
  pose proof (submit_frame_returns mf cfg _ _ _ e Ha He) as (Hn & Hc).
  destruct (Encoder.submit_frame mf cfg _ _ _ e) as ([[[]|err]|] & e1); cbn [fst snd] in Hn, Hc; [| | done].
  - pose proof (drain_packets_keeps_credit (drain_fuel e1) 0 (ti_arrived t) e1) as Hd.
    destruct (drain_packets (drain_fuel e1) 0 (ti_arrived t) e1) as ((r & pkts) & e2). cbn [snd] in Hd.
    intros _. unfold ready. by rewrite Hd, (Hc eq_refl).
  - unfold tick. cbn [te_acquired te_convert te_submit env_of].
    destruct (ti_acquired t) as [[f|]|]; [| | done]; by destruct (ti_convert t).
Qed.

(** What the transform promises for a whole run. *)
Definition transform_answers (i : EncodedInput) : Prop :=
  match i with
  | ETick t => forall pts force, answers_inputs mf (OSubmit (ti_submit t) pts force)
  | _ => True
  end.

(** C27. The capture thread is never lost in the encoder: if the transform asks
    for input once at the start and after every input it accepts, no tick of
    the loop waits for ever, whatever the desktop does and however the
    requests and the stop arrive. *)
Theorem encoded_loop_never_hangs ins stopped s e : ready e -> Forall transform_answers ins ->
  (encoded_run stopped ins s e).1.1.1 <> Hung.
Proof.
  intros He Hins. revert stopped s e He. induction Hins as [|[| | t] ins Hi _ IH]; intros stopped s e He;
    cbn [encoded_run]; [done | | |].
  - specialize (IH stopped (set_idr true s) e He).
    by destruct (encoded_run stopped ins (set_idr true s) e) as (((r & l) & s') & e').
  - specialize (IH true (close_queue s) e He).
    by destruct (encoded_run true ins (close_queue s) e) as (((r & l) & s') & e').
  - destruct stopped; [done |].
    pose proof (encode_ready t s e He (Hi _ _)) as Ht. destruct (encode t s e) as ([env|] & e1); [| done].
    destruct (tick gpu start_instant_ns env s) as ([[]|err] & s1); [| done].
    specialize (IH (bool_decide (is_Some (te_stop_after env))) s1 e1 (Ht eq_refl)).
    by destruct (encoded_run _ ins s1 e1) as (((r & l) & s') & e').
Qed.
End Encoded.

Arguments TickInput : clear implicits.
Arguments EncodedInput : clear implicits.

(** * Witnesses *)

Definition demo_input (now : Z) (bytes : list Z) : TickInput Z Z :=
  {| ti_acquired := Ok (Some demo_frame); ti_now_ns := now; ti_convert := Ok tt;
     ti_submit := demo_submit now bytes; ti_arrived _ := 4%nat; ti_stop_after := None |}.

Definition demo_inputs : list (EncodedInput Z Z) :=
  [ERequestIdr; ETick (demo_input 1000 demo_idr); ETick (demo_input 2000 demo_slice); EStop;
   ETick (demo_input 3000 demo_slice)].

Definition demo_encoded_run := encoded_run demo_gpu 0 demo_mf demo_cfg false demo_inputs demo_loop
  (new_enc [input_event demo_mf]).

Lemma encoded_pipeline_exact_witness :
  run_loop demo_gpu 0 false demo_encoded_run.1.1.2 demo_loop
  = (loop_end demo_encoded_run.1.1.1, demo_encoded_run.1.2)
  /\ run_links demo_cfg demo_encoded_run.1.1.1 demo_encoded_run.1.2 demo_encoded_run.2
       (pushed demo_encoded_run.1.1.2)
  /\ pkt_pts_ns <$> pushed demo_encoded_run.1.1.2 = [1000; 2000].
Proof.
  destruct (encoded_pipeline_exact demo_gpu 0 demo_mf demo_cfg demo_inputs demo_loop [input_event demo_mf]
    demo_encoded_run.1.1.1 demo_encoded_run.1.1.2 demo_encoded_run.1.2 demo_encoded_run.2) as (H1 & H2).
  - reflexivity.
  - unfold demo_encoded_run. by destruct (encoded_run _ _ _ _ _ _ _ _) as (((r & l) & s') & e').
  - split; [exact H1 |]. split; [exact H2 |]. vm_compute. reflexivity.
Defined.

Lemma encoded_loop_never_hangs_witness : demo_encoded_run.1.1.1 <> Hung.
Proof.
  apply (encoded_loop_never_hangs demo_gpu 0 demo_mf demo_cfg demo_inputs false demo_loop
    (new_enc [input_event demo_mf])).
  - reflexivity.
  - repeat constructor; intros pts force _ evs; apply input_wanted_snoc.
Defined.
