(* ===== verification/Inject.v ===== *)
(** Pen and touch injection: [crates/penflow-core/src/inject/] ([mod.rs],
    [binding.rs], [win_ink.rs], [vmulti.rs]).

    The Win32 entry points are not modelled: the injector runs against any
    operating system [os], a record of functions of the calls made so far,
    and every call it makes is logged with its outcome.  Effects survive
    errors, so a computation returns its result together with the state it
    leaves behind. *)
From stdpp Require Import gmap.
From S2P Require Import Prelude Bytes Engine F32.

(** * Data *)

Inductive MouseButtonKind := MLeft | MRight | MMiddle.

#[export] Instance MouseButtonKind_eq_dec : EqDecision MouseButtonKind.
Proof. solve_decision. Defined.

(** A [VIRTUAL_KEY] is its 16-bit code. *)
Inductive Binding :=
| BNone
| KeyTap (vk : Z)
| KeyHold (keys : list Z)
| KeyChord (keys : list Z)
| MouseButton (kind : MouseButtonKind)
| EraserToggle.

Record PenButtonProfile := {
  barrel_1 : Binding;
  barrel_2 : Binding;
  tertiary : Binding;
  tip_threshold : f32;
}.

(** The virtual-key codes are constants of the Windows headers. *)
Definition default_profile (VK_CONTROL VK_SHIFT VK_E : Z) : PenButtonProfile :=
  {| barrel_1 := KeyHold [VK_CONTROL]; barrel_2 := KeyHold [VK_SHIFT]; tertiary := KeyTap VK_E;
     tip_threshold := S754_zero false |}.

Definition predecessor_compat (VK_CONTROL VK_SHIFT VK_E : Z) : PenButtonProfile :=
  {| barrel_1 := KeyHold [VK_CONTROL]; barrel_2 := KeyHold [VK_SHIFT]; tertiary := KeyTap VK_E;
     tip_threshold := S754_zero false |}.

Record PenSample := {
  ps_x : Z;
  ps_y : Z;
  ps_x_logical : Z;
  ps_y_logical : Z;
  ps_pressure : f32;
  ps_tilt_x_deg : Z;
  ps_tilt_y_deg : Z;
  ps_in_range : bool;
  ps_in_contact : bool;
  ps_eraser : bool;
  ps_buttons : Z;
}.

Inductive TouchState := TDown | TUpdate | TUp.

#[export] Instance TouchState_eq_dec : EqDecision TouchState.
Proof. solve_decision. Defined.

Record TouchPoint := { tp_id : Z; tp_x : Z; tp_y : Z; tp_state : TouchState }.

#[export] Instance TouchPoint_eq_dec : EqDecision TouchPoint.
Proof. solve_decision. Defined.

(** [POINTER_FLAGS], one field per bit the code uses. *)
Record PointerFlags := {
  f_new : bool;
  f_inrange : bool;
  f_incontact : bool;
  f_firstbutton : bool;
  f_primary : bool;
  f_down : bool;
  f_update : bool;
  f_up : bool;
}.

Record PenInfo := {
  pi_flags : PointerFlags;
  pi_x : Z;
  pi_y : Z;
  pi_inverted : bool;
  pi_pressure : Z;
  pi_tilt_x : Z;
  pi_tilt_y : Z;
}.

Record TouchInfo := { ti_id : Z; ti_x : Z; ti_y : Z; ti_flags : PointerFlags }.

Inductive OsCall :=
| CallKey (vk : Z) (down : bool)
| CallMouseButton (kind : MouseButtonKind) (down : bool)
| CallMouseMove (dx dy : Z)
| CallPen (info : PenInfo)
| CallTouch (infos : list TouchInfo)
| CallHidWrite (buf : list Z).

(** The calls made so far, oldest first, each with whether it succeeded. *)
Definition Log : Type := list (OsCall * bool).

(** An operating system: whether a call succeeds, the error it reports, and
    [SM_XVIRTUALSCREEN], [SM_YVIRTUALSCREEN], [SM_CXVIRTUALSCREEN],
    [SM_CYVIRTUALSCREEN]; and the iteration order of a [HashMap]. *)
Record Os := {
  os_ok : Log -> OsCall -> bool;
  os_error : Log -> Z;
  os_screen : Log -> Z * Z * Z * Z;
  hash_iter : gmap Z (Z * Z) -> list (Z * (Z * Z));
  hash_iter_perm : forall m, Permutation (hash_iter m) (map_to_list m);
}.

Record VMultiPen := { buf : list Z }.

Record InputInjector := {
  last_pen_eraser : bool;
  last_pen_in_range : bool;
  last_pen_in_contact : bool;
  pen_profile : PenButtonProfile;
  last_pen_buttons : Z;
  pen_eraser_sticky : bool;
  last_touch_pos : gmap Z (Z * Z);
  vmulti : option VMultiPen;
}.

(** The state after [new]: both devices exist, [vmulti] is what the probe found. *)
Definition InputInjector_new (profile : PenButtonProfile) (vmulti : option VMultiPen) : InputInjector :=
  {| last_pen_eraser := false; last_pen_in_range := false; last_pen_in_contact := false;
     pen_profile := profile; last_pen_buttons := 0; pen_eraser_sticky := false;
     last_touch_pos := ∅; vmulti := vmulti |}.

Definition using_vmulti (s : InputInjector) : bool :=
  match vmulti s with Some _ => true | None => false end.

(** * Pure parts *)

Record VMultiPenSample := {
  vs_x : Z;
  vs_y : Z;
  vs_pressure : Z;
  vs_tilt_x_deg : Z;
  vs_tilt_y_deg : Z;
  vs_tip_down : bool;
  vs_barrel : bool;
  vs_eraser : bool;
  vs_inverted : bool;
  vs_in_range : bool;
}.

Definition REPORT_BUF_LEN : nat := 65.
Definition DIGI_PAYLOAD_LEN : nat := 12.
Definition VMULTI_HEADER_ID : Z := 0x40.
Definition REPORT_ID_EXTENDED : Z := 0x06.
Definition VMULTI_LOGICAL_MAX : Z := 32767.
Definition VMULTI_PRESSURE_MAX_EXTENDED : Z := 16383.
Definition BTN_TIP : Z := Z.shiftl 1 0.
Definition BTN_BARREL : Z := Z.shiftl 1 1.
Definition BTN_ERASER : Z := Z.shiftl 1 2.
Definition BTN_INVERT : Z := Z.shiftl 1 3.
Definition BTN_IN_RANGE : Z := Z.shiftl 1 4.

Definition vmulti_buttons (s : VMultiPenSample) : Z :=
  let b := 0 in
  let b := if vs_tip_down s then Z.lor b BTN_TIP else b in
  let b := if vs_barrel s then Z.lor b BTN_BARREL else b in
  let b := if vs_eraser s then Z.lor b BTN_ERASER else b in
  let b := if vs_inverted s then Z.lor b BTN_INVERT else b in
  if vs_in_range s then Z.lor b BTN_IN_RANGE else b.

(** [buf[at..at + bytes.len()].copy_from_slice(&bytes)]. *)
Definition copy_at (at_ : nat) (bytes buf : list Z) : list Z :=
  take at_ buf ++ bytes ++ drop (at_ + length bytes) buf.

(** The report [write_pen] of [vmulti.rs] leaves in the scratch buffer. *)
Definition vmulti_report (s : VMultiPenSample) (buf : list Z) : list Z :=
  let buf := copy_at 0 (replicate DIGI_PAYLOAD_LEN 0) buf in
  let x := Z.min (vs_x s) VMULTI_LOGICAL_MAX in
  let y := Z.min (vs_y s) VMULTI_LOGICAL_MAX in
  let pressure := Z.min (vs_pressure s) VMULTI_PRESSURE_MAX_EXTENDED in
  let buf := copy_at 0 [VMULTI_HEADER_ID] buf in
  let buf := copy_at 1 [Z.of_nat (DIGI_PAYLOAD_LEN - 1)] buf in
  let buf := copy_at 2 [REPORT_ID_EXTENDED] buf in
  let buf := copy_at 3 [vmulti_buttons s] buf in
  let buf := copy_at 4 (le_bytes 2 x) buf in
  let buf := copy_at 6 (le_bytes 2 y) buf in
  let buf := copy_at 8 (le_bytes 2 pressure) buf in
  let buf := copy_at 10 [uwrap 8 (vs_tilt_x_deg s)] buf in
  copy_at 11 [uwrap 8 (vs_tilt_y_deg s)] buf.

Definition no_flags : PointerFlags :=
  {| f_new := false; f_inrange := false; f_incontact := false; f_firstbutton := false;
     f_primary := false; f_down := false; f_update := false; f_up := false |}.

Definition flags_or (a b : PointerFlags) : PointerFlags :=
  {| f_new := f_new a || f_new b; f_inrange := f_inrange a || f_inrange b;
     f_incontact := f_incontact a || f_incontact b;
     f_firstbutton := f_firstbutton a || f_firstbutton b;
     f_primary := f_primary a || f_primary b; f_down := f_down a || f_down b;
     f_update := f_update a || f_update b; f_up := f_up a || f_up b |}.

Definition FLAG_NEW : PointerFlags :=
  {| f_new := true; f_inrange := false; f_incontact := false; f_firstbutton := false;
     f_primary := false; f_down := false; f_update := false; f_up := false |}.
Definition FLAG_INRANGE : PointerFlags :=
  {| f_new := false; f_inrange := true; f_incontact := false; f_firstbutton := false;
     f_primary := false; f_down := false; f_update := false; f_up := false |}.
Definition FLAG_INCONTACT : PointerFlags :=
  {| f_new := false; f_inrange := false; f_incontact := true; f_firstbutton := false;
     f_primary := false; f_down := false; f_update := false; f_up := false |}.
Definition FLAG_FIRSTBUTTON : PointerFlags :=
  {| f_new := false; f_inrange := false; f_incontact := false; f_firstbutton := true;
     f_primary := false; f_down := false; f_update := false; f_up := false |}.
Definition FLAG_PRIMARY : PointerFlags :=
  {| f_new := false; f_inrange := false; f_incontact := false; f_firstbutton := false;
     f_primary := true; f_down := false; f_update := false; f_up := false |}.
Definition FLAG_DOWN : PointerFlags :=
  {| f_new := false; f_inrange := false; f_incontact := false; f_firstbutton := false;
     f_primary := false; f_down := true; f_update := false; f_up := false |}.
Definition FLAG_UPDATE : PointerFlags :=
  {| f_new := false; f_inrange := false; f_incontact := false; f_firstbutton := false;
     f_primary := false; f_down := false; f_update := true; f_up := false |}.
Definition FLAG_UP : PointerFlags :=
  {| f_new := false; f_inrange := false; f_incontact := false; f_firstbutton := false;
     f_primary := false; f_down := false; f_update := false; f_up := true |}.

Declare Scope flags_scope.
Delimit Scope flags_scope with flags.
Infix "|||" := flags_or (at level 50, left associativity) : flags_scope.

Definition pen_pointer_flags (was_in_range was_in_contact in_range in_contact : bool) : PointerFlags :=
  (if negb in_range then FLAG_UP ||| FLAG_PRIMARY
   else
     let flags := FLAG_INRANGE ||| FLAG_PRIMARY in
     let flags := if negb was_in_range then flags ||| FLAG_NEW else flags in
     if in_contact then
       let flags := flags ||| (FLAG_INCONTACT ||| FLAG_FIRSTBUTTON) in
       if was_in_contact then flags ||| FLAG_UPDATE else flags ||| FLAG_DOWN
     else if was_in_contact then flags ||| FLAG_UP
     else flags ||| FLAG_UPDATE)%flags.

(** Computed in [i64]. *)
Definition normalize_absolute_mouse_coord (pos origin span : Z) : Z :=
  if span <=? 1 then 0
  else
    let max_index := span - 1 in
    let rel := clampZ 0 max_index (pos - origin) in
    swrap 32 (Z.quot (rel * 65535 + Z.quot max_index 2) max_index).

(** * The effects *)

Record World := { inj : InputInjector; log : Log }.

Definition Inj (A : Type) : Type := World -> EngineResult A * World.

#[export] Instance Inj_ret : MRet Inj := fun A a w => (Ok a, w).

#[export] Instance Inj_bind : MBind Inj :=
  fun A B f m w => match m w with (Ok a, w') => f a w' | (Err e, w') => (Err e, w') end.

Definition get_inj : Inj InputInjector := fun w => (Ok (inj w), w).

Definition set_inj (s : InputInjector) : Inj unit := fun w => (Ok tt, {| inj := s; log := log w |}).

Fixpoint for_each {A} (l : list A) (f : A -> Inj unit) : Inj unit :=
  match l with [] => mret tt | x :: l' => f x;; for_each l' f end.

(** [let _ = m;] *)
Definition ignore (m : Inj unit) : Inj unit := fun w => (Ok tt, (m w).2).

Section Injector.
Context (os : Os).

Definition call (c : OsCall) : Inj unit :=
  fun w =>
    let ok := os_ok os (log w) c in
    (if ok then Ok tt else Err (Win32 (os_error os (log w))),
     {| inj := inj w; log := log w ++ [(c, ok)] |}).

Definition virtual_screen_rect : Inj (Z * Z * Z * Z) := fun w => (Ok (os_screen os (log w)), w).

Definition virtual_screen_origin : Inj (Z * Z) :=
  fun w => (Ok ((os_screen os (log w)).1.1.1, (os_screen os (log w)).1.1.2), w).

Definition send_key (vk : Z) (down : bool) : Inj unit := call (CallKey vk down).

Definition send_mouse_button (kind : MouseButtonKind) (down : bool) : Inj unit :=
  call (CallMouseButton kind down).

Definition send_mouse_move_to (x y : Z) : Inj unit :=
  '(vx, vy, vw, vh) ← virtual_screen_rect;
  call (CallMouseMove (normalize_absolute_mouse_coord x vx vw)
                      (normalize_absolute_mouse_coord y vy vh)).

Definition slot_binding (p : PenButtonProfile) (slot : Z) : Binding :=
  if slot =? 0 then barrel_1 p else if slot =? 1 then barrel_2 p else tertiary p.

Definition has_bit (bits slot : Z) : bool := negb (Z.land bits (Z.shiftl 1 slot) =? 0).

Definition set_pen_profile (profile : PenButtonProfile) : Inj unit :=
  s ← get_inj;
  let bits_to_release := last_pen_buttons s in
  for_each [0; 1; 2] (fun slot =>
    if negb (has_bit bits_to_release slot) then mret tt
    else match slot_binding (pen_profile s) slot with
         | KeyHold keys => for_each (rev keys) (fun vk => ignore (send_key vk false))
         | MouseButton kind => ignore (send_mouse_button kind false)
         | _ => mret tt
         end);;
  s ← get_inj;
  set_inj {| last_pen_eraser := last_pen_eraser s; last_pen_in_range := last_pen_in_range s;
             last_pen_in_contact := last_pen_in_contact s; pen_profile := profile;
             last_pen_buttons := 0; pen_eraser_sticky := pen_eraser_sticky s;
             last_touch_pos := last_touch_pos s; vmulti := vmulti s |}.

Definition set_sticky (b : bool) : Inj unit :=
  s ← get_inj;
  set_inj {| last_pen_eraser := last_pen_eraser s; last_pen_in_range := last_pen_in_range s;
             last_pen_in_contact := last_pen_in_contact s; pen_profile := pen_profile s;
             last_pen_buttons := last_pen_buttons s; pen_eraser_sticky := b;
             last_touch_pos := last_touch_pos s; vmulti := vmulti s |}.

Definition press_binding (b : Binding) : Inj unit :=
  match b with
  | BNone => mret tt
  | KeyTap vk => send_key vk true;; send_key vk false
  | KeyHold keys => for_each keys (fun vk => send_key vk true)
  | KeyChord keys =>
      for_each keys (fun vk => send_key vk true);;
      for_each (rev keys) (fun vk => send_key vk false)
  | MouseButton kind => send_mouse_button kind true
  | EraserToggle => s ← get_inj; set_sticky (negb (pen_eraser_sticky s))
  end.

Definition release_binding (b : Binding) : Inj unit :=
  match b with
  | KeyHold keys => for_each (rev keys) (fun vk => send_key vk false)
  | MouseButton kind => send_mouse_button kind false
  | _ => mret tt
  end.

Definition is_mouse_button (b : Binding) : bool :=
  match b with MouseButton _ => true | _ => false end.

Definition dispatch_pen_buttons (sample : PenSample) : Inj unit :=
  s ← get_inj;
  let now_bits := ps_buttons sample in
  let prev := last_pen_buttons s in
  let pressed_now := Z.land (Z.lnot prev) now_bits in
  let released_now := Z.land prev (Z.lnot now_bits) in
  let sync_mouse_to_pen :=
    existsb (fun slot => is_mouse_button (slot_binding (pen_profile s) slot)
                         && (has_bit now_bits slot || has_bit released_now slot)) [0; 1; 2] in
  (if sync_mouse_to_pen then send_mouse_move_to (ps_x sample) (ps_y sample) else mret tt);;
  for_each [0; 1; 2] (fun slot =>
    let binding := slot_binding (pen_profile s) slot in
    (if has_bit pressed_now slot then press_binding binding else mret tt);;
    (if has_bit released_now slot then release_binding binding else mret tt));;
  s ← get_inj;
  set_inj {| last_pen_eraser := last_pen_eraser s; last_pen_in_range := last_pen_in_range s;
             last_pen_in_contact := last_pen_in_contact s; pen_profile := pen_profile s;
             last_pen_buttons := now_bits; pen_eraser_sticky := pen_eraser_sticky s;
             last_touch_pos := last_touch_pos s; vmulti := vmulti s |}.

Definition write_pen (sample : PenSample) (eraser : bool) : Inj unit :=
  s ← get_inj;
  if negb (last_pen_in_range s) && negb (ps_in_range sample) then mret tt
  else
    '(vx, vy) ← virtual_screen_origin;
    call (CallPen
      {| pi_flags := pen_pointer_flags (last_pen_in_range s) (last_pen_in_contact s)
                       (ps_in_range sample) (ps_in_contact sample);
         pi_x := swrap 32 (ps_x sample - vx);
         pi_y := swrap 32 (ps_y sample - vy);
         pi_inverted := eraser;
         pi_pressure := f32_round_u32 (f32_mul
           (f32_clamp (S754_zero false) (f32_of_Z 1) (ps_pressure sample)) (f32_of_Z 1024));
         pi_tilt_x := clampZ (-90) 90 (ps_tilt_x_deg sample);
         pi_tilt_y := clampZ (-90) 90 (ps_tilt_y_deg sample) |}).

(** [VMultiPen::write_pen], then the mapping of its error. *)
Definition vmulti_write_pen (v : VMultiPen) (vsample : VMultiPenSample) : Inj unit :=
  let b := vmulti_report vsample (buf v) in
  s ← get_inj;
  set_inj {| last_pen_eraser := last_pen_eraser s; last_pen_in_range := last_pen_in_range s;
             last_pen_in_contact := last_pen_in_contact s; pen_profile := pen_profile s;
             last_pen_buttons := last_pen_buttons s; pen_eraser_sticky := pen_eraser_sticky s;
             last_touch_pos := last_touch_pos s; vmulti := Some {| buf := b |} |};;
  call (CallHidWrite b).

Definition write_pen_vmulti (v : VMultiPen) (sample : PenSample) (eraser : bool) : Inj unit :=
  vmulti_write_pen v
    {| vs_x := ps_x_logical sample; vs_y := ps_y_logical sample;
       vs_pressure := f32_round_u16 (f32_mul
         (f32_clamp (S754_zero false) (f32_of_Z 1) (ps_pressure sample)) (f32_of_Z 16383));
       vs_tilt_x_deg := swrap 8 (clampZ (-90) 90 (ps_tilt_x_deg sample));
       vs_tilt_y_deg := swrap 8 (clampZ (-90) 90 (ps_tilt_y_deg sample));
       vs_tip_down := ps_in_contact sample; vs_barrel := false; vs_eraser := eraser;
       vs_inverted := eraser; vs_in_range := ps_in_range sample |}.

Definition flush_sample (sample : PenSample) : PenSample :=
  {| ps_x := ps_x sample; ps_y := ps_y sample; ps_x_logical := ps_x_logical sample;
     ps_y_logical := ps_y_logical sample; ps_pressure := S754_zero false;
     ps_tilt_x_deg := ps_tilt_x_deg sample; ps_tilt_y_deg := ps_tilt_y_deg sample;
     ps_in_range := false; ps_in_contact := false; ps_eraser := ps_eraser sample;
     ps_buttons := ps_buttons sample |}.

Definition inject_pen (sample : PenSample) : Inj unit :=
  dispatch_pen_buttons sample;;
  s ← get_inj;
  let effective_eraser := ps_eraser sample || pen_eraser_sticky s in
  (match vmulti s with
   | Some v => write_pen_vmulti v sample effective_eraser
   | None =>
       (if negb (Bool.eqb effective_eraser (last_pen_eraser s)) && last_pen_in_range s
        then write_pen (flush_sample sample) (last_pen_eraser s) else mret tt);;
       write_pen sample effective_eraser
   end);;
  s ← get_inj;
  set_inj {| last_pen_eraser := effective_eraser; last_pen_in_range := ps_in_range sample;
             last_pen_in_contact := ps_in_contact sample; pen_profile := pen_profile s;
             last_pen_buttons := last_pen_buttons s; pen_eraser_sticky := pen_eraser_sticky s;
             last_touch_pos := last_touch_pos s; vmulti := vmulti s |}.

(** The contact rectangle of the real structure is the pixel itself. *)
Definition make_touch_info (origin : Z * Z) (id x y : Z) (flags : PointerFlags) : TouchInfo :=
  {| ti_id := id; ti_x := swrap 32 (x - origin.1); ti_y := swrap 32 (y - origin.2);
     ti_flags := flags |}.

(** The down and update entries, [i] counting from the first contact. *)
Definition contact_flags (i : nat) (was_down : bool) : PointerFlags :=
  (let flags := FLAG_INRANGE ||| FLAG_INCONTACT ||| FLAG_FIRSTBUTTON in
   let flags := if was_down then flags ||| FLAG_UPDATE else flags ||| (FLAG_NEW ||| FLAG_DOWN) in
   if Nat.eqb i 0 then flags ||| FLAG_PRIMARY else flags)%flags.

Fixpoint contact_infos (origin : Z * Z) (last : gmap Z (Z * Z)) (i : nat) (snapshot : list TouchPoint)
  : list TouchInfo :=
  match snapshot with
  | [] => []
  | tp :: rest =>
      let was_down := bool_decide (is_Some (last !! tp_id tp)) in
      make_touch_info origin (tp_id tp) (tp_x tp) (tp_y tp) (contact_flags i was_down)
        :: contact_infos origin last (S i) rest
  end.

Definition lost_infos (origin : Z * Z) (last : gmap Z (Z * Z)) (snapshot : list TouchPoint)
  : list TouchInfo :=
  map (fun p => make_touch_info origin p.1 p.2.1 p.2.2 FLAG_UP)
    (List.filter (fun p => negb (bool_decide (p.1 ∈ map tp_id snapshot))) (hash_iter os last)).

Definition touch_map (snapshot : list TouchPoint) : gmap Z (Z * Z) :=
  foldl (fun m tp => <[tp_id tp := (tp_x tp, tp_y tp)]> m) ∅ snapshot.

Definition inject_touch (snapshot : list TouchPoint) : Inj unit :=
  s ← get_inj;
  if bool_decide (snapshot = []) && bool_decide (last_touch_pos s = ∅) then mret tt
  else
    origin ← virtual_screen_origin;
    let infos := contact_infos origin (last_touch_pos s) 0 snapshot
                 ++ lost_infos origin (last_touch_pos s) snapshot in
    if bool_decide (length infos = 0%nat) then mret tt
    else
      call (CallTouch infos);;
      set_inj {| last_pen_eraser := last_pen_eraser s; last_pen_in_range := last_pen_in_range s;
                 last_pen_in_contact := last_pen_in_contact s; pen_profile := pen_profile s;
                 last_pen_buttons := last_pen_buttons s; pen_eraser_sticky := pen_eraser_sticky s;
                 last_touch_pos := touch_map snapshot; vmulti := vmulti s |}.
End Injector.

Lemma bind_run {A B} (m : Inj A) (f : A -> Inj B) w a w' :
  m w = (Ok a, w') -> (m ≫= f) w = f a w'.
Proof. intros E. unfold mbind, Inj_bind. by rewrite E. Qed.

Lemma bind_err {A B} (m : Inj A) (f : A -> Inj B) w e w' :
  m w = (Err e, w') -> (m ≫= f) w = (Err e, w').
Proof. intros E. unfold mbind, Inj_bind. by rewrite E. Qed.

(** ** Invariants of computations, whatever their result *)

Definition preserves (I : World -> Prop) (m : Inj unit) : Prop := forall w, I w -> I (m w).2.

Section Preserves.
Context (I : World -> Prop).

Lemma preserves_ret : preserves I (mret tt).
Proof. by intros w Hw. Qed.

Lemma preserves_bind m f : preserves I m -> preserves I (f tt) -> preserves I (m ≫= f).
Proof.
  intros Hm Hf w Hw. pose proof (Hm w Hw) as H1. unfold mbind, Inj_bind.
  destruct (m w) as [[[]|e] w1]; [by apply Hf | done].
Qed.

Lemma preserves_get {A} (g : World -> A) (f : A -> Inj unit) :
  (forall w, I w -> I (f (g w) w).2) -> preserves I ((fun w => (Ok (g w), w)) ≫= f).
Proof. intros Hf w Hw. exact (Hf w Hw). Qed.

Lemma preserves_for_each {A} (l : list A) f :
  (forall x, preserves I (f x)) -> preserves I (for_each l f).
Proof.
  intros Hf. induction l as [|x l IH]; [apply preserves_ret |]. cbn [for_each].
  by apply preserves_bind.
Qed.

Lemma preserves_if (b : bool) m : preserves I m -> preserves I (if b then m else mret tt).
Proof. destruct b; [done | intros _; apply preserves_ret]. Qed.

Lemma preserves_ignore m : preserves I m -> preserves I (ignore m).
Proof. intros Hm w Hw. exact (Hm w Hw). Qed.
End Preserves.

#[export] Hint Resolve preserves_ret preserves_bind preserves_for_each preserves_if
  preserves_ignore : penflow.

(** * Keys and mouse buttons are never left down *)

Inductive Held := HKey (vk : Z) | HMouse (kind : MouseButtonKind).

#[export] Instance Held_eq_dec : EqDecision Held.
Proof. solve_decision. Defined.

Definition down_or_up (b : bool) : Z := if b then 1 else -1.

(** How a call changes the number of presses of [h] not yet released. *)
Definition call_delta (h : Held) (c : OsCall) : Z :=
  match c with
  | CallKey vk down => if decide (h = HKey vk) then down_or_up down else 0
  | CallMouseButton k down => if decide (h = HMouse k) then down_or_up down else 0
  | _ => 0
  end.

Definition sumZ (l : list Z) : Z := foldr Z.add 0 l.

(** Presses minus releases of [h] the system accepted. *)
Definition pressed (h : Held) (l : Log) : Z :=
  sumZ (map (fun e => if e.2 : bool then call_delta h e.1 else 0) l).

(** What a binding holds while its button is down. *)
Definition binding_holds (h : Held) (b : Binding) : Z :=
  match b with
  | KeyHold keys => sumZ (map (fun vk => call_delta h (CallKey vk true)) keys)
  | MouseButton k => call_delta h (CallMouseButton k true)
  | _ => 0
  end.

(** What the buttons that are down hold under a profile. *)
Definition profile_holds (h : Held) (p : PenButtonProfile) (bits : Z) : Z :=
  sumZ (map (fun slot => if has_bit bits slot then binding_holds h (slot_binding p slot) else 0)
         [0; 1; 2]).

Definition balanced (w : World) : Prop :=
  forall h, pressed h (log w) = profile_holds h (pen_profile (inj w)) (last_pen_buttons (inj w)).

Lemma sumZ_cons x l : sumZ (x :: l) = x + sumZ l.
Proof. done. Qed.

Lemma sumZ_app l k : sumZ (l ++ k) = sumZ l + sumZ k.
Proof. induction l as [|x l IH]; [done |]. cbn [app]. rewrite !sumZ_cons, IH. lia. Qed.

Lemma pressed_app h l k : pressed h (l ++ k) = pressed h l + pressed h k.
Proof. unfold pressed. by rewrite map_app, sumZ_app. Qed.

Lemma pressed_snoc h l c b : pressed h (l ++ [(c, b)]) = pressed h l + (if b : bool then call_delta h c else 0).
Proof. rewrite pressed_app. unfold pressed at 2. cbn. lia. Qed.

Lemma call_delta_up h vk : call_delta h (CallKey vk false) = - call_delta h (CallKey vk true).
Proof. cbn. by case_decide. Qed.

Lemma sumZ_rev l : sumZ (rev l) = sumZ l.
Proof.
  induction l as [|x l IH]; [done |]. cbn [rev]. rewrite sumZ_app, IH, !sumZ_cons. cbn. lia.
Qed.

Section Balance.
Context (os : Os).
Hypothesis always_ok : forall l c, os_ok os l c = true.

(** [m] succeeds, changes the presses of [h] by [d h] and otherwise only
    what [f] says of the injector. *)
Definition presses (m : Inj unit) (w w' : World) (d : Held -> Z) : Prop :=
  m w = (Ok tt, w') /\ (forall h, pressed h (log w') = pressed h (log w) + d h)
  /\ pen_profile (inj w') = pen_profile (inj w)
  /\ last_pen_buttons (inj w') = last_pen_buttons (inj w).

Lemma presses_ret w : presses (mret tt) w w (fun _ => 0).
Proof. split_and!; try done. intros h. lia. Qed.

Lemma presses_bind m f w w1 w2 d1 d2 :
  presses m w w1 d1 -> presses (f tt) w1 w2 d2 -> presses (m ≫= f) w w2 (fun h => d1 h + d2 h).
Proof.
  intros (E1 & H1 & P1 & L1) (E2 & H2 & P2 & L2). unfold presses, mbind, Inj_bind. rewrite E1.
  split_and!; [done | | congruence | congruence]. intros h. rewrite H2, H1. lia.
Qed.

Lemma presses_weaken m w w' d d' : presses m w w' d -> (forall h, d h = d' h) -> presses m w w' d'.
Proof. intros (E & H & ?) Hd. split; [done | split; [| done]]. intros h. by rewrite H, Hd. Qed.

Lemma presses_call c w : exists w', presses (call os c) w w' (fun h => call_delta h c).
Proof.
  eexists. unfold presses, call. rewrite always_ok. split_and!; try done.
  intros h. cbn [log]. by rewrite pressed_snoc.
Qed.

Lemma presses_for_each {A} (l : list A) f d :
  (forall x w, exists w', presses (f x) w w' (d x)) ->
  forall w, exists w', presses (for_each l f) w w' (fun h => sumZ (map (fun x => d x h) l)).
Proof.
  intros Hf. induction l as [|x l IH]; intros w; cbn [for_each].
  - exists w. apply presses_ret.
  - destruct (Hf x w) as (w1 & H1). destruct (IH w1) as (w2 & H2). exists w2.
    by apply (presses_bind _ _ _ w1).
Qed.

Lemma presses_keys keys down w : exists w',
  presses (for_each keys (fun vk => send_key os vk down)) w w'
    (fun h => sumZ (map (fun vk => call_delta h (CallKey vk down)) keys)).
Proof. apply presses_for_each. intros vk w1. apply presses_call. Qed.

Lemma sum_keys_up h keys :
  sumZ (map (fun vk => call_delta h (CallKey vk false)) (rev keys))
  = - sumZ (map (fun vk => call_delta h (CallKey vk true)) keys).
Proof.
  rewrite map_rev, sumZ_rev. induction keys as [|vk keys IH]; [done |].
  cbn [map]. rewrite !sumZ_cons, IH, call_delta_up. lia.
Qed.

Lemma presses_press b w : exists w', presses (press_binding os b) w w' (fun h => binding_holds h b).
Proof.
  destruct b as [| vk | keys | keys | k |]; cbn [press_binding].
  - exists w. apply presses_ret.
  - destruct (presses_call (CallKey vk true) w) as (w1 & H1).
    destruct (presses_call (CallKey vk false) w1) as (w2 & H2). exists w2.
    eapply presses_weaken; [by eapply presses_bind |]. intros h. cbn beta.
    rewrite call_delta_up. cbn [binding_holds]. lia.
  - apply presses_keys.
  - destruct (presses_keys keys true w) as (w1 & H1).
    destruct (presses_keys (rev keys) false w1) as (w2 & H2). exists w2.
    eapply presses_weaken; [by eapply presses_bind |]. intros h. cbn beta.
    rewrite sum_keys_up. cbn [binding_holds]. lia.
  - apply presses_call.
  - eexists. split_and!; try done. intros h. cbn [binding_holds log]. lia.
Qed.

Lemma presses_release b w : exists w',
  presses (release_binding os b) w w' (fun h => - binding_holds h b).
Proof.
  destruct b as [| vk | keys | keys | k |]; cbn [release_binding];
    try (exists w; by apply (presses_weaken _ _ _ _ _ (presses_ret w))).
  - destruct (presses_keys (rev keys) false w) as (w1 & H1). exists w1.
    eapply presses_weaken; [exact H1 |]. intros h. apply sum_keys_up.
  - destruct (presses_call (CallMouseButton k false) w) as (w1 & H1). exists w1.
    eapply presses_weaken; [exact H1 |]. intros h. cbn. by case_decide.
Qed.

Lemma presses_if (b : bool) m w d :
  (exists w', presses m w w' d) ->
  exists w', presses (if b then m else mret tt) w w' (fun h => if b then d h else 0).
Proof. intros H. destruct b; [done | exists w; apply presses_ret]. Qed.

Lemma presses_ignore m w w' d : presses m w w' d -> presses (ignore m) w w' d.
Proof. intros (E & H). unfold presses, ignore. rewrite E. by split. Qed.

Lemma has_bit_testbit bits slot : 0 <= slot -> has_bit bits slot = Z.testbit bits slot.
Proof.
  intros Hs. unfold has_bit. rewrite Z.shiftl_1_l.
  destruct (Z.testbit bits slot) eqn:E.
  - apply negb_true_iff, Z.eqb_neq. intros H.
    apply (f_equal (fun z => Z.testbit z slot)) in H.
    by rewrite Z.land_spec, E, Z.pow2_bits_true, Z.testbit_0_l in H by lia.
  - apply negb_false_iff, Z.eqb_eq, Z.bits_inj'. intros n Hn.
    rewrite Z.land_spec, Z.pow2_bits_eqb, Z.testbit_0_l by lia.
    destruct (Z.eqb_spec slot n) as [<- | ?]; [by rewrite E | apply andb_false_r].
Qed.

(** One slot of the edge-triggered dispatch. *)
Lemma presses_slot p prev now slot w : 0 <= slot -> exists w',
  presses ((if has_bit (Z.land (Z.lnot prev) now) slot then press_binding os (slot_binding p slot)
            else mret tt);;
           (if has_bit (Z.land prev (Z.lnot now)) slot then release_binding os (slot_binding p slot)
            else mret tt)) w w'
    (fun h => (if has_bit now slot then binding_holds h (slot_binding p slot) else 0)
              - (if has_bit prev slot then binding_holds h (slot_binding p slot) else 0)).
Proof.
  intros Hs.
  destruct (presses_if (has_bit (Z.land (Z.lnot prev) now) slot) _ _ _
              (presses_press (slot_binding p slot) w)) as (w1 & H1).
  destruct (presses_if (has_bit (Z.land prev (Z.lnot now)) slot) _ _ _
              (presses_release (slot_binding p slot) w1)) as (w2 & H2).
  exists w2. eapply presses_weaken; [by eapply presses_bind |]. intros h. cbn beta.
  rewrite !has_bit_testbit, !Z.land_spec, !Z.lnot_spec by done.
  destruct (Z.testbit prev slot), (Z.testbit now slot); cbn; lia.
Qed.

Lemma presses_move x y w : exists w', presses (send_mouse_move_to os x y) w w' (fun _ => 0).
Proof.
  destruct (os_screen os (log w)) as [[[vx vy] vw] vh] eqn:Es.
  destruct (presses_call (CallMouseMove (normalize_absolute_mouse_coord x vx vw)
    (normalize_absolute_mouse_coord y vy vh)) w) as (w' & E & H). exists w'. split; [| exact H].
  unfold send_mouse_move_to, virtual_screen_rect. erewrite bind_run by reflexivity. by rewrite Es.
Qed.

Lemma dispatch_balanced sample w : balanced w -> exists w',
  dispatch_pen_buttons os sample w = (Ok tt, w') /\ balanced w'
  /\ last_pen_buttons (inj w') = ps_buttons sample /\ pen_profile (inj w') = pen_profile (inj w).
Proof.
  intros Hb. unfold dispatch_pen_buttons.
  set (sync := existsb (fun slot => is_mouse_button (slot_binding (pen_profile (inj w)) slot)
    && (has_bit (ps_buttons sample) slot
        || has_bit (Z.land (last_pen_buttons (inj w)) (Z.lnot (ps_buttons sample))) slot)) [0; 1; 2]).
  destruct (presses_if sync _ _ _ (presses_move (ps_x sample) (ps_y sample) w)) as (w1 & H1).
  set (p := pen_profile (inj w)). set (prev := last_pen_buttons (inj w)).
  set (now := ps_buttons sample).
  set (body := fun slot : Z =>
    (if has_bit (Z.land (Z.lnot prev) now) slot then press_binding os (slot_binding p slot) else mret tt);;
    (if has_bit (Z.land prev (Z.lnot now)) slot then release_binding os (slot_binding p slot) else mret tt)).
  destruct (presses_slot p prev now 0 w1) as (w2 & H2); [lia |].
  destruct (presses_slot p prev now 1 w2) as (w3 & H3); [lia |].
  destruct (presses_slot p prev now 2 w3) as (w4 & H4); [lia |].
  assert (Hloop : presses (for_each [0; 1; 2] body) w1 w4
    (fun h => profile_holds h p now - profile_holds h p prev)).
  { eapply presses_weaken.
    - cbn [for_each]. eapply presses_bind; [exact H2 |]. eapply presses_bind; [exact H3 |].
      eapply presses_bind; [exact H4 | apply presses_ret].
    - intros h. unfold profile_holds, sumZ. cbn [map foldr]. lia. }
  destruct H1 as (E1 & Hp1 & Hpr1 & Hl1). destruct Hloop as (E2 & Hp2 & Hpr2 & Hl2).
  eexists. rewrite (bind_run _ _ _ _ _ (eq_refl : get_inj w = _)).
  rewrite (bind_run _ _ _ _ _ E1), (bind_run _ _ _ _ _ E2).
  split; [reflexivity |]. cbn [inj last_pen_buttons pen_profile].
  split_and!; [| done | by rewrite Hpr2, Hpr1].
  intros h. cbn [log inj pen_profile last_pen_buttons].
  rewrite Hp2, Hp1, Hpr2, Hpr1. replace (if sync then 0 else 0) with 0 by (by destruct sync).
  specialize (Hb h). unfold p, now, prev in *. lia.
Qed.

(** Sending pen frames and touch frames presses nothing. *)
Definition silent (m : Inj unit) : Prop :=
  forall w, exists r w', m w = (r, w')
    /\ (forall h, pressed h (log w') = pressed h (log w))
    /\ pen_profile (inj w') = pen_profile (inj w)
    /\ last_pen_buttons (inj w') = last_pen_buttons (inj w).

Lemma silent_ret : silent (mret tt).
Proof. intros w. by exists (Ok tt), w. Qed.

Lemma silent_call c : (forall h, call_delta h c = 0) -> silent (call os c).
Proof.
  intros Hc w. eexists _, _. split; [reflexivity |]. split_and!; try done.
  intros h. cbn [log]. rewrite pressed_snoc, always_ok, Hc. lia.
Qed.

Lemma silent_bind m f : silent m -> silent (f tt) -> silent (m ≫= f).
Proof.
  intros Hm Hf w. destruct (Hm w) as (r & w1 & E & H1 & P1 & L1).
  destruct r as [[]|e].
  - destruct (Hf w1) as (r & w2 & E2 & H2 & P2 & L2). exists r, w2.
    rewrite (bind_run _ _ _ _ _ E). split_and!; [done | | congruence | congruence].
    intros h. by rewrite H2, H1.
  - exists (Err e), w1. unfold mbind, Inj_bind. by rewrite E.
Qed.

Lemma silent_get {A} (g : World -> A) (f : A -> Inj unit) :
  (forall a, silent (f a)) -> silent ((fun w => (Ok (g w), w)) ≫= f).
Proof. intros Hf w. exact (Hf (g w) w). Qed.

Lemma silent_set (g : InputInjector -> InputInjector) :
  (forall s, pen_profile (g s) = pen_profile s /\ last_pen_buttons (g s) = last_pen_buttons s) ->
  silent (fun w => (Ok tt, {| inj := g (inj w); log := log w |})).
Proof. intros Hg w. destruct (Hg (inj w)). by eexists _, _. Qed.

Lemma silent_write_pen sample eraser : silent (write_pen os sample eraser).
Proof.
  unfold write_pen. apply (silent_get inj). intros s. destruct (_ && _); [apply silent_ret |].
  apply (silent_get (fun w => ((os_screen os (log w)).1.1.1, (os_screen os (log w)).1.1.2))).
  intros [vx vy]. by apply silent_call.
Qed.

Lemma silent_vmulti v sample eraser : silent (write_pen_vmulti os v sample eraser).
Proof.
  unfold write_pen_vmulti, vmulti_write_pen. set (b := vmulti_report _ _).
  intros w. unfold get_inj, set_inj. erewrite bind_run by reflexivity.
  erewrite bind_run by reflexivity.
  destruct (silent_call (CallHidWrite b) (fun h => eq_refl)
    {| inj := {| last_pen_eraser := last_pen_eraser (inj w); last_pen_in_range := last_pen_in_range (inj w);
             last_pen_in_contact := last_pen_in_contact (inj w); pen_profile := pen_profile (inj w);
             last_pen_buttons := last_pen_buttons (inj w); pen_eraser_sticky := pen_eraser_sticky (inj w);
             last_touch_pos := last_touch_pos (inj w); vmulti := Some {| buf := b |} |}; log := log w |})
    as (r & w' & E & H). exists r, w'. split; [exact E | exact H].
Qed.

Lemma silent_touch snapshot : silent (inject_touch os snapshot).
Proof.
  intros w. unfold inject_touch. erewrite bind_run by reflexivity.
  destruct (_ && _); [by apply silent_ret |]. erewrite bind_run by reflexivity. cbv zeta.
  destruct (bool_decide _); [by apply silent_ret |].
  set (c := CallTouch _).
  destruct (silent_call c (fun h => eq_refl) w) as (r & w1 & E & Hp & Hpr & Hl).
  assert (Hinj : inj w1 = inj w) by (unfold call in E; injection E as _ <-; done).
  destruct r as [[]|e].
  - rewrite (bind_run _ _ _ _ _ E). eexists _, _. split; [reflexivity |]. by split_and!.
  - exists (Err e), w1. unfold mbind, Inj_bind. by rewrite E.
Qed.

Lemma inject_pen_balanced sample w : balanced w -> exists r w',
  inject_pen os sample w = (r, w') /\ balanced w'.
Proof.
  intros Hb. destruct (dispatch_balanced sample w Hb) as (w1 & E & Hb1 & _).
  unfold inject_pen. rewrite (bind_run _ _ _ _ _ E). erewrite bind_run by reflexivity. cbv zeta.
  set (eff := ps_eraser sample || pen_eraser_sticky (inj w1)).
  set (body := match vmulti (inj w1) with Some v => _ | None => _ end).
  assert (Hs : silent body).
  { subst body. destruct (vmulti (inj w1)); [apply silent_vmulti |].
    apply silent_bind; [| apply silent_write_pen].
    destruct (_ && _); [apply silent_write_pen | apply silent_ret]. }
  destruct (Hs w1) as (r & w2 & E2 & Hp & Hpr & Hl).
  destruct r as [[]|e].
  - rewrite (bind_run _ _ _ _ _ E2). eexists _, _. split; [reflexivity |].
    intros h. cbn [log inj pen_profile last_pen_buttons]. by rewrite Hp, Hpr, Hl.
  - exists (Err e), w2. unfold mbind at 1, Inj_bind at 1. rewrite E2. split; [done |].
    intros h. by rewrite Hp, Hpr, Hl.
Qed.

Lemma presses_release_ignored b w : exists w',
  presses (match b with
           | KeyHold keys => for_each (rev keys) (fun vk => ignore (send_key os vk false))
           | MouseButton kind => ignore (send_mouse_button os kind false)
           | _ => mret tt
           end) w w' (fun h => - binding_holds h b).
Proof.
  destruct b as [| vk | keys | keys | k |];
    try (exists w; by apply (presses_weaken _ _ _ _ _ (presses_ret w))).
  - destruct (presses_for_each (rev keys) (fun vk => ignore (send_key os vk false))
      (fun vk h => call_delta h (CallKey vk false))) with (w := w) as (w1 & H1).
    { intros x w1. destruct (presses_call (CallKey x false) w1) as (w2 & H). exists w2.
      by apply presses_ignore. }
    exists w1. eapply presses_weaken; [exact H1 |]. intros h. apply sum_keys_up.
  - destruct (presses_call (CallMouseButton k false) w) as (w1 & H1). exists w1.
    eapply presses_weaken; [apply presses_ignore; exact H1 |]. intros h. cbn. by case_decide.
Qed.

Lemma set_pen_profile_balanced profile w : balanced w -> exists w',
  set_pen_profile os profile w = (Ok tt, w') /\ balanced w'
  /\ (forall h, pressed h (log w') = 0).
Proof.
  intros Hb. unfold set_pen_profile. erewrite bind_run by reflexivity. cbv zeta.
  set (p := pen_profile (inj w)). set (prev := last_pen_buttons (inj w)).
  set (body := fun slot : Z => if negb (has_bit prev slot) then mret tt else _).
  assert (Hslot : forall slot w1, exists w2, presses (body slot) w1 w2
    (fun h => - (if has_bit prev slot then binding_holds h (slot_binding p slot) else 0))).
  { intros slot w1. subst body. cbv beta. destruct (has_bit prev slot); cbn [negb].
    - apply presses_release_ignored.
    - exists w1. by apply (presses_weaken _ _ _ _ _ (presses_ret w1)). }
  destruct (presses_for_each [0; 1; 2] body _ Hslot w) as (w1 & E & Hp & Hpr & Hl).
  assert (Hz : forall h, pressed h (log w1) = 0).
  { intros h. rewrite Hp, (Hb h). unfold profile_holds, sumZ, p, prev. cbn [map foldr]. lia. }
  rewrite (bind_run _ _ _ _ _ E). eexists. split; [reflexivity |]. split; [| exact Hz].
  intros h. cbn [log inj pen_profile last_pen_buttons]. rewrite Hz. unfold profile_holds.
  cbn [map]. rewrite !has_bit_testbit by lia. by rewrite !Z.testbit_0_l.
Qed.
End Balance.

(** ** Any sequence of operations *)

Inductive InjOp := OpPen (sample : PenSample) | OpTouch (snapshot : list TouchPoint)
  | OpProfile (profile : PenButtonProfile).

Definition run_op (os : Os) (w : World) (o : InjOp) : World :=
  match o with
  | OpPen s => (inject_pen os s w).2
  | OpTouch t => (inject_touch os t w).2
  | OpProfile p => (set_pen_profile os p w).2
  end.

Definition run_ops (os : Os) (w : World) (ops : list InjOp) : World := foldl (run_op os) w ops.

Definition start (profile : PenButtonProfile) (v : option VMultiPen) : World :=
  {| inj := InputInjector_new profile v; log := [] |}.

Lemma run_op_balanced os w o : (forall l c, os_ok os l c = true) -> balanced w -> balanced (run_op os w o).
Proof.
  intros Hok Hb. destruct o as [s | t | p]; cbn [run_op].
  - destruct (inject_pen_balanced os Hok s w Hb) as (r & w' & E & H). by rewrite E.
  - destruct (silent_touch os Hok t w) as (r & w' & E & Hp & Hpr & Hl). rewrite E.
    intros h. cbn [snd]. by rewrite Hp, Hpr, Hl.
  - destruct (set_pen_profile_balanced os Hok p w Hb) as (w' & E & H & _). by rewrite E.
Qed.

Lemma run_ops_balanced os ops : forall w,
  (forall l c, os_ok os l c = true) -> balanced w -> balanced (run_ops os w ops).
Proof.
  unfold run_ops. induction ops as [|o ops IH]; intros w Hok Hb; [done |].
  cbn [foldl]. by apply IH, run_op_balanced.
Qed.

(** C8. No key and no mouse button is ever left down: while the system
    accepts the calls, after any sequence of pen samples, touch snapshots and
    profile changes every key and mouse button is pressed exactly as many
    more times than it was released as the buttons now down hold it under the
    current profile; so releasing the buttons, or replacing the profile,
    releases everything. *)
Theorem no_stuck_keys os profile v ops p h :
  (forall l c, os_ok os l c = true) ->
  let w := run_ops os (start profile v) ops in
  pressed h (log w) = profile_holds h (pen_profile (inj w)) (last_pen_buttons (inj w))
  /\ (last_pen_buttons (inj w) = 0 -> pressed h (log w) = 0)
  /\ pressed h (log (run_op os w (OpProfile p))) = 0.
Proof.
  intros Hok w. assert (Hb : balanced w).
  { apply run_ops_balanced; [done |]. intros h'. unfold profile_holds. cbn [map start inj log
      InputInjector_new last_pen_buttons]. rewrite !has_bit_testbit by lia. by rewrite !Z.testbit_0_l. }
  split_and!.
  - apply Hb.
  - intros Hz. rewrite (Hb h), Hz. unfold profile_holds. cbn [map].
    rewrite !has_bit_testbit by lia. by rewrite !Z.testbit_0_l.
  - cbn [run_op]. destruct (set_pen_profile_balanced os Hok p w Hb) as (w' & -> & _ & Hz). apply Hz.
Qed.
