(* ===== verification/InjectSpec.v ===== *)
(** What the injector promises the operating system: the pointer flags, the
    pen and touch protocols over whole sessions, the absolute mouse
    coordinates and the VMulti report. *)
From stdpp Require Import gmap.
From S2P Require Import Prelude Bytes Engine F32 Inject.

(** * Flags and coordinates *)

(** The transition bits of a pen frame, for all sixteen combinations of
    previous and current state: PRIMARY always; INRANGE, INCONTACT and
    FIRSTBUTTON are the current state; NEW marks the arrival in range, DOWN
    the start of a contact, UP its end or the departure from range, and
    exactly one of DOWN, UP and UPDATE is set. *)
Theorem pen_flags_spec was_range was_contact range contact :
  let f := pen_pointer_flags was_range was_contact range contact in
  f_primary f = true
  /\ f_inrange f = range /\ f_incontact f = range && contact
  /\ f_firstbutton f = range && contact
  /\ f_new f = range && negb was_range
  /\ f_down f = range && contact && negb was_contact
  /\ f_up f = negb range || (was_contact && negb contact)
  /\ f_update f = range && Bool.eqb contact was_contact.
Proof. by destruct was_range, was_contact, range, contact. Qed.

(** The dividend of the scaling, the largest number it computes. *)
Definition mouse_numerator (pos origin span : Z) : Z :=
  clampZ 0 (span - 1) (pos - origin) * 65535 + Z.quot (span - 1) 2.

(** Absolute mouse coordinates: over the virtual desktop [origin,
    origin + span) the result is in [0, 65535], the first pixel maps to 0 and
    the last to 65535, positions outside are clamped to the edges, and the
    mapping is monotone; no computation leaves the 64-bit range. *)
Theorem absolute_mouse_coord origin span pos pos' :
  i32 origin -> i32 span -> i32 pos -> i32 pos' -> 1 < span ->
  0 <= normalize_absolute_mouse_coord pos origin span <= 65535
  /\ (pos <= origin -> normalize_absolute_mouse_coord pos origin span = 0)
  /\ (origin + span - 1 <= pos -> normalize_absolute_mouse_coord pos origin span = 65535)
  /\ (pos <= pos' -> normalize_absolute_mouse_coord pos origin span
                     <= normalize_absolute_mouse_coord pos' origin span)
  /\ i64 (mouse_numerator pos origin span).
Proof.
  intros Ho Hs Hp Hp' H1. unfold normalize_absolute_mouse_coord, mouse_numerator. cbv zeta.
  destruct (Z.leb_spec span 1); [lia |]. set (m := span - 1).
  assert (Hm : 1 <= m) by (subst m; lia).
  assert (Hq : forall r, 0 <= r <= m ->
    0 <= (r * 65535 + m / 2) / m <= 65535).
  { intros r Hr. split; [apply Z.div_pos; [| lia] | apply Z.lt_succ_r, Z.div_lt_upper_bound; [lia |]].
    - pose proof (Z.div_pos m 2). nia.
    - pose proof (Z.div_mod m 2 ltac:(lia)). pose proof (Z.mod_pos_bound m 2). nia. }
  assert (Hr : forall p, 0 <= clampZ 0 m (p - origin) <= m) by (intros p; apply clampZ_range; lia).
  assert (Hf : forall p, swrap 32 (Z.quot (clampZ 0 m (p - origin) * 65535 + Z.quot m 2) m)
    = (clampZ 0 m (p - origin) * 65535 + m / 2) / m).
  { intros p. rewrite (Z.quot_div_nonneg m 2) by lia. specialize (Hr p). specialize (Hq _ Hr).
    pose proof (Z.div_pos m 2). rewrite Z.quot_div_nonneg by nia. apply swrap_small; urange. }
  rewrite !Hf. split_and!.
  - apply Hq, Hr.
  - apply Hq, Hr.
  - intros Hle. replace (clampZ 0 m (pos - origin)) with 0 by (unfold clampZ; lia).
    apply Z.div_small. pose proof (Z.div_pos m 2). pose proof (Z.div_lt m 2). lia.
  - intros Hge. replace (clampZ 0 m (pos - origin)) with m by (unfold clampZ; lia).
    symmetry. apply (Z.div_unique _ _ _ (m / 2)); [| ring].
    left. pose proof (Z.div_pos m 2). pose proof (Z.div_lt m 2). lia.
  - intros Hle. apply Z.div_le_mono; [lia |]. unfold clampZ. nia.
  - pose proof (Hr pos). rewrite Z.quot_div_nonneg by lia.
    pose proof (Z.div_pos m 2). pose proof (Z.div_lt m 2). urange.
Qed.

Lemma absolute_mouse_coord_witness :
  normalize_absolute_mouse_coord (-101) (-100) 200 = 0
  /\ normalize_absolute_mouse_coord 99 (-100) 200 = 65535.
Proof.
  assert (Hi : forall z, -200 <= z <= 200 -> i32 z) by (intros; urange).
  split.
  - destruct (absolute_mouse_coord (-100) 200 (-101) (-101)) as (_ & H & _);
      [apply Hi; lia .. | lia | apply H; lia].
  - destruct (absolute_mouse_coord (-100) 200 99 99) as (_ & _ & H & _);
      [apply Hi; lia .. | lia | apply H; lia].
Defined.

(** * The pen protocol *)

(** The system's view of the pen, (in range, in contact), after a frame. *)
Definition pen_after (f : PointerFlags) : bool * bool := (f_inrange f, f_incontact f).

(** A frame is legal in a view when its transition bits describe the change. *)
Definition legal_pen_frame (view : bool * bool) (f : PointerFlags) : Prop :=
  f_new f = f_inrange f && negb view.1
  /\ f_down f = f_incontact f && negb view.2
  /\ f_up f = negb (f_inrange f) || (view.2 && negb (f_incontact f))
  /\ f_update f = f_inrange f && Bool.eqb (f_incontact f) view.2
  /\ (f_inrange f = false -> view.1 = true).

Fixpoint legal_pen (view : bool * bool) (l : Log) : Prop :=
  match l with
  | [] => True
  | (CallPen info, ok) :: l' =>
      legal_pen_frame view (pi_flags info)
      /\ legal_pen (if ok : bool then pen_after (pi_flags info) else view) l'
  | _ :: l' => legal_pen view l'
  end.

(** The view at the end of a log. *)
Definition pen_view (l : Log) : bool * bool :=
  foldl (fun v e => match e with (CallPen info, true) => pen_after (pi_flags info) | _ => v end)
    (false, false) l.

Lemma legal_pen_app l : forall v k, legal_pen v (l ++ k)
  <-> legal_pen v l /\ legal_pen (foldl (fun v e =>
        match e with (CallPen info, true) => pen_after (pi_flags info) | _ => v end) v l) k.
Proof.
  induction l as [|[c ok] l IH]; intros v k; [cbn; tauto |].
  destruct c; cbn [app legal_pen foldl]; rewrite IH; tauto.
Qed.

Lemma legal_pen_snoc l c ok : legal_pen (false, false) (l ++ [(c, ok)])
  <-> legal_pen (false, false) l
      /\ match c with CallPen info => legal_pen_frame (pen_view l) (pi_flags info) | _ => True end.
Proof. rewrite legal_pen_app. unfold pen_view. destruct c; cbn; tauto. Qed.

Lemma pen_view_snoc l c ok : pen_view (l ++ [(c, ok)])
  = match c, ok with CallPen info, true => pen_after (pi_flags info) | _, _ => pen_view l end.
Proof. unfold pen_view. rewrite foldl_app. by destruct c, ok. Qed.

(** The frame the injector computes is legal, and tells the new state. *)
Lemma pen_frame_legal wr wc r c :
  (wc = true -> wr = true) -> (c = true -> r = true) -> negb wr && negb r = false ->
  legal_pen_frame (wr, wc) (pen_pointer_flags wr wc r c).
Proof.
  unfold legal_pen_frame. destruct wr, wc, r, c; cbn; intros Hw Hc Ho; split_and!; try done; auto.
Qed.

Lemma pen_frame_after wr wc r c :
  (c = true -> r = true) -> pen_after (pen_pointer_flags wr wc r c) = (r, c).
Proof. destruct wr, wc, r, c; cbn; intros Hc; try done; by specialize (Hc eq_refl). Qed.

(** What a stroke with the plain pen end looks like. *)
Definition plain_sample (s : PenSample) : Prop :=
  ps_eraser s = false /\ (ps_in_contact s = true -> ps_in_range s = true).

Definition no_toggle (p : PenButtonProfile) : Prop :=
  barrel_1 p <> EraserToggle /\ barrel_2 p <> EraserToggle /\ tertiary p <> EraserToggle.

Definition pen_ok (w : World) : Prop :=
  legal_pen (false, false) (log w)
  /\ pen_view (log w) = (last_pen_in_range (inj w), last_pen_in_contact (inj w))
  /\ (last_pen_in_contact (inj w) = true -> last_pen_in_range (inj w) = true)
  /\ last_pen_eraser (inj w) = false /\ pen_eraser_sticky (inj w) = false
  /\ vmulti (inj w) = None /\ no_toggle (pen_profile (inj w)).

Section Pen.
Context (os : Os).

Lemma pen_call c : (forall info, c <> CallPen info) -> preserves pen_ok (call os c).
Proof.
  intros Hc w (Hl & Hv & H). unfold pen_ok, call. cbn [log inj snd].
  rewrite legal_pen_snoc, pen_view_snoc. destruct c; try done; by destruct (Hc info).
Qed.

Hint Resolve pen_call : penflow.

Lemma pen_press b : b <> EraserToggle -> preserves pen_ok (press_binding os b).
Proof.
  intros Hb. destruct b as [| vk | keys | keys | k |]; cbn [press_binding]; try done;
    unfold send_key, send_mouse_button; auto 6 with penflow.
Qed.

Lemma pen_release b : preserves pen_ok (release_binding os b).
Proof.
  destruct b as [| vk | keys | keys | k |]; cbn [release_binding];
    unfold send_key, send_mouse_button; auto 6 with penflow.
Qed.

Lemma slot_binding_no_toggle p slot : no_toggle p -> slot_binding p slot <> EraserToggle.
Proof. intros (? & ? & ?). unfold slot_binding. by repeat case_match. Qed.

Lemma pen_move x y : preserves pen_ok (send_mouse_move_to os x y).
Proof.
  unfold send_mouse_move_to, virtual_screen_rect. apply preserves_get. intros w Hw.
  destruct (os_screen os (log w)) as [[[vx vy] vw] vh]. by apply pen_call.
Qed.

Lemma pen_dispatch sample : preserves pen_ok (dispatch_pen_buttons os sample).
Proof.
  unfold dispatch_pen_buttons. apply (preserves_get pen_ok inj). intros w Hw.
  refine ((fun H : preserves pen_ok _ => H w Hw) _).
  pose proof Hw as (_ & _ & _ & _ & _ & _ & Hn).
  apply preserves_bind; [apply preserves_if, pen_move |]. apply preserves_bind.
  - apply preserves_for_each. intros slot. apply preserves_bind; apply preserves_if.
    + by apply pen_press, slot_binding_no_toggle.
    + apply pen_release.
  - by apply (preserves_get pen_ok inj).
Qed.

Lemma write_pen_ok sample w : pen_ok w -> plain_sample sample ->
  exists r w', write_pen os sample false w = (r, w') /\ inj w' = inj w
    /\ legal_pen (false, false) (log w')
    /\ pen_view (log w') = (if is_ok r then (ps_in_range sample, ps_in_contact sample)
                            else (last_pen_in_range (inj w), last_pen_in_contact (inj w))).
Proof.
  intros (Hl & Hv & Hrc & He & Hs & Hvm & Hn) (_ & Hc).
  unfold write_pen. erewrite bind_run by reflexivity.
  destruct (negb (last_pen_in_range (inj w)) && negb (ps_in_range sample)) eqn:Hout.
  - exists (Ok tt), w. split_and!; [done | done | done |]. cbn [is_ok]. rewrite Hv.
    apply andb_true_iff in Hout as (H1%negb_true_iff & H2%negb_true_iff).
    rewrite H1, H2 in *. f_equal.
    destruct (last_pen_in_contact (inj w)), (ps_in_contact sample); try done;
        first [ by specialize (Hrc eq_refl) | by specialize (Hc eq_refl) ].
  - erewrite bind_run by reflexivity. eexists _, _. split; [reflexivity |].
    cbn [log inj]. split; [done |]. rewrite legal_pen_snoc, pen_view_snoc, Hv. cbn [pi_flags].
    split; [split; [done |] |].
    + apply pen_frame_legal; [exact Hrc | exact Hc | exact Hout].
    + destruct (os_ok _ _ _); cbn [is_ok]; [| done]. by apply pen_frame_after.
Qed.

Lemma inject_pen_ok sample w : pen_ok w -> plain_sample sample -> pen_ok (inject_pen os sample w).2.
Proof.
  intros Hw Hp. pose proof (pen_dispatch sample w Hw) as Hw1.
  unfold inject_pen. destruct (dispatch_pen_buttons os sample w) as [r w1] eqn:E. cbn [snd] in Hw1.
  destruct r as [[]|e]; [| by rewrite (bind_err _ _ _ _ _ E)].
  rewrite (bind_run _ _ _ _ _ E). erewrite bind_run by reflexivity. cbv zeta.
  pose proof Hw1 as (_ & _ & _ & He & Hs & Hvm & Hn).
  rewrite (proj1 Hp), Hs, Hvm, He. cbn [orb Bool.eqb negb andb].
  destruct (write_pen_ok sample w1 Hw1 Hp) as (r & w2 & E2 & Hi & Hl2 & Hv2).
  assert (E3 : (mret tt;; write_pen os sample false) w1 = (r, w2))
    by (erewrite bind_run by reflexivity; exact E2).
  destruct r as [[]|e]; cbn [is_ok] in Hv2.
  - rewrite (bind_run _ _ _ _ _ E3). unfold get_inj, set_inj. erewrite bind_run by reflexivity.
    cbn [snd]. unfold pen_ok. cbn. rewrite Hi. split_and!; try done. apply Hp.
  - rewrite (bind_err _ _ _ _ _ E3). cbn [snd]. unfold pen_ok. rewrite Hi.
    split_and!; try done. by destruct Hw1 as (_ & _ & ? & _).
Qed.

Lemma touch_pen_ok snapshot w : pen_ok w -> pen_ok (inject_touch os snapshot w).2.
Proof.
  intros Hw. unfold inject_touch. erewrite bind_run by reflexivity.
  destruct (_ && _); [done |]. erewrite bind_run by reflexivity. cbv zeta.
  destruct (bool_decide _); [done |]. set (c := CallTouch _).
  pose proof (pen_call c ltac:(done) w Hw) as Hw1.
  assert (Hi : inj (call os c w).2 = inj w) by done.
  destruct (call os c w) as [[[]|e] w1] eqn:E; cbn [snd] in *.
  - rewrite (bind_run _ _ _ _ _ E). destruct Hw1 as (? & ? & ? & ? & ? & ? & ?).
    rewrite Hi in *. unfold pen_ok. cbn. by split_and!.
  - by rewrite (bind_err _ _ _ _ _ E).
Qed.

Lemma profile_pen_ok p w : pen_ok w -> no_toggle p -> pen_ok (set_pen_profile os p w).2.
Proof.
  intros Hw Hp. revert w Hw. unfold set_pen_profile. apply (preserves_get pen_ok inj). intros w Hw.
  refine ((fun H : preserves pen_ok _ => H w Hw) _). apply preserves_bind.
  - apply preserves_for_each. intros slot. destruct (negb _); [apply preserves_ret |].
    destruct (slot_binding _ _); unfold send_key, send_mouse_button; auto 6 with penflow.
  - apply (preserves_get pen_ok inj). intros w1 (? & ? & ? & ? & ? & ? & ?).
    unfold pen_ok. cbn. by split_and!.
Qed.
End Pen.

Definition plain_op (o : InjOp) : Prop :=
  match o with OpPen s => plain_sample s | OpTouch _ => True | OpProfile p => no_toggle p end.

(** C19. The synthetic pen speaks the pointer protocol: in any session without
    the eraser (no VMulti driver, no eraser-toggle binding, no sample from the
    eraser end), whatever calls the system refuses and whatever touch and
    profile changes happen in between, every pen frame's transition bits are
    exactly the change from the state the system was last told: no NEW or
    DOWN is missing or repeated, and no frame is sent for a pen that was
    already gone. *)
Theorem pen_stream_legal os profile ops :
  no_toggle profile -> Forall plain_op ops ->
  let w := run_ops os (start profile None) ops in
  legal_pen (false, false) (log w)
  /\ pen_view (log w) = (last_pen_in_range (inj w), last_pen_in_contact (inj w)).
Proof.
  intros Hp Hops. assert (H : pen_ok (run_ops os (start profile None) ops)).
  { assert (H0 : pen_ok (start profile None)) by by split_and!.
    unfold run_ops. revert H0. generalize (start profile None).
    induction Hops as [|o ops Ho _ IH]; intros w Hw; [done |]. cbn [foldl]. apply IH.
    destruct o; cbn [run_op plain_op] in *;
      [by apply inject_pen_ok | by apply touch_pen_ok | by apply profile_pen_ok]. }
  destruct H as (? & ? & _). done.
Qed.

(** * Concrete sessions *)

(** A system that accepts everything, one screen at the origin. *)
Definition friendly_os : Os :=
  {| os_ok := fun _ _ => true; os_error := fun _ => 0; os_screen := fun _ => (0, 0, 1920, 1080);
     hash_iter := map_to_list; hash_iter_perm := fun m => Permutation_refl _ |}.

Definition hover (x y : Z) (range contact eraser : bool) (buttons : Z) : PenSample :=
  {| ps_x := x; ps_y := y; ps_x_logical := 0; ps_y_logical := 0; ps_pressure := S754_zero false;
     ps_tilt_x_deg := 0; ps_tilt_y_deg := 0; ps_in_range := range; ps_in_contact := contact;
     ps_eraser := eraser; ps_buttons := buttons |}.

Definition demo_profile : PenButtonProfile := default_profile 0x11 0x10 0x45.

Definition stroke : list InjOp :=
  [ OpPen (hover 1 1 true false false 0); OpPen (hover 2 2 true true false 1);
    OpPen (hover 3 3 true true false 1); OpPen (hover 3 3 true false false 0);
    OpPen (hover 3 3 false false false 0) ].

Lemma pen_stream_legal_witness :
  legal_pen (false, false) (log (run_ops friendly_os (start demo_profile None) stroke))
  /\ pen_view (log (run_ops friendly_os (start demo_profile None) stroke)) = (false, false).
Proof.
  apply (pen_stream_legal friendly_os demo_profile stroke); [by split_and! |].
  unfold stroke. repeat (apply Forall_cons_2; [by split |]). apply Forall_nil_2.
Defined.

Lemma no_stuck_keys_witness :
  pressed (HKey 0x11) (log (run_ops friendly_os (start demo_profile None) stroke)) = 0.
Proof.
  destruct (no_stuck_keys friendly_os demo_profile None stroke demo_profile (HKey 0x11))
    as (_ & H & _); [done |]. apply H. vm_compute. reflexivity.
Defined.

(** The flush frame of an eraser change tells the system that the pen left,
    and the frame after it has neither NEW nor DOWN: the previous state the
    transition bits are computed from is not updated by the flush. *)
Lemma eraser_flip_breaks_protocol :
  let w := run_ops friendly_os (start demo_profile None)
    [OpPen (hover 1 1 true true false 0); OpPen (hover 2 2 true true true 0)] in
  exists f1 f2 f3 e1 e2 e3,
    log w = [(CallPen f1, e1); (CallPen f2, e2); (CallPen f3, e3)]
    /\ f_inrange (pi_flags f2) = false
    /\ f_inrange (pi_flags f3) = true /\ f_new (pi_flags f3) = false /\ f_down (pi_flags f3) = false.
Proof. vm_compute. do 6 eexists. split; [reflexivity | auto]. Qed.

(** Replacing the profile leaves a toggled eraser on: afterwards no button
    can turn it off, and plain samples are still sent inverted. *)
Lemma sticky_eraser_survives_profile :
  let toggling := {| barrel_1 := EraserToggle; barrel_2 := BNone; tertiary := BNone;
                     tip_threshold := S754_zero false |} in
  let w := run_ops friendly_os (start toggling None)
    [ OpPen (hover 1 1 true false false 1); OpPen (hover 1 1 true false false 0);
      OpProfile demo_profile ] in
  pen_eraser_sticky (inj w) = true
  /\ exists f e,
       List.last (log (run_op friendly_os w (OpPen (hover 5 5 true true false 0)))) (CallKey 0 true, true)
       = (CallPen f, e) /\ pi_inverted f = true.
Proof. vm_compute. split; [done |]. do 2 eexists. by split. Qed.

(** * The touch protocol *)

(** The contacts the system holds: those the last accepted frame put in
    contact. *)
Definition live_after (infos : list TouchInfo) : gset Z :=
  list_to_set (map ti_id (List.filter (fun i => f_incontact (ti_flags i)) infos)).

(** A frame is legal for the live contacts when each id occurs once, DOWN is
    for new ids, UPDATE and UP for live ones, and no live contact is
    forgotten. *)
Definition legal_touch_frame (live : gset Z) (infos : list TouchInfo) : Prop :=
  NoDup (map ti_id infos)
  /\ Forall (fun i =>
       (f_down (ti_flags i) = true -> (ti_id i ∉ live) /\ f_new (ti_flags i) = true)
       /\ (f_update (ti_flags i) = true -> ti_id i ∈ live)
       /\ (f_up (ti_flags i) = true -> (ti_id i ∈ live) /\ f_incontact (ti_flags i) = false)) infos
  /\ (forall id, id ∈ live -> id ∈ map ti_id infos).

Definition touch_view_step (v : gset Z) (e : OsCall * bool) : gset Z :=
  match e with (CallTouch infos, true) => live_after infos | _ => v end.

Definition touch_view (l : Log) : gset Z := foldl touch_view_step ∅ l.

Fixpoint legal_touch (v : gset Z) (l : Log) : Prop :=
  match l with
  | [] => True
  | e :: l' =>
      match e.1 with CallTouch infos => legal_touch_frame v infos | _ => True end
      /\ legal_touch (touch_view_step v e) l'
  end.

Lemma legal_touch_snoc l : forall v e, legal_touch v (l ++ [e])
  <-> legal_touch v l
      /\ match e.1 with CallTouch infos => legal_touch_frame (foldl touch_view_step v l) infos | _ => True end.
Proof. induction l as [|x l IH]; intros v e; cbn; [tauto |]. rewrite IH. tauto. Qed.

Lemma touch_view_snoc l e : touch_view (l ++ [e]) = touch_view_step (touch_view l) e.
Proof. unfold touch_view. by rewrite foldl_app. Qed.

Definition touch_ok (w : World) : Prop :=
  legal_touch ∅ (log w) /\ touch_view (log w) = dom (last_touch_pos (inj w)).

Lemma dom_touch_map snapshot : dom (touch_map snapshot) = list_to_set (map tp_id snapshot) :> gset Z.
Proof.
  unfold touch_map. assert (H : forall l (m : gmap Z (Z * Z)),
    dom (foldl (fun m tp => <[tp_id tp := (tp_x tp, tp_y tp)]> m) m l)
    = list_to_set (map tp_id l) ∪ dom m :> gset Z).
  { induction l as [|tp l IH]; intros m; cbn [foldl map list_to_set]; [set_solver |].
    rewrite IH, dom_insert_L. set_solver. }
  rewrite H, dom_empty_L. set_solver.
Qed.

Lemma contact_ids origin last i snapshot :
  map ti_id (contact_infos origin last i snapshot) = map tp_id snapshot.
Proof. revert i. induction snapshot as [|tp l IH]; intros i; cbn; [done | by rewrite IH]. Qed.

Lemma contact_frames origin last i snapshot : Forall (fun f =>
    f_incontact (ti_flags f) = true /\ f_up (ti_flags f) = false
    /\ f_new (ti_flags f) = f_down (ti_flags f)
    /\ f_down (ti_flags f) = negb (bool_decide (ti_id f ∈ dom last))
    /\ f_update (ti_flags f) = bool_decide (ti_id f ∈ dom last))
  (contact_infos origin last i snapshot).
Proof.
  revert i. induction snapshot as [|tp l IH]; intros i; cbn [contact_infos]; constructor; [| apply IH].
  cbn [make_touch_info ti_flags ti_id]. unfold contact_flags.
  assert (E : bool_decide (is_Some (last !! tp_id tp)) = bool_decide (tp_id tp ∈ dom last))
    by (apply bool_decide_ext; symmetry; apply elem_of_dom).
  rewrite E. destruct (bool_decide (tp_id tp ∈ dom last)), (Nat.eqb i 0); cbn; split_and!; reflexivity.
Qed.

Lemma lost_ids os origin last snapshot id : id ∈ map ti_id (lost_infos os origin last snapshot)
  <-> (id ∈ dom last) /\ (id ∉ map tp_id snapshot).
Proof.
  unfold lost_infos. rewrite map_map. cbn [make_touch_info ti_id].
  rewrite elem_of_dom, list_elem_of_fmap. split.
  - intros ((k & pos) & -> & Hin). apply list_elem_of_In, List.filter_In in Hin as (Hin & Hf).
    apply list_elem_of_In in Hin. rewrite (hash_iter_perm os) in Hin.
    apply elem_of_map_to_list in Hin. cbn [fst] in *. split; [by eexists |].
    apply negb_true_iff, bool_decide_eq_false in Hf. done.
  - intros ((pos & Hpos) & Hn). exists (id, pos). split; [done |].
    apply list_elem_of_In, List.filter_In. split.
    + apply list_elem_of_In. rewrite (hash_iter_perm os). by apply elem_of_map_to_list.
    + by apply negb_true_iff, bool_decide_eq_false.
Qed.

Lemma lost_frames os origin last snapshot :
  Forall (fun f => ti_flags f = FLAG_UP) (lost_infos os origin last snapshot).
Proof. unfold lost_infos. apply Forall_forall. intros f Hf%list_elem_of_In. apply list_elem_of_fmap in Hf as (p & -> & _). done. Qed.

Lemma NoDup_map_filter {A B} (f : A -> B) p (l : list A) : NoDup (map f l) -> NoDup (map f (List.filter p l)).
Proof.
  induction l as [|x l IH]; [done |]. cbn [map List.filter].
  intros (Hx & Hl)%list.NoDup_cons. destruct (p x); [| by apply IH]. cbn [map].
  apply list.NoDup_cons. split; [| by apply IH]. contradict Hx.
  apply list_elem_of_fmap in Hx as (y & -> & Hy). apply list_elem_of_fmap. exists y. split; [done |].
  apply list_elem_of_In, List.filter_In in Hy as (Hy & _). by apply list_elem_of_In.
Qed.

Lemma NoDup_lost os origin last snapshot : NoDup (map ti_id (lost_infos os origin last snapshot)).
Proof.
  unfold lost_infos. rewrite map_map. cbn [make_touch_info ti_id].
  apply (NoDup_map_filter (fun p : Z * (Z * Z) => p.1)).
  change (map (fun p : Z * (Z * Z) => p.1)) with (fmap (M := list) (fst (A := Z) (B := Z * Z))).
  rewrite (hash_iter_perm os). apply NoDup_fst_map_to_list.
Qed.

Definition frame_of (os : Os) (origin : Z * Z) (last : gmap Z (Z * Z)) (snapshot : list TouchPoint) :=
  contact_infos origin last 0 snapshot ++ lost_infos os origin last snapshot.

Lemma frame_legal os origin last snapshot : NoDup (map tp_id snapshot) ->
  legal_touch_frame (dom last) (frame_of os origin last snapshot).
Proof.
  intros Hnd. unfold legal_touch_frame, frame_of. rewrite map_app, contact_ids. split_and!.
  - apply list.NoDup_app. split; [done |]. split; [| apply NoDup_lost].
    intros id Hid (_ & Hn)%lost_ids. done.
  - apply Forall_app. split.
    + eapply Forall_impl; [| apply contact_frames]. intros f (_ & Hu & Hn & Hd & Hup).
      rewrite Hn, Hd, Hu, Hup. split_and!; [| | done].
      * intros H. split; [| exact H]. by apply negb_true_iff, bool_decide_eq_false in H.
      * apply bool_decide_eq_true.
    + apply Forall_forall. intros f Hf.
      pose proof (proj1 (Forall_forall _ _) (lost_frames os origin last snapshot) f Hf) as Hfl.
      cbv beta in Hfl. rewrite Hfl. split_and!; [done | done |]. intros _. split; [| done].
      apply (lost_ids os origin last snapshot). apply list_elem_of_fmap. exists f. split; [done | by apply list_elem_of_In].
  - intros id Hid. apply elem_of_app. destruct (decide (id ∈ map tp_id snapshot)); [by left |].
    right. by apply lost_ids.
Qed.

Lemma frame_live os origin last snapshot :
  live_after (frame_of os origin last snapshot) = dom (touch_map snapshot).
Proof.
  rewrite dom_touch_map. unfold live_after, frame_of. f_equal. rewrite List.filter_app.
  assert (E1 : List.filter (fun i => f_incontact (ti_flags i)) (contact_infos origin last 0 snapshot)
               = contact_infos origin last 0 snapshot).
  { generalize (contact_frames origin last 0 snapshot).
    induction (contact_infos origin last 0 snapshot) as [|f l IH]; [done |].
    intros ((Hc & _) & Hl)%Forall_cons_1. cbn. rewrite Hc, IH by done. done. }
  assert (E2 : List.filter (fun i => f_incontact (ti_flags i)) (lost_infos os origin last snapshot) = []).
  { generalize (lost_frames os origin last snapshot).
    induction (lost_infos os origin last snapshot) as [|f l IH]; [done |].
    intros (Hf & Hl)%Forall_cons_1. cbn. rewrite Hf. by apply IH. }
  by rewrite E1, E2, app_nil_r, contact_ids.
Qed.

(** ** Invariants about touch

    A property of the world that no call but the touch injection changes and
    that depends on the injector only through [last_touch_pos] survives pen
    samples and profile changes. *)
Section TouchInvariant.
Context (os : Os) (I : World -> Prop).
Hypothesis I_call : forall c, (forall infos, c <> CallTouch infos) -> preserves I (call os c).
Hypothesis I_set : forall w s, I w -> last_touch_pos s = last_touch_pos (inj w) ->
  I {| inj := s; log := log w |}.

Hint Resolve I_call : penflow.

Lemma touch_press b : preserves I (press_binding os b).
Proof.
  destruct b as [| vk | keys | keys | k |]; cbn [press_binding];
    unfold send_key, send_mouse_button; auto 6 with penflow.
  apply (preserves_get I inj). intros w Hw. by apply I_set.
Qed.

Lemma touch_release b : preserves I (release_binding os b).
Proof.
  destruct b as [| vk | keys | keys | k |]; cbn [release_binding];
    unfold send_key, send_mouse_button; auto 6 with penflow.
Qed.

Lemma touch_dispatch sample : preserves I (dispatch_pen_buttons os sample).
Proof.
  unfold dispatch_pen_buttons. apply (preserves_get I inj). intros w Hw.
  refine ((fun H : preserves I _ => H w Hw) _). apply preserves_bind.
  { apply preserves_if. unfold send_mouse_move_to, virtual_screen_rect.
    apply preserves_get. intros w1 Hw1.
    destruct (os_screen os (log w1)) as [[[vx vy] vw] vh]. by apply I_call. }
  apply preserves_bind.
  - apply preserves_for_each. intros slot.
    apply preserves_bind; apply preserves_if; [apply touch_press | apply touch_release].
  - apply (preserves_get I inj). intros w1 Hw1. by apply I_set.
Qed.

Lemma touch_write_pen sample eraser : preserves I (write_pen os sample eraser).
Proof.
  unfold write_pen. apply (preserves_get I inj). intros w Hw.
  destruct (_ && _); [done |]. refine ((fun H : preserves I _ => H w Hw) _).
  unfold virtual_screen_origin. apply preserves_get. intros w1 Hw1. by apply I_call.
Qed.

Lemma touch_vmulti v sample eraser : preserves I (write_pen_vmulti os v sample eraser).
Proof.
  unfold write_pen_vmulti, vmulti_write_pen. set (b := vmulti_report _ _). cbv zeta.
  apply (preserves_get I inj). intros w Hw.
  refine (I_call (CallHidWrite b) _ {| inj := _; log := log w |} (I_set w _ Hw _)); done.
Qed.

Lemma touch_inject_pen sample : preserves I (inject_pen os sample).
Proof.
  unfold inject_pen. apply preserves_bind; [apply touch_dispatch |].
  apply (preserves_get I inj). intros w Hw. cbv zeta.
  refine ((fun H : preserves I _ => H w Hw) _). apply preserves_bind.
  - destruct (vmulti (inj w)); [apply touch_vmulti |].
    apply preserves_bind; [apply preserves_if |]; apply touch_write_pen.
  - apply (preserves_get I inj). intros w1 Hw1. by apply I_set.
Qed.

Lemma touch_profile p : preserves I (set_pen_profile os p).
Proof.
  unfold set_pen_profile. apply (preserves_get I inj). intros w Hw.
  refine ((fun H : preserves I _ => H w Hw) _). apply preserves_bind.
  - apply preserves_for_each. intros slot. destruct (negb _); [apply preserves_ret |].
    destruct (slot_binding _ _); unfold send_key, send_mouse_button; auto 6 with penflow.
  - apply (preserves_get I inj). intros w1 Hw1. by apply I_set.
Qed.
End TouchInvariant.

Section Touch.
Context (os : Os).

Lemma touch_call c : (forall infos, c <> CallTouch infos) -> preserves touch_ok (call os c).
Proof.
  intros Hc w (Hl & Hv). unfold touch_ok, call. cbn [log inj snd].
  rewrite legal_touch_snoc, touch_view_snoc. cbn [fst]. destruct c; try done; by destruct (Hc infos).
Qed.

Lemma touch_set w s : touch_ok w -> last_touch_pos s = last_touch_pos (inj w) ->
  touch_ok {| inj := s; log := log w |}.
Proof. intros (Hl & Hv) E. split; [done |]. cbn [inj log]. by rewrite E. Qed.

(** ** Without contacts there is no touch frame *)

Definition touch_free (w : World) : Prop :=
  last_touch_pos (inj w) = ∅ /\ Forall (fun e => forall infos, e.1 <> CallTouch infos) (log w).

Lemma touch_free_call c : (forall infos, c <> CallTouch infos) -> preserves touch_free (call os c).
Proof.
  intros Hc w (Hm & Hl). split; [done |]. unfold call. cbn [log snd].
  apply Forall_app_2; [done | by constructor].
Qed.

Lemma touch_free_set w s : touch_free w -> last_touch_pos s = last_touch_pos (inj w) ->
  touch_free {| inj := s; log := log w |}.
Proof. intros (Hm & Hl) E. split; [| done]. cbn [inj]. by rewrite E. Qed.

Lemma touch_free_lift : preserves touch_free (inject_touch os []).
Proof.
  intros w (Hm & Hl). unfold inject_touch. erewrite bind_run by reflexivity. by rewrite Hm.
Qed.

Lemma inject_touch_ok snapshot : NoDup (map tp_id snapshot) ->
  preserves touch_ok (inject_touch os snapshot).
Proof.
  intros Hnd w (Hl & Hv). unfold inject_touch. erewrite bind_run by reflexivity.
  destruct (_ && _); [done |]. erewrite bind_run by reflexivity. cbv zeta.
  set (origin := (_, _)).
  change (contact_infos _ _ _ _ ++ lost_infos _ _ _ _)
    with (frame_of os origin (last_touch_pos (inj w)) snapshot).
  destruct (bool_decide _); [done |].
  pose proof (frame_legal os origin (last_touch_pos (inj w)) snapshot Hnd) as Hf.
  pose proof (frame_live os origin (last_touch_pos (inj w)) snapshot) as Hlive.
  set (infos := frame_of _ _ _ _) in *.
  destruct (os_ok os (log w) (CallTouch infos)) eqn:Hok.
  - assert (Hc : call os (CallTouch infos) w = (Ok tt, {| inj := inj w; log := log w ++ [(CallTouch infos, true)] |}))
      by (unfold call; by rewrite Hok).
    rewrite (bind_run _ _ _ _ _ Hc). unfold touch_ok, set_inj. cbn [snd inj log last_touch_pos].
    rewrite legal_touch_snoc, touch_view_snoc. cbn [fst touch_view_step].
    fold (touch_view (log w)). rewrite Hv. by split_and!.
  - assert (Hc : call os (CallTouch infos) w = (Err (Win32 (os_error os (log w))),
        {| inj := inj w; log := log w ++ [(CallTouch infos, false)] |}))
      by (unfold call; by rewrite Hok).
    rewrite (bind_err _ _ _ _ _ Hc). unfold touch_ok. cbn [snd inj log].
    rewrite legal_touch_snoc, touch_view_snoc. cbn [fst touch_view_step].
    fold (touch_view (log w)). rewrite Hv. by split_and!.
Qed.
End Touch.

Definition touch_op (o : InjOp) : Prop :=
  match o with OpTouch snapshot => NoDup (map tp_id snapshot) | _ => True end.

(** C20. The synthetic touch device speaks the pointer protocol: in any
    session whose snapshots name each contact once, whatever pen samples and
    profile changes happen in between, with or without the VMulti driver, and
    whatever calls the system refuses, every touch frame names each contact
    once, starts (DOWN, NEW) only contacts that are not live, updates and lifts
    only live ones, and mentions every live contact; and the injector's map
    holds exactly the contacts the system holds. *)
Theorem touch_stream_legal os profile v ops :
  Forall touch_op ops ->
  let w := run_ops os (start profile v) ops in
  legal_touch ∅ (log w) /\ touch_view (log w) = dom (last_touch_pos (inj w)).
Proof.
  intros Hops. change (touch_ok (run_ops os (start profile v) ops)).
  assert (H0 : touch_ok (start profile v)) by (split; [done | symmetry; apply dom_empty_L]).
  unfold run_ops. revert H0. generalize (start profile v).
  induction Hops as [|o ops Ho _ IH]; intros w Hw; [done |]. cbn [foldl]. apply IH.
  destruct o; cbn [run_op touch_op] in *;
    [apply touch_inject_pen | by apply inject_touch_ok | apply touch_profile];
    auto using touch_call, touch_set.
Qed.

Definition finger (id x y : Z) (state : TouchState) : TouchPoint :=
  {| tp_id := id; tp_x := x; tp_y := y; tp_state := state |}.

Definition pinch : list InjOp :=
  [ OpTouch [finger 3 10 10 TDown]; OpTouch [finger 3 12 10 TUpdate; finger 5 50 60 TDown];
    OpTouch [finger 5 51 60 TUpdate] ].

Lemma touch_stream_legal_witness :
  let w := run_ops friendly_os (start demo_profile None) pinch in
  legal_touch ∅ (log w) /\ touch_view (log w) = {[ 5 ]}.
Proof.
  destruct (touch_stream_legal friendly_os demo_profile None pinch) as (H & E).
  { repeat (apply Forall_cons_2; [apply (bool_decide_unpack _); vm_compute; exact I |]).
    apply Forall_nil_2. }
  split; [exact H |]. etransitivity; [exact E |].
  apply (bool_decide_unpack _). vm_compute. exact I.
Defined.

(** * The VMulti report *)

Lemma length_copy_at at_ bytes b : (at_ + length bytes <= length b)%nat ->
  length (copy_at at_ bytes b) = length b.
Proof. intros H. unfold copy_at. rewrite !length_app, length_take, length_drop. lia. Qed.

(** The twelve bytes of a report. *)
Definition vmulti_payload (s : VMultiPenSample) : list Z :=
  [VMULTI_HEADER_ID; 11; REPORT_ID_EXTENDED; vmulti_buttons s]
  ++ le_bytes 2 (Z.min (vs_x s) VMULTI_LOGICAL_MAX) ++ le_bytes 2 (Z.min (vs_y s) VMULTI_LOGICAL_MAX)
  ++ le_bytes 2 (Z.min (vs_pressure s) VMULTI_PRESSURE_MAX_EXTENDED)
  ++ [uwrap 8 (vs_tilt_x_deg s); uwrap 8 (vs_tilt_y_deg s)].

Lemma vmulti_report_payload s b : length b = REPORT_BUF_LEN ->
  vmulti_report s b = vmulti_payload s ++ drop DIGI_PAYLOAD_LEN b.
Proof.
  intros H. do 12 (destruct b as [|? b]; [done |]). reflexivity.
Qed.

Lemma le_val_bytes2 x : u16 x -> le_val (le_bytes 2 x) = x.
Proof. intros Hx. unfold le_val, le_bytes. rewrite reverse_involutive. by apply be_val_u. Qed.

Lemma le_bytes2_cons x : exists a b, le_bytes 2 x = [a; b].
Proof. by eexists _, _. Qed.

(** The report [r] carries [s] and leaves the rest of the buffer [b] alone. *)
Definition report_layout (s : VMultiPenSample) (b r : list Z) : Prop :=
  length r = REPORT_BUF_LEN /\ take 3 r = [0x40; 11; 0x06]
  /\ le_val (take 2 (drop 4 r)) = Z.min (vs_x s) 32767
  /\ le_val (take 2 (drop 6 r)) = Z.min (vs_y s) 32767
  /\ le_val (take 2 (drop 8 r)) = Z.min (vs_pressure s) 16383
  /\ option_map (swrap 8) (r !! 10%nat) = Some (vs_tilt_x_deg s)
  /\ option_map (swrap 8) (r !! 11%nat) = Some (vs_tilt_y_deg s)
  /\ (exists bits, r !! 3%nat = Some bits
      /\ map (Z.testbit bits) [0; 1; 2; 3; 4; 5; 6; 7]
         = [vs_tip_down s; vs_barrel s; vs_eraser s; vs_inverted s; vs_in_range s; false; false; false])
  /\ drop 12 r = drop 12 b.

(** Every report written to the VMulti device has the HID report's fixed
    length, the vendor header, the extended digitizer id, the coordinates
    and the pressure clamped to their logical ranges and readable back as
    little-endian words, the tilts as two's complement bytes, and a button
    byte whose bits are exactly tip, barrel, eraser, invert and in-range; the
    rest of the scratch buffer is left as it was. *)
Theorem vmulti_report_layout s b :
  length b = REPORT_BUF_LEN -> u16 (vs_x s) -> u16 (vs_y s) -> u16 (vs_pressure s) ->
  signed 8 (vs_tilt_x_deg s) -> signed 8 (vs_tilt_y_deg s) ->
  report_layout s b (vmulti_report s b).
Proof.
  intros Hb Hx Hy Hp Htx Hty. unfold report_layout. rewrite (vmulti_report_payload s b Hb).
  assert (Hmin : forall v m, u16 v -> u16 m -> le_val (le_bytes 2 (Z.min v m)) = Z.min v m)
    by (intros; apply le_val_bytes2; urange).
  pose proof (Hmin _ VMULTI_LOGICAL_MAX Hx ltac:(unfold VMULTI_LOGICAL_MAX; urange)) as Ex.
  pose proof (Hmin _ VMULTI_LOGICAL_MAX Hy ltac:(unfold VMULTI_LOGICAL_MAX; urange)) as Ey.
  pose proof (Hmin _ VMULTI_PRESSURE_MAX_EXTENDED Hp
    ltac:(unfold VMULTI_PRESSURE_MAX_EXTENDED; urange)) as Ep.
  unfold vmulti_payload.
  destruct (le_bytes2_cons (Z.min (vs_x s) VMULTI_LOGICAL_MAX)) as (x1 & x2 & Hx12).
  destruct (le_bytes2_cons (Z.min (vs_y s) VMULTI_LOGICAL_MAX)) as (y1 & y2 & Hy12).
  destruct (le_bytes2_cons (Z.min (vs_pressure s) VMULTI_PRESSURE_MAX_EXTENDED)) as (p1 & p2 & Hp12).
  rewrite Hx12 in *. rewrite Hy12 in *. rewrite Hp12 in *.
  split_and!; try first [exact Ex | exact Ey | exact Ep | reflexivity].
  - do 12 (destruct b as [|? b]; [done |]). exact Hb.
  - cbn. by rewrite swrap_uwrap, swrap_small by (done || lia).
  - cbn. by rewrite swrap_uwrap, swrap_small by (done || lia).
  - exists (vmulti_buttons s). split; [done |]. unfold vmulti_buttons.
    by destruct (vs_tip_down s), (vs_barrel s), (vs_eraser s), (vs_inverted s), (vs_in_range s).
Qed.

Lemma vmulti_report_layout_witness :
  let s := {| vs_x := 40000; vs_y := 258; vs_pressure := 16383; vs_tilt_x_deg := -5;
              vs_tilt_y_deg := 90; vs_tip_down := true; vs_barrel := false; vs_eraser := false;
              vs_inverted := false; vs_in_range := true |} in
  let r := vmulti_report s (replicate REPORT_BUF_LEN 7) in
  le_val (take 2 (drop 4 r)) = 32767 /\ option_map (swrap 8) (r !! 10%nat) = Some (-5).
Proof.
  intros s r.
  destruct (vmulti_report_layout s (replicate REPORT_BUF_LEN 7)) as (_ & _ & H & _ & _ & H' & _);
    [done | subst s; cbn; urange .. |]. by split.
Defined.
