(* ===== verification/Vdd.v ===== *)
(** The lifecycle of the virtual display driver
    ([crates/penflow-server/src/vdd.rs]): detection, enabling and disabling
    through elevated helpers, and the wait for its monitor.

    Configuration Manager, devcon, UAC and the other processes are not
    modelled: they are an environment whose answers may depend on everything
    that happened before, recorded as a trace.  Strings are ASCII, so
    lower-casing is byte-wise. *)
From stdpp Require Import strings pretty.
From S2P Require Import Prelude Engine Text.

(** Messages are left out; durations are in milliseconds. *)
Inductive VddError :=
| VddWin32 (hresult : Z)
| DisplayConfig (code : Z)
| DevNodeNotFound (instance_id : string)
| AccessDenied
| ConfigManager (configret : Z)
| DriverProblem (status problem : Z)
| HelperExitedNonZero (code : option Z)
| EnableHadNoEffect
| DisableHadNoEffect (status problem : Z)
| ShellExecute
| EnumerationTimeout (timeout_ms : Z) (monitors_seen : list string)
| Dxgi.

#[export] Instance VddError_eq_dec : EqDecision VddError.
Proof. solve_decision. Defined.

(** * Names *)

Definition matches_vdd_heuristic (name : string) : bool :=
  let n := to_lowercase name in
  existsb (fun needle => contains needle n)
    ["virtual display driver"%string; "mttvdd"%string; "iddsample"%string; "amyuni usb mobile"%string].

(** * Detection *)

Record DiscoveredDevice := { instance_id : string; friendly_name : string; is_disabled : bool }.

(** [(status_ok, canonical_no)], compared lexicographically. *)
Definition detect_key (c : DiscoveredDevice) : nat * nat :=
  (if is_disabled c then 0%nat else 1%nat,
   if contains "virtual display driver" (to_lowercase (friendly_name c)) then 0%nat else 1%nat).

Definition key_lt (a b : nat * nat) : bool :=
  Nat.ltb a.1 b.1 || (Nat.eqb a.1 b.1 && Nat.ltb a.2 b.2).

(** [min_by_key]: the first of the least elements. *)
Fixpoint min_by_key (l : list DiscoveredDevice) : option DiscoveredDevice :=
  match l with
  | [] => None
  | c :: l' =>
      match min_by_key l' with
      | Some d => if key_lt (detect_key d) (detect_key c) then Some d else Some c
      | None => Some c
      end
  end.

Definition detect (candidates : list DiscoveredDevice) : option DiscoveredDevice :=
  min_by_key (List.filter (fun c => matches_vdd_heuristic (friendly_name c)) candidates).

(** * The environment *)

Inductive Action := Enable | Disable.

#[export] Instance Action_eq_dec : EqDecision Action.
Proof. solve_decision. Defined.

(** What can be observed of the world: UAC prompts, devcon runs with whether
    they were accepted, device status queries, and the exit codes of elevated
    helpers that could not be read. *)
Inductive Event :=
| EvPrompt
| EvCodeUnread
| EvDevcon (a : Action) (ok : bool)
| EvStatus (r : result VddError (Z * Z)).

Definition Trace : Type := list Event.

(** The output of a devcon process, when it could be started. *)
Record DevconOutput := { do_code : option Z; do_transcript : string }.

Record VddEnv := {
  is_process_elevated : bool;
  DN_HAS_PROBLEM : Z;
  CM_PROB_DISABLED : Z;
  env_devcon : Trace -> Action -> option DevconOutput;
  env_status : Trace -> result VddError (Z * Z);
  (** Polls before the three-second deadline of a verification. *)
  env_polls : Trace -> nat;
  (** Whether the elevated process starts (the prompt is accepted), whether a
      wait for it ends in time, and whether its exit code can be read. *)
  env_started : Trace -> bool;
  env_in_time : Trace -> bool;
  env_exit_code : Trace -> bool;
}.

(** Computations extend the trace; effects survive errors. *)
Definition V (A : Type) : Type := Trace -> result VddError A * Trace.

#[export] Instance V_ret : MRet V := fun A a tr => (Ok a, tr).

#[export] Instance V_bind : MBind V :=
  fun A B f m tr => match m tr with (Ok a, tr') => f a tr' | (Err e, tr') => (Err e, tr') end.

Definition v_fail {A} (e : VddError) : V A := fun tr => (Err e, tr).

(** [match m { Ok(..) => .., Err(..) => .. }] on a call whose error is handled. *)
Definition v_try {A} (m : V A) : V (result VddError A) := fun tr => let '(r, tr') := m tr in (Ok r, tr').

Definition v_lift {A} (r : result VddError A) : V A := fun tr => (r, tr).

Definition v_ask {A} (f : Trace -> A) : V A := fun tr => (Ok (f tr), tr).

Definition v_event (e : Event) : V unit := fun tr => (Ok tt, tr ++ [e]).

Section Lifecycle.
Context (env : VddEnv).

Definition devcon_accepts (o : option DevconOutput) : bool :=
  match o with
  | Some o =>
      let no_match := contains "no matching devices found" (to_lowercase (do_transcript o)) in
      bool_decide (do_code o = Some 0) || (bool_decide (do_code o = Some 1) && negb no_match)
  | None => false
  end.

Definition devcon_action (a : Action) : V unit :=
  ok ← v_ask (fun tr => devcon_accepts (env_devcon env tr a));
  v_event (EvDevcon a ok);;
  if ok : bool then mret tt else v_fail ShellExecute.

(** [CM_Locate_DevNodeW] and [CM_Get_DevNode_Status]. *)
Definition snapshot_devnode_status : V (Z * Z) :=
  r ← v_ask (env_status env);
  v_event (EvStatus r);;
  v_lift r.

Definition has_problem (status : Z) : bool := negb (Z.land status (DN_HAS_PROBLEM env) =? 0).

Definition reads_disabled (s : Z * Z) : bool :=
  has_problem s.1 && (s.2 =? CM_PROB_DISABLED env).

Definition devnode_is_disabled : V bool :=
  s ← snapshot_devnode_status; mret (reads_disabled s).

Fixpoint verify_devnode_disabled_loop (polls : nat) : V unit :=
  disabled ← devnode_is_disabled;
  if disabled : bool then mret tt
  else match polls with
       | O => s ← snapshot_devnode_status; v_fail (DisableHadNoEffect s.1 s.2)
       | S polls' => verify_devnode_disabled_loop polls'
       end.

Definition verify_devnode_disabled : V unit :=
  polls ← v_ask (env_polls env); verify_devnode_disabled_loop polls.

Definition verify_devnode_started : V unit :=
  s ← snapshot_devnode_status;
  if has_problem s.1 then
    if s.2 =? CM_PROB_DISABLED env then v_fail EnableHadNoEffect
    else v_fail (DriverProblem s.1 s.2)
  else mret tt.

(** ** The elevated helper *)

(** [helper_main] for one action: devcon, verification, and the status
    queries around them that only feed its log; the exit code. *)
Definition helper_main (a : Action) : V Z :=
  _ ← v_try snapshot_devnode_status;
  r ← v_try (devcon_action a;;
             match a with Enable => verify_devnode_started | Disable => verify_devnode_disabled end);
  _ ← v_try snapshot_devnode_status;
  mret (if is_ok r then 0 else 1).

Definition run_helper_elevated (a : Action) : V unit :=
  started ← v_ask (env_started env);
  v_event EvPrompt;;
  if negb started then v_fail ShellExecute
  else
    code ← helper_main a;
    readable ← v_ask (env_exit_code env);
    (if readable : bool then mret tt else v_event EvCodeUnread);;
    let code := if readable : bool then code else 0 in
    if code =? 0 then mret tt else v_fail (HelperExitedNonZero (Some code)).

(** The resident helper after its enable: waiting for the stop event, or
    gone with an exit code. *)
Inductive Helper := HWaiting | HExited (code : Z).

(** [resident_helper_main] up to the wait; both outcomes signal the done
    event. *)
Definition resident_start : V Helper :=
  r ← v_try (devcon_action Enable);
  match r with
  | Err _ => mret (HExited 1)
  | Ok _ => _ ← v_try verify_devnode_started; mret HWaiting
  end.

(** Its end, once the stop event is set. *)
Definition resident_stop : V Z :=
  r ← v_try (devcon_action Disable;; verify_devnode_disabled);
  mret (if is_ok r then 0 else 1).

Definition spawn_resident_helper : V Helper :=
  started ← v_ask (env_started env);
  v_event EvPrompt;;
  if negb started then v_fail ShellExecute
  else
    h ← resident_start;
    done ← v_ask (env_in_time env);
    if done : bool then mret h else v_fail ShellExecute.

Inductive ShutdownOutcome := Clean | Timeout | NonZero (code : Z).

(** [ResidentHelper::shutdown]: the helper's state and what was seen of it. *)
Definition shutdown (h : Helper) : V (ShutdownOutcome * Helper) :=
  in_time ← v_ask (env_in_time env);
  if negb in_time then mret (Timeout, h)
  else
    code ← match h with HWaiting => resident_stop | HExited code => mret code end;
    readable ← v_ask (env_exit_code env);
    mret (if negb readable then NonZero 0 else if code =? 0 then Clean else NonZero code,
          HExited code).

(** Its destructor shuts it down once more. *)
Definition helper_drop (h : Helper) : V unit := shutdown h;; mret tt.

(** ** The controller *)

Record VddController := { enabled : bool; resident : option Helper }.

(** [detect] and [for_instance]. *)
Definition VddController_new : VddController := {| enabled := false; resident := None |}.

Definition enable (c : VddController) : V VddController :=
  if is_process_elevated env then
    devcon_action Enable;;
    verify_devnode_started;;
    mret {| enabled := true; resident := resident c |}
  else
    match resident c with
    | None => h ← spawn_resident_helper; mret {| enabled := true; resident := Some h |}
    | Some h => run_helper_elevated Enable;; mret {| enabled := true; resident := Some h |}
    end.

(** The first half of [disable]: winds the resident helper down, and tells
    whether the device still has to be disabled directly. *)
Definition stop_resident (c : VddController) : V bool :=
  match resident c with
  | Some h =>
      '(outcome, h) ← shutdown h;
      helper_drop h;;
      mret (match outcome with Clean => false | _ => true end)
  | None => mret true
  end.

Definition direct_disable (needs_fallback : bool) : V unit :=
  if needs_fallback then
    if is_process_elevated env then devcon_action Disable;; verify_devnode_disabled
    else run_helper_elevated Disable
  else mret tt.

(** [Err] leaves the controller with [resident] taken and [enabled] as it
    was; the new controller is returned with the outcome. *)
Definition disable (c : VddController) : V (VddController * result VddError unit) :=
  needs_fallback ← stop_resident c;
  r ← v_try (direct_disable needs_fallback);
  mret ({| enabled := if is_ok r then false else enabled c; resident := None |}, r).

(** [Drop]: disables when enabled, then drops the helper if there is one. *)
Definition drop_controller (c : VddController) : V unit :=
  c ← (if enabled c then p ← disable c; mret p.1 else mret c);
  match resident c with Some h => helper_drop h | None => mret tt end.
End Lifecycle.

(** * What a call adds to the trace *)

(** Whatever [m] returns, what it adds to the trace satisfies [P]. *)
Definition does {A} (m : V A) (P : result VddError A -> Trace -> Prop) : Prop :=
  forall tr, exists ext, (m tr).2 = tr ++ ext /\ P (m tr).1 ext.

Lemma does_weaken {A} (m : V A) P Q : does m P -> (forall r ext, P r ext -> Q r ext) -> does m Q.
Proof. intros H HPQ tr. destruct (H tr) as (ext & E & HP). eauto. Qed.

Lemma does_ret {A} (a : A) (P : result VddError A -> Trace -> Prop) : P (Ok a) [] -> does (mret a) P.
Proof. intros H tr. exists []. by rewrite app_nil_r. Qed.

Lemma does_lift {A} (r : result VddError A) (P : result VddError A -> Trace -> Prop) :
  P r [] -> does (v_lift r) P.
Proof. intros H tr. exists []. by rewrite app_nil_r. Qed.

Lemma does_fail {A} e (P : result VddError A -> Trace -> Prop) : P (Err e) [] -> does (v_fail e) P.
Proof. intros H tr. exists []. by rewrite app_nil_r. Qed.

Lemma does_event e (P : result VddError unit -> Trace -> Prop) : P (Ok tt) [e] -> does (v_event e) P.
Proof. intros H tr. by exists [e]. Qed.

Lemma does_ask {A B} (f : Trace -> A) (k : A -> V B) P :
  (forall a, does (k a) P) -> does (v_ask f ≫= k) P.
Proof. intros H tr. exact (H (f tr) tr). Qed.

Lemma does_try {A} (m : V A) (P : result VddError A -> Trace -> Prop) :
  does m P -> does (v_try m) (fun r ext => exists r', r = Ok r' /\ P r' ext).
Proof.
  intros H tr. destruct (H tr) as (ext & E & HP). unfold v_try.
  destruct (m tr) as [r tr']. cbn in *. eauto.
Qed.

Lemma does_bind {A B} (m : V A) (f : A -> V B) P Q R :
  does m P -> (forall a, does (f a) (Q a)) ->
  (forall e ext, P (Err e) ext -> R (Err e) ext) ->
  (forall a r e1 e2, P (Ok a) e1 -> Q a r e2 -> R r (e1 ++ e2)) ->
  does (m ≫= f) R.
Proof.
  intros Hm Hf He Hok tr. unfold mbind, V_bind. destruct (Hm tr) as (e1 & E1 & H1).
  destruct (m tr) as [[a|e] tr1]; cbn [fst snd] in *.
  - destruct (Hf a tr1) as (e2 & E2 & H2). exists (e1 ++ e2). split; [by rewrite E2, E1, app_assoc | eauto].
  - eauto.
Qed.

Lemma v_try_bind {A B} (m : V A) (k : result VddError A -> V B) tr : (r ← v_try m; k r) tr = k (m tr).1 (m tr).2.
Proof. unfold mbind, V_bind, v_try. by destruct (m tr). Qed.

Lemma v_bind_ok {A B} (m : V A) (k : A -> V B) tr a : (m tr).1 = Ok a -> (m ≫= k) tr = k a (m tr).2.
Proof. intros E. unfold mbind, V_bind. destruct (m tr) as [r tr1]. cbn in E. by subst. Qed.

Lemma does_bind_with {A B} (m : V A) (f : A -> V B) (P : A -> Prop) Q R :
  does m (fun r _ => exists a, r = Ok a /\ P a) -> (forall a, P a -> does (f a) (Q a)) ->
  (forall a r e1 e2, P a -> Q a r e2 -> R r (e1 ++ e2)) ->
  does (m ≫= f) R.
Proof.
  intros Hm Hf HR tr. unfold mbind, V_bind. destruct (Hm tr) as (e1 & E1 & a & Ha & HP).
  destruct (m tr) as [r tr1]. cbn in *. subst r tr1.
  destruct (Hf a HP (tr ++ e1)) as (e2 & E2 & H2). exists (e1 ++ e2). split; [by rewrite E2, app_assoc | eauto].
Qed.

Definition no_enable (e : Event) : bool := match e with EvDevcon Enable _ => false | _ => true end.

Definition prompts (ext : Trace) : nat :=
  length (List.filter (fun e => match e with EvPrompt => true | _ => false end) ext).

Lemma prompts_app a b : prompts (a ++ b) = (prompts a + prompts b)%nat.
Proof. unfold prompts. by rewrite List.filter_app, length_app. Qed.

(** Nothing was enabled, and [n] prompts were shown. *)
Definition quiet (n : nat) (ext : Trace) : Prop := forallb no_enable ext = true /\ prompts ext = n.

Lemma quiet_app n k a b : quiet n a -> quiet k b -> quiet (n + k) (a ++ b).
Proof. intros (Ha & Na) (Hb & Nb). split; [by rewrite forallb_app, Ha, Hb | by rewrite prompts_app, Na, Nb]. Qed.

Section Confirmed.
Context (env : VddEnv).

(** Devcon accepted the disable, and a later query read the device as
    disabled; nothing enabled it in between or after. *)
Definition confirmed (ext : Trace) : Prop :=
  exists pre mid s post,
    ext = pre ++ EvDevcon Disable true :: mid ++ EvStatus (Ok s) :: post
    /\ reads_disabled env s = true
    /\ forallb no_enable mid = true /\ forallb no_enable post = true.

Lemma confirmed_before a b : confirmed b -> confirmed (a ++ b).
Proof. intros (pre & mid & s & post & -> & ?). exists (a ++ pre), mid, s, post. by rewrite <- app_assoc. Qed.

Lemma confirmed_after n a b : confirmed a -> quiet n b -> confirmed (a ++ b).
Proof.
  intros (pre & mid & s & post & -> & Hs & Hm & Hp) (Hb & _). exists pre, mid, s, (post ++ b).
  split_and!; [| done | done | by rewrite forallb_app, Hp, Hb].
  rewrite <- app_assoc. cbn [app]. by rewrite <- app_assoc.
Qed.

Lemma snapshot_does : does (snapshot_devnode_status env) (fun r ext => ext = [EvStatus r]).
Proof.
  unfold snapshot_devnode_status. apply does_ask. intros r.
  eapply does_bind; [by apply (does_event _ (fun r' ext => r' = Ok tt /\ ext = [EvStatus r])) | | |].
  - intros u. by apply (does_lift r (fun r' ext => r' = r /\ ext = [])).
  - by intros e ext (? & _).
  - by intros a r' e1 e2 (_ & ->) (-> & ->).
Qed.

(** A verification that succeeds ends with the query that read disabled. *)
Definition verified (r : result VddError unit) (ext : Trace) : Prop :=
  quiet 0 ext /\ (is_ok r = true -> exists pre s,
    ext = pre ++ [EvStatus (Ok s)] /\ reads_disabled env s = true /\ forallb no_enable pre = true).

Lemma is_disabled_does : does (devnode_is_disabled env) (fun r ext => exists q,
  ext = [EvStatus q] /\ forall b, r = Ok b -> exists s, q = Ok s /\ b = reads_disabled env s).
Proof.
  unfold devnode_is_disabled. eapply does_bind; [exact snapshot_does | | |].
  - intros s. by apply (does_ret _ (fun r ext => r = Ok (reads_disabled env s) /\ ext = [])).
  - intros e ext ->. eexists. split; [done |]. by intros b.
  - intros s r e1 e2 -> (-> & ->). eexists. split; [done |]. intros b [= <-]. by exists s.
Qed.

Lemma verify_round k : does k verified ->
  does (disabled ← devnode_is_disabled env; if disabled : bool then mret tt else k) verified.
Proof.
  intros Hk. eapply does_bind; [exact is_disabled_does | | |].
  - intros b. instantiate (1 := fun b r ext => if b : bool then ext = [] else verified r ext).
    destruct b; [by apply does_ret | exact Hk].
  - intros e ext (q & -> & _). by split.
  - intros b r e1 e2 (q & -> & Hb) H. destruct (Hb b eq_refl) as (s & -> & ->).
    destruct (reads_disabled env s) eqn:Es.
    + subst e2. split; [done |]. intros _. by exists [], s.
    + destruct H as (Hq & H). split; [by apply (quiet_app 0 0) |]. intros Hr.
      destruct (H Hr) as (pre & s' & -> & Hd & Hp). exists (EvStatus (Ok s) :: pre), s'. by split_and!.
Qed.

Lemma verify_loop_does n : does (verify_devnode_disabled_loop env n) verified.
Proof.
  induction n as [|n IH]; cbn [verify_devnode_disabled_loop]; apply verify_round; [| exact IH].
  eapply does_bind; [exact snapshot_does | | |].
  - intros s. by apply (does_fail _ (fun r ext => is_ok r = false /\ ext = [])).
  - by intros e ext ->.
  - intros s r e1 e2 -> (Hr & ->). split; [done |]. by rewrite Hr.
Qed.

Lemma devcon_does a : does (devcon_action env a) (fun r ext => ext = [EvDevcon a (is_ok r)]).
Proof.
  unfold devcon_action. apply does_ask. intros ok.
  eapply does_bind; [by apply (does_event _ (fun r ext => r = Ok tt /\ ext = [EvDevcon a ok])) | | |].
  - intros u. instantiate (1 := fun _ r ext => is_ok r = ok /\ ext = []).
    destruct ok; [by apply does_ret | by apply does_fail].
  - by intros e ext (? & _).
  - intros u r e1 e2 (_ & ->) (<- & ->). done.
Qed.

(** A disabling call: quiet, with [n] prompts, and confirmed if it succeeds. *)
Definition disabling (n : nat) (r : result VddError unit) (ext : Trace) : Prop :=
  quiet n ext /\ (is_ok r = true -> confirmed ext).

Lemma disable_verified_does : does (devcon_action env Disable;; verify_devnode_disabled env) (disabling 0).
Proof.
  eapply does_bind; [exact (devcon_does Disable) | | |].
  - intros u. unfold verify_devnode_disabled. apply does_ask. intros n. apply verify_loop_does.
  - by intros e ext ->.
  - intros u r e1 e2 -> (Hq & H). split; [by apply (quiet_app 0 0) |]. intros Hr.
    destruct (H Hr) as (pre & s & -> & Hs & Hp). exists [], pre, s, []. by split_and!.
Qed.

Lemma log_query_does : does (v_try (snapshot_devnode_status env)) (fun r ext => is_ok r = true /\ quiet 0 ext).
Proof.
  eapply does_weaken; [apply does_try, snapshot_does |]. by intros r ext (r' & -> & ->).
Qed.

(** The exit code of the helper tells whether the disable was confirmed. *)
Definition exit_disabling (r : result VddError Z) (ext : Trace) : Prop :=
  is_ok r = true /\ quiet 0 ext /\ (r = Ok 0 -> confirmed ext).

Lemma resident_stop_does : does (resident_stop env) exit_disabling.
Proof.
  unfold resident_stop. eapply does_bind; [apply does_try, disable_verified_does | | |].
  - intros r. by apply (does_ret _ (fun r' ext => r' = Ok (if is_ok r then 0 else 1) /\ ext = [])).
  - by intros e ext (r' & ? & _).
  - intros r r' e1 e2 (r0 & [= <-] & Hq & H) (-> & ->). rewrite app_nil_r.
    split; [done |]. split; [exact Hq |]. destruct r; [auto | done].
Qed.

Lemma log_then (code : Z) : does (_ ← v_try (snapshot_devnode_status env); mret code)
  (fun r ext => quiet 0 ext /\ r = Ok code).
Proof.
  eapply does_bind; [exact log_query_does | | |].
  - intros q. by apply (does_ret _ (fun r ext => r = Ok code /\ ext = [])).
  - by intros e ext (? & _).
  - intros q r e1 e2 (_ & Hq) (-> & ->). by rewrite app_nil_r.
Qed.

Lemma helper_main_disable_does : does (helper_main env Disable) exit_disabling.
Proof.
  unfold helper_main. eapply (does_bind _ _ _ (fun _ => exit_disabling)); [exact log_query_does | | |].
  - intros q. eapply does_bind; [apply does_try, disable_verified_does | | |].
    + intros r. exact (log_then _).
    + by intros e ext (r' & ? & _).
    + intros r r' e1 e2 (r0 & [= <-] & Hq & H) (Hq2 & ->).
      split; [done |]. split; [by apply (quiet_app 0 0) |]. intros Hr.
      eapply confirmed_after; [| exact Hq2]. destruct r; [auto | done].
  - by intros e ext (? & _).
  - intros q r e1 e2 (_ & Hq) (Hr & Hq2 & H). split; [done |]. split; [by apply (quiet_app 0 0) |].
    intros E. by apply confirmed_before, H.
Qed.
(** ** The controller *)

(** An elevated helper whose exit code cannot be read counts as successful. *)
Definition confirmed_or_unread (ext : Trace) : Prop :=
  confirmed ext \/ (is_process_elevated env = false /\ EvCodeUnread ∈ ext).

Lemma unread_before a b : confirmed_or_unread b -> confirmed_or_unread (a ++ b).
Proof. intros [H | (He & H)]; [left; by apply confirmed_before | right; split; [done | by apply elem_of_app; right]]. Qed.

Lemma unread_after n a b : confirmed_or_unread a -> quiet n b -> confirmed_or_unread (a ++ b).
Proof.
  intros [H | (He & H)] Hq; [left; by eapply confirmed_after | right; split; [done | by apply elem_of_app; left]].
Qed.

(** Shown to the user: a prompt exactly when the process is not elevated. *)
Lemma run_helper_disable_does : does (run_helper_elevated env Disable)
  (fun r ext => quiet 1 ext /\ (is_ok r = true -> confirmed ext \/ EvCodeUnread ∈ ext)).
Proof.
  intros tr. unfold run_helper_elevated, v_ask, v_event, mbind, V_bind.
  destruct (env_started env tr); cbn [negb].
  2: { exists [EvPrompt]. by split. }
  destruct (helper_main_disable_does (tr ++ [EvPrompt])) as (ext & E & Hr & Hq & Hc).
  destruct (helper_main env Disable (tr ++ [EvPrompt])) as [[code|e] tr1]; cbn [fst snd] in *; [| done].
  destruct (env_exit_code env tr1); cbn [mret V_ret].
  - exists (EvPrompt :: ext).
    destruct (Z.eqb_spec code 0) as [-> | Hne]; cbn [mret V_ret v_fail fst snd is_ok].
    + split; [by rewrite E, <- app_assoc |]. split; [by apply (quiet_app 1 0 [EvPrompt]) |].
      intros _. left. by apply (confirmed_before [EvPrompt]), Hc.
    + split; [by rewrite E, <- app_assoc |]. split; [by apply (quiet_app 1 0 [EvPrompt]) | done].
  - exists (EvPrompt :: ext ++ [EvCodeUnread]). cbn [Z.eqb mret V_ret fst snd is_ok].
    split; [by rewrite E, <- !app_assoc |]. split.
    + apply (quiet_app 1 0 [EvPrompt]); [done |]. by apply (quiet_app 0 0).
    + intros _. right. apply elem_of_cons. right. apply elem_of_app. right. by apply list_elem_of_singleton.
Qed.

(** A clean shutdown of a helper that had enabled the device. *)
Lemma shutdown_does h : (forall code, h = HExited code -> code <> 0) ->
  does (shutdown env h) (fun r ext => quiet 0 ext /\ exists o h', r = Ok (o, h')
    /\ (o = Clean -> confirmed ext /\ h' = HExited 0)).
Proof.
  intros Hh tr. unfold shutdown, v_ask, mret, V_ret, mbind, V_bind.
  destruct (env_in_time env tr); cbn [negb].
  2: { exists []. rewrite app_nil_r. split; [done |]. split; [done |]. by exists Timeout, h. }
  destruct h as [|code].
  - destruct (resident_stop_does tr) as (ext & E & Hr & Hq & Hc).
    destruct (resident_stop env tr) as [[code|e] tr1]; cbn [fst snd] in *; [| done].
    exists ext. split; [done |]. split; [done |].
    eexists _, _. split; [reflexivity |]. destruct (env_exit_code env tr1); [| done]. cbn [negb].
    destruct (Z.eqb_spec code 0) as [-> | ?]; [auto | done].
  - exists []. rewrite app_nil_r. split; [done |]. split; [done |].
    eexists _, _. split; [reflexivity |]. destruct (env_exit_code env tr); [| done]. cbn [negb].
    destruct (Z.eqb_spec code 0) as [-> | ?]; [| done]. by destruct (Hh 0 eq_refl).
Qed.

Lemma helper_drop_does h : does (helper_drop env h) (fun r ext => quiet 0 ext /\ r = Ok tt).
Proof.
  intros tr. unfold helper_drop, shutdown, v_ask, mret, V_ret, mbind, V_bind.
  destruct (env_in_time env tr); cbn [negb]; [| by exists []; rewrite app_nil_r].
  destruct h as [|code]; [| by exists []; rewrite app_nil_r].
  destruct (resident_stop_does tr) as (ext & E & Hr & Hq & Hc).
  destruct (resident_stop env tr) as [[code|e] tr1]; cbn [fst snd] in *; [by exists ext | done].
Qed.

Definition helper_ok (c : VddController) : Prop :=
  forall code, resident c = Some (HExited code) -> code <> 0.

(** How [disable] leaves the controller and the world. *)
Definition disabled_by (c : VddController) (r : result VddError (VddController * result VddError unit))
    (ext : Trace) : Prop :=
  forallb no_enable ext = true
  /\ (prompts ext <= (if is_process_elevated env then 0 else 1))%nat
  /\ exists c' res, r = Ok (c', res) /\ resident c' = None
    /\ (is_ok res = true -> enabled c' = false /\ confirmed_or_unread ext)
    /\ (is_ok res = false -> enabled c' = enabled c).

Lemma stop_resident_does c : helper_ok c -> does (stop_resident env c)
  (fun r ext => quiet 0 ext /\ exists b, r = Ok b /\ (b = false -> confirmed ext)).
Proof.
  intros Hc. unfold stop_resident. destruct (resident c) as [h|] eqn:Er.
  2: { apply does_ret. split; [done |]. by exists true. }
  eapply (does_bind _ _ _ (fun p r ext =>
    quiet 0 ext /\ r = Ok (match p.1 with Clean => false | _ => true end)));
    [apply (shutdown_does h); intros code ->; by apply (Hc code) | | |].
  - intros [o h']. eapply does_bind; [apply helper_drop_does | | |].
    + intros u. by apply (does_ret _ (fun r ext =>
        ext = [] /\ r = Ok (match o with Clean => false | _ => true end))).
    + by intros e ext (_ & ?).
    + intros u r e1 e2 (Hq & _) (-> & ->). by rewrite app_nil_r.
  - by intros e ext (_ & o & h' & ? & _).
  - intros [o h'] r e1 e2 (Hq & o1 & h1 & [= <- <-] & Hcl) (Hq2 & ->). cbn [fst].
    split; [by apply (quiet_app 0 0) |]. eexists. split; [reflexivity |].
    destruct o; [| done | done]. intros _. destruct (Hcl eq_refl) as (Hcf & _).
    by eapply confirmed_after.
Qed.

Lemma direct_disable_does b : does (direct_disable env b) (fun r ext =>
  forallb no_enable ext = true /\ (prompts ext <= (if is_process_elevated env then 0 else 1))%nat
  /\ (is_ok r = true -> if b then confirmed_or_unread ext else ext = [])).
Proof.
  unfold direct_disable. destruct b.
  2: { apply does_ret. split_and!; [done | destruct (is_process_elevated env); cbn; lia | done]. }
  unfold confirmed_or_unread. destruct (is_process_elevated env).
  - eapply does_weaken; [apply disable_verified_does |]. intros r ext ((Hq & ->) & H). split_and!; auto.
  - eapply does_weaken; [apply run_helper_disable_does |]. intros r ext ((Hq & ->) & H). split_and!; try done.
    intros Hr. destruct (H Hr); auto.
Qed.
End Confirmed.

(** * Theorems *)

Lemma disable_does env c : helper_ok c -> does (disable env c) (disabled_by env c).
Proof.
  intros Hc. unfold disable. eapply does_bind; [by apply (stop_resident_does env) | | |].
  - intros b. eapply does_bind; [apply does_try, (direct_disable_does env) | | |].
    + intros r. by apply (does_ret _ (fun r' ext =>
        r' = Ok ({| enabled := if is_ok r then false else enabled c; resident := None |}, r) /\ ext = [])).
    + by intros e ext (? & ? & _).
    + instantiate (1 := fun b r' ext => forallb no_enable ext = true
        /\ (prompts ext <= (if is_process_elevated env then 0 else 1))%nat
        /\ exists r, r' = Ok ({| enabled := if is_ok r then false else enabled c; resident := None |}, r)
                     /\ (is_ok r = true -> if b : bool then confirmed_or_unread env ext else ext = [])).
      intros r r' e1 e2 (r0 & [= <-] & Hq & Hp & H) (-> & ->). rewrite app_nil_r.
      split; [done |]. split; [done |]. by exists r.
  - by intros e ext (_ & b & ? & _).
  - intros b r' e1 e2 ((Hq & Hp) & b' & [= <-] & Hb) (Hq2 & Hp2 & r & -> & Hr).
    split; [by rewrite forallb_app, Hq, Hq2 |]. split; [rewrite prompts_app; lia |].
    eexists _, r. split; [reflexivity |]. cbn [resident enabled]. split; [done |]. split.
    + intros Ho. rewrite Ho. split; [done |]. specialize (Hr Ho). destruct b.
      * by apply unread_before.
      * subst e2. rewrite app_nil_r. left. by apply Hb.
    + intros Ho. by rewrite Ho.
Qed.

(** C14. A disable that reports success left the virtual display off: devcon
    accepted the disable, a later query read the device as disabled, and
    nothing enabled it since; the only exception is a process that is not
    elevated and whose elevated helper left an exit code that could not be
    read, which counts as success.  The controller then holds no helper and is
    not enabled.  This covers the clean end of the resident helper, its
    timeout, its crash and the direct fallbacks, for a controller whose helper
    waits or has left an exit code other than zero, as every helper that an
    enable leaves.  When it fails the controller stays enabled, so that its
    destructor tries again.  Nothing is ever enabled on the way, no prompt is
    shown by an elevated process and at most one by another. *)
Theorem disable_spec env c : helper_ok c -> does (disable env c) (disabled_by env c).
Proof. apply disable_does. Qed.

(** * What a call returns *)

(** Whatever is added to the trace, a value that is returned satisfies [P]. *)
Definition yields {A} (m : V A) (P : A -> Prop) : Prop :=
  does m (fun r _ => match r with Ok a => P a | Err _ => True end).

Lemma yields_ret {A} (a : A) (P : A -> Prop) : P a -> yields (mret a) P.
Proof. intros H. by apply does_ret. Qed.

Lemma yields_lift {A} (r : result VddError A) : yields (v_lift r) (fun _ => True).
Proof. apply does_lift. by destruct r. Qed.

Lemma yields_fail {A} e (P : A -> Prop) : yields (v_fail e) P.
Proof. by apply does_fail. Qed.

Lemma yields_event e : yields (v_event e) (fun _ => True).
Proof. by apply does_event. Qed.

Lemma yields_ask {A} (f : Trace -> A) : yields (v_ask f) (fun _ => True).
Proof. intros tr. exists []. by rewrite app_nil_r. Qed.

Lemma yields_try_with {A} (m : V A) P : yields m P ->
  yields (v_try m) (fun r => match r with Ok a => P a | Err _ => True end).
Proof. intros H. eapply does_weaken; [by apply does_try |]. by intros r ext (r' & -> & ?). Qed.

Lemma yields_weaken {A} (m : V A) (P Q : A -> Prop) : yields m P -> (forall a, P a -> Q a) -> yields m Q.
Proof. intros H HPQ. eapply does_weaken; [exact H |]. intros [a|e] ext; auto. Qed.

Lemma yields_try {A} (m : V A) : yields m (fun _ => True) -> yields (v_try m) (fun _ => True).
Proof. intros H. by eapply yields_weaken; [apply yields_try_with |]. Qed.

Lemma yields_bind_with {A B} (m : V A) (f : A -> V B) Q P : yields m Q ->
  (forall a, Q a -> yields (f a) P) -> yields (m ≫= f) P.
Proof.
  intros Hm Hf tr. destruct (Hm tr) as (e1 & E1 & H1). unfold mbind, V_bind.
  destruct (m tr) as [[a|e] tr1]; cbn in *; [| eauto]. subst tr1.
  destruct (Hf a H1 (tr ++ e1)) as (e2 & E2 & H2). exists (e1 ++ e2). split; [by rewrite E2, app_assoc | done].
Qed.

Lemma yields_bind {A B} (m : V A) (f : A -> V B) P : yields m (fun _ => True) ->
  (forall a, yields (f a) P) -> yields (m ≫= f) P.
Proof. intros Hm Hf. by apply (yields_bind_with m f (fun _ => True)); auto. Qed.

(** A call that always returns a value, with what it adds to the trace. *)
Definition gives {A} (m : V A) (P : Trace -> A -> Trace -> Prop) : Prop :=
  forall tr, exists a ext, m tr = (Ok a, tr ++ ext) /\ P tr a ext.

Lemma gives_ret {A} (a : A) (P : Trace -> A -> Trace -> Prop) : (forall tr, P tr a []) -> gives (mret a) P.
Proof. intros H tr. exists a, []. by rewrite app_nil_r. Qed.

Lemma gives_bind {A B} (m : V A) (f : A -> V B) P R : gives m P ->
  (forall tr a e1, P tr a e1 -> exists b e2, f a (tr ++ e1) = (Ok b, (tr ++ e1) ++ e2) /\ R tr b (e1 ++ e2)) ->
  gives (m ≫= f) R.
Proof.
  intros Hm Hf tr. destruct (Hm tr) as (a & e1 & E1 & HP). unfold mbind, V_bind. rewrite E1.
  destruct (Hf tr a e1 HP) as (b & e2 & E2 & HR). exists b, (e1 ++ e2). by rewrite E2, app_assoc.
Qed.

Lemma gives_map {A B} (m : V A) (g : A -> B) P R : gives m P -> (forall tr a ext, P tr a ext -> R tr (g a) ext) ->
  gives (a ← m; mret (g a)) R.
Proof.
  intros Hm HR. eapply gives_bind; [exact Hm |]. intros tr a e1 H. exists (g a), []. rewrite !app_nil_r. auto.
Qed.

Lemma gives_weaken {A} (m : V A) P R : gives m P -> (forall tr a ext, P tr a ext -> R tr a ext) -> gives m R.
Proof. intros Hm HR tr. destruct (Hm tr) as (a & ext & E & H). eauto. Qed.

Ltac yields :=
  repeat first
    [ apply yields_lift | apply yields_fail | apply yields_event | apply yields_ask
    | apply yields_ret; done | apply yields_try | apply yields_bind; [| intros ?]
    | match goal with |- yields (match ?x with _ => _ end) _ => destruct x end
    | match goal with |- yields (if ?x then _ else _) _ => destruct x end ].

Lemma devcon_yields env a : yields (devcon_action env a) (fun _ => True).
Proof. unfold devcon_action. yields. Qed.

Lemma verify_started_yields env : yields (verify_devnode_started env) (fun _ => True).
Proof. unfold verify_devnode_started, snapshot_devnode_status. yields. Qed.

(** An enable that succeeds holds no helper, or one that waits or has failed. *)
Lemma enable_yields env : yields (enable env VddController_new) (fun c => enabled c = true /\ helper_ok c).
Proof.
  unfold enable. destruct (is_process_elevated env); cbn [resident VddController_new].
  - apply yields_bind; [apply devcon_yields | intros ?].
    apply yields_bind; [apply verify_started_yields | intros ?]. by apply yields_ret.
  - apply (yields_bind_with _ _ (fun h => forall code, h = HExited code -> code <> 0)).
    + unfold spawn_resident_helper, resident_start.
      apply yields_bind; [yields | intros started]. apply yields_bind; [yields | intros ?].
      destruct (negb started); [yields |].
      apply (yields_bind_with _ _ (fun h => forall code, h = HExited code -> code <> 0)).
      * apply yields_bind; [apply yields_try, devcon_yields | intros [|]].
        -- apply yields_bind; [apply yields_try, verify_started_yields | intros ?]. by apply yields_ret.
        -- apply yields_ret. by intros code [= <-].
      * intros h Hh. apply yields_bind; [yields | intros [|]]; [by apply yields_ret | yields].
    + intros h Hh. apply yields_ret. split; [done |]. intros code [= ->]. by apply Hh.
Qed.

Definition demo_env_vdd : VddEnv :=
  {| is_process_elevated := false; DN_HAS_PROBLEM := 0x400; CM_PROB_DISABLED := 22;
     env_devcon := fun _ _ => Some {| do_code := Some 1; do_transcript := "1 device(s) disabled" |};
     env_status := fun _ => Ok (0x1802400, 22); env_polls := fun _ => 20%nat;
     env_started := fun _ => true; env_in_time := fun _ => true; env_exit_code := fun _ => true |}.

Lemma disable_spec_witness :
  does (disable demo_env_vdd {| enabled := true; resident := Some HWaiting |})
       (disabled_by demo_env_vdd {| enabled := true; resident := Some HWaiting |}).
Proof. apply (disable_spec demo_env_vdd). by intros code. Defined.

(** A whole cycle costs one prompt: the one that starts the helper. *)
Lemma one_prompt_per_cycle :
  prompts ((c ← enable demo_env_vdd VddController_new; disable demo_env_vdd c) []).2 = 1%nat
  /\ exists tr, (c ← enable demo_env_vdd VddController_new; disable demo_env_vdd c) []
                = (Ok ({| enabled := false; resident := None |}, Ok tt), tr).
Proof. split; [by vm_compute |]. eexists. vm_compute. reflexivity. Qed.

(** The helper of an enable that fails signals the same event as one that
    succeeds, so the enable is reported as done although devcon refused it. *)
Definition refusing_env : VddEnv :=
  {| is_process_elevated := false; DN_HAS_PROBLEM := 0x400; CM_PROB_DISABLED := 22;
     env_devcon := fun _ _ => Some {| do_code := Some 1; do_transcript := "No matching devices found." |};
     env_status := fun _ => Err AccessDenied; env_polls := fun _ => 20%nat;
     env_started := fun _ => true; env_in_time := fun _ => true; env_exit_code := fun _ => true |}.

Lemma failed_enable_reported_done :
  enable refusing_env VddController_new []
  = (Ok {| enabled := true; resident := Some (HExited 1) |}, [EvPrompt; EvDevcon Enable false]).
Proof. vm_compute. reflexivity. Qed.

(** The exception is real: devcon refuses, the helper exits with 1, its exit
    code cannot be read, and the disable is reported as done. *)
Definition unread_env : VddEnv :=
  {| is_process_elevated := false; DN_HAS_PROBLEM := 0x400; CM_PROB_DISABLED := 22;
     env_devcon := fun _ _ => Some {| do_code := Some 1; do_transcript := "No matching devices found." |};
     env_status := fun _ => Ok (0x1802400, 0); env_polls := fun _ => 20%nat;
     env_started := fun _ => true; env_in_time := fun _ => true; env_exit_code := fun _ => false |}.

Lemma unread_code_reported_done :
  disable unread_env {| enabled := true; resident := None |} []
  = (Ok ({| enabled := false; resident := None |}, Ok tt),
     [EvPrompt; EvStatus (Ok (0x1802400, 0)); EvDevcon Disable false; EvStatus (Ok (0x1802400, 0)); EvCodeUnread]).
Proof. vm_compute. reflexivity. Qed.

(** * Detection *)

Definition is_candidate (c : DiscoveredDevice) : bool := matches_vdd_heuristic (friendly_name c).

Lemma key_lt_true a b : key_lt a b = true <-> (a.1 < b.1 \/ (a.1 = b.1 /\ a.2 < b.2))%nat.
Proof. unfold key_lt. rewrite orb_true_iff, andb_true_iff, !Nat.ltb_lt, Nat.eqb_eq. lia. Qed.

Lemma key_lt_false a b : key_lt a b = false <-> (b.1 < a.1 \/ (a.1 = b.1 /\ b.2 <= a.2))%nat.
Proof. unfold key_lt. rewrite orb_false_iff, andb_false_iff, !Nat.ltb_ge, Nat.eqb_neq. lia. Qed.

Lemma min_by_key_spec l :
  match min_by_key l with
  | Some d => exists pre post, l = pre ++ d :: post
      /\ Forall (fun c => key_lt (detect_key d) (detect_key c) = true) pre
      /\ Forall (fun c => key_lt (detect_key c) (detect_key d) = false) post
  | None => l = []
  end.
Proof.
  induction l as [|c l IH]; [done |]. cbn [min_by_key]. destruct (min_by_key l) as [d|].
  - destruct IH as (pre & post & -> & Hpre & Hpost).
    destruct (key_lt (detect_key d) (detect_key c)) eqn:E.
    + exists (c :: pre), post. by split_and!; [| constructor |].
    + exists [], (pre ++ d :: post). split_and!; [done | constructor |].
      apply key_lt_false in E. apply Forall_app_2; [| constructor; [by apply key_lt_false |]].
      * eapply Forall_impl; [| exact Hpre]. intros x Hx. apply key_lt_true in Hx. apply key_lt_false. lia.
      * eapply Forall_impl; [| exact Hpost]. intros x Hx. apply key_lt_false in Hx. apply key_lt_false. lia.
  - subst l. exists [], []. by split_and!; constructor.
Qed.

(** Detection follows its documented priority: it returns nothing only
    when no device passes the name heuristic; otherwise it returns a
    candidate such that no candidate is better (disabled before enabled, then
    the canonical name before others) and every candidate listed before it is
    strictly worse. *)
Theorem detect_priority devices :
  match detect devices with
  | Some d => exists pre post, List.filter is_candidate devices = pre ++ d :: post
      /\ d ∈ devices /\ is_candidate d = true
      /\ Forall (fun c => key_lt (detect_key d) (detect_key c) = true) pre
      /\ Forall (fun c => key_lt (detect_key c) (detect_key d) = false) post
  | None => Forall (fun c => is_candidate c = false) devices
  end.
Proof.
  unfold detect. fold is_candidate. pose proof (min_by_key_spec (List.filter is_candidate devices)) as H.
  destruct (min_by_key (List.filter is_candidate devices)) as [d|].
  - destruct H as (pre & post & E & Hpre & Hpost). exists pre, post.
    assert (Hd : In d (List.filter is_candidate devices))
      by (rewrite E; apply in_or_app; right; by left).
    apply filter_In in Hd as (Hd & Hc). by split_and!; [| apply list_elem_of_In | | |].
  - apply Forall_forall. intros c Hc. destruct (is_candidate c) eqn:E; [| done].
    assert (Hin : In c (List.filter is_candidate devices)) by (by apply filter_In).
    by rewrite H in Hin.
Qed.

(** The rows of the unit tests of the heuristic. *)
Lemma heuristic_rows :
  map matches_vdd_heuristic ["Virtual Display Driver"%string; "MttVDD Device"%string;
    "IddSampleDriver"%string; "Amyuni USB Mobile Monitor Virtual Display"%string;
    "NVIDIA GeForce RTX 5070"%string; "MuMu Virtual Display Adapter"%string]
  = [true; true; true; true; false; false].
Proof. vm_compute. reflexivity. Qed.

(** * Waiting for the monitor *)

Definition monitor_key (m : MonitorInfo) : string :=
  String.append (pretty (adapter_luid m)) (String.append ":" (device_name m)).

(** Over the monitors DXGI enumerates. *)
Definition snapshot_attached_monitor_keys (mons : list MonitorInfo) : list string :=
  map monitor_key (List.filter (fun m => attached_to_desktop m && negb (adapter_is_software m)) mons).

Definition pretty_bool (b : bool) : string := if b then "true" else "false".

Definition monitor_label (m : MonitorInfo) : string :=
  String.concat "" [device_name m; " on "; adapter_name m; " ("; pretty (mon_width m); "x";
    pretty (mon_height m); ", attached="; pretty_bool (attached_to_desktop m); ")"]%string.

Definition is_new_monitor (baseline : option (list string)) (m : MonitorInfo) : bool :=
  if negb (attached_to_desktop m) || adapter_is_software m then false
  else if looks_virtual m then true
  else match baseline with
       | Some keys => negb (existsb (String.eqb (monitor_key m)) keys)
       | None => false
       end.

Definition add_labels (seen : list string) (mons : list MonitorInfo) : list string :=
  foldl (fun seen m => if existsb (String.eqb (monitor_label m)) seen then seen
                       else seen ++ [monitor_label m]) seen mons.

(** Over the DXGI samples taken before the timeout, [None] when DXGI failed;
    the topology requests and status samples in between only feed the
    diagnostics. *)
Fixpoint wait_for_virtual_monitor_loop (timeout_ms : Z) (baseline : option (list string))
    (seen : list string) (dxgi_err : bool) (samples : list (option (list MonitorInfo)))
  : result VddError MonitorInfo :=
  match samples with
  | [] => if dxgi_err then Err Dxgi else Err (EnumerationTimeout timeout_ms seen)
  | None :: samples' => wait_for_virtual_monitor_loop timeout_ms baseline seen true samples'
  | Some mons :: samples' =>
      match List.find (is_new_monitor baseline) mons with
      | Some m => Ok m
      | None => wait_for_virtual_monitor_loop timeout_ms baseline (add_labels seen mons) dxgi_err samples'
      end
  end.

Definition wait_for_virtual_monitor (timeout_ms : Z) (baseline : option (list string))
  : list (option (list MonitorInfo)) -> result VddError MonitorInfo :=
  wait_for_virtual_monitor_loop timeout_ms baseline [] false.

Definition sample_list (o : option (list MonitorInfo)) : list MonitorInfo := default [] o.

Lemma find_app {A} (f : A -> bool) l k :
  List.find f (l ++ k) = match List.find f l with Some x => Some x | None => List.find f k end.
Proof. induction l as [|x l IH]; cbn; [done |]. by destruct (f x). Qed.

Lemma wait_loop_spec timeout baseline samples : forall seen err,
  match List.find (is_new_monitor baseline) (concat (map sample_list samples)) with
  | Some m => wait_for_virtual_monitor_loop timeout baseline seen err samples = Ok m
  | None => is_ok (wait_for_virtual_monitor_loop timeout baseline seen err samples) = false
  end.
Proof.
  induction samples as [|[mons|] samples IH]; intros seen err; cbn [map concat sample_list default from_option id
    wait_for_virtual_monitor_loop].
  - by destruct err.
  - rewrite find_app. destruct (List.find (is_new_monitor baseline) mons); [done | apply IH].
  - apply IH.
Qed.

(** The monitor a session captures is the one the driver brought up: the
    wait returns the first monitor, over all samples in order, that is on the
    desktop of a hardware adapter and either looks virtual or was not
    attached in the snapshot taken before the driver was enabled; and it
    gives up only when no sample showed such a monitor. *)
Theorem virtual_monitor_found timeout before samples :
  let keys := snapshot_attached_monitor_keys before in
  let suitable m := attached_to_desktop m && negb (adapter_is_software m)
                    && (looks_virtual m || negb (bool_decide (monitor_key m ∈ keys))) in
  match wait_for_virtual_monitor timeout (Some keys) samples with
  | Ok m => exists pre post, concat (map sample_list samples) = pre ++ m :: post
      /\ suitable m = true /\ Forall (fun m' => suitable m' = false) pre
  | Err _ => Forall (fun m => suitable m = false) (concat (map sample_list samples))
  end.
Proof.
  intros keys suitable. set (all := concat (map sample_list samples)).
  assert (Hs : forall m, is_new_monitor (Some keys) m = suitable m).
  { intros m. unfold is_new_monitor, suitable. destruct (attached_to_desktop m), (adapter_is_software m),
      (looks_virtual m); cbn; try done. f_equal.
    destruct (existsb (String.eqb (monitor_key m)) keys) eqn:E; symmetry.
    - apply bool_decide_eq_true, list_elem_of_In. apply existsb_exists in E as (k & Hk & ->%String.eqb_eq). done.
    - apply bool_decide_eq_false. intros Hin%list_elem_of_In.
      assert (Ht : existsb (String.eqb (monitor_key m)) keys = true)
        by (apply existsb_exists; exists (monitor_key m); by rewrite String.eqb_refl).
      by rewrite Ht in E. }
  pose proof (wait_loop_spec timeout (Some keys) samples [] false) as Hl. fold all in Hl.
  unfold wait_for_virtual_monitor.
  assert (Hf : match List.find (is_new_monitor (Some keys)) all with
    | Some m => exists pre post, all = pre ++ m :: post /\ suitable m = true
                /\ Forall (fun m' => suitable m' = false) pre
    | None => Forall (fun m => suitable m = false) all end).
  { clear Hl. induction all as [|m l IH]; [constructor |]. cbn [List.find]. rewrite Hs.
    destruct (suitable m) eqn:E; [by exists [], l; split_and! |].
    destruct (List.find _ l) as [m'|].
    - destruct IH as (pre & post & -> & ? & ?). exists (m :: pre), post. by split_and!; [| | constructor].
    - by constructor. }
  destruct (List.find (is_new_monitor (Some keys)) all) as [m|].
  - by rewrite Hl.
  - by destruct (wait_for_virtual_monitor_loop timeout (Some keys) [] false samples).
Qed.
