(* ===== verification/Handles.v ===== *)
(** Handles of Windows: a log of what is opened, used and closed, the handles
    that a log leaves open, and a small logic of ownership in which code that
    handles them is specified.  A handle is named by the place of the call that
    opened it, so no two are the same. *)
From stdpp Require Import list gmap.
From S2P Require Import Prelude.

Definition Handle : Type := nat.

(** What a handle stands for; a HID collection is known by its index, a
    registry key or a device list is the only one of its program. *)
Inductive HandleKind :=
| KEvent | KProcess | KToken | KJob
| KHid (index : nat)
| KPreparsed
| KDeviceList
| KPointerDevice
| KRegistryKey.

#[export] Instance HandleKind_eq_dec : EqDecision HandleKind.
Proof. solve_decision. Defined.

(** The functions that close one. *)
Inductive CloseFn :=
| CloseHandle
| HidD_FreePreparsedData
| SetupDiDestroyDeviceInfoList
| DestroySyntheticPointerDevice
| RegCloseKey.

Definition closes (f : CloseFn) (k : HandleKind) : bool :=
  match f, k with
  | CloseHandle, (KEvent | KProcess | KToken | KJob | KHid _) => true
  | HidD_FreePreparsedData, KPreparsed => true
  | SetupDiDestroyDeviceInfoList, KDeviceList => true
  | DestroySyntheticPointerDevice, KPointerDevice => true
  | RegCloseKey, KRegistryKey => true
  | _, _ => false
  end.

(** The other things a program does are a parameter. *)
Inductive HandleEvent (X : Type) :=
| HOpen (k : HandleKind)
| HUse (h : Handle)
| HClose (f : CloseFn) (h : Handle)
| HOther (x : X).

Arguments HOpen {X} k.
Arguments HUse {X} h.
Arguments HClose {X} f h.
Arguments HOther {X} x.

Section Ledger.
Context {X : Type}.

Definition HandleLog : Type := list (HandleEvent X).

(** [None]: a handle is used or closed that is not open, or is closed by the
    wrong function. *)
Definition ledger_step (n : nat) (held : gmap Handle HandleKind) (e : HandleEvent X)
  : option (gmap Handle HandleKind) :=
  match e with
  | HOpen k => Some (<[n := k]> held)
  | HUse h => match held !! h with Some _ => Some held | None => None end
  | HClose f h =>
      match held !! h with
      | Some k => if closes f k then Some (delete h held) else None
      | None => None
      end
  | HOther _ => Some held
  end.

Fixpoint ledger_from (n : nat) (held : gmap Handle HandleKind) (log : HandleLog)
  : option (gmap Handle HandleKind) :=
  match log with
  | [] => Some held
  | e :: log' => held' ← ledger_step n held e; ledger_from (S n) held' log'
  end.

(** What is open after a log, when the log is proper. *)
Definition ledger (log : HandleLog) : option (gmap Handle HandleKind) := ledger_from 0 ∅ log.

Lemma ledger_from_snoc n held log e :
  ledger_from n held (log ++ [e])
  = (held' ← ledger_from n held log; ledger_step (n + length log) held' e).
Proof.
  revert n held. induction log as [|e' log IH]; intros n held; cbn.
  - rewrite Nat.add_0_r. by destruct (ledger_step n held e).
  - destruct (ledger_step n held e') as [held'|]; cbn; [| done].
    by rewrite IH, Nat.add_succ_r.
Qed.

Lemma ledger_snoc log e : ledger (log ++ [e]) = (held ← ledger log; ledger_step (length log) held e).
Proof. apply ledger_from_snoc. Qed.

Lemma ledger_bound log held h k : ledger log = Some held -> held !! h = Some k -> (h < length log)%nat.
Proof.
  revert held. induction log as [|e log IH] using rev_ind; intros held.
  - by intros [= <-].
  - rewrite ledger_snoc, length_app. destruct (ledger log) as [held'|]; [| done].
    specialize (IH held' eq_refl). cbn. destruct e as [k'|h'|f h'|x]; cbn.
    + intros [= <-]. destruct (decide (h = length log)) as [->|Hne]; [lia |].
      rewrite lookup_insert_ne by done. intros Hk%IH. lia.
    + destruct (held' !! h'); [| done]. intros [= <-] Hk%IH. lia.
    + destruct (held' !! h') as [k'|]; [| done]. destruct (closes f k'); [| done].
      intros [= <-] [_ Hk]%lookup_delete_Some. apply IH in Hk. lia.
    + intros [= <-] Hk%IH. lia.
Qed.

Lemma ledger_fresh log held : ledger log = Some held -> held !! length log = None.
Proof.
  intros H. destruct (held !! length log) as [k|] eqn:E; [| done].
  apply (ledger_bound log held) in E; [lia | done].
Qed.
End Ledger.

Arguments HandleLog : clear implicits.

(** * Programs *)

(** Effects survive errors. *)
Definition Win (X E A : Type) : Type := HandleLog X -> result E A * HandleLog X.

#[export] Instance Win_ret (X E : Type) : MRet (Win X E) := fun A a log => (Ok a, log).

#[export] Instance Win_bind (X E : Type) : MBind (Win X E) :=
  fun A B f m log => match m log with (Ok a, log') => f a log' | (Err e, log') => (Err e, log') end.

Definition win_fail {X E A} (e : E) : Win X E A := fun log => (Err e, log).

Definition win_try {X E E' A} (m : Win X E A) : Win X E' (result E A) :=
  fun log => let '(r, log') := m log in (Ok r, log').

(** A call that opens a handle, with its outcome. *)
Definition opened {X E} (k : HandleKind) (outcome : result E unit) : Win X E Handle :=
  fun log => match outcome with Ok _ => (Ok (length log), log ++ [HOpen k]) | Err e => (Err e, log) end.

Definition emit {X E} (e : HandleEvent X) : Win X E unit := fun log => (Ok tt, log ++ [e]).

Definition used {X E} (h : Handle) : Win X E unit := emit (HUse h).

Definition closed {X E} (f : CloseFn) (h : Handle) : Win X E unit := emit (HClose f h).

Definition noted {X E} (x : X) : Win X E unit := emit (HOther x).

(** * Ownership

    From the handles [g] on, whatever else is open, [m] only uses and closes
    what is in [g] or what it opened itself, and ends with handles that its
    outcome accounts for. *)
Definition Owned : Type := list (Handle * HandleKind).

Definition accounts {X E A} (g : Owned) (m : Win X E A) (Q : result E A -> Owned -> Prop) : Prop :=
  forall log held frame, ledger log = Some held -> map_to_list held ≡ₚ g ++ frame ->
  exists held' t, ledger (m log).2 = Some held' /\ map_to_list held' ≡ₚ t ++ frame /\ Q (m log).1 t.

Section Rules.
Context {X E : Type}.

Lemma acc_ret {A} g (a : A) (Q : result E A -> Owned -> Prop) : Q (Ok a) g -> accounts g (mret a : Win X E A) Q.
Proof. intros HQ log held frame Hl Hp. by exists held, g. Qed.

Lemma acc_fail {A} g e (Q : result E A -> Owned -> Prop) : Q (Err e) g -> accounts g (win_fail e : Win X E A) Q.
Proof. intros HQ log held frame Hl Hp. by exists held, g. Qed.

Lemma acc_bind {A B} g (m : Win X E A) (f : A -> Win X E B) P Q : accounts g m P ->
  (forall a t, P (Ok a) t -> accounts t (f a) Q) -> (forall e t, P (Err e) t -> Q (Err e) t) ->
  accounts g (m ≫= f) Q.
Proof.
  intros Hm Hf He log held frame Hl Hp. unfold mbind, Win_bind.
  destruct (Hm log held frame Hl Hp) as (held' & t & Hl' & Hp' & HP).
  destruct (m log) as [[a|e] log']; cbn [fst snd] in *.
  - by apply (Hf a t HP log' held').
  - exists held', t. auto.
Qed.

Lemma acc_weaken {A} g (m : Win X E A) P Q : accounts g m P -> (forall r t, P r t -> Q r t) -> accounts g m Q.
Proof.
  intros Hm HPQ log held frame Hl Hp. destruct (Hm log held frame Hl Hp) as (held' & t & ? & ? & ?).
  exists held', t. auto.
Qed.

Lemma acc_perm {A} g g' (m : Win X E A) Q : g ≡ₚ g' -> accounts g m Q -> accounts g' m Q.
Proof. intros Hg Hm log held frame Hl Hp. apply (Hm log held frame Hl). by rewrite Hp, Hg. Qed.

(** The frame: what is not handed over stays. *)
Lemma acc_frame {A} g x (m : Win X E A) P : accounts g m P ->
  accounts (g ++ x) m (fun r t => exists t', t = t' ++ x /\ P r t').
Proof.
  intros Hm log held frame Hl Hp. rewrite <- app_assoc in Hp.
  destruct (Hm log held (x ++ frame) Hl Hp) as (held' & t & Hl' & Hp' & HP).
  exists held', (t ++ x). split_and!; [done | by rewrite <- app_assoc | by exists t].
Qed.

Lemma acc_try {E' A} g (m : Win X E A) P :
  accounts g m P -> accounts g (win_try m : Win X E' (result E A)) (fun r t => exists r', r = Ok r' /\ P r' t).
Proof.
  intros Hm log held frame Hl Hp. destruct (Hm log held frame Hl Hp) as (held' & t & ? & ? & ?).
  unfold win_try. destruct (m log) as [r log']. cbn in *. exists held', t. eauto.
Qed.

Lemma acc_open g k outcome (Q : result E Handle -> Owned -> Prop) :
  (outcome = Ok tt -> forall h, Q (Ok h) ((h, k) :: g)) -> (forall e, outcome = Err e -> Q (Err e) g) ->
  accounts g (opened k outcome : Win X E Handle) Q.
Proof.
  intros Hok Herr log held frame Hl Hp. unfold opened. destruct outcome as [[]|e]; cbn [fst snd].
  - exists (<[length log := k]> held), ((length log, k) :: g).
    rewrite ledger_snoc, Hl. split_and!; [done | | by apply Hok].
    rewrite map_to_list_insert by (by apply ledger_fresh). by rewrite Hp.
  - exists held, g. auto.
Qed.

Lemma held_lookup (held : gmap Handle HandleKind) g frame h k :
  map_to_list held ≡ₚ g ++ frame -> (h, k) ∈ g -> held !! h = Some k.
Proof.
  intros Hp Hin. apply elem_of_map_to_list. rewrite Hp. apply elem_of_app. by left.
Qed.

Lemma acc_use g h k (Q : result E unit -> Owned -> Prop) :
  (h, k) ∈ g -> Q (Ok tt) g -> accounts g (used h : Win X E unit) Q.
Proof.
  intros Hin HQ log held frame Hl Hp. exists held, g. unfold used, emit. cbn [fst snd]. rewrite ledger_snoc, Hl. cbn.
  by rewrite (held_lookup held g frame h k).
Qed.

Lemma acc_note g x (Q : result E unit -> Owned -> Prop) : Q (Ok tt) g -> accounts g (noted x : Win X E unit) Q.
Proof. intros HQ log held frame Hl Hp. exists held, g. unfold noted, emit. cbn [fst snd]. by rewrite ledger_snoc, Hl. Qed.

Lemma acc_close f g g' h k (Q : result E unit -> Owned -> Prop) :
  g ≡ₚ (h, k) :: g' -> closes f k = true -> Q (Ok tt) g' -> accounts g (closed f h : Win X E unit) Q.
Proof.
  intros Hg Hf HQ log held frame Hl Hp. exists (delete h held), g'. unfold closed, emit. cbn [fst snd]. rewrite ledger_snoc, Hl. cbn.
  assert (Hk : held !! h = Some k).
  { apply (held_lookup held g frame); [done |]. rewrite Hg. by apply elem_of_cons; left. }
  rewrite Hk, Hf. split_and!; [done | | done].
  apply (Permutation_cons_inv (a := (h, k))).
  rewrite <- map_to_list_insert by apply lookup_delete_eq. rewrite insert_delete_id by done.
  by rewrite Hp, Hg.
Qed.
(** The steps of straight-line code. *)
Lemma acc_bind_use {B} g h k (m : Win X E B) Q : (h, k) ∈ g -> accounts g m Q -> accounts g (used h;; m) Q.
Proof.
  intros Hin Hm. apply (acc_bind g (used h) _ (fun r t => r = Ok tt /\ t = g)).
  - by apply (acc_use g h k).
  - by intros [] t (_ & ->).
  - by intros e t ([=] & _).
Qed.

Lemma acc_bind_note {B} g x (m : Win X E B) Q : accounts g m Q -> accounts g (noted x;; m) Q.
Proof.
  intros Hm. apply (acc_bind g (noted x) _ (fun r t => r = Ok tt /\ t = g)).
  - by apply acc_note.
  - by intros [] t (_ & ->).
  - by intros e t ([=] & _).
Qed.

Lemma acc_bind_close {B} f g g' h k (m : Win X E B) Q :
  g ≡ₚ (h, k) :: g' -> closes f k = true -> accounts g' m Q -> accounts g (closed f h;; m) Q.
Proof.
  intros Hg Hf Hm. apply (acc_bind g (closed f h) _ (fun r t => r = Ok tt /\ t = g')).
  - by apply (acc_close f g g' h k).
  - by intros [] t (_ & ->).
  - by intros e t ([=] & _).
Qed.

Lemma acc_bind_open {B} g k outcome (m : Handle -> Win X E B) Q :
  (outcome = Ok tt -> forall h, accounts ((h, k) :: g) (m h) Q) ->
  (forall e, outcome = Err e -> Q (Err e) g) ->
  accounts g (opened k outcome ≫= m) Q.
Proof.
  intros Hok Herr. apply (acc_bind g (opened k outcome) _ (fun r t => match r with
    | Ok h => outcome = Ok tt /\ t = (h, k) :: g | Err e => outcome = Err e /\ t = g end)).
  - apply acc_open; eauto.
  - intros h t (Ho & ->). by apply Hok.
  - intros e t (Ho & ->). by apply Herr.
Qed.

Lemma acc_bind_try_open {E' B} g k outcome (m : result E Handle -> Win X E' B) Q :
  (outcome = Ok tt -> forall h, accounts ((h, k) :: g) (m (Ok h)) Q) ->
  (forall e, outcome = Err e -> accounts g (m (Err e)) Q) ->
  accounts g (win_try (opened k outcome) ≫= m) Q.
Proof.
  intros Hok Herr log held frame Hl Hp. destruct outcome as [[]|e].
  - apply (Hok eq_refl (length log) (log ++ [HOpen k]) (<[length log := k]> held)).
    + by rewrite ledger_snoc, Hl.
    + rewrite map_to_list_insert by (by apply ledger_fresh). by rewrite Hp.
  - by apply (Herr e eq_refl log held).
Qed.
End Rules.

(** What is proved of a program with nothing to begin with, in the terms of the
    log: a proper log stays proper and nothing that was open before is
    touched. *)
Lemma acc_run {X E A} (m : Win X E A) Q log held : accounts [] m Q -> ledger log = Some held ->
  exists held' t, ledger (m log).2 = Some held' /\ map_to_list held' ≡ₚ t ++ map_to_list held
    /\ Q (m log).1 t.
Proof. intros Hm Hl. by apply (Hm log held). Qed.

(** Membership and permutations of short concrete lists. *)
Ltac owned_in := repeat first [apply elem_of_cons; left; reflexivity | apply elem_of_cons; right].

Ltac owned_first h :=
  lazymatch goal with
  | |- (h, _) :: _ ≡ₚ _ => reflexivity
  | |- _ :: _ ≡ₚ _ => eapply perm_trans; [apply perm_skip; owned_first h | apply perm_swap]
  end.

(** One step of straight-line code without a choice. *)
Ltac acc_step :=
  lazymatch goal with
  | |- accounts _ (mbind _ (used _)) _ => eapply acc_bind_use; [owned_in |]
  | |- accounts _ (mbind _ (noted _)) _ => apply acc_bind_note
  | |- accounts _ (mbind _ (closed _ ?h)) _ => eapply acc_bind_close; [owned_first h | reflexivity |]
  | |- accounts _ (mret _) _ => apply acc_ret
  | |- accounts _ (win_fail _) _ => apply acc_fail
  end.
