(* ===== verification/Devices.v ===== *)
(** Devices found through SetupAPI: the VMulti digitizer
    ([crates/penflow-core/src/inject/vmulti.rs]), the devices that the injector
    creates ([win_ink.rs]), and the display adapters among which the virtual
    display is looked for ([crates/penflow-server/src/vdd.rs]).  Every handle is
    accounted for. *)
From stdpp Require Import list gmap strings.
From S2P Require Import Prelude Engine Text Utf16 Handles Vdd Inject.

(** * The VMulti digitizer *)

Definition VMULTI_VID : Z := 0x00FF.

Definition VMULTI_PID : Z := 0xBACC.

(** Without the messages. *)
Inductive VMultiError := VmNotFound | VmWin32 (hresult : Z).

(** A HID interface, as the system answers for it: the size of its detail,
    whether the detail can be had and the file opened, its vendor and product,
    its preparsed data, and the length of its output reports. *)
Record HidInterface := {
  hi_required : Z;
  hi_detail : bool;
  hi_file : result VMultiError unit;
  hi_attributes : option (Z * Z);
  hi_preparsed : result VMultiError unit;
  hi_caps : option Z;
}.

Section VMulti.
Context {X : Type}.

Definition matches_vmulti_control (i : HidInterface) (handle : Handle) : Win X VMultiError bool :=
  used handle;;
  match hi_attributes i with
  | None => mret false
  | Some (vid, pid) =>
      if negb (vid =? VMULTI_VID) || negb (pid =? VMULTI_PID) then mret false
      else
        used handle;;
        preparsed ← win_try (opened KPreparsed (hi_preparsed i));
        match preparsed with
        | Err _ => mret false
        | Ok p =>
            used p;;
            closed HidD_FreePreparsedData p;;
            mret (match hi_caps i with Some n => n =? Z.of_nat REPORT_BUF_LEN | None => false end)
        end
  end.

(** The enumeration from the interface [index] on; its end is an error of the
    call. *)
Fixpoint find_control (devinfo : Handle) (index : nat) (l : list HidInterface)
  : Win X VMultiError (option Handle) :=
  used devinfo;;
  match l with
  | [] => mret None
  | i :: l' =>
      used devinfo;;
      if hi_required i =? 0 then find_control devinfo (S index) l'
      else
        used devinfo;;
        if negb (hi_detail i) then find_control devinfo (S index) l'
        else
          file ← win_try (opened (KHid index) (hi_file i));
          match file with
          | Err _ => find_control devinfo (S index) l'
          | Ok handle =>
              is_control ← matches_vmulti_control i handle;
              if is_control : bool then mret (Some handle)
              else closed CloseHandle handle;; find_control devinfo (S index) l'
          end
  end.

(** [VMultiPen::open], for what [SetupDiGetClassDevsW] returns and the
    interfaces behind it; the buffer is [Inject.VMultiPen]'s. *)
Definition VMultiPen_open (class_devs : result VMultiError unit) (l : list HidInterface)
  : Win X VMultiError (Handle * VMultiPen) :=
  devinfo ← opened KDeviceList class_devs;
  found ← find_control devinfo 0 l;
  closed SetupDiDestroyDeviceInfoList devinfo;;
  match found with
  | Some handle => mret (handle, {| buf := replicate REPORT_BUF_LEN 0 |})
  | None => win_fail VmNotFound
  end.

Definition drop_vmulti {E} (handle : Handle) : Win X E unit := closed CloseHandle handle.

(** ** What it finds *)

(** An interface that is VMulti's control collection and can be opened. *)
Definition is_control (i : HidInterface) : bool :=
  negb (hi_required i =? 0) && hi_detail i && is_ok (hi_file i)
  && bool_decide (hi_attributes i = Some (VMULTI_VID, VMULTI_PID)) && is_ok (hi_preparsed i)
  && bool_decide (hi_caps i = Some (Z.of_nat REPORT_BUF_LEN)).

(** The first of them. *)
Fixpoint control_index (index : nat) (l : list HidInterface) : option nat :=
  match l with
  | [] => None
  | i :: l' => if is_control i then Some index else control_index (S index) l'
  end.

Lemma matches_exact i h k g : (h, k) ∈ g ->
  accounts g (matches_vmulti_control i h) (fun r t => t = g /\
    r = Ok (bool_decide (hi_attributes i = Some (VMULTI_VID, VMULTI_PID)) && is_ok (hi_preparsed i)
            && bool_decide (hi_caps i = Some (Z.of_nat REPORT_BUF_LEN)))).
Proof.
  intros Hin. unfold matches_vmulti_control. eapply acc_bind_use; [exact Hin |].
  destruct (hi_attributes i) as [[vid pid]|]; [| by apply acc_ret].
  destruct (negb (vid =? VMULTI_VID) || negb (pid =? VMULTI_PID)) eqn:Eid.
  { apply acc_ret. split; [done |]. rewrite bool_decide_false; [done |]. intros [= -> ->].
    by rewrite !Z.eqb_refl in Eid. }
  assert (vid = VMULTI_VID /\ pid = VMULTI_PID) as (-> & ->) by lia.
  rewrite bool_decide_true by done. eapply acc_bind_use; [exact Hin |].
  apply acc_bind_try_open; [intros -> p | intros e ->]; repeat acc_step; [| done].
  split; [done |]. f_equal. destruct (hi_caps i) as [n|]; cbn; [| done].
  case_bool_decide as Hn; [injection Hn as ->; apply Z.eqb_refl | apply Z.eqb_neq; congruence].
Qed.

(** What a search ends with, from [g]: the first control interface, opened. *)
Definition found (o : option nat) (g : Owned) (r : result VMultiError (option Handle)) (t : Owned) : Prop :=
  match o with
  | Some index => exists h, r = Ok (Some h) /\ t = (h, KHid index) :: g
  | None => r = Ok None /\ t = g
  end.

Lemma find_exact devinfo l : forall index g, (devinfo, KDeviceList) ∈ g ->
  accounts g (find_control devinfo index l) (found (control_index index l) g).
Proof.
  induction l as [|i l IH]; intros index g Hin; cbn [find_control control_index];
    (eapply acc_bind_use; [exact Hin |]); [by apply acc_ret |].
  unfold is_control. eapply acc_bind_use; [exact Hin |].
  destruct (hi_required i =? 0); cbn [negb andb]; [by apply IH |].
  eapply acc_bind_use; [exact Hin |]. destruct (hi_detail i); cbn [negb andb]; [| by apply IH].
  apply acc_bind_try_open; [intros -> h | intros e ->]; cbn [is_ok andb]; [| by apply IH].
  eapply acc_bind; [apply (matches_exact i h (KHid index)); owned_in | | by intros e t (_ & [=])].
  intros b t (-> & [= ->]). destruct (_ && _ && _); [apply acc_ret; by exists h |].
  repeat acc_step. by apply IH.
Qed.

(** The device list is destroyed, every file that is not the digitizer's is
    closed, and the one that is handed out is the first control interface's. *)
Lemma vmulti_open_exact class_devs l :
  accounts [] (VMultiPen_open class_devs l) (fun r t =>
    match class_devs, control_index 0 l with
    | Err e, _ => r = Err e /\ t = []
    | Ok _, None => r = Err VmNotFound /\ t = []
    | Ok _, Some index => exists h, r = Ok (h, {| buf := replicate REPORT_BUF_LEN 0 |}) /\ t = [(h, KHid index)]
    end).
Proof.
  unfold VMultiPen_open. apply acc_bind_open; [intros -> devinfo | intros e ->; done].
  eapply acc_bind; [apply (find_exact devinfo l 0); owned_in | |].
  - intros o t Ho. unfold found in Ho. destruct (control_index 0 l) as [index|].
    + destruct Ho as (h & [= ->] & ->). repeat acc_step. by exists h.
    + destruct Ho as ([= ->] & ->). by repeat acc_step.
  - intros e t Ho. unfold found in Ho. destruct (control_index 0 l); [by destruct Ho as (h & [=] & _) | by destruct Ho].
Qed.
End VMulti.

(** * The injector's devices *)

Record InjectorHandles := { pen_device : Handle; touch_device : Handle; vmulti_handle : option Handle }.

Section Injector.
Context {X : Type}.

(** The process-wide [SetProcessDpiAwarenessContext]. *)
Context (dpi_awareness : X).

(** [InputInjector::new]; the profile is the default one. *)
Definition InputInjector_open (profile : PenButtonProfile) (pen touch : EngineResult unit)
    (class_devs : result VMultiError unit) (l : list HidInterface)
  : Win X EngineError (InjectorHandles * InputInjector) :=
  noted dpi_awareness;;
  pen_device ← opened KPointerDevice pen;
  touch ← win_try (opened KPointerDevice touch);
  match touch with
  | Err e => closed DestroySyntheticPointerDevice pen_device;; win_fail e
  | Ok touch_device =>
      vmulti ← win_try (VMultiPen_open class_devs l);
      let v := result_ok vmulti in
      mret ({| pen_device := pen_device; touch_device := touch_device; vmulti_handle := fst <$> v |},
            InputInjector_new profile (snd <$> v))
  end.

(** [Drop], then the drop of its fields. *)
Definition drop_injector (h : InjectorHandles) : Win X EngineError unit :=
  closed DestroySyntheticPointerDevice (touch_device h);;
  closed DestroySyntheticPointerDevice (pen_device h);;
  match vmulti_handle h with Some v => drop_vmulti v | None => mret tt end.

(** What an injector owns. *)
Definition injector_owned (l : list HidInterface) (h : InjectorHandles) : Owned :=
  match vmulti_handle h, control_index 0 l with
  | Some v, Some index => [(v, KHid index)]
  | _, _ => []
  end ++ [(touch_device h, KPointerDevice); (pen_device h, KPointerDevice)].

(** A new injector owns its two devices, and the digitizer exactly when one was
    found; a failed creation leaves nothing. *)
Lemma injector_open_exact profile pen touch class_devs l :
  accounts [] (InputInjector_open profile pen touch class_devs l) (fun r t =>
    match r with
    | Ok (h, s) => pen = Ok tt /\ touch = Ok tt /\ t = injector_owned l h
        /\ using_vmulti s = bool_decide (is_ok class_devs = true /\ is_Some (control_index 0 l))
        /\ (vmulti_handle h = None <-> using_vmulti s = false)
    | Err e => t = [] /\ (pen = Err e \/ pen = Ok tt /\ touch = Err e)
    end).
Proof.
  unfold InputInjector_open. acc_step.
  apply acc_bind_open; [intros -> p | intros e ->; by auto].
  apply acc_bind_try_open; [intros -> th | intros e ->; repeat acc_step; by auto].
  eapply acc_bind; [eapply acc_try, (acc_frame [] _ _ _ (vmulti_open_exact class_devs l)) | | by intros e t (? & [=] & _)].
  intros a t (v & [= ->] & t' & -> & H).
  apply acc_ret. unfold injector_owned, using_vmulti. cbn [vmulti_handle touch_device pen_device vmulti InputInjector_new].
  destruct class_devs as [[]|e]; [destruct (control_index 0 l) as [index|] |].
  - destruct H as (h & -> & ->). cbn. by split_and!.
  - destruct H as (-> & ->). cbn. by split_and!.
  - destruct H as (-> & ->). cbn. by split_and!.
Qed.

Lemma injector_dropped l h : (is_Some (vmulti_handle h) -> is_Some (control_index 0 l)) ->
  accounts (injector_owned l h) (drop_injector h) (fun r t => r = Ok tt /\ t = []).
Proof.
  intros Hv. unfold drop_injector, injector_owned, drop_vmulti. destruct (vmulti_handle h) as [v|]; cbn [app].
  - destruct (Hv ltac:(eauto)) as (index & ->). cbn [app]. repeat acc_step.
    eapply acc_close; [owned_first v | done | done].
  - by repeat acc_step.
Qed.
End Injector.

(** [is_vmulti_installed]: the digitizer is opened and dropped again. *)
Definition is_vmulti_installed {X} (class_devs : result VMultiError unit) (l : list HidInterface)
  : Win X VMultiError bool :=
  r ← win_try (VMultiPen_open class_devs l);
  match r with Ok (handle, _) => drop_vmulti handle;; mret true | Err _ => mret false end.

Lemma is_vmulti_installed_exact {X} class_devs l :
  accounts [] (is_vmulti_installed class_devs l : Win X _ _) (fun r t => t = [] /\
    r = Ok (bool_decide (is_ok class_devs = true /\ is_Some (control_index 0 l)))).
Proof.
  unfold is_vmulti_installed.
  eapply acc_bind; [eapply acc_try, vmulti_open_exact | | by intros e t (? & [=] & _)].
  intros a t (r & [= ->] & H).
  destruct class_devs as [[]|e]; [destruct (control_index 0 l) as [index|] |].
  - destruct H as (h & -> & ->). unfold drop_vmulti. repeat acc_step.
    by rewrite bool_decide_true by eauto.
  - destruct H as (-> & ->). acc_step. split; [done |].
    rewrite bool_decide_false; [done | by intros (_ & [? [=]])].
  - destruct H as (-> & ->). acc_step. by rewrite bool_decide_false by (intros ([=] & _)).
Qed.

(** * Display adapters *)

(** A device of the class, as the system answers for it: the buffer of its
    instance id, the buffers of two registry properties with the size that is
    reported, and its status. *)
Record ClassDevice := {
  cd_instance_id : option (list Z);
  cd_device_desc : option (list Z * Z);
  cd_friendly_name : option (list Z * Z);
  cd_status : result VddError (Z * Z);
}.

Record FoundDevice := { fd_instance_id : Str; fd_friendly_name : Str; fd_is_disabled : bool }.

Definition get_instance_id (answer : option (list Z)) : option Str :=
  buf ← answer; Some (from_utf16_lossy (until_nul buf)).

(** The units of a byte buffer. *)
Definition le_units (buf : list Z) (n : nat) : list Z :=
  List.map (fun i => nth (2 * i) buf 0 + 256 * nth (2 * i + 1) buf 0) (seq 0 n).

Definition get_string_property (answer : option (list Z * Z)) : option Str :=
  '(buf, required) ← answer;
  let len_bytes := Nat.min (Z.to_nat required) (length buf) in
  Some (from_utf16_lossy (until_nul (le_units buf (Nat.div len_bytes 2)))).

Definition non_empty (s : option Str) : option Str := match s with Some [] => None | _ => s end.

Definition display_device (env : VddEnv) (d : ClassDevice) : option FoundDevice :=
  id ← get_instance_id (cd_instance_id d);
  let name :=
    match non_empty (get_string_property (cd_device_desc d)) with
    | Some n => n
    | None => default id (non_empty (get_string_property (cd_friendly_name d)))
    end in
  Some {| fd_instance_id := id; fd_friendly_name := name;
          fd_is_disabled := match cd_status d with Ok s => reads_disabled env s | Err _ => false end |}.

(** The round for a device that has an id reads its properties. *)
Fixpoint enumerate_loop {X} (env : VddEnv) (info_set : Handle) (l : list ClassDevice)
  : Win X VddError (list FoundDevice) :=
  used info_set;;
  match l with
  | [] => mret []
  | d :: l' =>
      used info_set;;
      match display_device env d with
      | None => enumerate_loop env info_set l'
      | Some found =>
          used info_set;;
          out ← enumerate_loop env info_set l';
          mret (found :: out)
      end
  end.

(** [class_devs]: what [SetupDiGetClassDevsW] returns, an invalid handle being
    an error as well. *)
Definition enumerate_display_devices {X} (env : VddEnv) (class_devs : result VddError unit)
    (l : list ClassDevice) : Win X VddError (list FoundDevice) :=
  info_set ← opened KDeviceList class_devs;
  out ← enumerate_loop env info_set l;
  closed SetupDiDestroyDeviceInfoList info_set;;
  mret out.

Definition discovered (d : FoundDevice) : DiscoveredDevice :=
  {| instance_id := to_string (fd_instance_id d); friendly_name := to_string (fd_friendly_name d);
     is_disabled := fd_is_disabled d |}.

(** [VddController::detect] on the system, with its selection from [Vdd]. *)
Definition detect_display {X} (env : VddEnv) (class_devs : result VddError unit) (l : list ClassDevice)
  : Win X VddError (option DiscoveredDevice) :=
  candidates ← enumerate_display_devices env class_devs l;
  mret (Vdd.detect (List.map discovered candidates)).

(** The command [is_vdd_installed]. *)
Definition is_vdd_installed {X} (env : VddEnv) (class_devs : result VddError unit) (l : list ClassDevice)
  : Win X VddError bool :=
  r ← win_try (detect_display env class_devs l);
  mret (match r with Ok (Some _) => true | _ => false end).

(** ** What it reads *)

(** A property as the system gives it for a buffer of 1024 bytes; one that is
    longer is an error. *)
Definition le_bytes (l : list Z) : list Z := l ≫= fun u => [Z.land u 255; Z.shiftr u 8].

Definition fits_buffer (s : Str) : bool := Nat.leb (length (wide_z s)) 512.

Definition stored_property (s : Str) : option (list Z * Z) :=
  let bytes := le_bytes (wide_z s) in
  if fits_buffer s then Some (bytes ++ replicate (1024 - length bytes) 0, Z.of_nat (length bytes)) else None.

Lemma le_bytes_length l : length (le_bytes l) = (2 * length l)%nat.
Proof. induction l as [|u l IH]; [done |]. change (le_bytes (u :: l)) with (Z.land u 255 :: Z.shiftr u 8 :: le_bytes l). cbn [length]. lia. Qed.

Lemma le_units_cons a b buf n : le_units (a :: b :: buf) (S n) = a + 256 * b :: le_units buf n.
Proof.
  unfold le_units. cbn [seq List.map]. f_equal. rewrite <- seq_shift, List.map_map.
  apply map_ext. intros i. by replace (2 * S i)%nat with (S (S (2 * i))) by lia.
Qed.

Lemma le_units_bytes l rest : le_units (le_bytes l ++ rest) (length l) = l.
Proof.
  induction l as [|u l IH]; [done |].
  change (le_bytes (u :: l) ++ rest) with (Z.land u 255 :: Z.shiftr u 8 :: (le_bytes l ++ rest)).
  cbn [length]. rewrite le_units_cons, IH. f_equal.
  change 255 with (Z.ones 8). rewrite Z.land_ones, Z.shiftr_div_pow2 by lia. change (2 ^ 8) with 256.
  pose proof (Z.div_mod u 256). lia.
Qed.

Lemma stored_property_read s : printable s ->
  get_string_property (stored_property s) = if fits_buffer s then Some s else None.
Proof.
  intros Hs. unfold stored_property. destruct (fits_buffer s) eqn:Hl; [| done]. unfold fits_buffer in Hl. apply Nat.leb_le in Hl.
  unfold get_string_property. cbn [mbind option_bind].
  rewrite Nat2Z.id, length_app, le_bytes_length, length_replicate.
  replace (Nat.min _ _) with (2 * length (wide_z s))%nat by lia.
  rewrite (Nat.mul_comm 2), Nat.div_mul, le_units_bytes by lia.
  rewrite <- (app_nil_r (wide_z s)). by rewrite wide_roundtrip.
Qed.

(** A device as the system has it; not every device has an id, a description
    or a friendly name. *)
Record SystemDevice := {
  sd_id : option Str; sd_description : option Str; sd_friendly_name : option Str;
  sd_status : result VddError (Z * Z) }.

(** The buffer of an id has something behind it. *)
Definition stored_device (behind : list Z) (d : SystemDevice) : ClassDevice :=
  {| cd_instance_id := (fun id => wide_z id ++ behind) <$> sd_id d;
     cd_device_desc := sd_description d ≫= stored_property;
     cd_friendly_name := sd_friendly_name d ≫= stored_property; cd_status := sd_status d |}.

(** A name that can be shown. *)
Definition shown (name : option Str) : option Str :=
  match name with Some (c :: s) => if fits_buffer (c :: s) then Some (c :: s) else None | _ => None end.

(** What is to be read of it: nothing without an id; the description for the
    name, or else the friendly name, or else the id. *)
Definition described (env : VddEnv) (d : SystemDevice) : option FoundDevice :=
  match sd_id d with
  | None => None
  | Some id =>
      Some {| fd_instance_id := id;
              fd_friendly_name :=
                match shown (sd_description d), shown (sd_friendly_name d) with
                | Some name, _ => name
                | None, Some name => name
                | None, None => id
                end;
              fd_is_disabled := match sd_status d with Ok s => reads_disabled env s | Err _ => false end |}
  end.

(** Strings without a NUL, of scalar values. *)
Definition describable (d : SystemDevice) : Prop :=
  forall s, sd_id d = Some s \/ sd_description d = Some s \/ sd_friendly_name d = Some s -> printable s.

Lemma name_read name : (forall s, name = Some s -> printable s) ->
  non_empty (get_string_property (name ≫= stored_property)) = shown name.
Proof.
  destruct name as [s|]; [| done]. intros H. cbn [mbind option_bind]. rewrite stored_property_read by auto.
  unfold shown. destruct s as [|c s]; [by destruct (fits_buffer []) |]. by destruct (fits_buffer (c :: s)).
Qed.

Lemma stored_device_read env behind d : describable d -> display_device env (stored_device behind d) = described env d.
Proof.
  intros Hd. unfold display_device, described, stored_device, get_instance_id.
  cbn [cd_instance_id cd_device_desc cd_friendly_name cd_status].
  destruct (sd_id d) as [id|] eqn:Eid; [| done]. cbn [fmap option_fmap option_map mbind option_bind].
  rewrite wide_roundtrip by auto. rewrite !name_read by (intros s Hs; apply Hd; auto).
  by destruct (shown (sd_description d)), (shown (sd_friendly_name d)).
Qed.

Lemma enumerate_loop_exact {X} env info_set (l : list ClassDevice) : forall g, (info_set, KDeviceList) ∈ g ->
  accounts g (enumerate_loop env info_set l : Win X _ _) (fun r t => t = g /\ r = Ok (omap (display_device env) l)).
Proof.
  induction l as [|d l IH]; intros g Hin; cbn [enumerate_loop]; (eapply acc_bind_use; [exact Hin |]); [by apply acc_ret |].
  eapply acc_bind_use; [exact Hin |]. cbn [omap list_omap]. destruct (display_device env d) as [fd|]; [| by apply IH].
  eapply acc_bind_use; [exact Hin |]. eapply acc_bind; [by apply IH | | by intros e t (_ & [=])].
  intros out t (-> & [= ->]). by apply acc_ret.
Qed.

Lemma enumerate_exact_list {X} env class_devs l :
  accounts [] (enumerate_display_devices env class_devs l : Win X _ _) (fun r t => t = [] /\
    r = (_ ← class_devs; Ok (omap (display_device env) l))).
Proof.
  unfold enumerate_display_devices. apply acc_bind_open; [intros -> info_set | by intros e ->].
  eapply acc_bind; [apply enumerate_loop_exact; owned_in | | by intros e t (_ & [=])].
  intros out t (-> & [= ->]). by repeat acc_step.
Qed.

(** The selection is made among all devices with an id, and the list is given
    back. *)
Lemma detect_exact {X} env class_devs l :
  accounts [] (detect_display env class_devs l : Win X _ _) (fun r t => t = [] /\
    r = (_ ← class_devs; Ok (Vdd.detect (List.map discovered (omap (display_device env) l))))).
Proof.
  unfold detect_display. eapply acc_bind; [apply enumerate_exact_list | |].
  - intros out t (-> & H). apply acc_ret. destruct class_devs as [[]|]; [| done]. by injection H as ->.
  - intros e t (-> & H). destruct class_devs as [[]|]; [done |]. cbn in *. by injection H as ->.
Qed.

(** * All of it *)

(** An injector that is created and dropped. *)
Definition injector_session {X} (dpi : X) (profile : PenButtonProfile) (pen touch : EngineResult unit)
    (class_devs : result VMultiError unit) (l : list HidInterface) : Win X EngineError bool :=
  '(h, s) ← InputInjector_open dpi profile pen touch class_devs l;
  drop_injector h;;
  mret (using_vmulti s).

Lemma described_read env behind ds : Forall describable ds ->
  omap (display_device env) (List.map (stored_device behind) ds) = omap (described env) ds.
Proof.
  induction 1 as [|d ds Hd _ IH]; [done |]. cbn [List.map omap list_omap]. by rewrite stored_device_read, IH.
Qed.

(** C39. Devices are found exactly and let go of entirely.  An injector uses the
    digitizer exactly when some HID interface is its control collection, and
    when it is dropped, or could not be created, every device, file, device list
    and parser data is closed once and by its own function.  The detection of
    the virtual display chooses among all display devices that have an id, each
    with the state that the system has for it and with its description as its
    name, or its friendly name when it has no description (or one that does not
    fit the buffer), or its id when it has neither; and it leaves no device list
    behind. *)
Theorem devices_accounted {X} (dpi : X) env profile pen touch class_devs l display_devs ds behind :
  Forall describable ds ->
  let devices := List.map (stored_device behind) ds in
  accounts [] (injector_session dpi profile pen touch class_devs l) (fun r t => t = [] /\
    r = (_ ← pen; _ ← touch; Ok (bool_decide (is_ok class_devs = true /\ is_Some (control_index 0 l)))))
  /\ accounts [] (is_vmulti_installed class_devs l : Win X _ _) (fun r t => t = [] /\
    r = Ok (bool_decide (is_ok class_devs = true /\ is_Some (control_index 0 l))))
  /\ accounts [] (detect_display env display_devs devices : Win X _ _) (fun r t => t = [] /\
    r = (_ ← display_devs; Ok (Vdd.detect (List.map discovered (omap (described env) ds))))).
Proof.
  intros Hds devices. split_and!; [| apply is_vmulti_installed_exact |].
  - unfold injector_session. eapply acc_bind; [apply injector_open_exact | |].
    + intros [h s] t (-> & -> & -> & Hu & Hv). eapply acc_bind; [apply injector_dropped | | by intros e t ([=] & _)].
      * rewrite Hu in Hv. intros (v & Hh). case_bool_decide as E; [by destruct E |].
        by rewrite (proj2 Hv eq_refl) in Hh.
      * intros [] t (_ & ->). apply acc_ret. by rewrite Hu.
    + by intros e t (-> & [-> | (-> & ->)]).
  - subst devices. eapply acc_weaken; [apply detect_exact |]. cbn beta. intros r t (-> & ->).
    by rewrite described_read.
Qed.

(** The digitizer is the third interface, behind one of another vendor and one
    that cannot be opened; the virtual display is disabled, and only has a
    friendly name; beside it there are a graphics card and a device without an
    id. *)
Definition demo_interfaces : list HidInterface :=
  let hid vid len file :=
    {| hi_required := 100; hi_detail := true; hi_file := file; hi_attributes := Some (vid, VMULTI_PID);
       hi_preparsed := Ok tt; hi_caps := Some len |} in
  [hid 0x046D 65 (Ok tt); hid VMULTI_VID 65 (Err (VmWin32 5)); hid VMULTI_VID 65 (Ok tt)].

Definition demo_env : VddEnv :=
  {| is_process_elevated := false; DN_HAS_PROBLEM := 1024; CM_PROB_DISABLED := 22;
     env_devcon := fun _ _ => None; env_status := fun _ => Ok (1024, 22); env_polls := fun _ => 0%nat;
     env_started := fun _ => true; env_in_time := fun _ => true; env_exit_code := fun _ => true |}.

Definition demo_devices : list SystemDevice :=
  [{| sd_id := None; sd_description := Some (lit "Virtual Display Driver"); sd_friendly_name := None; sd_status := Ok (0, 0) |};
   {| sd_id := Some (lit "PCI\VEN_10DE"); sd_description := Some (lit "Graphics"); sd_friendly_name := None; sd_status := Ok (0, 0) |};
   {| sd_id := Some (lit "ROOT\DISPLAY\0000"); sd_description := Some []; sd_friendly_name := Some (lit "Virtual Display Driver");
      sd_status := Ok (1024, 22) |}].

Lemma printable_ascii s : forallb (fun c => (0 <? c) && (c <? 128)) s = true -> printable s.
Proof.
  intros H. apply List.Forall_forall. intros c Hc. rewrite List.forallb_forall in H. specialize (H c Hc).
  unfold scalar. lia.
Qed.

Lemma describable_demo : Forall describable demo_devices.
Proof.
  repeat apply Forall_cons_2; [.. | done]; intros s [H | [H | H]]; cbn in H; try discriminate H;
    injection H as <-; by apply printable_ascii.
Qed.

Lemma devices_accounted_witness :
  (exists held', ledger (injector_session tt (default_profile 17 16 69) (Ok tt) (Ok tt) (Ok tt) demo_interfaces []).2
     = Some held' /\ map_to_list held' = [])
  /\ (injector_session tt (default_profile 17 16 69) (Ok tt) (Ok tt) (Ok tt) demo_interfaces []).1 = Ok true
  /\ (detect_display demo_env (Ok tt) (List.map (stored_device [7]) demo_devices)
        ([] : HandleLog unit)).1
     = Ok (Some {| instance_id := "ROOT\DISPLAY\0000"; friendly_name := "Virtual Display Driver"; is_disabled := true |}).
Proof.
  destruct (devices_accounted tt demo_env (default_profile 17 16 69) (Ok tt) (Ok tt) (Ok tt) demo_interfaces (Ok tt)
              demo_devices [7] describable_demo) as (H1 & _ & H2).
  destruct (acc_run _ _ [] ∅ H1 eq_refl) as (held & t & Hl & Hp & -> & Hr).
  destruct (acc_run _ _ [] ∅ H2 eq_refl) as (held2 & t2 & _ & _ & _ & Hr2).
  split_and!.
  - exists held. split; [exact Hl |]. rewrite map_to_list_empty in Hp. by apply Permutation_nil_r in Hp.
  - rewrite Hr. vm_compute. reflexivity.
  - rewrite Hr2. vm_compute. reflexivity.
Defined.
