(* ===== verification/Elevated.v ===== *)
(** Processes and handles around elevation: the parent's side of the helpers of
    [crates/penflow-server/src/vdd.rs], the whole resident helper with its watch
    on the parent, and the elevation, job and registry calls of
    [os.rs] and [crates/penflow-transport/src/adb.rs]. *)
From stdpp Require Import list gmap.
From S2P Require Import Prelude Handles Vdd.

(** What else such a process does. *)
Inductive ProcessEvent :=
| PDevice (e : Event)
| PSignal (h : Handle)
| PShell.

Definition Proc : Type -> Type := Win ProcessEvent VddError.

(** * The parent's side *)

(** [is_process_elevated], and [is_elevated] of [os.rs]: [token] and [info] are
    what the two queries return. *)
Definition query_elevation (token : result VddError unit) (info : option bool) : Proc bool :=
  r ← win_try (opened KToken token);
  match r with
  | Err _ => mret false
  | Ok t => used t;; closed CloseHandle t;; mret (default false info)
  end.

(** [ShellExecuteExW] with the process it returns; an invalid handle is an
    error too. *)
Definition shell_execute (started : result VddError unit) : Proc Handle :=
  noted PShell;; opened KProcess started.

(** Waiting for an elevated process: its exit code, zero when it cannot be
    read. *)
Definition wait_exit_code (process : Handle) (code : option Z) : Proc Z :=
  used process;; used process;; closed CloseHandle process;; mret (default 0 code).

(** [run_helper_elevated]; [exe]: whether the program's own path can be had. *)
Definition run_helper_process (exe started : result VddError unit) (code : option Z) : Proc unit :=
  match exe with
  | Err e => win_fail e
  | Ok _ =>
      process ← shell_execute started;
      code ← wait_exit_code process code;
      if code =? 0 then mret tt else win_fail (HelperExitedNonZero (Some (swrap 32 code)))
  end.

(** [run_elevated_wait]. *)
Definition run_elevated_wait (started : result VddError unit) (code : option Z) : Proc Z :=
  process ← shell_execute started;
  code ← wait_exit_code process code;
  mret (swrap 32 code).

Record ResidentHelper := { rh_process : Handle; rh_done : Handle; rh_stop : Handle }.

(** [spawn_resident_helper]; [wait]: what the wait for the done event or the
    process returns. *)
Definition spawn_resident (exe create_done create_stop started : result VddError unit) (wait : Z)
  : Proc ResidentHelper :=
  match exe with
  | Err e => win_fail e
  | Ok _ =>
      done_evt ← opened KEvent create_done;
      stop ← win_try (opened KEvent create_stop);
      match stop with
      | Err e => closed CloseHandle done_evt;; win_fail e
      | Ok stop_evt =>
          process ← win_try (shell_execute started);
          match process with
          | Err e => closed CloseHandle done_evt;; closed CloseHandle stop_evt;; win_fail e
          | Ok process =>
              used done_evt;; used process;;
              if wait =? 0 then mret {| rh_process := process; rh_done := done_evt; rh_stop := stop_evt |}
              else
                used process;; used process;;
                closed CloseHandle done_evt;; closed CloseHandle stop_evt;; closed CloseHandle process;;
                win_fail ShellExecute
          end
      end
  end.

Definition signal (h : Handle) : Proc unit := used h;; noted (PSignal h).

(** [ResidentHelper::shutdown]. *)
Definition shutdown_process (h : ResidentHelper) (in_time : bool) (code : option Z) : Proc ShutdownOutcome :=
  signal (rh_stop h);;
  used (rh_process h);;
  if negb in_time then mret Timeout
  else
    used (rh_process h);;
    mret (match code with
          | None => NonZero 0
          | Some c => if c =? 0 then Clean else NonZero c
          end).

(** Its [Drop]. *)
Definition drop_resident (h : ResidentHelper) (in_time : bool) (code : option Z) : Proc unit :=
  shutdown_process h in_time code;;
  closed CloseHandle (rh_process h);; closed CloseHandle (rh_done h);; closed CloseHandle (rh_stop h).

(** * The resident helper *)

Definition WAIT_TIMEOUT : Z := 258.

Definition WAIT_FAILED : Z := 0xFFFFFFFF.

Definition STILL_ACTIVE : Z := 259.

(** One round of the watch: what the wait for the stop event or the parent
    returns within a second, and the parent's exit code if it can be read. *)
Record WaitAnswer := { wa_wait : Z; wa_exit : option Z }.

(** Why the helper tears down; [None]: it waits again. *)
Definition judge (a : WaitAnswer) : option Z :=
  if wa_wait a =? 0 then Some 0
  else if wa_wait a =? 1 then Some 1
  else if wa_wait a =? WAIT_TIMEOUT then
    match wa_exit a with
    | Some code => if code =? STILL_ACTIVE then None else Some 1
    | None => Some 2
    end
  else if wa_wait a =? WAIT_FAILED then Some 2
  else Some (uwrap 32 (wa_wait a)).

(** [None]: still waiting after [fuel] rounds. *)
Fixpoint watch_parent (fuel : nat) (answers : nat -> WaitAnswer) (round : nat) (stop_evt h : Handle)
  : Proc (option Z) :=
  match fuel with
  | O => mret None
  | S fuel' =>
      used stop_evt;; used h;;
      (if wa_wait (answers round) =? WAIT_TIMEOUT then used h;; mret tt else mret tt);;
      match judge (answers round) with
      | Some trigger => mret (Some trigger)
      | None => watch_parent fuel' answers (S round) stop_evt h
      end
  end.

(** The device events of a process, and a part of it that is [Vdd]'s. *)
Definition trace_of (log : HandleLog ProcessEvent) : Trace :=
  omap (fun e => match e with HOther (PDevice e) => Some e | _ => None end) log.

Definition device {A} (m : V A) : Proc (result VddError A) :=
  fun log =>
    let '(r, tr) := m (trace_of log) in
    (Ok r, log ++ List.map (fun e => HOther (PDevice e)) (drop (length (trace_of log)) tr)).

(** What the process meets: the outcomes of opening its events and its parent,
    whether the stop event is ever set, and the rounds of the watch. *)
Record HelperWorld := {
  hw_done : result VddError unit;
  hw_stop : result VddError unit;
  hw_parent : result VddError unit;
  hw_stop_set : bool;
  hw_answers : nat -> WaitAnswer;
}.

Section ResidentMain.
Context (env : VddEnv) (w : HelperWorld).

(** The wait after the enable. *)
Definition await_trigger (fuel : nat) (stop_evt : Handle) : Proc (option Z) :=
  parent ← win_try (opened KProcess (hw_parent w));
  match parent with
  | Ok h =>
      trigger ← watch_parent fuel (hw_answers w) 0 stop_evt h;
      match trigger with
      | Some t => closed CloseHandle h;; mret (Some t)
      | None => mret None
      end
  | Err _ => used stop_evt;; mret (if hw_stop_set w then Some 0 else None)
  end.

(** [resident_helper_main]: its exit code, or [None] while it waits. *)
Definition resident_helper_main (fuel : nat) : Proc (option Z) :=
  done_evt ← win_try (opened KEvent (hw_done w));
  match done_evt with
  | Err _ => mret (Some 2)
  | Ok done_evt =>
      stop_evt ← win_try (opened KEvent (hw_stop w));
      match stop_evt with
      | Err _ => closed CloseHandle done_evt;; mret (Some 2)
      | Ok stop_evt =>
          enabled ← device (devcon_action env Enable);
          match enabled with
          | Err _ =>
              signal done_evt;; closed CloseHandle done_evt;; closed CloseHandle stop_evt;; mret (Some 1)
          | Ok _ =>
              device (verify_devnode_started env);;
              signal done_evt;;
              trigger ← await_trigger fuel stop_evt;
              match trigger with
              | None => mret None
              | Some _ =>
                  r ← device (devcon_action env Disable;; verify_devnode_disabled env);
                  closed CloseHandle done_evt;; closed CloseHandle stop_evt;;
                  mret (Some (if is_ok r then 0 else 1))
              end
          end
      end
  end.
End ResidentMain.

(** * Other handles *)

(** The registry key of [set_autostart]; [exe]: whether the program's path can
    be had. *)
Definition autostart_key (create : result VddError unit) (enabled : bool) (exe value : result VddError unit)
  : Proc unit :=
  hkey ← opened KRegistryKey create;
  result ← (if enabled : bool then
              match exe with
              | Err e => win_fail e
              | Ok _ => used hkey;; mret value
              end
            else used hkey;; mret value);
  closed RegCloseKey hkey;;
  match result with Ok _ => mret tt | Err e => win_fail e end.

(** [mark_kill_children_on_exit]; the job of a success lives as long as the
    process. *)
Definition mark_kill_children_on_exit (create limit assign : result VddError unit) : Proc (option Handle) :=
  job ← win_try (opened KJob create);
  match job with
  | Err _ => mret None
  | Ok job =>
      used job;;
      if negb (is_ok limit) then mret None
      else used job;; if negb (is_ok assign) then mret None else mret (Some job)
  end.

(** * Handles *)

Lemma acc_signal {B} g h k (m : Proc B) Q : (h, k) ∈ g -> accounts g m Q -> accounts g (signal h;; m) Q.
Proof.
  intros Hin Hm. apply (acc_bind g (signal h) _ (fun r t => r = Ok tt /\ t = g)).
  - unfold signal. eapply acc_bind_use; [exact Hin |]. by apply acc_note.
  - by intros [] t (_ & ->).
  - by intros e t ([=] & _).
Qed.

Lemma acc_shell_execute g started : accounts g (shell_execute started) (fun r t =>
  match r with Ok h => started = Ok tt /\ t = (h, KProcess) :: g | Err e => started = Err e /\ t = g end).
Proof. unfold shell_execute. apply acc_bind_note. by apply acc_open. Qed.

Lemma acc_wait_exit_code g h code :
  accounts ((h, KProcess) :: g) (wait_exit_code h code) (fun r t => r = Ok (default 0 code) /\ t = g).
Proof. unfold wait_exit_code. by repeat acc_step. Qed.

(** A process that is waited for, and what is made of its exit code. *)
Lemma helper_process_exact exe started code :
  accounts [] (run_helper_process exe started code) (fun r t => t = [] /\
    r = (_ ← exe; _ ← started; if default 0 code =? 0 then Ok tt else Err (HelperExitedNonZero (Some (swrap 32 (default 0 code))))))
  /\ accounts [] (run_elevated_wait started code) (fun r t => t = [] /\
    r = (_ ← started; Ok (swrap 32 (default 0 code)))).
Proof.
  split; unfold run_helper_process, run_elevated_wait; [destruct exe; [| by acc_step] |].
  all: eapply acc_bind; [apply acc_shell_execute | | by intros e t (-> & ->)].
  all: intros h t (-> & ->); (eapply acc_bind; [apply acc_wait_exit_code | | by intros e t ([=] & _)]).
  all: intros c t ([= ->] & ->); cbn [mbind result_bind].
  - by destruct (default 0 code =? 0); acc_step.
  - by acc_step.
Qed.

Lemma elevation_exact token info : accounts [] (query_elevation token info) (fun r t => t = [] /\
  r = Ok (is_ok token && default false info)).
Proof. unfold query_elevation. apply acc_bind_try_open; [intros -> t | intros e ->]; by repeat acc_step. Qed.

(** The handles of a resident helper. *)
Definition resident_owned (h : ResidentHelper) : Owned :=
  [(rh_process h, KProcess); (rh_stop h, KEvent); (rh_done h, KEvent)].

Lemma spawn_exact exe create_done create_stop started wait :
  accounts [] (spawn_resident exe create_done create_stop started wait) (fun r t => match r with
    | Ok h => t = resident_owned h /\ is_ok exe && is_ok create_done && is_ok create_stop && is_ok started && (wait =? 0) = true
    | Err e => t = [] /\ is_ok exe && is_ok create_done && is_ok create_stop && is_ok started && (wait =? 0) = false
    end).
Proof.
  unfold spawn_resident. destruct exe as [[]|e]; [| by acc_step]. apply acc_bind_open; [intros -> d | by intros e ->].
  apply acc_bind_try_open; [intros -> s | by intros e ->; repeat acc_step].
  eapply acc_bind; [apply acc_try, acc_shell_execute | | by intros e t (? & [=] & _)].
  intros a t (r & [= ->] & H). destruct r as [p|e]; destruct H as (-> & ->).
  - repeat acc_step. cbn [is_ok andb]. destruct (wait =? 0); repeat acc_step; by split.
  - by repeat acc_step.
Qed.

Lemma drop_resident_exact h in_time code :
  accounts (resident_owned h) (drop_resident h in_time code) (fun r t => r = Ok tt /\ t = []).
Proof.
  unfold drop_resident, resident_owned.
  eapply (acc_bind _ _ _ (fun r t => t = resident_owned h /\ exists o, r = Ok o)).
  - unfold shutdown_process. eapply acc_signal; [owned_in |]. acc_step.
    destruct in_time; cbn [negb]; repeat acc_step; eauto.
  - intros o t (-> & _). unfold resident_owned. acc_step. acc_step.
    eapply acc_close; [owned_first (rh_stop h) | done | done].
  - by intros e t (_ & ? & [=]).
Qed.

(** A parent that starts a helper and lets go of it. *)
Definition resident_session (exe create_done create_stop started : result VddError unit) (wait : Z)
    (in_time : bool) (code : option Z) : Proc unit :=
  h ← spawn_resident exe create_done create_stop started wait; drop_resident h in_time code.

Lemma resident_session_exact exe create_done create_stop started wait in_time code :
  accounts [] (resident_session exe create_done create_stop started wait in_time code) (fun r t => t = []).
Proof.
  unfold resident_session. eapply acc_bind; [apply spawn_exact | | by intros e t (-> & _)].
  intros h t (-> & _). eapply acc_weaken; [apply drop_resident_exact |]. by intros r t (_ & ->).
Qed.

(** ** The helper's own handles *)

Lemma acc_others {A} g (m : Proc A) ext : (forall log, exists a, m log = (Ok a, log ++ List.map HOther (ext log))) ->
  accounts g m (fun r t => t = g /\ exists a, r = Ok a).
Proof.
  intros H log held frame Hl Hp. destruct (H log) as (a & ->). cbn [fst snd]. exists held, g.
  split_and!; [| done | done | eauto].
  induction (ext log) as [|x l IH] using rev_ind; [by rewrite app_nil_r |].
  rewrite List.map_app, app_assoc. cbn [List.map]. by rewrite ledger_snoc, IH.
Qed.

Lemma acc_device {A} g (m : V A) : accounts g (device m) (fun r t => t = g /\ exists a, r = Ok a).
Proof.
  apply (acc_others g (device m) (fun log => List.map PDevice (drop (length (trace_of log)) (m (trace_of log)).2))).
  intros log. unfold device. destruct (m (trace_of log)) as [r tr]. exists r. by rewrite List.map_map.
Qed.

Fixpoint verdict (fuel : nat) (answers : nat -> WaitAnswer) (round : nat) : option Z :=
  match fuel with
  | O => None
  | S fuel' => match judge (answers round) with Some t => Some t | None => verdict fuel' answers (S round) end
  end.

Lemma watch_exact answers stop_evt h g : (stop_evt, KEvent) ∈ g -> (h, KProcess) ∈ g -> forall fuel round,
  accounts g (watch_parent fuel answers round stop_evt h) (fun r t => t = g /\ r = Ok (verdict fuel answers round)).
Proof.
  intros Hs Hh. induction fuel as [|fuel IH]; intros round; cbn [watch_parent verdict]; [by apply acc_ret |].
  eapply acc_bind_use; [exact Hs |]. eapply acc_bind_use; [exact Hh |].
  apply (acc_bind g _ _ (fun r t => t = g /\ r = Ok tt)); [| | by intros e t (_ & [=])].
  - destruct (_ =? WAIT_TIMEOUT); [eapply acc_bind_use; [exact Hh |] |]; by apply acc_ret.
  - intros [] t (-> & _). destruct (judge (answers round)); [by apply acc_ret | apply IH].
Qed.

Section Resident.
Context (env : VddEnv) (w : HelperWorld).

Lemma await_exact fuel stop_evt g : (stop_evt, KEvent) ∈ g ->
  accounts g (await_trigger w fuel stop_evt) (fun r t =>
    exists o, r = Ok o /\ (o <> None -> t = g) /\
      o = match hw_parent w with
          | Ok _ => verdict fuel (hw_answers w) 0
          | Err _ => if hw_stop_set w then Some 0 else None
          end).
Proof.
  intros Hs. unfold await_trigger. apply acc_bind_try_open; [intros -> h | intros e ->].
  - eapply acc_bind; [apply watch_exact; [by apply elem_of_cons; right | owned_in] | | by intros e t (_ & [=])].
    intros o t (-> & [= ->]). destruct (verdict _ _ _) as [trigger|]; repeat acc_step; by eexists.
  - eapply acc_bind_use; [exact Hs |]. apply acc_ret. by eexists.
Qed.

(** Once it is done the helper has closed everything, and it is done as soon as
    something decides the watch. *)
Lemma resident_main_accounts fuel :
  accounts [] (resident_helper_main env w fuel) (fun r t => exists o, r = Ok o /\ (o <> None -> t = []) /\
    (is_ok (hw_done w) && is_ok (hw_stop w) = false -> o = Some 2)).
Proof.
  unfold resident_helper_main.
  apply acc_bind_try_open; [intros Ed d | intros e Ed]; rewrite Ed; [| acc_step; eexists; by split_and!].
  apply acc_bind_try_open; [intros Es s | intros e Es]; rewrite Es; [| repeat acc_step; eexists; by split_and!].
  eapply acc_bind; [apply acc_device | | by intros e t (_ & ? & [=])]. intros r t (-> & _).
  destruct r as [[]|e]; [| eapply acc_signal; [owned_in |]; repeat acc_step; eexists; by split_and!].
  eapply acc_bind; [apply acc_device | | by intros e t (_ & ? & [=])]. intros _ t (-> & _).
  eapply acc_signal; [owned_in |].
  eapply acc_bind; [apply await_exact; owned_in | | by intros e t (? & [=] & _)].
  intros o t (o' & [= ->] & Ht & Ho). destruct o' as [trigger|].
  - rewrite Ht by done. eapply acc_bind; [apply acc_device | | by intros e t' (_ & ? & [=])].
    intros r t' (-> & _). repeat acc_step. eexists. by split_and!.
  - acc_step. exists None. split_and!; [done | done |]. done.
Qed.
End Resident.

(** What a round of the watch shows, by what is documented of the calls: of two
    objects, the wait returns the index of the one that is set, a timeout, or
    that it failed; an exit code of 259 is one of a running process. *)
Definition stop_was_set (a : WaitAnswer) : Prop := wa_wait a = 0.

Definition parent_ended (a : WaitAnswer) : Prop :=
  wa_wait a = 1 \/ (wa_wait a = WAIT_TIMEOUT /\ exists code, wa_exit a = Some code /\ code <> STILL_ACTIVE).

Definition watch_broken (a : WaitAnswer) : Prop :=
  wa_wait a = WAIT_FAILED \/ (wa_wait a = WAIT_TIMEOUT /\ wa_exit a = None).

Definition parent_runs (a : WaitAnswer) : Prop := wa_wait a = WAIT_TIMEOUT /\ wa_exit a = Some STILL_ACTIVE.

Lemma judge_stops a : stop_was_set a \/ parent_ended a \/ watch_broken a -> judge a <> None.
Proof.
  unfold stop_was_set, parent_ended, watch_broken, judge.
  intros [-> | [[-> | (-> & code & -> & Hc)] | [-> | (-> & ->)]]]; cbn; try done.
  by destruct (Z.eqb_spec code STILL_ACTIVE).
Qed.

Lemma judge_waits a : parent_runs a -> judge a = None.
Proof. unfold judge. by intros (-> & ->). Qed.

(** The helper has a reason to go within so many rounds; it has none. *)
Definition reason_to_stop (w : HelperWorld) (fuel : nat) : Prop :=
  match hw_parent w with
  | Ok _ => exists n, (n < fuel)%nat
      /\ (stop_was_set (hw_answers w n) \/ parent_ended (hw_answers w n) \/ watch_broken (hw_answers w n))
  | Err _ => hw_stop_set w = true
  end.

Definition reason_to_wait (w : HelperWorld) (fuel : nat) : Prop :=
  match hw_parent w with
  | Ok _ => forall n, (n < fuel)%nat -> parent_runs (hw_answers w n)
  | Err _ => hw_stop_set w = false
  end.

(** What the wait gives. *)
Definition awaited (w : HelperWorld) (fuel : nat) : option Z :=
  match hw_parent w with
  | Ok _ => verdict fuel (hw_answers w) 0
  | Err _ => if hw_stop_set w then Some 0 else None
  end.

Lemma verdict_found answers n : judge (answers n) <> None -> forall fuel round,
  (round <= n < round + fuel)%nat -> verdict fuel answers round <> None.
Proof.
  intros Hn. induction fuel as [|fuel IH]; intros round Hr; [lia |]. cbn [verdict].
  destruct (judge (answers round)) as [t|] eqn:E; [done |]. apply IH.
  destruct (decide (round = n)) as [->|]; [done | lia].
Qed.

Lemma verdict_none answers fuel : forall round, (forall n, (round <= n < round + fuel)%nat -> judge (answers n) = None) ->
  verdict fuel answers round = None.
Proof.
  induction fuel as [|fuel IH]; intros round H; [done |]. cbn [verdict]. rewrite H by lia. apply IH. intros n Hn. apply H. lia.
Qed.

Lemma reason_found w fuel : reason_to_stop w fuel -> awaited w fuel <> None.
Proof.
  unfold reason_to_stop, awaited. destruct (hw_parent w); [| by intros ->].
  intros (n & Hn & H). apply (verdict_found _ n); [by apply judge_stops | lia].
Qed.

Lemma reason_missing w fuel : reason_to_wait w fuel -> awaited w fuel = None.
Proof.
  unfold reason_to_wait, awaited. destruct (hw_parent w); [| by intros ->].
  intros H. apply verdict_none. intros n Hn. apply judge_waits, H. lia.
Qed.

(** ** The helper does what [Vdd] says *)

(** [m] does to the device what [v] does, and both return. *)
Definition tracks {A B} (m : Proc A) (v : V B) (P : A -> B -> Prop) : Prop :=
  forall log, exists a b, (m log).1 = Ok a /\ (v (trace_of log)).1 = Ok b
    /\ trace_of (m log).2 = (v (trace_of log)).2 /\ P a b.

Lemma tracks_ret {A B} (a : A) (b : B) (P : A -> B -> Prop) : P a b -> tracks (mret a) (mret b) P.
Proof. intros HP log. by exists a, b. Qed.

Lemma tracks_bind {A B A' B'} (m : Proc A) (v : V B) (f : A -> Proc A') (k : B -> V B') P Q :
  tracks m v P -> (forall a b, P a b -> tracks (f a) (k b) Q) -> tracks (m ≫= f) (v ≫= k) Q.
Proof.
  intros Hm Hf log. destruct (Hm log) as (a & b & Ha & Hb & Ht & HP).
  unfold mbind, Win_bind, V_bind. destruct (m log) as [? log'], (v (trace_of log)) as [? tr']. cbn [fst snd] in Ha, Hb, Ht. subst.
  destruct (Hf a b HP log') as (a' & b' & H). by exists a', b'.
Qed.

(** What happens elsewhere. *)
Lemma tracks_silent {A B C} (m : Proc C) (f : C -> Proc A) (v : V B) R P :
  tracks m (mret tt) R -> (forall c, R c tt -> tracks (f c) v P) -> tracks (m ≫= f) v P.
Proof.
  intros Hm Hf log. destruct (Hm log) as (c & [] & Hc & _ & Ht & HR).
  unfold mbind, Win_bind. destruct (m log) as [? log']. cbn [fst snd mret V_ret] in Hc, Ht. subst.
  destruct (Hf c HR log') as (a & b & H). rewrite Ht in H. by exists a, b.
Qed.

Lemma trace_of_app l1 l2 : trace_of (l1 ++ l2) = trace_of l1 ++ trace_of l2.
Proof. apply omap_app. Qed.

Lemma tracks_emit e : (forall d, e <> HOther (PDevice d)) -> tracks (emit e) (mret tt) (fun _ _ => True).
Proof.
  intros He log. exists tt, tt. split_and!; [done.. | | done]. unfold emit. cbn [fst snd]. rewrite trace_of_app.
  unfold trace_of at 2. destruct e as [| | |[]]; cbn; rewrite ?app_nil_r; [done.. | by destruct (He e) | done | done].
Qed.

Lemma tracks_try_open k outcome : tracks (win_try (opened (E := VddError) k outcome)) (mret tt)
  (fun r _ => is_ok r = is_ok outcome).
Proof.
  intros log. unfold win_try, opened. destruct outcome as [[]|e]; eexists _, tt; split_and!; try done; cbn [fst snd].
  by rewrite trace_of_app, app_nil_r.
Qed.

Lemma trace_of_device l : trace_of (List.map (fun e => HOther (PDevice e)) l) = l.
Proof. induction l as [|e l IH]; [done |]. cbn [List.map]. unfold trace_of in *. cbn. by rewrite IH. Qed.

Lemma tracks_device {A} (m : V A) : does m (fun _ _ => True) ->
  tracks (device m) (v_try m) (fun a b => a = b).
Proof.
  intros Hm log. destruct (Hm (trace_of log)) as (ext & Ht & _). unfold device, v_try.
  destruct (m (trace_of log)) as [r tr]. cbn in Ht. subst tr. exists r, r. split_and!; [done.. | | done].
  cbn [fst snd]. by rewrite drop_app_length, trace_of_app, trace_of_device.
Qed.

Lemma tracks_ext {A B} (m : Proc A) (v v' : V B) P : (forall tr, v tr = v' tr) -> tracks m v P -> tracks m v' P.
Proof. intros Hv Hm log. rewrite <- Hv. apply Hm. Qed.

Section Refinement.
Context (env : VddEnv) (w : HelperWorld).

(** A resident helper from its start to its end, as the lifecycle of the
    display has it. *)
Definition resident_life : V Z :=
  h ← resident_start env; match h with HWaiting => resident_stop env | HExited code => mret code end.

Lemma started_does : does (verify_devnode_started env) (fun r ext => quiet 0 ext).
Proof.
  unfold verify_devnode_started. eapply does_bind; [apply snapshot_does | | by intros e ext -> |].
  - intros s. instantiate (1 := fun _ r ext => ext = []). destruct (has_problem env s.1); [| by apply does_ret].
    by destruct (_ =? _); apply does_fail.
  - by intros s r e1 e2 -> ->.
Qed.

Lemma tracks_signal h : tracks (signal h) (mret tt) (fun _ _ => True).
Proof.
  eapply tracks_silent; [by apply tracks_emit |]. intros _ _. by apply tracks_emit.
Qed.

(** The pieces of the program that the device does not see. *)
Lemma tracks_quiet {A B} e (f : unit -> Proc A) (v : V B) P : (forall d, e <> HOther (PDevice d)) ->
  tracks (f tt) v P -> tracks (emit e ≫= f) v P.
Proof. intros He Hf. eapply tracks_silent; [by apply tracks_emit | by intros [] _]. Qed.

Lemma watch_tracks answers stop_evt h fuel : forall round,
  tracks (watch_parent fuel answers round stop_evt h) (mret tt) (fun o _ => o = verdict fuel answers round).
Proof.
  induction fuel as [|fuel IH]; intros round; cbn [watch_parent verdict]; [by apply tracks_ret |].
  apply tracks_quiet; [done |]. apply tracks_quiet; [done |].
  apply (tracks_silent _ _ _ (fun _ _ => True)).
  - destruct (_ =? WAIT_TIMEOUT); [apply tracks_quiet; [done |] |]; by apply tracks_ret.
  - intros [] _. destruct (judge (answers round)); [by apply tracks_ret | apply IH].
Qed.

Lemma await_tracks fuel stop_evt :
  tracks (await_trigger w fuel stop_evt) (mret tt) (fun o _ => o = awaited w fuel).
Proof.
  unfold await_trigger, awaited. eapply tracks_silent; [apply tracks_try_open |].
  intros [h|e] Hr; destruct (hw_parent w); try done; [| apply tracks_quiet; [done |]; by apply tracks_ret].
  eapply tracks_silent; [apply watch_tracks |]. intros o ->.
  destruct (verdict _ _ _); [apply tracks_quiet; [done |] |]; by apply tracks_ret.
Qed.

(** The enable, seen from the device. *)
Lemma enable_tracks {A B} (k : result VddError unit -> Proc A) (v : Helper -> V B) P :
  (forall e, tracks (k (Err e)) (v (HExited 1)) P) ->
  tracks (k (Ok tt)) (_ ← v_try (verify_devnode_started env); v HWaiting) P ->
  tracks (device (devcon_action env Enable) ≫= k) (resident_start env ≫= v) P.
Proof.
  intros He Hok.
  apply (tracks_ext _ (r ← v_try (devcon_action env Enable); match r with
    | Err _ => v (HExited 1) | Ok _ => _ ← v_try (verify_devnode_started env); v HWaiting end)).
  - intros tr. unfold resident_start, mbind, V_bind, v_try.
    destruct (devcon_action env Enable tr) as [[[]|e] tr']; [| done]. by destruct (verify_devnode_started env tr').
  - eapply tracks_bind; [apply tracks_device; eapply does_weaken; [apply devcon_does | done] |].
    by intros [[]|e] b <-.
Qed.

Lemma resident_main_tracks fuel : hw_done w = Ok tt -> hw_stop w = Ok tt -> awaited w fuel <> None ->
  tracks (resident_helper_main env w fuel) resident_life (fun o code => o = Some code).
Proof.
  intros Hd Hs Hv. unfold resident_helper_main, resident_life.
  eapply tracks_silent; [apply tracks_try_open |]. intros [d|e] Hr; rewrite ?Hd in Hr; [| done].
  eapply tracks_silent; [apply tracks_try_open |]. intros [s|e] Hr'; rewrite ?Hs in Hr'; [| done].
  apply enable_tracks.
  - intros e. eapply tracks_silent; [apply tracks_signal |]. intros _ _.
    apply tracks_quiet; [done |]. apply tracks_quiet; [done |]. by apply tracks_ret.
  - eapply tracks_bind; [apply tracks_device; eapply does_weaken; [apply started_does | done] |]. intros _ _ _.
    eapply tracks_silent; [apply tracks_signal |]. intros _ _.
    eapply tracks_silent; [by apply await_tracks |]. intros o ->.
    destruct (awaited w fuel) as [trigger|]; [| done]. unfold resident_stop.
    eapply tracks_bind; [apply tracks_device; eapply does_weaken; [apply disable_verified_does | done] |].
    intros r b <-. apply tracks_quiet; [done |]. apply tracks_quiet; [done |]. by apply tracks_ret.
Qed.

(** As long as nothing is decisive it keeps the display as the enable left it. *)
Lemma resident_main_waits fuel : hw_done w = Ok tt -> hw_stop w = Ok tt -> awaited w fuel = None ->
  tracks (resident_helper_main env w fuel) (h ← resident_start env; mret h)
    (fun o h => o = match h with HWaiting => None | HExited code => Some code end).
Proof.
  intros Hd Hs Hv. unfold resident_helper_main.
  eapply tracks_silent; [apply tracks_try_open |]. intros [d|e] Hr; rewrite ?Hd in Hr; [| done].
  eapply tracks_silent; [apply tracks_try_open |]. intros [s|e] Hr'; rewrite ?Hs in Hr'; [| done].
  apply enable_tracks.
  - intros e. eapply tracks_silent; [apply tracks_signal |]. intros _ _.
    apply tracks_quiet; [done |]. apply tracks_quiet; [done |]. by apply tracks_ret.
  - eapply tracks_bind; [apply tracks_device; eapply does_weaken; [apply started_does | done] |]. intros _ _ _.
    eapply tracks_silent; [apply tracks_signal |]. intros _ _.
    eapply tracks_silent; [by apply await_tracks |]. intros o ->. rewrite Hv. by apply tracks_ret.
Qed.

(** Either devcon refused the enable, or a disable was attempted after it; an
    exit code of zero means that the device was seen disabled in the end. *)
Definition life_trace (code : Z) (ext : Trace) : Prop :=
  (code = 1 /\ ext = [EvDevcon Enable false])
  \/ ((exists mid ok rest, ext = EvDevcon Enable true :: mid ++ EvDevcon Disable ok :: rest
        /\ forallb no_enable (mid ++ rest) = true)
      /\ (code = 0 -> confirmed env ext)).

Lemma disable_attempted_does : does (devcon_action env Disable;; verify_devnode_disabled env) (fun r ext =>
  exists ok rest, ext = EvDevcon Disable ok :: rest /\ forallb no_enable rest = true).
Proof.
  eapply does_bind; [exact (devcon_does env Disable) | | |].
  - intros u. unfold verify_devnode_disabled. apply does_ask. intros n. apply verify_loop_does.
  - intros e ext ->. by exists false, [].
  - intros u r e1 e2 -> ((Hq & _) & _). by eexists _, e2.
Qed.

Lemma resident_stop_attempts : does (resident_stop env) (fun r ext =>
  exit_disabling env r ext /\ exists ok rest, ext = EvDevcon Disable ok :: rest /\ forallb no_enable rest = true).
Proof.
  intros tr. destruct (resident_stop_does env tr) as (ext & Ht & H).
  assert (Ha : does (resident_stop env) (fun _ ext => exists ok rest, ext = EvDevcon Disable ok :: rest
    /\ forallb no_enable rest = true)).
  { unfold resident_stop. eapply does_bind; [apply does_try, disable_attempted_does | | by intros e ext' (? & [=] & _) |].
    - intros r. by apply (does_ret _ (fun _ ext => ext = [])).
    - intros r r' e1 e2 (_ & _ & H') ->. by rewrite app_nil_r. }
  destruct (Ha tr) as (ext' & Ht' & H'). rewrite Ht in Ht'. apply app_inv_head in Ht' as <-.
  by exists ext.
Qed.

Lemma resident_life_does : does resident_life (fun r ext => exists code, r = Ok code /\ life_trace code ext).
Proof.
  set (P := fun (r : result VddError Helper) ext =>
    (r = Ok (HExited 1) /\ ext = [EvDevcon Enable false])
    \/ (r = Ok HWaiting /\ exists mid, ext = EvDevcon Enable true :: mid /\ forallb no_enable mid = true)).
  unfold resident_life. eapply (does_bind _ _ P).
  - unfold resident_start. eapply does_bind; [apply does_try, devcon_does | | by intros e ext (? & [=] & _) |].
    + intros r. instantiate (1 := fun r r' ext => match r with
        | Err _ => r' = Ok (HExited 1) /\ ext = [] | Ok _ => r' = Ok HWaiting /\ forallb no_enable ext = true end).
      destruct r as [u|e]; [| by apply does_ret].
      eapply does_bind; [apply does_try, started_does | | by intros e ext (? & [=] & _) |].
      * intros q. by apply (does_ret _ (fun r ext => r = Ok HWaiting /\ ext = [])).
      * intros q r e1 e2 (_ & _ & (Hq & _)) (-> & ->). by rewrite app_nil_r.
    + intros r r' e1 e2 (r0 & [= <-] & ->). destruct r as [u|e]; cbn [is_ok]; intros (-> & H); [right | left]; subst P.
      * split; [done |]. by exists e2.
      * by subst e2.
  - intros h. instantiate (1 := fun h r ext => match h with
      | HExited code => r = Ok code /\ ext = []
      | HWaiting => exit_disabling env r ext
          /\ exists ok rest, ext = EvDevcon Disable ok :: rest /\ forallb no_enable rest = true end).
    destruct h; [apply resident_stop_attempts | by apply does_ret].
  - intros e ext [([=] & _) | ([=] & _)].
  - intros h r e1 e2 HP Hl. destruct HP as [([= ->] & ->) | ([= ->] & mid & -> & Hm)].
    + destruct Hl as (-> & ->). exists 1. split; [done | by left].
    + destruct Hl as ((Hr & _ & Hc) & ok & rest & -> & Hrest). destruct r as [code|]; [| done].
      exists code. split; [done |]. right. split.
      * exists mid, ok, rest. cbn [app]. split; [done |]. by rewrite forallb_app, Hm, Hrest.
      * intros ->. apply (confirmed_before env (EvDevcon Enable true :: mid)). by apply Hc.
Qed.
End Refinement.

(** Without its events it does nothing to the device. *)
Lemma resident_main_blind env w fuel log : is_ok (hw_done w) && is_ok (hw_stop w) = false ->
  trace_of (resident_helper_main env w fuel log).2 = trace_of log.
Proof.
  intros H. assert (tracks (resident_helper_main env w fuel) (mret tt) (fun _ _ => True)) as Hm.
  { unfold resident_helper_main. eapply tracks_silent; [apply tracks_try_open |].
    intros [d|e] Hd; rewrite <- Hd in H; [| by apply tracks_ret].
    eapply tracks_silent; [apply tracks_try_open |]. intros [s|e] Hs; rewrite <- Hs in H; [done |].
    apply tracks_quiet; [done |]. by apply tracks_ret. }
  by destruct (Hm log) as (? & ? & _ & _ & Ht & _).
Qed.

(** C22. A resident helper always tears the display down.  When it has a reason
    to - a round of its watch finds the stop event set, the parent ended (set, or
    with an exit code other than that of a running process), or the wait or the
    query of the exit code failing; or, with a parent that cannot be opened, the
    stop event is ever set - it returns: it has done to the device what the
    lifecycle of the display has, every event and process it opened is closed,
    and unless devcon had refused the enable it has tried to disable the device
    after it; an exit code of zero means that the device was seen disabled.  As
    long as it has none, it keeps the display as the enable left it.  When one
    of its two events cannot be opened, it returns two and leaves the device
    alone. *)
Theorem helper_tears_down env w fuel log held : ledger log = Some held ->
  let '(r, log') := resident_helper_main env w fuel log in
  if is_ok (hw_done w) && is_ok (hw_stop w) then
    (reason_to_stop w fuel -> exists code ext, r = Ok (Some code) /\ ledger log' = Some held
      /\ trace_of log' = trace_of log ++ ext
      /\ resident_life env (trace_of log) = (Ok code, trace_of log ++ ext)
      /\ life_trace env code ext)
    /\ (reason_to_wait w fuel -> exists h, resident_start env (trace_of log) = (Ok h, trace_of log')
          /\ r = Ok match h with HWaiting => None | HExited code => Some code end)
  else r = Ok (Some 2) /\ ledger log' = Some held /\ trace_of log' = trace_of log.
Proof.
  intros Hl.
  destruct (acc_run _ _ log held (resident_main_accounts env w fuel) Hl) as (held' & t & Hl' & Hperm & o & Ho & Hnil & Hblind).
  pose proof (resident_main_blind env w fuel log) as Hb.
  assert (Hheld : o <> None -> held' = held).
  { intros Hsome. rewrite Hnil in Hperm by done. by apply map_to_list_inj in Hperm. }
  pose proof (resident_main_tracks env w fuel) as Hs. pose proof (resident_main_waits env w fuel) as Hw.
  destruct (is_ok (hw_done w)) eqn:Ed; [destruct (is_ok (hw_stop w)) eqn:Es |]; cbn [andb] in *.
  - destruct (hw_done w) as [[]|]; [| done]. destruct (hw_stop w) as [[]|]; [| done].
    destruct (resident_helper_main env w fuel log) as [r log'] eqn:Em. cbn [fst snd] in *. subst r. split.
    + intros Hr. destruct (Hs eq_refl eq_refl (reason_found w fuel Hr) log) as (o' & code & Hr' & Hlife & Ht & ->).
      rewrite Em in *. cbn [fst snd] in *. injection Hr' as ->. rewrite Hheld in Hl' by done.
      destruct (resident_life_does env (trace_of log)) as (ext & Hext & code' & Hc & Hlt).
      rewrite Hlife in Hc. injection Hc as <-. exists code, ext. rewrite Hext in Ht. split_and!; try done.
      by rewrite (surjective_pairing (resident_life env (trace_of log))), Hlife, Hext.
    + intros Hr. destruct (Hw eq_refl eq_refl (reason_missing w fuel Hr) log) as (o' & h & Hr' & Hh & Ht & ->).
      rewrite Em in *. cbn [fst snd] in *. exists h. split; [| done].
      revert Hh Ht. unfold mbind, V_bind. destruct (resident_start env (trace_of log)) as [[h'|e] tr]; [| done].
      cbn. by intros [= ->] ->.
  - rewrite Hblind, Hheld in * by (try done; by rewrite Hblind).
    destruct (resident_helper_main env w fuel log) as [r log']. cbn [fst snd] in *. subst r. by split_and!; try apply Hb.
  - rewrite Hblind, Hheld in * by (try done; by rewrite Hblind).
    destruct (resident_helper_main env w fuel log) as [r log']. cbn [fst snd] in *. subst r. by split_and!; try apply Hb.
Qed.

(** Three quiet seconds, then the parent is gone. *)
Definition demo_world : HelperWorld :=
  {| hw_done := Ok tt; hw_stop := Ok tt; hw_parent := Ok tt; hw_stop_set := false;
     hw_answers := fun n => {| wa_wait := if (n <? 3)%nat then 258 else 1; wa_exit := Some 259 |} |}.

Definition demo_helper_env : VddEnv :=
  {| is_process_elevated := true; DN_HAS_PROBLEM := 1024; CM_PROB_DISABLED := 22;
     env_devcon := fun _ _ => Some {| do_code := Some 0; do_transcript := String.EmptyString |};
     env_status := fun tr => match list.last tr with Some (EvDevcon Disable _) => Ok (1024, 22) | _ => Ok (0, 0) end;
     env_polls := fun _ => 5%nat; env_started := fun _ => true; env_in_time := fun _ => true;
     env_exit_code := fun _ => true |}.

Lemma helper_tears_down_witness :
  exists log', resident_helper_main demo_helper_env demo_world 4 [] = (Ok (Some 0), log')
    /\ ledger log' = Some ∅ /\ confirmed demo_helper_env (trace_of log').
Proof.
  pose proof (helper_tears_down demo_helper_env demo_world 4 [] ∅ eq_refl) as H.
  assert (Hr : (resident_helper_main demo_helper_env demo_world 4 []).1 = Ok (Some 0)) by (vm_compute; reflexivity).
  destruct (resident_helper_main demo_helper_env demo_world 4 []) as [r log'].
  destruct H as (H & _). destruct H as (code & ext & -> & Hl & Ht & _ & Hc).
  { exists 3%nat. split; [lia |]. right. left. by left. }
  cbn [fst] in Hr. injection Hr as ->.
  exists log'. split_and!; [done | exact Hl |]. rewrite Ht. destruct Hc as [([=] & _) | (_ & Hc)]. by apply Hc.
Defined.

(** ** The registry key and the job *)

(** The key is closed, except when the program's path cannot be had: then the
    question mark returns before it is. *)
Lemma autostart_leaks_key create enabled exe value :
  accounts [] (autostart_key create enabled exe value) (fun r t =>
    if is_ok create && enabled && negb (is_ok exe) then exists h, t = [(h, KRegistryKey)] else t = []).
Proof.
  unfold autostart_key. apply acc_bind_open; [intros -> h | by intros e ->]. cbn [is_ok andb].
  destruct enabled; cbn [andb]; [destruct exe as [[]|e]; cbn [is_ok negb] |].
  - eapply (acc_bind _ _ _ (fun r t => r = Ok value /\ t = [(h, KRegistryKey)])); [by repeat acc_step | | by intros e t ([=] & _)].
    intros v t ([= ->] & ->). acc_step. by destruct value; acc_step.
  - eapply (acc_bind _ _ _ (fun r t => r = Err e /\ t = [(h, KRegistryKey)])); [by acc_step | by intros v t ([=] & _) |].
    intros e' t (_ & ->). by exists h.
  - eapply (acc_bind _ _ _ (fun r t => r = Ok value /\ t = [(h, KRegistryKey)])); [by repeat acc_step | | by intros e t ([=] & _)].
    intros v t ([= ->] & ->). acc_step. by destruct value; acc_step.
Qed.

(** The job is kept when it is in force, and also when it is not. *)
Lemma job_kept create limit assign :
  accounts [] (mark_kill_children_on_exit create limit assign) (fun r t =>
    match create with
    | Ok _ => exists h, t = [(h, KJob)] /\ r = Ok (if is_ok limit && is_ok assign then Some h else None)
    | Err _ => t = [] /\ r = Ok None
    end).
Proof.
  unfold mark_kill_children_on_exit. apply acc_bind_try_open; [intros -> h | intros e ->]; [| by acc_step].
  acc_step. destruct limit as [[]|]; cbn [is_ok negb andb]; [| acc_step; by exists h].
  acc_step. destruct assign as [[]|]; cbn [is_ok negb]; acc_step; by exists h.
Qed.

Definition abandoned_world : HelperWorld :=
  {| hw_done := Ok tt; hw_stop := Ok tt; hw_parent := Ok tt; hw_stop_set := false;
     hw_answers := fun _ => {| wa_wait := 258; wa_exit := Some 259 |} |}.

(** A parent that gave up waiting for the done event has closed its handles and
    keeps no helper, so its stop event can never be set; when the enable then
    succeeds the helper holds the display on for as long as the parent runs. *)
Lemma abandoned_helper_waits :
  (spawn_resident (Ok tt) (Ok tt) (Ok tt) (Ok tt) 258 []).1 = Err ShellExecute
  /\ forall fuel, let '(r, log') := resident_helper_main demo_helper_env abandoned_world fuel [] in
       r = Ok None /\ trace_of log' = [EvDevcon Enable true; EvStatus (Ok (0, 0))].
Proof.
  split; [vm_compute; reflexivity |]. intros fuel.
  destruct (resident_main_waits demo_helper_env abandoned_world fuel eq_refl eq_refl (reason_missing abandoned_world fuel (fun n _ => conj eq_refl eq_refl)) [])
    as (o & h & Hr & Hh & Ht & ->).
  destruct (resident_helper_main demo_helper_env abandoned_world fuel []) as [r log']. cbn [fst snd] in Hr, Ht. subst r.
  vm_compute in Hh. injection Hh as <-. split; [done |]. by rewrite Ht.
Qed.
