(* ===== verification/ReadLoop.v ===== *)
(** The inbound half of a session: [read_loop] of
    [crates/penflow-server/src/session.rs], over the injector of [Inject] and
    the framing of [Protocol].

    The loop owns the reader; the injector, the writer and the keyframe
    request channel are shared with the rest of the session behind locks, so
    handling one message is one atomic step on them.  The session clock is
    external: [elapsed_ns k] is its [k]-th reading. *)
From stdpp Require Import gmap.
From S2P Require Import Prelude Bytes Protocol Engine F32 Coords Inject InjectSpec Vdd.

Inductive SessionError :=
| SeEngine (e : EngineError)
| SeProtocol (e : ProtocolError)
| SeIo
| UnexpectedHandshakeMessage (id : Z)
| NoKeyframe (timeout_ms : Z)
| SeVdd (e : VddError).

(** What the loop shares with the session. *)
Record Shared := {
  io_world : World;
  io_writer : Writer;
  io_idr : nat;
  io_clock : nat;
}.

Definition pen_sample (coords : AffineTransform) (vscreen : Z * Z) (pe : PenEvent) : PenSample :=
  let x_norm := f32_of_bits (pe_x_norm pe) in
  let y_norm := f32_of_bits (pe_y_norm pe) in
  let '(x, y) := map_to_pixel coords x_norm y_norm in
  let '(vx_log, vy_log) := map_to_vmulti coords x_norm y_norm vscreen.1 vscreen.2 in
  {| ps_x := x; ps_y := y; ps_x_logical := vx_log; ps_y_logical := vy_log;
     ps_pressure := f32_of_bits (pe_pressure pe);
     ps_tilt_x_deg := f32_as_i32 (f32_of_bits (pe_tilt_x pe));
     ps_tilt_y_deg := f32_as_i32 (f32_of_bits (pe_tilt_y pe));
     ps_in_range := negb (pe_phase pe =? 4);
     ps_in_contact := (pe_phase pe =? 1) || (pe_phase pe =? 2);
     ps_eraser := pe_tool pe =? 1;
     ps_buttons := pe_buttons pe |}.

Definition touch_point (coords : AffineTransform) (c : TouchContact) : TouchPoint :=
  let '(x, y) := map_to_pixel coords (f32_of_bits (tc_x_norm c)) (f32_of_bits (tc_y_norm c)) in
  {| tp_id := tc_pointer_id c; tp_x := x; tp_y := y; tp_state := TUpdate |}.

Definition touch_snapshot (coords : AffineTransform) (te : TouchEvent) : list TouchPoint :=
  map (touch_point coords) (te_contacts te).

Section Loop.
Context (os : Os) (elapsed_ns : nat -> Z).
Context (coords : AffineTransform) (vscreen : Z * Z) (disable_touch : bool).

Definition inject (m : Inj unit) (s : Shared) : Shared :=
  {| io_world := (m (io_world s)).2; io_writer := io_writer s; io_idr := io_idr s;
     io_clock := io_clock s |}.

(** The answer to a sync request, whose two clock readings are the next ones. *)
Definition sync_response (req : TimeSyncReq) (s : Shared) : list Z :=
  let pc_t2_ns := swrap 64 (elapsed_ns (io_clock s)) in
  let pc_t3_ns := swrap 64 (elapsed_ns (S (io_clock s))) in
  TimeSyncResp_encode {| tr_android_t1_ns := tq_android_t1_ns req; tr_pc_t2_ns := pc_t2_ns;
                         tr_pc_t3_ns := pc_t3_ns |}.

(** One message: the new state, and the loop's result when it ends. *)
Definition handle_message (m : Z * list Z) (s : Shared) : Shared * option (result SessionError unit) :=
  let '(msg_id, payload) := m in
  if msg_id =? MSG_PEN_EVENT then
    match PenEvent_decode payload with
    | Err e => (s, Some (Err (SeProtocol e)))
    | Ok pe => (inject (inject_pen os (pen_sample coords vscreen pe)) s, None)
    end
  else if msg_id =? MSG_TOUCH_EVENT then
    match TouchEvent_decode payload with
    | Err e => (s, Some (Err (SeProtocol e)))
    | Ok te =>
        if disable_touch then (inject (inject_touch os []) s, None)
        else (inject (inject_touch os (touch_snapshot coords te)) s, None)
    end
  else if msg_id =? MSG_TIME_SYNC_REQ then
    match TimeSyncReq_decode payload with
    | Err e => (s, Some (Err (SeProtocol e)))
    | Ok req =>
        let '(r, w) := write_frame (io_writer s) MSG_TIME_SYNC_RESP (sync_response req s) in
        let s' := {| io_world := io_world s; io_writer := w; io_idr := io_idr s;
                     io_clock := S (S (io_clock s)) |} in
        (s', if is_ok r then None else Some (Ok tt))
    end
  else if msg_id =? MSG_REQUEST_IDR then
    ({| io_world := io_world s; io_writer := io_writer s; io_idr := S (io_idr s);
        io_clock := io_clock s |}, None)
  else if msg_id =? MSG_ANDROID_GOODBYE then (s, Some (Ok tt))
  else (s, None).

(** The loop is dropped while it handles a message: what it awaits is a lock,
    and then nothing has happened, or the writing of a sync response, and then
    [k] bytes of it were accepted. *)
Definition cut_message (m : Z * list Z) (k : nat) (s : Shared) : Shared :=
  let '(msg_id, payload) := m in
  if msg_id =? MSG_TIME_SYNC_REQ then
    match TimeSyncReq_decode payload with
    | Err _ => s
    | Ok req =>
        {| io_world := io_world s;
           io_writer := wrote (take k (encode_frame MSG_TIME_SYNC_RESP (sync_response req s))) (io_writer s);
           io_idr := io_idr s; io_clock := S (S (io_clock s)) |}
    end
  else s.

(** How a failed read ends the loop. *)
Definition read_ended (e : ProtocolError) : result SessionError unit :=
  match e with
  | Io UnexpectedEof | Io ConnectionReset => Ok tt
  | e => Err (SeProtocol e)
  end.

Fixpoint read_loop_fuel (fuel : nat) (r : Reader) (s : Shared) : option (result SessionError unit * Shared) :=
  match fuel with
  | O => None
  | S fuel' =>
      match read_frame r with
      | Err e => Some (read_ended e, s)
      | Ok (m, r') =>
          match handle_message m s with
          | (s', Some res) => Some (res, s')
          | (s', None) => read_loop_fuel fuel' r' s'
          end
      end
  end.

(** Every frame has at least its header of five bytes, so this is enough. *)
Definition read_loop (r : Reader) (s : Shared) : option (result SessionError unit * Shared) :=
  read_loop_fuel (S (length (r_bytes r))) r s.

(** * The specification: messages in order until one ends the session *)

Fixpoint process (ms : list (Z * list Z)) (fin : result SessionError unit) (s : Shared)
  : result SessionError unit * Shared :=
  match ms with
  | [] => (fin, s)
  | m :: ms' =>
      match handle_message m s with
      | (s', Some res) => (res, s')
      | (s', None) => process ms' fin s'
      end
  end.

Lemma read_frame_shrinks r m r' :
  read_frame r = Ok (m, r') -> (length (r_bytes r') + 5 <= length (r_bytes r))%nat.
Proof.
  unfold read_frame. intros H. inv_binds. destruct v as [l1 r1]. inv_binds.
  destruct v as [l4 r4]. cbv zeta in H. destruct (MAX_PAYLOAD_LEN <? be_val l4); [done |].
  inv_binds. destruct v as [pl r5]. injection H as _ <-.
  apply read_exact_inv in Hm as (E1 & L1 & _). apply read_exact_inv in Hm0 as (E4 & L4 & _).
  apply read_exact_inv in Hm1 as (E5 & _ & _). rewrite E1, E4, E5, !length_app. lia.
Qed.

(** Every byte stream is a sequence of frames and a rest that fails. *)
Lemma stream_frames n : forall r, (length (r_bytes r) < n)%nat -> bytes_ok (r_bytes r) ->
  exists ms rest e,
    r_bytes r = concat (map (fun f => encode_frame f.1 f.2) ms) ++ rest
    /\ Forall frame_ok ms /\ read_frame {| r_bytes := rest; r_end := r_end r |} = Err e.
Proof.
  induction n as [|n IH]; intros r Hn Hb; [lia |].
  destruct (read_frame r) as [[[id p] r']|e] eqn:E.
  - pose proof (read_frame_shrinks _ _ _ E). destruct (read_frame_inv _ _ _ _ Hb E) as (Er & Ee & Hf).
    destruct (IH r') as (ms & rest & e & E1 & Hms & E2); [lia | rewrite Er in Hb; by apply Forall_app_r in Hb |].
    exists ((id, p) :: ms), rest, e. cbn [map concat fst snd]. rewrite <- app_assoc, <- E1, <- Ee.
    by split_and!; [| constructor |].
  - exists [], (r_bytes r), e. split_and!; [done | constructor |]. by destruct r.
Qed.

Lemma read_loop_fuel_process ms : forall fuel rest k e s,
  Forall frame_ok ms -> read_frame {| r_bytes := rest; r_end := k |} = Err e ->
  (length ms < fuel)%nat ->
  read_loop_fuel fuel
    {| r_bytes := concat (map (fun f => encode_frame f.1 f.2) ms) ++ rest; r_end := k |} s
  = Some (process ms (read_ended e) s).
Proof.
  induction ms as [|m ms IH]; intros fuel rest k e s Hms He Hf; destruct fuel as [|fuel]; cbn in Hf; try lia.
  - cbn [map concat app read_loop_fuel process]. by rewrite He.
  - apply Forall_cons_1 in Hms as [Hm Hms]. cbn [map concat read_loop_fuel process].
    rewrite <- app_assoc, read_frame_encode by done.
    destruct (handle_message m s) as [s' [res|]]; [done |]. apply IH; [done | done | lia].
Qed.

Lemma frames_length ms rest :
  (length ms <= length (concat (map (fun f : Z * list Z => encode_frame f.1 f.2) ms) ++ rest))%nat.
Proof.
  induction ms as [|m ms IH]; cbn [map concat length]; [lia |].
  rewrite <- app_assoc, length_app, length_encode_frame. lia.
Qed.

Lemma read_loop_process r : bytes_ok (r_bytes r) -> exists ms rest e,
  r_bytes r = concat (map (fun f => encode_frame f.1 f.2) ms) ++ rest
  /\ Forall frame_ok ms /\ read_frame {| r_bytes := rest; r_end := r_end r |} = Err e
  /\ forall s, read_loop r s = Some (process ms (read_ended e) s).
Proof.
  intros Hb. destruct (stream_frames (S (length (r_bytes r))) r) as (ms & rest & e & E & Hms & He);
    [lia | done |].
  exists ms, rest, e. split_and!; try done. intros s. unfold read_loop.
  replace r with {| r_bytes := concat (map (fun f => encode_frame f.1 f.2) ms) ++ rest;
    r_end := r_end r |} at 2 by (rewrite <- E; by destruct r).
  apply read_loop_fuel_process; [done | done |]. rewrite E. pose proof (frames_length ms rest). lia.
Qed.
End Loop.

(** * What a client can make the host do *)

(** The samples the loop builds, whatever the client sent. *)
Definition sane_sample (p : PenSample) : Prop :=
  (ps_in_contact p = true -> ps_in_range p = true)
  /\ (i32 (ps_x p) /\ i32 (ps_y p))
  /\ (0 <= ps_x_logical p <= 32767 /\ 0 <= ps_y_logical p <= 32767)
  /\ (i32 (ps_tilt_x_deg p) /\ i32 (ps_tilt_y_deg p)).

Definition client_op (disable_touch : bool) (o : InjOp) : Prop :=
  match o with
  | OpPen p => sane_sample p
  | OpTouch snapshot => disable_touch = true -> snapshot = []
  | OpProfile _ => False
  end.

Lemma f32_as_i32_range x : i32 (f32_as_i32 x).
Proof.
  unfold f32_as_i32, clampZ. destruct x as [s | s | | s m e]; cbn [f32_value]; try urange.
  destruct s; urange.
Qed.

Lemma pen_sample_sane coords vscreen pe : sane_sample (pen_sample coords vscreen pe).
Proof.
  unfold pen_sample.
  pose proof (points_in_range coords (f32_of_bits (pe_x_norm pe)) (f32_of_bits (pe_y_norm pe))
    vscreen.1 vscreen.2) as H.
  destruct (map_to_pixel _ _ _) as [x y], (map_to_vmulti _ _ _ _ _) as [lx ly].
  destruct H as (Hl & Hp). unfold sane_sample. cbn. split_and!; try tauto; try apply f32_as_i32_range.
  destruct (Z.eqb_spec (pe_phase pe) 4) as [-> | ?]; [done | done].
Qed.

(** What a run of the loop did: the operations on the injector, the sync
    responses it wrote (as far as the connection took them), and how many
    keyframes were asked for. *)
Definition effects (os : Os) (disable_touch : bool) (s s' : Shared) (ops : list InjOp)
    (resps : list (list Z)) (idrs : nat) : Prop :=
  io_world s' = run_ops os (io_world s) ops
  /\ Forall (client_op disable_touch) ops
  /\ io_writer s' = wrote (concat (map (encode_frame MSG_TIME_SYNC_RESP) resps)) (io_writer s)
  /\ Forall (fun p => length p = TimeSyncResp_SIZE) resps
  /\ io_idr s' = (io_idr s + idrs)%nat.

Section Effects.
Context (os : Os) (elapsed_ns : nat -> Z).
Context (coords : AffineTransform) (vscreen : Z * Z) (disable_touch : bool).

Abbreviation handle := (handle_message os elapsed_ns coords vscreen disable_touch).

Lemma same_writer w : w = wrote (concat (map (encode_frame MSG_TIME_SYNC_RESP) [])) w.
Proof. by rewrite wrote_nil. Qed.

Lemma effects_none s : effects os disable_touch s s [] [] 0.
Proof.
  split_and!; [done | constructor | apply same_writer | constructor | lia].
Qed.

Lemma effects_trans s1 s2 s3 ops1 ops2 resps1 resps2 n1 n2 :
  effects os disable_touch s1 s2 ops1 resps1 n1 -> effects os disable_touch s2 s3 ops2 resps2 n2 ->
  effects os disable_touch s1 s3 (ops1 ++ ops2) (resps1 ++ resps2) (n1 + n2).
Proof.
  intros (W1 & O1 & B1 & R1 & I1) (W2 & O2 & B2 & R2 & I2). split_and!.
  - rewrite W2, W1. unfold run_ops. by rewrite foldl_app.
  - by apply Forall_app_2.
  - by rewrite B2, B1, map_app, concat_app, wrote_app.
  - by apply Forall_app_2.
  - lia.
Qed.

Lemma inject_effects o m s : client_op disable_touch o ->
  (m (io_world s)).2 = run_op os (io_world s) o -> effects os disable_touch s (inject m s) [o] [] 0.
Proof.
  intros Ho E. unfold inject.
  split_and!; cbn [io_world io_writer io_idr];
    [done | by repeat constructor | apply same_writer | constructor | lia].
Qed.

Lemma handle_effects m s : exists ops resps n, effects os disable_touch s (handle m s).1 ops resps n.
Proof.
  destruct m as [id p]. unfold handle_message.
  destruct (id =? MSG_PEN_EVENT).
  { destruct (PenEvent_decode p) as [pe|e]; [| by eexists _, _, _; apply effects_none].
    eexists _, _, _. apply (inject_effects (OpPen (pen_sample coords vscreen pe))); [| done].
    apply pen_sample_sane. }
  destruct (id =? MSG_TOUCH_EVENT).
  { destruct (TouchEvent_decode p) as [te|e]; [| by eexists _, _, _; apply effects_none].
    destruct disable_touch eqn:Ed; rewrite <- Ed.
    - eexists _, _, _. by apply (inject_effects (OpTouch [])).
    - eexists _, _, _. apply (inject_effects (OpTouch (touch_snapshot coords te))); [| done].
      cbn. by rewrite Ed. }
  destruct (id =? MSG_TIME_SYNC_REQ).
  { destruct (TimeSyncReq_decode p) as [req|e]; [| by eexists _, _, _; apply effects_none]. cbv zeta.
    set (resp := sync_response _ _ _). exists [], [resp], 0%nat.
    pose proof (write_all_wrote (io_writer s) (encode_frame MSG_TIME_SYNC_RESP resp)) as Hw.
    unfold write_frame. destruct (write_all _ _) as [r w]. cbn [snd] in Hw.
    split_and!; cbn [fst io_world io_writer io_idr];
      [done | constructor | cbn [map concat]; by rewrite app_nil_r | by repeat constructor | lia]. }
  destruct (id =? MSG_REQUEST_IDR).
  { exists [], [], 1%nat. split_and!; cbn [fst io_world io_writer io_idr];
      [done | constructor | apply same_writer | constructor | lia]. }
  destruct (id =? MSG_ANDROID_GOODBYE); eexists _, _, _; apply effects_none.
Qed.

(** A part of a sync response, or nothing. *)
Definition part_of_response (cut : list Z) : Prop :=
  exists resp, length resp = TimeSyncResp_SIZE /\ cut `prefix_of` encode_frame MSG_TIME_SYNC_RESP resp.

Lemma part_nil : part_of_response [].
Proof. exists (replicate TimeSyncResp_SIZE 0). split; [by rewrite length_replicate | apply prefix_nil]. Qed.

Lemma cut_effects m k s : exists cut, part_of_response cut
  /\ cut_message elapsed_ns m k s = {| io_world := io_world s; io_writer := wrote cut (io_writer s);
       io_idr := io_idr s; io_clock := io_clock (cut_message elapsed_ns m k s) |}.
Proof.
  assert (Hn : exists cut, part_of_response cut
    /\ s = {| io_world := io_world s; io_writer := wrote cut (io_writer s); io_idr := io_idr s; io_clock := io_clock s |}).
  { exists []. split; [apply part_nil |]. rewrite wrote_nil. by destruct s. }
  destruct m as [id p]. unfold cut_message. destruct (id =? MSG_TIME_SYNC_REQ); [| exact Hn].
  destruct (TimeSyncReq_decode p) as [req|e]; [| exact Hn].
  eexists. split; [| reflexivity]. eexists. split; [| apply prefix_take]. done.
Qed.

Lemma process_effects ms fin : forall s, exists ops resps n,
  effects os disable_touch s (process os elapsed_ns coords vscreen disable_touch ms fin s).2 ops resps n.
Proof.
  induction ms as [|m ms IH]; intros s; [eexists _, _, _; apply effects_none |].
  cbn [process]. destruct (handle_effects m s) as (ops & resps & n & H).
  destruct (handle m s) as [s1 [res|]]; cbn [fst snd] in *; [by eexists _, _, _ |].
  destruct (IH s1) as (ops' & resps' & n' & H'). eexists _, _, _. by eapply effects_trans.
Qed.
End Effects.

(** * Theorems *)

(** C6. The read loop is total and handles exactly the messages of the
    stream, in order: every byte stream splits into well-framed messages and
    a rest at which reading fails, and the loop ends with the state obtained
    by handling those messages one after the other until one ends the
    session; when none does, the end of the stream decides (a close or a
    reset is a clean end, anything else an error). *)
Theorem read_loop_refines os elapsed_ns coords vscreen disable_touch r :
  bytes_ok (r_bytes r) -> exists ms rest e,
    r_bytes r = concat (map (fun f => encode_frame f.1 f.2) ms) ++ rest
    /\ Forall frame_ok ms /\ read_frame {| r_bytes := rest; r_end := r_end r |} = Err e
    /\ forall s, read_loop os elapsed_ns coords vscreen disable_touch r s
                 = Some (process os elapsed_ns coords vscreen disable_touch ms (read_ended e) s).
Proof. apply read_loop_process. Qed.

(** A client can only do to the host what the messages say: whatever
    bytes it sends, the loop returns, the injector's state is the result of
    pen and touch operations whose samples are well formed (contact implies
    range, pixels and tilts are [i32], VMulti coordinates are in the
    descriptor's range; only empty touch snapshots when touch is disabled),
    and all it is sent back are whole time-sync responses, one after the
    other, as far as the connection takes them. *)
Theorem read_loop_effects os elapsed_ns coords vscreen disable_touch r s :
  bytes_ok (r_bytes r) -> exists res s' ops resps idrs,
    read_loop os elapsed_ns coords vscreen disable_touch r s = Some (res, s')
    /\ effects os disable_touch s s' ops resps idrs.
Proof.
  intros Hb. destruct (read_loop_process os elapsed_ns coords vscreen disable_touch r Hb)
    as (ms & rest & e & _ & _ & _ & Hl). specialize (Hl s).
  destruct (process_effects os elapsed_ns coords vscreen disable_touch ms (read_ended e) s)
    as (ops & resps & n & H).
  destruct (process os elapsed_ns coords vscreen disable_touch ms (read_ended e) s) as [res s'] eqn:E.
  by exists res, s', ops, resps, n.
Qed.

(** With touch disabled from the start of a session, no touch frame is
    ever injected: whatever bytes the client sends and whatever the system
    does, the calls made contain none. *)
Theorem disabled_touch_is_silent os elapsed_ns coords vscreen r profile v w :
  bytes_ok (r_bytes r) -> exists res s',
    read_loop os elapsed_ns coords vscreen true r
      {| io_world := start profile v; io_writer := w; io_idr := 0; io_clock := 0 |} = Some (res, s')
    /\ Forall (fun e => forall infos, e.1 <> CallTouch infos) (log (io_world s')).
Proof.
  intros Hb. destruct (read_loop_process os elapsed_ns coords vscreen true r Hb)
    as (ms & rest & e & _ & _ & _ & Hl).
  set (s := {| io_world := start profile v; io_writer := w; io_idr := 0; io_clock := 0 |}).
  specialize (Hl s).
  destruct (process_effects os elapsed_ns coords vscreen true ms (read_ended e) s)
    as (ops & resps & n & Hw & Hops & _).
  destruct (process os elapsed_ns coords vscreen true ms (read_ended e) s) as [res s'] eqn:E.
  exists res, s'. split; [done |]. cbn [snd] in Hw. rewrite Hw.
  assert (H0 : touch_free (io_world s)) by (split; [done | constructor]).
  assert (H : touch_free (run_ops os (io_world s) ops)); [| by apply H].
  unfold run_ops. revert H0. generalize (io_world s).
  clear Hw E Hl. induction Hops as [|o ops Ho _ IH]; intros w0 Hw0; [done |]. cbn [foldl]. apply IH.
  destruct o as [p | snap | p]; cbn [client_op run_op] in *; [| | done].
  - apply touch_inject_pen; auto using touch_free_call, touch_free_set.
  - rewrite Ho by done. by apply touch_free_lift.
Qed.

(** * A concrete session *)

Definition demo_pen (phase buttons : Z) : PenEvent :=
  {| pe_ts_ns := 5; pe_phase := phase; pe_x_norm := 0x3f000000; pe_y_norm := 0x3f000000;
     pe_pressure := 0x3f800000; pe_tilt_x := 0; pe_tilt_y := 0; pe_buttons := buttons; pe_tool := 0 |}.

Definition demo_messages : list (Z * list Z) :=
  [ (MSG_PEN_EVENT, PenEvent_encode (demo_pen 0 0)); (MSG_TIME_SYNC_REQ, be_bytes_s 8 77);
    (MSG_REQUEST_IDR, []); (0x42, [1; 2; 3]); (MSG_PEN_EVENT, PenEvent_encode (demo_pen 1 1)) ].

(** The stream ends in the middle of a header. *)
Definition demo_reader : Reader :=
  {| r_bytes := concat (map (fun f => encode_frame f.1 f.2) demo_messages) ++ [0x82; 0];
     r_end := ConnectionReset |}.

Definition demo_shared : Shared :=
  {| io_world := start demo_profile None; io_writer := {| w_sent := []; w_err := None |};
     io_idr := 0; io_clock := 0 |}.

Definition demo_clock (k : nat) : Z := 1000 * Z.of_nat k.

Definition demo_coords : AffineTransform := from_normalized_to_rect 0 0 1920 1080 0.

Lemma demo_reader_ok : bytes_ok (r_bytes demo_reader).
Proof. apply (bool_decide_unpack _). vm_compute. exact I. Qed.

Lemma read_loop_refines_witness : exists ms rest e,
  r_bytes demo_reader = concat (map (fun f => encode_frame f.1 f.2) ms) ++ rest
  /\ Forall frame_ok ms /\ read_frame {| r_bytes := rest; r_end := ConnectionReset |} = Err e
  /\ forall s, read_loop friendly_os demo_clock demo_coords (1920, 1080) false demo_reader s
               = Some (process friendly_os demo_clock demo_coords (1920, 1080) false ms (read_ended e) s).
Proof.
  apply (read_loop_refines friendly_os demo_clock demo_coords (1920, 1080) false demo_reader).
  exact demo_reader_ok.
Defined.

Lemma read_loop_effects_witness : exists res s' ops resps idrs,
  read_loop friendly_os demo_clock demo_coords (1920, 1080) false demo_reader demo_shared = Some (res, s')
  /\ effects friendly_os false demo_shared s' ops resps idrs.
Proof.
  apply (read_loop_effects friendly_os demo_clock demo_coords (1920, 1080) false demo_reader demo_shared).
  exact demo_reader_ok.
Defined.

Definition demo_touch : Reader :=
  {| r_bytes := encode_frame MSG_TOUCH_EVENT
       (TouchEvent_encode {| te_ts_ns := 1; te_contacts := [demo_contact] |});
     r_end := UnexpectedEof |}.

Lemma disabled_touch_is_silent_witness : exists res s',
  read_loop friendly_os demo_clock demo_coords (1920, 1080) true demo_touch demo_shared = Some (res, s')
  /\ Forall (fun e => forall infos, e.1 <> CallTouch infos) (log (io_world s')).
Proof.
  apply (disabled_touch_is_silent friendly_os demo_clock demo_coords (1920, 1080) demo_touch
    demo_profile None {| w_sent := []; w_err := None |}).
  apply (bool_decide_unpack _). vm_compute. exact I.
Defined.

(** What the session does: one sync response with the client's timestamp and
    two clock readings, one keyframe request, and a clean end. *)
Lemma demo_run : exists s',
  read_loop friendly_os demo_clock demo_coords (1920, 1080) false demo_reader demo_shared = Some (Ok tt, s')
  /\ w_sent (io_writer s')
     = encode_frame MSG_TIME_SYNC_RESP
         (TimeSyncResp_encode {| tr_android_t1_ns := 77; tr_pc_t2_ns := 0; tr_pc_t3_ns := 1000 |})
  /\ io_idr s' = 1%nat /\ length (log (io_world s')) = 3%nat.
Proof. eexists. split; [vm_compute; reflexivity |]. vm_compute. auto. Qed.

(** The client left while the first barrel button was down: the loop ends
    cleanly with Ctrl still pressed, and nothing after it releases the key
    (dropping the injector only destroys the pointer devices). *)
Lemma disconnect_leaves_key_down : exists s',
  read_loop friendly_os demo_clock demo_coords (1920, 1080) false demo_reader demo_shared = Some (Ok tt, s')
  /\ pressed (HKey 0x11) (log (io_world s')) = 1.
Proof. eexists. split; [vm_compute; reflexivity |]. vm_compute. reflexivity. Qed.
