(* ===== verification/Session.v ===== *)
(** One session: [crates/penflow-server/src/session.rs] apart from the read
    loop itself.  Runtime counters and their summary, the frame and telemetry
    pumps, the handshake, the screen-off session, and the streaming phase of
    [run] as an interleaving of its tasks. *)
From stdpp Require Import gmap strings sorting.
From S2P Require Import Prelude Bytes Protocol Engine AnnexB PacketQueue F32 Coords.
From S2P Require Import Inject InjectSpec Vdd ReadLoop.

(** * Runtime counters *)

Record Stats := { frames : Z; queue_depth : Z; encode_us_ring : list Z }.

Definition ENCODE_RING_CAPACITY : nat := 256.

Definition record_encode_us (us : Z) (ring : list Z) : list Z :=
  (if Nat.eqb (length ring) ENCODE_RING_CAPACITY then tail ring else ring) ++ [us].

(** [sort_unstable] of the standard library: any sort gives the same result
    on integers. *)
Definition sorted_ring (ring : list Z) : list Z := merge_sort Z.le ring.

(** [((len - 1) as f64 * 0.99) as usize]: 53 bits of precision; the literal
    is the double nearest to 99/100, and the product is not negative. *)
Definition f64_of_Z (n : Z) : spec_float := binary_normalize 53 1024 n 0 false.

Definition f64_099 : spec_float := SFdiv 53 1024 (f64_of_Z 99) (f64_of_Z 100).

Definition p99_index (len : nat) : nat :=
  match f32_value (SFmul 53 1024 (f64_of_Z (Z.of_nat len - 1)) f64_099) with
  | Some v => Z.to_nat (trunc_dyadic v)
  | None => 0%nat
  end.

(** Index [p99_index] is in bounds for a ring, so the default is never used. *)
Definition encode_us_summary (ring : list Z) : Z * Z :=
  if bool_decide (ring = []) then (0, 0)
  else
    let sum := uwrap 64 (foldr Z.add 0 ring) in
    let avg := uwrap 32 (Z.div sum (Z.of_nat (length ring))) in
    (avg, get (sorted_ring ring) (p99_index (length ring))).

(** * Pumps *)

(** [telemetry_pump], one tick: the message, and the counters after it. *)
Definition telemetry_tick {T} (stats : Stats) (queue : @Queue T) : Telemetry * Stats :=
  let qs := PacketQueue.stats queue in
  let '(encode_us_avg, encode_us_p99) := encode_us_summary (encode_us_ring stats) in
  ({| tl_frames := frames stats; tl_dropped := uwrap 32 (st_dropped_overflow qs);
      tl_capture_us_avg := 0; tl_encode_us_avg := encode_us_avg;
      tl_encode_us_p99 := encode_us_p99;
      tl_queue_depth := Z.min (Z.of_nat (st_depth qs)) 255 |},
   {| frames := 0; queue_depth := queue_depth stats; encode_us_ring := encode_us_ring stats |}).

Definition video_frame_of (pkt : EncodedPacket) : VideoFrame :=
  let flags := if pkt_is_keyframe pkt then FRAME_FLAG_KEYFRAME else 0 in
  let flags := match pkt_encode_us pkt with Some _ => Z.lor flags FRAME_FLAG_EXTENDED | None => flags end in
  {| vf_pts_ns := pkt_pts_ns pkt; vf_flags := flags; vf_capture_us := None;
     vf_encode_us := pkt_encode_us pkt; vf_coded := pkt_bytes pkt |}.

(** The motion-recovery trigger; durations in milliseconds. *)
Definition motion_idr (threshold : option Z) (min_interval elapsed : Z) (pkt : EncodedPacket) : bool :=
  match threshold with
  | Some t => negb (pkt_is_keyframe pkt) && (t <=? Z.of_nat (length (pkt_bytes pkt)))
              && (min_interval <=? elapsed)
  | None => false
  end.

(** [wait_for_keyframe] over what the pops before the deadline return. *)
Fixpoint wait_for_keyframe (timeout_ms : Z) (pops : list (option EncodedPacket))
  : result SessionError EncodedPacket :=
  match pops with
  | [] => Err (NoKeyframe timeout_ms)
  | Some p :: pops' => if pkt_is_keyframe p then Ok p else wait_for_keyframe timeout_ms pops'
  | None :: pops' => wait_for_keyframe timeout_ms pops'
  end.

(** * The handshake *)

Inductive SessionEvent :=
| Connecting (peer : string)
| Connected (peer : string) (device_width device_height : Z)
| Disconnected
| Errored (e : SessionError).

Record SessionConfig := {
  sc_monitor : MonitorInfo;
  sc_codec : Codec;
  sc_bitrate_bps : Z;
  sc_fps : Z;
  sc_idr_interval : option Z;
  sc_motion_idr_threshold_bytes : option Z;
  sc_motion_idr_min_interval : Z;
  sc_vdd : option VddController;
  sc_vdd_target_resolution : option (Z * Z);
  sc_hud_enabled : bool;
  sc_screen_off : bool;
  sc_disable_touch : bool;
  sc_pen_profile : PenButtonProfile;
}.

Definition no_monitor : MonitorInfo :=
  {| adapter_index := 0; adapter_luid := 0; adapter_name := EmptyString; adapter_vendor_id := 0;
     adapter_device_id := 0; adapter_is_software := false; output_index_within_adapter := 0;
     device_name := EmptyString; mon_width := 0; mon_height := 0; desktop_coords := (0, 0, 0, 0); rotation := 1;
     attached_to_desktop := false; looks_virtual := false |}.

(** [SessionConfig::default], with the default pen profile. *)
Definition SessionConfig_default (profile : PenButtonProfile) : SessionConfig :=
  {| sc_monitor := no_monitor; sc_codec := Hevc; sc_bitrate_bps := 50000000; sc_fps := 120;
     sc_idr_interval := None; sc_motion_idr_threshold_bytes := None; sc_motion_idr_min_interval := 250;
     sc_vdd := None; sc_vdd_target_resolution := None; sc_hud_enabled := true; sc_screen_off := false;
     sc_disable_touch := false; sc_pen_profile := profile |}.

Definition rotation_deg (rotation : Z) : Z :=
  if rotation =? 2 then 90 else if rotation =? 3 then 180 else if rotation =? 4 then 270 else 0.

Definition session_coords (m : MonitorInfo) : AffineTransform :=
  from_normalized_to_rect (desktop_coords m).1.1.1 (desktop_coords m).1.1.2 (mon_width m)
    (mon_height m) (rotation_deg (rotation m)).

Definition codec_wire_id (c : Codec) : Z := match c with H264 => CODEC_H264 | Hevc => CODEC_HEVC end.

Definition hello_pc (cfg : SessionConfig) (m : MonitorInfo) : HelloPc :=
  {| hp_protocol_version := 0; hp_width := Z.min (mon_width m) 65535;
     hp_height := Z.min (mon_height m) 65535; hp_codec := codec_wire_id (sc_codec cfg);
     hp_bitrate_bps := sc_bitrate_bps cfg; hp_fps := Z.min (sc_fps cfg) 255 |}.

Definition parameter_sets (c : Codec) (bytes : list Z) : list Z :=
  match c with
  | H264 => extract_h264_nals bytes [7; 8]
  | Hevc => extract_hevc_nals bytes [32; 33; 34]
  end.

Definition first_frame (pkt : EncodedPacket) : VideoFrame :=
  {| vf_pts_ns := pkt_pts_ns pkt; vf_flags := FRAME_FLAG_KEYFRAME; vf_capture_us := None;
     vf_encode_us := None; vf_coded := pkt_bytes pkt |}.

(** What [run] writes before it spawns the pumps, or why it gives up. *)
Definition stream_header (cfg : SessionConfig) (m : MonitorInfo) (first_pkt : EncodedPacket)
  : result SessionError (list (Z * list Z)) :=
  let csd0 := parameter_sets (sc_codec cfg) (pkt_bytes first_pkt) in
  if bool_decide (csd0 = []) then Err (NoKeyframe 3000)
  else
    Ok [ (MSG_HELLO_PC, HelloPc_encode (hello_pc cfg m));
         (MSG_CLIENT_CONFIG,
          ClientConfig_encode {| cc_flags := if sc_hud_enabled cfg then CLIENT_CFG_FLAG_HUD else 0 |});
         (MSG_VIDEO_CONFIG, csd0);
         (MSG_VIDEO_FRAME, VideoFrame_encode (first_frame first_pkt)) ].

Definition screen_off_header (cfg : SessionConfig) (m : MonitorInfo) : list (Z * list Z) :=
  let cfg_flags := CLIENT_CFG_FLAG_SCREEN_OFF in
  let cfg_flags := if sc_hud_enabled cfg then Z.lor cfg_flags CLIENT_CFG_FLAG_HUD else cfg_flags in
  [ (MSG_HELLO_PC, HelloPc_encode (hello_pc cfg m));
    (MSG_CLIENT_CONFIG, ClientConfig_encode {| cc_flags := cfg_flags |}) ].

(** The first message must be the client's hello. *)
Definition read_hello (r : Reader) : result SessionError (HelloAndroid * Reader) :=
  match read_frame r with
  | Err e => Err (SeProtocol e)
  | Ok ((msg_id, payload), r') =>
      if negb (msg_id =? MSG_HELLO_ANDROID) then Err (UnexpectedHandshakeMessage msg_id)
      else match HelloAndroid_decode payload with
           | Err e => Err (SeProtocol e)
           | Ok android => Ok (android, r')
           end
  end.

(** * Sessions *)

Section Session.
Context (os : Os) (elapsed_ns : nat -> Z) (initial_profile : PenButtonProfile).

(** When the finish signal is seen: after [fi_after] messages, while the loop
    waits for the next, or while it handles it ([fi_cut]), when the answer to
    it may have been written in part. *)
Record Finish := { fi_after : nat; fi_cut : option nat }.

Definition later (f : Finish) : Finish := {| fi_after := pred (fi_after f); fi_cut := fi_cut f |}.

(** [select!] between the read loop and the finish signal, which drops the
    loop where it waits. *)
Fixpoint read_loop_select (coords : AffineTransform) (vscreen : Z * Z) (disable_touch : bool)
    (fuel : nat) (finish : option Finish) (r : Reader) (s : Shared)
  : option (result SessionError unit * Shared) :=
  match fuel with
  | O => None
  | S fuel' =>
      match finish with
      | Some {| fi_after := O; fi_cut := None |} => Some (Ok tt, s)
      | _ =>
          match read_frame r with
          | Err e => Some (read_ended e, s)
          | Ok (m, r') =>
              match finish with
              | Some {| fi_after := O; fi_cut := Some k |} => Some (Ok tt, cut_message elapsed_ns m k s)
              | _ =>
                  match handle_message os elapsed_ns coords vscreen disable_touch m s with
                  | (s', Some res) => Some (res, s')
                  | (s', None) =>
                      read_loop_select coords vscreen disable_touch fuel' (later <$> finish) r' s'
                  end
              end
          end
      end
  end.

(** What surrounds a screen-off session: the accepted connection, the
    injector, the monitors, and when the caller asks to finish. *)
Record ScreenOffEnv := {
  so_accept : option (Reader * Writer * string);
  so_injector : EngineResult (option VMultiPen);
  so_monitors : EngineResult (list MonitorInfo);
  so_finish : option Finish;
}.

Record Outcome := {
  oc_result : result SessionError unit;
  oc_events : list SessionEvent;
  oc_writer : Writer;
}.

Definition same_monitor (a b : MonitorInfo) : bool :=
  (adapter_luid a =? adapter_luid b) && bool_decide (device_name a = device_name b).

Definition current_monitor (cfg : SessionConfig) (mons : EngineResult (list MonitorInfo)) : MonitorInfo :=
  match mons with
  | Ok l => default (sc_monitor cfg) (List.find (fun m => same_monitor m (sc_monitor cfg)) l)
  | Err _ => sc_monitor cfg
  end.

(** [GetSystemMetrics(..).max(1) as u32]. *)
Definition vscreen_size (w : World) : Z * Z :=
  (Z.max (os_screen os (log w)).1.2 1, Z.max (os_screen os (log w)).2 1).

Definition final_event (res : result SessionError unit) : SessionEvent :=
  match res with Ok _ => Disconnected | Err e => Errored e end.

Definition closed_connection : Writer := {| w_sent := []; w_err := Some (0%nat, OtherIo) |}.

Definition run_screen_off (cfg : SessionConfig) (env : ScreenOffEnv) : option Outcome :=
  match so_accept env with
  | None => Some {| oc_result := Err SeIo; oc_events := []; oc_writer := closed_connection |}
  | Some (reader, writer, peer) =>
      let events := [Connecting peer] in
      match read_hello reader with
      | Err e => Some {| oc_result := Err e; oc_events := events; oc_writer := writer |}
      | Ok (android, reader) =>
          match so_injector env with
          | Err e => Some {| oc_result := Err (SeEngine e); oc_events := events; oc_writer := writer |}
          | Ok v =>
              let injector := (set_pen_profile os (sc_pen_profile cfg) (start initial_profile v)).2 in
              let monitor := current_monitor cfg (so_monitors env) in
              let coords := session_coords monitor in
              match write_frames writer (screen_off_header cfg monitor) with
              | (Err e, writer) =>
                  Some {| oc_result := Err (SeProtocol e); oc_events := events; oc_writer := writer |}
              | (Ok _, writer) =>
                  let events := events ++ [Connected peer (ha_display_width android)
                                                          (ha_display_height android)] in
                  let s := {| io_world := injector; io_writer := writer; io_idr := 0; io_clock := 0 |} in
                  match read_loop_select coords (vscreen_size injector) (sc_disable_touch cfg)
                          (S (length (r_bytes reader))) (so_finish env) reader s with
                  | None => None
                  | Some (read_result, s) =>
                      let '(_, writer) := write_frame (io_writer s) MSG_PC_GOODBYE [] in
                      Some {| oc_result := read_result;
                              oc_events := events ++ [final_event read_result];
                              oc_writer := writer |}
                  end
              end
          end
      end
  end.

(** ** The streaming phase of [run]

    Its tasks share the writer, the queue and the counters behind locks; a
    turn is what one of them does while it holds them. *)

Record Live := {
  lv_shared : Shared;
  lv_queue : @Queue EncodedPacket;
  lv_stats : Stats;
  lv_last_motion_idr : Z;
  lv_pump : bool;
  lv_telemetry : bool;
  lv_engine_idr : nat;
}.

(** The encoder queues a packet; the frame pump wakes at time [now]; the
    telemetry interval ticks; the main task services a keyframe request;
    the periodic task asks for one; the read loop gets a message. *)
Inductive Turn :=
| TEncode (pkt : EncodedPacket)
| TPump (now : Z)
| TTick
| TServeIdr
| TPeriodicIdr
| TMessage (m : Z * list Z).

Definition with_writer (s : Shared) (w : Writer) (idr : nat) : Shared :=
  {| io_world := io_world s; io_writer := w; io_idr := idr; io_clock := io_clock s |}.

Definition pump_turn (cfg : SessionConfig) (now : Z) (l : Live) : Live :=
  match pop_round (lv_queue l) with
  | Some (Some pkt, q) =>
      let '(r, w) := write_all (io_writer (lv_shared l))
        (encode_frame MSG_VIDEO_FRAME (VideoFrame_encode (video_frame_of pkt))) in
      match r with
      | Err _ =>
          {| lv_shared := with_writer (lv_shared l) w (io_idr (lv_shared l)); lv_queue := q;
             lv_stats := lv_stats l; lv_last_motion_idr := lv_last_motion_idr l; lv_pump := false;
             lv_telemetry := lv_telemetry l; lv_engine_idr := lv_engine_idr l |}
      | Ok _ =>
          let fire := motion_idr (sc_motion_idr_threshold_bytes cfg)
            (sc_motion_idr_min_interval cfg) (now - lv_last_motion_idr l) pkt in
          {| lv_shared := with_writer (lv_shared l) w
               (if fire then S (io_idr (lv_shared l)) else io_idr (lv_shared l));
             lv_queue := q;
             lv_stats := {| frames := uwrap 32 (frames (lv_stats l) + 1);
                            queue_depth := uwrap 32 (Z.of_nat (length (deque q)));
                            encode_us_ring := match pkt_encode_us pkt with
                                              | Some us => record_encode_us us (encode_us_ring (lv_stats l))
                                              | None => encode_us_ring (lv_stats l)
                                              end |};
             lv_last_motion_idr := if fire then now else lv_last_motion_idr l; lv_pump := true;
             lv_telemetry := lv_telemetry l; lv_engine_idr := lv_engine_idr l |}
      end
  | _ => l
  end.

Definition tick_turn (l : Live) : Live :=
  let '(t, stats) := telemetry_tick (lv_stats l) (lv_queue l) in
  let '(r, w) := write_all (io_writer (lv_shared l)) (encode_frame MSG_TELEMETRY (Telemetry_encode t)) in
  {| lv_shared := with_writer (lv_shared l) w (io_idr (lv_shared l)); lv_queue := lv_queue l;
     lv_stats := stats; lv_last_motion_idr := lv_last_motion_idr l; lv_pump := lv_pump l;
     lv_telemetry := is_ok r; lv_engine_idr := lv_engine_idr l |}.

Definition put_queue (q : @Queue EncodedPacket) (l : Live) : Live :=
  {| lv_shared := lv_shared l; lv_queue := q; lv_stats := lv_stats l;
     lv_last_motion_idr := lv_last_motion_idr l; lv_pump := lv_pump l;
     lv_telemetry := lv_telemetry l; lv_engine_idr := lv_engine_idr l |}.

Definition with_shared (l : Live) (s : Shared) (serviced : nat) : Live :=
  {| lv_shared := s; lv_queue := lv_queue l; lv_stats := lv_stats l;
     lv_last_motion_idr := lv_last_motion_idr l; lv_pump := lv_pump l;
     lv_telemetry := lv_telemetry l; lv_engine_idr := serviced |}.

Definition turn (cfg : SessionConfig) (coords : AffineTransform) (vscreen : Z * Z) (l : Live) (t : Turn)
  : Live * option (result SessionError unit) :=
  match t with
  | TEncode pkt =>
      (put_queue (push pkt (lv_queue l)).1 l, None)
  | TPump now => (if lv_pump l then pump_turn cfg now l else l, None)
  | TTick => (if lv_telemetry l then tick_turn l else l, None)
  | TServeIdr =>
      match io_idr (lv_shared l) with
      | O => (l, None)
      | S n => (with_shared l (with_writer (lv_shared l) (io_writer (lv_shared l)) n)
                            (S (lv_engine_idr l)), None)
      end
  | TPeriodicIdr =>
      (with_shared l (with_writer (lv_shared l) (io_writer (lv_shared l)) (S (io_idr (lv_shared l))))
                   (lv_engine_idr l), None)
  | TMessage m =>
      let '(s, res) := handle_message os elapsed_ns coords vscreen (sc_disable_touch cfg) m (lv_shared l) in
      (with_shared l s (lv_engine_idr l), res)
  end.

(** The turns up to the one that ends the read loop. *)
Fixpoint run_turns (cfg : SessionConfig) (coords : AffineTransform) (vscreen : Z * Z) (l : Live)
    (ts : list Turn) : Live * option (result SessionError unit) :=
  match ts with
  | [] => (l, None)
  | t :: ts' =>
      match turn cfg coords vscreen l t with
      | (l', Some res) => (l', Some res)
      | (l', None) => run_turns cfg coords vscreen l' ts'
      end
  end.
End Session.

(** * The summary of encode times *)

Lemma record_window samples us :
  record_encode_us us (drop (length samples - ENCODE_RING_CAPACITY) samples)
  = drop (length (samples ++ [us]) - ENCODE_RING_CAPACITY) (samples ++ [us]).
Proof.
  unfold record_encode_us. rewrite length_drop, length_app. cbn [length].
  destruct (Nat.eqb_spec (length samples - (length samples - ENCODE_RING_CAPACITY)) ENCODE_RING_CAPACITY)
    as [E | E].
  - replace (length samples + 1 - ENCODE_RING_CAPACITY)%nat
      with (S (length samples - ENCODE_RING_CAPACITY)) by (unfold ENCODE_RING_CAPACITY in *; lia).
    rewrite drop_app_le by (unfold ENCODE_RING_CAPACITY in *; lia). f_equal.
    rewrite <- (Nat.add_1_r (length samples - _)), <- drop_drop.
    by destruct (drop (length samples - ENCODE_RING_CAPACITY) samples).
  - replace (length samples - ENCODE_RING_CAPACITY)%nat with 0%nat
      by (unfold ENCODE_RING_CAPACITY in *; lia).
    by replace (length samples + 1 - ENCODE_RING_CAPACITY)%nat with 0%nat
      by (unfold ENCODE_RING_CAPACITY in *; lia).
Qed.

Lemma ring_window samples :
  foldl (fun r us => record_encode_us us r) [] samples
  = drop (length samples - ENCODE_RING_CAPACITY) samples.
Proof.
  induction samples as [|us samples IH] using rev_ind; [done |].
  rewrite foldl_app, IH. cbn [foldl]. apply record_window.
Qed.

(** The product in binary64 never rounds up to the next integer: checked for
    every length a ring can have. *)
Lemma p99_index_exact n : (1 <= n <= ENCODE_RING_CAPACITY)%nat -> p99_index n = ((n - 1) * 99 / 100)%nat.
Proof.
  intros Hn. apply Nat.eqb_eq.
  assert (H : forallb (fun n => Nat.eqb (p99_index n) ((n - 1) * 99 / 100)) (seq 1 256) = true)
    by (vm_compute; reflexivity).
  rewrite forallb_forall in H. apply H, in_seq. unfold ENCODE_RING_CAPACITY in Hn. lia.
Qed.

Lemma sum_bounds b l : Forall (fun x => 0 <= x <= b) l ->
  0 <= foldr Z.add 0 l <= b * Z.of_nat (length l).
Proof. induction 1; cbn [foldr length]; lia. Qed.

(** In a sorted list at most [length - 1 - i] elements exceed the [i]-th. *)
Lemma sorted_above l : StronglySorted Z.le l -> forall i x, l !! i = Some x ->
  (length (List.filter (Z.ltb x) l) <= length l - 1 - i)%nat.
Proof.
  induction 1 as [|y l Hs IH Hy]; intros i x Hi; [done |].
  destruct i as [|i]; cbn in Hi; cbn [List.filter length].
  - injection Hi as ->. rewrite (proj2 (Z.ltb_ge x x)) by lia.
    pose proof (filter_length_le (Z.ltb x) l). lia.
  - assert (y <= x). { rewrite Forall_forall in Hy. apply Hy. by eapply list_elem_of_In, list_elem_of_lookup_2. }
    rewrite (proj2 (Z.ltb_ge x y)) by lia. specialize (IH i x Hi).
    apply lookup_lt_Some in Hi. lia.
Qed.

Lemma filter_length_perm (f : Z -> bool) l k : Permutation l k ->
  length (List.filter f l) = length (List.filter f k).
Proof. induction 1; cbn [List.filter]; repeat case_match; cbn [length]; congruence. Qed.

(** The encode-time summary is what the HUD says it is: the ring holds
    exactly the last 256 samples in order; over it the average is the exact
    floor of the mean (no sum overflows), and the 99th percentile is one of
    the samples, with fewer than one in a hundred (rounded up) above it. *)
Theorem encode_summary_exact samples :
  Forall u32 samples -> samples <> [] ->
  let ring := foldl (fun r us => record_encode_us us r) [] samples in
  let '(avg, p99) := encode_us_summary ring in
  ring = drop (length samples - 256) samples
  /\ (1 <= length ring <= 256)%nat
  /\ avg = foldr Z.add 0 ring / Z.of_nat (length ring) /\ u32 avg
  /\ p99 ∈ ring
  /\ 100 * Z.of_nat (length (List.filter (Z.ltb p99) ring)) <= Z.of_nat (length ring) + 98.
Proof.
  intros Hs Hne. cbv zeta. rewrite ring_window. change ENCODE_RING_CAPACITY with 256%nat.
  set (ring := drop (length samples - 256) samples).
  assert (Hlen : (1 <= length ring <= 256)%nat).
  { subst ring. rewrite length_drop. destruct samples; [done |]. cbn [length]. lia. }
  assert (Hr : Forall (fun x => 0 <= x <= 2 ^ 32 - 1) ring).
  { apply Forall_drop. eapply Forall_impl; [| exact Hs]. intros x Hx. urange. }
  pose proof (sum_bounds _ _ Hr) as Hsum.
  unfold encode_us_summary. rewrite bool_decide_eq_false_2 by (intros E; rewrite E in Hlen; cbn in Hlen; lia).
  cbv zeta. set (sum := foldr Z.add 0 ring) in *.
  assert (Hu : uwrap 64 sum = sum) by (apply uwrap_small; urange).
  assert (Ha : u32 (sum / Z.of_nat (length ring))).
  { unfold unsigned. split; [apply Z.div_pos; lia |]. apply Z.div_lt_upper_bound; [lia |]. pow2. lia. }
  rewrite Hu, (uwrap_small 32 _ Ha), p99_index_exact by (unfold ENCODE_RING_CAPACITY; lia).
  set (i := ((length ring - 1) * 99 / 100)%nat).
  assert (Hi : (i <= length ring - 1)%nat) by (subst i; apply Nat.Div0.div_le_upper_bound; lia).
  pose proof (merge_sort_Permutation Z.le ring) as Hp.
  assert (Hslen : length (sorted_ring ring) = length ring) by (by apply Permutation_length).
  destruct (lookup_lt_is_Some_2 (sorted_ring ring) i) as (x & Hx); [lia |].
  unfold get. rewrite Hx. cbn [default from_option id].
  pose proof (sorted_above _ (StronglySorted_merge_sort Z.le ring) i x Hx) as Hab.
  rewrite (filter_length_perm _ _ _ Hp) in Hab. fold (sorted_ring ring) in Hab.
  split_and!; try done; try lia.
  - unfold sorted_ring in Hx. apply list_elem_of_lookup_2 in Hx. by rewrite Hp in Hx.
  - rewrite Hslen in Hab. subst i.
    pose proof (Nat.div_mod_eq ((length ring - 1) * 99) 100).
    pose proof (Nat.mod_upper_bound ((length ring - 1) * 99) 100 (Nat.neq_succ_0 99)). lia.
Qed.

Lemma encode_summary_exact_witness :
  let ring := foldl (fun r us => record_encode_us us r) [] [2800; 3100; 2900; 9000] in
  let '(avg, p99) := encode_us_summary ring in
  ring = drop 0 [2800; 3100; 2900; 9000]
  /\ (1 <= length ring <= 256)%nat
  /\ avg = foldr Z.add 0 ring / Z.of_nat (length ring) /\ u32 avg
  /\ p99 ∈ ring
  /\ 100 * Z.of_nat (length (List.filter (Z.ltb p99) ring)) <= Z.of_nat (length ring) + 98.
Proof.
  apply (encode_summary_exact [2800; 3100; 2900; 9000]); [| done].
  repeat (apply Forall_cons_2; [urange |]). apply Forall_nil_2.
Defined.

(** * The screen-off session *)

Definition on_wire (fs : list (Z * list Z)) : list Z :=
  concat (map (fun f => encode_frame f.1 f.2) fs).

Lemma on_wire_app fs gs : on_wire (fs ++ gs) = on_wire fs ++ on_wire gs.
Proof. unfold on_wire. by rewrite map_app, concat_app. Qed.

(** The frames a session may send, by the side that sends them. *)
Definition sync_frames (resps : list (list Z)) : list (Z * list Z) :=
  map (fun p => (MSG_TIME_SYNC_RESP, p)) resps.

Lemma sync_on_wire resps :
  on_wire (sync_frames resps) = concat (map (encode_frame MSG_TIME_SYNC_RESP) resps).
Proof. unfold on_wire, sync_frames. by rewrite map_map. Qed.

Section Lifecycle.
Context (os : Os) (elapsed_ns : nat -> Z) (initial_profile : PenButtonProfile).

(** The loop returns, and what it leaves behind is what whole messages did,
    with at most a part of one more answer, if the signal came then. *)
Lemma read_loop_select_effects coords vscreen disable_touch fuel : forall finish r s,
  (length (r_bytes r) < fuel)%nat -> exists res s' s1 ops resps n cut,
  read_loop_select os elapsed_ns coords vscreen disable_touch fuel finish r s = Some (res, s')
  /\ effects os disable_touch s s1 ops resps n
  /\ io_writer s' = wrote cut (io_writer s1) /\ part_of_response cut
  /\ (cut <> [] -> res = Ok tt /\ exists f k, finish = Some f /\ fi_cut f = Some k).
Proof.
  induction fuel as [|fuel IH]; intros finish r s Hf; [lia |].
  assert (Hstop : forall res : result SessionError unit, exists res' s' s1 ops resps n cut,
    Some (res, s) = Some (res', s') /\ effects os disable_touch s s1 ops resps n
    /\ io_writer s' = wrote cut (io_writer s1) /\ part_of_response cut
    /\ (cut <> [] -> res' = Ok tt /\ exists f k, finish = Some f /\ fi_cut f = Some k)).
  { intros res. exists res, s, s. do 3 eexists. exists []. rewrite wrote_nil.
    split_and!; [done | apply effects_none | done | apply part_nil | done]. }
  assert (Hgo : forall m r', read_frame r = Ok (m, r') -> exists res s' s1 ops resps n cut,
    match handle_message os elapsed_ns coords vscreen disable_touch m s with
    | (s', Some res) => Some (res, s')
    | (s', None) => read_loop_select os elapsed_ns coords vscreen disable_touch fuel (later <$> finish) r' s'
    end = Some (res, s') /\ effects os disable_touch s s1 ops resps n
    /\ io_writer s' = wrote cut (io_writer s1) /\ part_of_response cut
    /\ (cut <> [] -> res = Ok tt /\ exists f k, finish = Some f /\ fi_cut f = Some k)).
  { intros m r' E. pose proof (read_frame_shrinks _ _ _ E).
    destruct (handle_effects os elapsed_ns coords vscreen disable_touch m s) as (ops & resps & n & H1).
    destruct (handle_message _ _ _ _ _ m s) as [s1 [res|]]; cbn [fst] in H1.
    - exists res, s1, s1, ops, resps, n, []. rewrite wrote_nil. split_and!; [done | done | done | apply part_nil | done].
    - destruct (IH (later <$> finish) r' s1) as (res & s2 & s3 & ops' & resps' & n' & cut & E2 & H2 & Hw & Hp & Hc); [lia |].
      exists res, s2, s3. do 3 eexists. exists cut. split_and!; [exact E2 | by eapply effects_trans | done | done |].
      intros Hne. destruct (Hc Hne) as (Hr & f & k & Hfi & Hk). split; [exact Hr |].
      destruct finish as [f0|]; [| done]. injection Hfi as <-. by exists f0, k. }
  cbn [read_loop_select]. destruct finish as [[[|j] [k|]]|]; [| apply Hstop | | |].
  1: { destruct (read_frame r) as [[m r']|e] eqn:E; [| apply Hstop].
    destruct (cut_effects elapsed_ns m k s) as (cut & Hp & Ec). exists (Ok tt), (cut_message elapsed_ns m k s), s.
    do 3 eexists. exists cut. split_and!; [done | apply effects_none | by rewrite Ec | done |].
    intros _. split; [done |]. eexists _, _. done. }
  all: destruct (read_frame r) as [[m r']|e] eqn:E; [by apply Hgo | apply Hstop].
Qed.

(** The bytes of a session that streams: the header, whole sync responses, the
    part of one that the finish signal left, and the goodbye. *)
Definition screen_off_bytes (header : list (Z * list Z)) (resps : list (list Z)) (cut : list Z) : list Z :=
  on_wire header ++ on_wire (sync_frames resps) ++ cut ++ on_wire [(MSG_PC_GOODBYE, [])].

(** How far the connection [w] goes. *)
Definition takes (w : Writer) (bytes : list Z) : bool :=
  match w_err w with Some (n, _) => Nat.leb (length bytes) n | None => true end.

(** How a session on the connection [w0] went.  The handshake failed, and
    nothing was written; or the connection broke within the header; or the
    session ran, three events frame it, and all it tried to write is the header,
    the sync responses and the goodbye. *)
Definition lifecycle (cfg : SessionConfig) (env : ScreenOffEnv) (peer : string) (w0 : Writer) (o : Outcome) : Prop :=
  let header := screen_off_header cfg (current_monitor cfg (so_monitors env)) in
  (oc_events o = [Connecting peer] /\ is_ok (oc_result o) = false /\ oc_writer o = w0)
  \/ (oc_events o = [Connecting peer]
      /\ (exists n k, w_err w0 = Some (n, k) /\ (n < length (on_wire header))%nat /\ oc_result o = Err (SeProtocol (Io k)))
      /\ oc_writer o = wrote (on_wire header) w0)
  \/ exists android resps cut,
    oc_events o = [Connecting peer;
                   Connected peer (ha_display_width android) (ha_display_height android);
                   final_event (oc_result o)]
    /\ Forall (fun p => length p = TimeSyncResp_SIZE) resps
    /\ part_of_response cut
    /\ (cut <> [] -> oc_result o = Ok tt /\ exists f k, so_finish env = Some f /\ fi_cut f = Some k)
    /\ oc_writer o = wrote (screen_off_bytes header resps cut) w0.

(** C30. A screen-off session tells the truth, on any connection, wherever it
    breaks.  It returns once its client's bytes have ended or the caller has
    asked to finish (no write waiting for ever), in one of three ways.  The
    handshake failed: the caller gets the error, one Connecting event and a
    connection on which nothing was written.  The connection broke within the
    header: the caller gets its error and the one event.  Or the session ran:
    the events are Connecting, Connected with the client's display size, and
    Disconnected or Errored as the result is, and the bytes, as far as the
    connection took them, are exactly the header, whole sync responses and the
    goodbye, but for a part of one more response before the goodbye when the
    caller asked to finish while that response was being written.  The third
    case is the one of a valid hello, a working injector and a connection that
    takes the header. *)
Theorem screen_off_lifecycle cfg env r w peer :
  so_accept env = Some (r, w, peer) ->
  exists o, run_screen_off os elapsed_ns initial_profile cfg env = Some o
    /\ lifecycle cfg env peer w o
    /\ (is_ok (read_hello r) && is_ok (so_injector env)
        && takes w (on_wire (screen_off_header cfg (current_monitor cfg (so_monitors env)))) = true
        <-> length (oc_events o) = 3%nat).
Proof.
  intros Ha. unfold run_screen_off. rewrite Ha.
  destruct (read_hello r) as [[android r']|e]; cbn [is_ok andb].
  2: { eexists. split; [done |]. split; [left; by split_and! | by split]. }
  destruct (so_injector env) as [v|e]; cbn [is_ok andb].
  2: { eexists. split; [done |]. split; [left; by split_and! | by split]. }
  cbv zeta. set (m := current_monitor cfg (so_monitors env)). set (header := screen_off_header cfg m).
  pose proof (write_frames_wrote header w) as Hw. pose proof (write_frames_result header w) as Hr.
  fold (on_wire header) in Hw, Hr. destruct (write_frames w header) as [[[]|e] w1]; cbn [fst snd] in Hw, Hr; subst w1.
  2: { destruct Hr as (n & k & Ew & -> & Hn). eexists. split; [reflexivity |].
    split; [right; left; split_and!; eauto |]. unfold takes. rewrite Ew.
    rewrite (proj2 (Nat.leb_gt _ _)) by done. by split. }
  set (s := {| io_world := (set_pen_profile os (sc_pen_profile cfg) (start initial_profile v)).2;
    io_writer := _; io_idr := 0; io_clock := 0 |}).
  destruct (read_loop_select_effects (session_coords m)
    (vscreen_size os (set_pen_profile os (sc_pen_profile cfg) (start initial_profile v)).2)
    (sc_disable_touch cfg) (S (length (r_bytes r'))) (so_finish env) r' s)
    as (res & s' & s1 & ops & resps & n & cut & E & Heff & Hs' & Hp & Hc); [lia |].
  rewrite E. destruct Heff as (_ & _ & Hs1 & Hresps & _).
  unfold write_frame. rewrite (surjective_pairing (write_all _ _)), write_all_wrote.
  eexists. split; [reflexivity |]. split.
  - right. right. exists android, resps, cut. split_and!; try done. cbn [oc_writer]. rewrite Hs', Hs1.
    unfold screen_off_bytes. rewrite !wrote_app, sync_on_wire. reflexivity.
  - split; [done |]. intros _. unfold takes. destruct (w_err w) as [[j k]|]; [| done].
    apply Nat.leb_le. by eapply Hr.
Qed.
End Lifecycle.

Definition demo_monitor : MonitorInfo :=
  {| adapter_index := 0; adapter_luid := 7; adapter_name := "gpu"; adapter_vendor_id := 0x10de;
     adapter_device_id := 1; adapter_is_software := false; output_index_within_adapter := 0;
     device_name := "DISPLAY1"; mon_width := 1920; mon_height := 1080;
     desktop_coords := (0, 0, 1920, 1080); rotation := 1; attached_to_desktop := true;
     looks_virtual := false |}.

Definition demo_cfg : SessionConfig :=
  {| sc_monitor := demo_monitor; sc_codec := Hevc; sc_bitrate_bps := 50000000; sc_fps := 120;
     sc_idr_interval := None; sc_vdd := None; sc_vdd_target_resolution := None; sc_screen_off := true;
     sc_motion_idr_threshold_bytes := Some 3; sc_motion_idr_min_interval := 250;
     sc_hud_enabled := true; sc_disable_touch := false; sc_pen_profile := demo_profile |}.

Definition demo_hello : HelloAndroid :=
  {| ha_protocol_version := 0; ha_display_width := 2880; ha_display_height := 1800;
     ha_pen_max_pressure := 8191; ha_pen_tilt_min_deg := -60; ha_pen_tilt_max_deg := 60;
     ha_pen_buttons_count := 3; ha_codec_caps := 3 |}.

Definition demo_client : Reader :=
  {| r_bytes := encode_frame MSG_HELLO_ANDROID (HelloAndroid_encode demo_hello) ++ r_bytes demo_reader;
     r_end := UnexpectedEof |}.

Definition demo_env : ScreenOffEnv :=
  {| so_accept := Some (demo_client, {| w_sent := []; w_err := None |}, "adb"%string);
     so_injector := Ok None; so_monitors := Ok [demo_monitor]; so_finish := Some {| fi_after := 4; fi_cut := None |} |}.

Lemma screen_off_lifecycle_witness : exists o,
  run_screen_off friendly_os demo_clock demo_profile demo_cfg demo_env = Some o
  /\ lifecycle demo_cfg demo_env "adb" {| w_sent := []; w_err := None |} o
  /\ (is_ok (read_hello demo_client) && is_ok (so_injector demo_env)
      && takes {| w_sent := []; w_err := None |} (on_wire (screen_off_header demo_cfg demo_monitor)) = true
      <-> length (oc_events o) = 3%nat).
Proof. by apply (screen_off_lifecycle friendly_os demo_clock demo_profile demo_cfg demo_env demo_client). Defined.

(** The caller asks to finish while the answer to the second message, the sync
    request, is being written: of its 29 bytes ten are sent, and what follows
    is read as the rest of it, so the client never sees the goodbye. *)
Definition interrupted_env : ScreenOffEnv :=
  {| so_accept := so_accept demo_env; so_injector := Ok None; so_monitors := Ok [demo_monitor];
     so_finish := Some {| fi_after := 1; fi_cut := Some 10%nat |} |}.

Lemma finish_hides_goodbye : exists o,
  run_screen_off friendly_os demo_clock demo_profile demo_cfg interrupted_env = Some o
  /\ oc_result o = Ok tt /\ length (oc_events o) = 3%nat
  /\ (exists fs r, read_frames 2 {| r_bytes := w_sent (oc_writer o); r_end := UnexpectedEof |} = Ok (fs, r)
      /\ map fst fs = [MSG_HELLO_PC; MSG_CLIENT_CONFIG] /\ length (r_bytes r) = 15%nat
      /\ read_frame r = Err (Io UnexpectedEof)).
Proof.
  eexists. split; [vm_compute; reflexivity |]. split_and!; [done | done |].
  eexists _, _. split; [vm_compute; reflexivity |]. split_and!; vm_compute; reflexivity.
Qed.

(** * The opening of a stream *)

(** What a client receives first describes the stream: the header is
    four frames; the first decodes to the captured monitor's size (capped at
    65535), the codec, the bitrate and the frame rate; the second to the HUD
    preference, without the screen-off bit; the third carries the parameter
    sets, never empty; the fourth decodes to the first packet, flagged as a
    keyframe, byte for byte. *)
Theorem stream_header_decodes cfg m pkt fs :
  u32 (mon_width m) -> u32 (mon_height m) -> u32 (sc_bitrate_bps cfg) -> u32 (sc_fps cfg) ->
  i64 (pkt_pts_ns pkt) -> bytes_ok (pkt_bytes pkt) ->
  stream_header cfg m pkt = Ok fs ->
  exists hello client csd0 video,
    fs = [(MSG_HELLO_PC, hello); (MSG_CLIENT_CONFIG, client); (MSG_VIDEO_CONFIG, csd0);
          (MSG_VIDEO_FRAME, video)]
    /\ HelloPc_decode hello = Ok (hello_pc cfg m)
    /\ (exists c, ClientConfig_decode client = Ok c /\ hud_enabled c = sc_hud_enabled cfg
                  /\ screen_off c = false)
    /\ csd0 = parameter_sets (sc_codec cfg) (pkt_bytes pkt) /\ csd0 <> []
    /\ VideoFrame_decode video = Ok (first_frame pkt).
Proof.
  intros Hw Hh Hb Hf Hp Hbytes. unfold stream_header.
  case_bool_decide as Hcsd; [done |]. intros [= <-].
  eexists _, _, _, _. split; [reflexivity |]. split_and!; try done.
  - apply (wc_roundtrip (WireCodec := HelloPc_codec)). unfold HelloPc_wf, hello_pc. cbn.
    split_and!; try urange. unfold codec_wire_id, CODEC_H264, CODEC_HEVC. destruct (sc_codec cfg); urange.
  - by destruct (sc_hud_enabled cfg); eexists; (split; [vm_compute; reflexivity |]).
  - apply (wc_roundtrip (WireCodec := VideoFrame_codec)). unfold VideoFrame_wf, first_frame. cbn.
    split_and!; try done; try urange.
Qed.

Definition demo_keyframe : EncodedPacket :=
  {| pkt_bytes := SC4 ++ [64; 1; 12] ++ SC4 ++ [66; 1; 9] ++ SC3 ++ [68; 1; 5] ++ SC4 ++ [38; 1; 7];
     pkt_pts_ns := 12; pkt_is_keyframe := true; pkt_encode_us := Some 2800 |}.

Lemma stream_header_decodes_witness : exists hello client csd0 video,
  stream_header demo_cfg demo_monitor demo_keyframe
  = Ok [(MSG_HELLO_PC, hello); (MSG_CLIENT_CONFIG, client); (MSG_VIDEO_CONFIG, csd0);
        (MSG_VIDEO_FRAME, video)]
  /\ VideoFrame_decode video = Ok (first_frame demo_keyframe).
Proof.
  destruct (stream_header demo_cfg demo_monitor demo_keyframe) as [fs|e] eqn:E; [| by vm_compute in E].
  destruct (stream_header_decodes demo_cfg demo_monitor demo_keyframe fs)
    as (hello & client & csd0 & video & -> & _ & _ & _ & _ & H); try (cbn; urange);
    [apply (bool_decide_unpack _); vm_compute; exact I | exact E |].
  by exists hello, client, csd0, video.
Defined.

(** * The streaming phase *)

(** What the turns mean for the packet queue. *)
Definition queue_ops (ts : list Turn) : list (@Op EncodedPacket) :=
  omap (fun t => match t with TEncode p => Some (OpPush p) | TPump _ => Some OpPop | _ => None end) ts.

Lemma queue_ops_app ts us : queue_ops (ts ++ us) = queue_ops ts ++ queue_ops us.
Proof. apply omap_app. Qed.

Definition video_payload (pkt : EncodedPacket) : list Z := VideoFrame_encode (video_frame_of pkt).

Definition is_video (f : Z * list Z) : bool := f.1 =? MSG_VIDEO_FRAME.

(** The live session after the turns [done]: everything it tried to write is
    whole frames, the video frames among them are the packets the queue
    delivered, and on an open connection the pumps live. *)
Definition live_ok (l0 l : Live) (h : @History EncodedPacket) (fs : list (Z * list Z)) : Prop :=
  io_writer (lv_shared l) = wrote (on_wire fs) (io_writer (lv_shared l0))
  /\ lv_queue l = PacketQueue.queue h
  /\ map snd (List.filter is_video fs) = map video_payload (delivered h)
  /\ (w_err (io_writer (lv_shared l0)) = None -> lv_pump l = lv_pump l0 /\ lv_telemetry l = lv_telemetry l0).

(** The operations that reached the queue: all, but for the pops of a pump that
    has ended. *)
Definition not_pop (o : @Op EncodedPacket) : bool := match o with OpPop => false | _ => true end.

Definition reached (all ops : list (@Op EncodedPacket)) : Prop :=
  sublist ops all /\ List.filter not_pop ops = List.filter not_pop all.

(** What a turn on [l] does to the queue. *)
Definition turn_ops (l : Live) (t : Turn) : list (@Op EncodedPacket) :=
  if lv_pump l then queue_ops [t] else List.filter not_pop (queue_ops [t]).

Lemma turn_ops_reached l t : reached (queue_ops [t]) (turn_ops l t).
Proof.
  unfold turn_ops. destruct (lv_pump l), t; (split; [| done]); cbn; first [done | apply sublist_nil_l].
Qed.

Lemma reached_refl ops : reached ops ops.
Proof. by split. Qed.

Lemma reached_app a b c d : reached a c -> reached b d -> reached (a ++ b) (c ++ d).
Proof.
  intros (H1 & E1) (H2 & E2). split; [by apply sublist_app |]. by rewrite !List.filter_app, E1, E2.
Qed.

Lemma on_wire_snoc fs id p : on_wire (fs ++ [(id, p)]) = on_wire fs ++ encode_frame id p.
Proof. rewrite on_wire_app. cbn. by rewrite app_nil_r. Qed.

Lemma filter_video_snoc fs id p : List.filter is_video (fs ++ [(id, p)])
  = List.filter is_video fs ++ (if id =? MSG_VIDEO_FRAME then [(id, p)] else []).
Proof. by rewrite List.filter_app. Qed.

Section Streaming.
Context (os : Os) (elapsed_ns : nat -> Z) (cfg : SessionConfig).
Context (coords : AffineTransform) (vscreen : Z * Z).

Lemma pump_ok l0 l h fs now : live_ok l0 l h fs -> lv_pump l = true ->
  exists fs', live_ok l0 (pump_turn cfg now l) (exec h OpPop) (fs ++ fs').
Proof.
  intros (Hw & Hq & Hv & Hp) Hl. unfold pump_turn, exec. rewrite Hq.
  destruct (pop_round (PacketQueue.queue h)) as [[[pkt|] q]|] eqn:E.
  - exists [(MSG_VIDEO_FRAME, video_payload pkt)].
    pose proof (write_all_wrote (io_writer (lv_shared l)) (encode_frame MSG_VIDEO_FRAME (video_payload pkt))) as Ew.
    pose proof (write_all_result (io_writer (lv_shared l)) (encode_frame MSG_VIDEO_FRAME (video_payload pkt))) as Er.
    unfold video_payload in Ew, Er |- *. destruct (write_all _ _) as [r w]. cbn [fst snd] in Ew, Er.
    assert (Hopen : w_err (io_writer (lv_shared l0)) = None -> r = Ok tt).
    { intros Hn. rewrite Hw, wrote_open in Er by done. exact Er. }
    rewrite Hw in Ew. unfold live_ok.
    destruct r; cbn [lv_shared io_writer with_writer lv_queue lv_pump lv_telemetry PacketQueue.queue delivered];
      rewrite on_wire_snoc, filter_video_snoc, !map_app, Hv, wrote_app, Ew; (split_and!; [done | done | done |]).
    + intros Hn. destruct (Hp Hn) as (<- & <-). by rewrite Hl.
    + intros Hn. by specialize (Hopen Hn).
  - exists []. rewrite app_nil_r. unfold live_ok. cbn [PacketQueue.queue delivered].
    unfold pop_round in E. destruct (deque _); [| done]. destruct (closed _); [| done].
    injection E as <-. by split_and!.
  - exists []. rewrite app_nil_r. by split_and!.
Qed.

Lemma tick_ok l0 l h fs : live_ok l0 l h fs -> lv_telemetry l = true -> exists fs', live_ok l0 (tick_turn l) h (fs ++ fs').
Proof.
  intros (Hw & Hq & Hv & Hp) Hl. unfold tick_turn.
  destruct (telemetry_tick (lv_stats l) (lv_queue l)) as [t stats].
  pose proof (write_all_wrote (io_writer (lv_shared l)) (encode_frame MSG_TELEMETRY (Telemetry_encode t))) as Ew.
  pose proof (write_all_result (io_writer (lv_shared l)) (encode_frame MSG_TELEMETRY (Telemetry_encode t))) as Er.
  destruct (write_all _ _) as [r w]. cbn [fst snd] in Ew, Er. rewrite Hw in Ew.
  exists [(MSG_TELEMETRY, Telemetry_encode t)]. unfold live_ok.
  cbn [lv_shared io_writer with_writer lv_queue lv_pump lv_telemetry].
  rewrite on_wire_snoc, filter_video_snoc, wrote_app, Ew. cbn [Z.eqb]. rewrite app_nil_r. split_and!; try done.
  intros Hn. destruct (Hp Hn) as (<- & <-). rewrite Hw, wrote_open in Er by done. cbn [w_err] in Er. by rewrite Er, Hl.
Qed.

Lemma filter_sync resps : List.filter is_video (sync_frames resps) = [].
Proof. unfold sync_frames. by induction resps. Qed.

Lemma message_ok l0 l h fs m : live_ok l0 l h fs ->
  exists fs', live_ok l0 (turn os elapsed_ns cfg coords vscreen l (TMessage m)).1 h (fs ++ fs').
Proof.
  intros (Hw & Hq & Hv & Hp). cbn [turn].
  destruct (handle_effects os elapsed_ns coords vscreen (sc_disable_touch cfg) m (lv_shared l))
    as (ops & resps & n & _ & _ & Hb & _ & _).
  destruct (handle_message _ _ _ _ _ m (lv_shared l)) as [s res]. cbn [fst] in *.
  exists (sync_frames resps). unfold live_ok.
  cbn [with_shared lv_shared lv_queue lv_pump lv_telemetry] in *.
  rewrite Hb, Hw, on_wire_app, sync_on_wire, List.filter_app, filter_sync, app_nil_r, wrote_app. by split_and!.
Qed.

Lemma turn_ok l0 l h fs t : live_ok l0 l h fs -> exists fs',
  live_ok l0 (turn os elapsed_ns cfg coords vscreen l t).1 (foldl exec h (turn_ops l t)) (fs ++ fs').
Proof.
  intros H. pose proof H as (Hw & Hq & Hv & Hp).
  assert (Hsame : forall l', lv_queue l' = lv_queue l -> io_writer (lv_shared l') = io_writer (lv_shared l) ->
    lv_pump l' = lv_pump l -> lv_telemetry l' = lv_telemetry l -> live_ok l0 l' h (fs ++ [])).
  { intros l' E1 E2 E3 E4. rewrite app_nil_r. unfold live_ok. rewrite E1, E2, E3, E4. by split_and!. }
  assert (E0 : queue_ops [t] = [] -> turn_ops l t = []) by (unfold turn_ops; intros ->; by destruct (lv_pump l)).
  destruct t as [pkt | now | | | | m].
  - assert (E : turn_ops l (TEncode pkt) = [OpPush pkt]) by (unfold turn_ops; by destruct (lv_pump l)).
    exists []. rewrite E, app_nil_r. unfold live_ok. cbn [turn fst foldl exec put_queue].
    cbn [lv_shared lv_queue lv_pump lv_telemetry PacketQueue.queue delivered]. rewrite Hq. by split_and!.
  - unfold turn_ops. cbn [turn fst]. destruct (lv_pump l) eqn:El; [by apply pump_ok |].
    exists []. by apply Hsame.
  - rewrite E0 by done. cbn [turn fst foldl]. destruct (lv_telemetry l) eqn:El; [by apply tick_ok |].
    exists []. by apply Hsame.
  - rewrite E0 by done. exists []. apply Hsame; cbn [turn]; by destruct (io_idr (lv_shared l)).
  - rewrite E0 by done. exists []. by apply Hsame.
  - rewrite E0 by done. by apply message_ok.
Qed.

(** A pump that has ended sends nothing more. *)
Lemma turn_pump_off l t : lv_pump l = false -> lv_pump (turn os elapsed_ns cfg coords vscreen l t).1 = false.
Proof.
  intros Hl. destruct t as [pkt | now | | | | m]; cbn [turn fst]; rewrite ?Hl; try done.
  - destruct (lv_telemetry l); [| done]. unfold tick_turn. by destruct (telemetry_tick _ _), (write_all _ _).
  - by destruct (io_idr (lv_shared l)).
  - by destruct (handle_message _ _ _ _ _ m _).
Qed.

(** What a turn adds, to any history of the queue. *)
Lemma turn_adds l t (h : @History EncodedPacket) : PacketQueue.queue h = lv_queue l ->
  let l' := (turn os elapsed_ns cfg coords vscreen l t).1 in exists fs got,
  io_writer (lv_shared l') = wrote (on_wire fs) (io_writer (lv_shared l))
  /\ lv_queue l' = PacketQueue.queue (foldl exec h (turn_ops l t))
  /\ delivered (foldl exec h (turn_ops l t)) = delivered h ++ got
  /\ map snd (List.filter is_video fs) = map video_payload got
  /\ (lv_pump l = false -> got = [] /\ lv_pump l' = false).
Proof.
  intros Hq l'. set (h0 := {| PacketQueue.queue := lv_queue l; accepted := []; delivered := [] |} : @History EncodedPacket).
  destruct (turn_ok l l h0 [] t) as (fs & Hw & Hl & Hv & _).
  { unfold live_ok. cbn. rewrite wrote_nil. by split_and!. }
  destruct (exec_all_parallel (turn_ops l t) h h0 (delivered h)) as (E1 & E2); [done | by rewrite app_nil_r |].
  exists fs, (delivered (foldl exec h0 (turn_ops l t))). split_and!; [done | by rewrite E1 | done | done |].
  intros Hp. split; [| by apply turn_pump_off].
  unfold turn_ops. rewrite Hp. by destruct t.
Qed.

(** On an open connection a pump that runs goes on running. *)
Lemma turn_pump l0 l h fs : live_ok l0 l h fs -> w_err (io_writer (lv_shared l0)) = None -> lv_pump l0 = true ->
  lv_pump l = true.
Proof. intros (_ & _ & _ & Hp) Hn H0. by destruct (Hp Hn) as (-> & _). Qed.

Lemma run_turns_ok l0 ts : forall l h fs, live_ok l0 l h fs -> exists fs' done ops,
  prefix done ts
  /\ live_ok l0 (run_turns os elapsed_ns cfg coords vscreen l ts).1 (foldl exec h ops) (fs ++ fs')
  /\ reached (queue_ops done) ops
  /\ (w_err (io_writer (lv_shared l0)) = None -> lv_pump l0 = true -> ops = queue_ops done).
Proof.
  induction ts as [|t ts IH]; intros l h fs H.
  - exists [], [], []. cbn. rewrite app_nil_r. split_and!; [done | done | apply reached_refl | done].
  - cbn [run_turns]. destruct (turn_ok l0 l h fs t H) as (fs1 & H1). pose proof (turn_ops_reached l t) as R1.
    assert (Hops : w_err (io_writer (lv_shared l0)) = None -> lv_pump l0 = true -> turn_ops l t = queue_ops [t]).
    { intros Hn H0. unfold turn_ops. by rewrite (turn_pump l0 l h fs H Hn H0). }
    set (ops1 := turn_ops l t) in *.
    destruct (turn os elapsed_ns cfg coords vscreen l t) as [l1 [res|]]; cbn [fst] in *.
    + exists fs1, [t], ops1. split_and!; [by exists ts | done | done | done].
    + destruct (IH _ _ _ H1) as (fs2 & d & ops2 & (k & ->) & H2 & R2 & E2). exists (fs1 ++ fs2), (t :: d), (ops1 ++ ops2).
      change (t :: d) with ([t] ++ d). rewrite queue_ops_app, foldl_app, app_assoc.
      split_and!; [by exists k | done | by apply reached_app |]. intros Hn H0. by rewrite Hops, E2.
Qed.
End Streaming.

(** C7. However the tasks of a session interleave, the client receives a
    well-framed stream and the video in order: for every sequence of turns of
    the encoder, the pumps, the keyframe tasks and the read loop, on an open
    connection, the bytes written are a concatenation of whole frames, the
    video frames among them are, in order and without repetition, the packets
    the drop-oldest queue delivered (each a subsequence of what the encoder
    produced), and both pumps stay alive. *)
Theorem stream_interleaving os elapsed_ns cfg coords vscreen l0 ts :
  w_err (io_writer (lv_shared l0)) = None -> lv_pump l0 = true -> lv_telemetry l0 = true ->
  let h0 := {| PacketQueue.queue := lv_queue l0; accepted := deque (lv_queue l0); delivered := [] |} in
  let l := (run_turns os elapsed_ns cfg coords vscreen l0 ts).1 in
  exists fs executed,
    prefix executed ts
    /\ w_sent (io_writer (lv_shared l)) = w_sent (io_writer (lv_shared l0)) ++ on_wire fs
    /\ map snd (List.filter is_video fs)
       = map video_payload (delivered (foldl exec h0 (queue_ops executed)))
    /\ lv_queue l = PacketQueue.queue (foldl exec h0 (queue_ops executed))
    /\ lv_pump l = true /\ lv_telemetry l = true.
Proof.
  intros Hw Hp Ht h0 l.
  destruct (run_turns_ok os elapsed_ns cfg coords vscreen l0 ts l0 h0 []) as (fs & d & ops & Hd & H & _ & Ho).
  { unfold live_ok. cbn. rewrite wrote_nil. by split_and!. }
  rewrite (Ho Hw Hp) in H. destruct H as (H1 & H2 & H3 & H4). destruct (H4 Hw) as (H5 & H6).
  exists fs, d. cbn [app] in *. split_and!; try done; [| unfold l; by rewrite H5 | unfold l; by rewrite H6].
  unfold l. by rewrite H1, wrote_open.
Qed.

Definition demo_packet_of (n : Z) (key : bool) : EncodedPacket :=
  {| pkt_bytes := [0; 0; 1; n]; pkt_pts_ns := n; pkt_is_keyframe := key; pkt_encode_us := Some 2800 |}.

Definition demo_live : Live :=
  {| lv_shared := demo_shared; lv_queue := PacketQueue.new 2;
     lv_stats := {| frames := 0; queue_depth := 0; encode_us_ring := [] |}; lv_last_motion_idr := 0;
     lv_pump := true; lv_telemetry := true; lv_engine_idr := 0 |}.

Definition demo_turns : list Turn :=
  [ TEncode (demo_packet_of 1 true); TEncode (demo_packet_of 2 false); TEncode (demo_packet_of 3 false);
    TMessage (MSG_TIME_SYNC_REQ, be_bytes_s 8 5); TPump 300; TTick; TPump 310; TPeriodicIdr; TServeIdr ].

Lemma stream_interleaving_witness :
  let h0 := {| PacketQueue.queue := PacketQueue.new 2; accepted := []; delivered := [] |} in
  let l := (run_turns friendly_os demo_clock demo_cfg demo_coords (1920, 1080) demo_live demo_turns).1 in
  exists fs executed,
    prefix executed demo_turns
    /\ w_sent (io_writer (lv_shared l)) = [] ++ on_wire fs
    /\ map snd (List.filter is_video fs)
       = map video_payload (delivered (foldl exec h0 (queue_ops executed)))
    /\ lv_queue l = PacketQueue.queue (foldl exec h0 (queue_ops executed))
    /\ lv_pump l = true /\ lv_telemetry l = true.
Proof.
  by apply (stream_interleaving friendly_os demo_clock demo_cfg demo_coords (1920, 1080) demo_live demo_turns).
Defined.

(** The oldest packet was dropped, the large P-frame asked for a keyframe, and
    the request was served. *)
Lemma demo_turns_video :
  let l := (run_turns friendly_os demo_clock demo_cfg demo_coords (1920, 1080) demo_live demo_turns).1 in
  delivered (foldl exec {| PacketQueue.queue := PacketQueue.new 2; accepted := []; delivered := [] |}
    (queue_ops demo_turns)) = [demo_packet_of 2 false; demo_packet_of 3 false]
  /\ lv_engine_idr l = 1%nat /\ io_idr (lv_shared l) = 1%nat
  /\ tl_dropped (telemetry_tick (lv_stats l) (lv_queue l)).1 = 1.
Proof. vm_compute. auto. Qed.

(** * Stopping the pumps

    [run] stops its pumps with [Notify::notify_waiters], which wakes the tasks
    that are waiting at that moment and leaves nothing for later ones, waits
    half a second for them, and stops the engine, which closes the queue. *)

Inductive PumpState := Selecting | Sending | Stopped.

#[export] Instance PumpState_eq_dec : EqDecision PumpState.
Proof. solve_decision. Defined.

(** A notification reaches the pump only in its [select!]. *)
Definition notify_waiters (p : PumpState) : PumpState :=
  match p with Selecting => Stopped | p => p end.

(** One round of the frame pump's loop on the given queue, on a connection
    that still takes bytes: a packet is sent, an empty pop is retried. *)
Definition pump_round {T} (p : PumpState) (q : @Queue T) : PumpState * @Queue T :=
  match p with
  | Stopped => (Stopped, q)
  | Sending => (Selecting, q)
  | Selecting =>
      match pop_round q with
      | Some (Some _, q') => (Sending, q')
      | _ => (Selecting, q)
      end
  end.

Fixpoint pump_rounds {T} (n : nat) (p : PumpState) (q : @Queue T) : PumpState * @Queue T :=
  match n with O => (p, q) | S n' => let '(p', q') := pump_round p q in pump_rounds n' p' q' end.

(** A pump that is waiting when the session ends stops; one that is sending
    misses the notification and never stops, however long it runs, even
    though its queue is closed: it polls the closed queue for ever. *)
Lemma notification_missed {T} (q : @Queue T) n :
  (pump_rounds n (notify_waiters Selecting) (close q)).1 = Stopped
  /\ (pump_rounds n (notify_waiters Sending) (close q)).1 <> Stopped.
Proof.
  assert (Hs : forall n q', (@pump_rounds T n Stopped q').1 = Stopped)
    by (clear; induction n; intros; cbn; auto).
  assert (Hr : forall n p q', p <> Stopped -> (@pump_rounds T n p q').1 <> Stopped).
  { clear. induction n as [|n IH]; intros p q' Hp; [done |]. cbn [pump_rounds].
    destruct p; cbn [pump_round]; [| by apply IH | done].
    destruct (pop_round q') as [[[x|] q'']|]; by apply IH. }
  split; [apply Hs | by apply Hr].
Qed.
