(* ===== verification/WindDown.v ===== *)
(** The end of a streaming session, in [Session::run] of
    [crates/penflow-server/src/session.rs] from the end of its main loop to its
    return: the aborted read task, the pumps that the stop signal reaches or
    misses, the goodbye, and the engine's stop, which closes the packet queue.
    What the tasks still do between these is any sequence of late steps. *)
From stdpp Require Import list.
From S2P Require Import Prelude Bytes Protocol Engine PacketQueue Coords Inject InjectSpec ReadLoop Session.

(** The main loop ends with its read task, or at the caller's signal, which
    aborts the task. *)
Inductive MainEnd := ReadEnded (r : result SessionError unit) | Finished.

Definition end_result (e : MainEnd) : result SessionError unit :=
  match e with ReadEnded r => r | Finished => Ok tt end.

(** A task takes a turn; the pop that a stopped pump has left behind, on a
    blocking thread, returns; the aborted read task is dropped where it waits,
    which may be within the answer to a message, after so many of its bytes. *)
Inductive LateStep :=
| LTurn (t : Turn)
| LOrphan
| LAbort (cut : option (nat * (Z * list Z))).

(** The session, whether a stopped pump's pop is still under way, and whether
    the read task may still run. *)
Record Wind := { wd_live : Live; wd_orphan : bool; wd_reading : bool }.

Section WindDown.
Context (os : Os) (elapsed_ns : nat -> Z) (cfg : SessionConfig).
Context (coords : AffineTransform) (vscreen : Z * Z).

(** [stop.notify_waiters()] reaches the pumps that are in their [select!]
    ([pump_stops], [ticks_stop]).  The frame pump is there with a pop under way,
    which goes on without it. *)
Definition notify_pumps (pump_stops ticks_stop : bool) (e : MainEnd) (l : Live) : Wind :=
  {| wd_live := {| lv_shared := lv_shared l; lv_queue := lv_queue l; lv_stats := lv_stats l;
                   lv_last_motion_idr := lv_last_motion_idr l; lv_pump := lv_pump l && negb pump_stops;
                   lv_telemetry := lv_telemetry l && negb ticks_stop; lv_engine_idr := lv_engine_idr l |};
     wd_orphan := lv_pump l && pump_stops;
     wd_reading := match e with Finished => true | ReadEnded _ => false end |}.

(** After the main loop nobody serves key frames or asks for them; the capture
    thread and a pump that missed the signal go on, and so does an aborted read
    task until it waits. *)
Definition late_turn (wd : Wind) (t : Turn) : bool :=
  match t with
  | TEncode _ | TPump _ | TTick => true
  | TMessage _ => wd_reading wd
  | TServeIdr | TPeriodicIdr => false
  end.

Definition with_live_of (wd : Wind) (l : Live) : Wind :=
  {| wd_live := l; wd_orphan := wd_orphan wd; wd_reading := wd_reading wd |}.

Definition take_turn (t : Turn) (wd : Wind) : Wind :=
  if late_turn wd t then
    let '(l, res) := turn os elapsed_ns cfg coords vscreen (wd_live wd) t in
    {| wd_live := l; wd_orphan := wd_orphan wd;
       wd_reading := wd_reading wd && match res with Some _ => false | None => true end |}
  else wd.

(** What the orphaned pop returns is dropped with it. *)
Definition orphan_returns (wd : Wind) : Wind :=
  if wd_orphan wd then
    {| wd_live := match pop_round (lv_queue (wd_live wd)) with
                  | Some (Some _, q) => put_queue q (wd_live wd)
                  | _ => wd_live wd
                  end;
       wd_orphan := false; wd_reading := wd_reading wd |}
  else wd.

Definition put_shared (s : Shared) (l : Live) : Live := with_shared l s (lv_engine_idr l).

Definition abort_read (cut : option (nat * (Z * list Z))) (wd : Wind) : Wind :=
  if wd_reading wd then
    {| wd_live := match cut with
                  | Some (k, m) => put_shared (cut_message elapsed_ns m k (lv_shared (wd_live wd))) (wd_live wd)
                  | None => wd_live wd
                  end;
       wd_orphan := wd_orphan wd; wd_reading := false |}
  else wd.

Definition wind_step (wd : Wind) (x : LateStep) : Wind :=
  match x with
  | LTurn t => take_turn t wd
  | LOrphan => orphan_returns wd
  | LAbort cut => abort_read cut wd
  end.

Definition say_goodbye (wd : Wind) : Wind :=
  let s := lv_shared (wd_live wd) in
  with_live_of wd (put_shared (with_writer s (write_frame (io_writer s) MSG_PC_GOODBYE []).2 (io_idr s)) (wd_live wd)).

(** [engine.stop()], as far as the session sees it. *)
Definition close_queue (wd : Wind) : Wind :=
  with_live_of wd (put_queue (close (lv_queue (wd_live wd))) (wd_live wd)).

(** The late steps up to the goodbye, from there to the queue's end, and from
    there to the return. *)
Definition wind_down (late after closing : list LateStep) (wd : Wind) : Wind :=
  foldl wind_step (close_queue (foldl wind_step (say_goodbye (foldl wind_step wd late)) after)) closing.
End WindDown.

(** * What the end of a session writes *)

(** Frames on the wire, with [cut] between two of them. *)
Definition wire_with_cut (fs : list (Z * list Z)) (cut bytes : list Z) : Prop :=
  exists before after, fs = before ++ after /\ bytes = on_wire before ++ cut ++ on_wire after.

Lemma wire_uncut fs bytes : wire_with_cut fs [] bytes <-> bytes = on_wire fs.
Proof.
  split; [intros (b & a & -> & ->); by rewrite on_wire_app |].
  intros ->. exists fs, []. by rewrite !app_nil_r.
Qed.

Lemma wire_cut_here fs cut : wire_with_cut fs cut (on_wire fs ++ cut).
Proof. exists fs, []. by rewrite !app_nil_r. Qed.

Lemma wire_grows fs cut bytes fs' : wire_with_cut fs cut bytes ->
  wire_with_cut (fs ++ fs') cut (bytes ++ on_wire fs').
Proof.
  intros (b & a & -> & ->). exists b, (a ++ fs'). by rewrite on_wire_app, <- !app_assoc.
Qed.

Section WindDownSpec.
Context (os : Os) (elapsed_ns : nat -> Z) (cfg : SessionConfig).
Context (coords : AffineTransform) (vscreen : Z * Z).

(** The end of a session so far, on the connection [w0]: [h] is the history of
    the queue since the streaming began, [fs] are the frames, and the queue
    delivered [sent] to the pump and [lost] to nobody. *)
Record wound (pump_stops finished : bool) (w0 : Writer) (wd : Wind) (h : @History EncodedPacket)
    (fs : list (Z * list Z)) (cut : list Z) (sent lost : list EncodedPacket) : Prop := {
  wo_wire : exists bytes, wire_with_cut fs cut bytes /\ io_writer (lv_shared (wd_live wd)) = wrote bytes w0;
  wo_queue : lv_queue (wd_live wd) = PacketQueue.queue h;
  wo_delivered : delivered h = sent ++ lost;
  wo_video : map snd (List.filter is_video fs) = map video_payload sent;
  wo_lost : (length lost <= 1)%nat /\ (lost <> [] -> pump_stops = true /\ lv_pump (wd_live wd) = false);
  wo_orphan : wd_orphan wd = true -> pump_stops = true /\ lv_pump (wd_live wd) = false /\ lost = [];
  wo_cut : part_of_response cut /\ (cut <> [] -> finished = true);
  wo_reading : wd_reading wd = true -> finished = true /\ cut = [];
}.

Context (ps fin : bool) (w0 : Writer).
Implicit Types (wd : Wind) (h : @History EncodedPacket) (fs : list (Z * list Z)) (sent lost : list EncodedPacket).

Lemma turn_wound wd h fs cut sent lost t : wound ps fin w0 wd h fs cut sent lost ->
  exists fs' sent', wound ps fin w0 (take_turn os elapsed_ns cfg coords vscreen t wd)
    (foldl exec h (if late_turn wd t then turn_ops (wd_live wd) t else [])) (fs ++ fs') cut sent' lost.
Proof.
  intros H. unfold take_turn. destruct (late_turn wd t).
  2: { exists [], sent. by rewrite app_nil_r. }
  destruct H. destruct (turn_adds os elapsed_ns cfg coords vscreen (wd_live wd) t h) as (fs' & got & Hw & Hq & Hd & Hv & Hp); [done |].
  destruct (turn _ _ _ _ _ (wd_live wd) t) as [l' res]. cbn [fst] in *.
  assert (Hgot : lost <> [] -> got = []) by (intros Hl; by apply Hp, wo_lost0).
  exists fs', (sent ++ got).
  destruct wo_wire0 as (bytes & Hb & Ew). constructor; cbn [wd_live wd_orphan wd_reading].
  - exists (bytes ++ on_wire fs'). split; [by apply wire_grows |]. by rewrite Hw, Ew, wrote_app.
  - done.
  - rewrite Hd, wo_delivered0. destruct lost; [by rewrite !app_nil_r | by rewrite Hgot, !app_nil_r].
  - by rewrite List.filter_app, !map_app, wo_video0, Hv.
  - split; [apply wo_lost0 |]. intros Hl. destruct (proj2 wo_lost0 Hl). split; [done | by apply Hp].
  - intros Ho. destruct (wo_orphan0 Ho) as (? & ? & ?). split_and!; [done | by apply Hp | done].
  - done.
  - intros Hr. apply andb_true_iff in Hr as (Hr & _). auto.
Qed.

(** What the orphan takes. *)
Definition orphan_ops wd : list (@Op EncodedPacket) :=
  if wd_orphan wd then match pop_round (lv_queue (wd_live wd)) with Some (Some _, _) => [OpPop] | _ => [] end else [].

Lemma orphan_ops_reached wd : reached [OpPop] (orphan_ops wd).
Proof.
  unfold orphan_ops. destruct (wd_orphan wd); [| split; [apply sublist_nil_l | done]].
  destruct (pop_round _) as [[[p|] q]|]; [apply reached_refl | split; [apply sublist_nil_l | done]..].
Qed.

Lemma orphan_wound wd h fs cut sent lost : wound ps fin w0 wd h fs cut sent lost ->
  exists lost', wound ps fin w0 (orphan_returns wd) (foldl exec h (orphan_ops wd)) fs cut sent lost'.
Proof.
  intros H. unfold orphan_returns, orphan_ops. destruct (wd_orphan wd) eqn:Eo; [| by exists lost].
  destruct H. destruct (wo_orphan0 Eo) as (Hps & Hpump & ->). destruct (pop_round (lv_queue (wd_live wd))) as [[[p|] q]|] eqn:Ep.
  2-3: exists []; constructor; try done.
  assert (Ex : exec h OpPop = {| PacketQueue.queue := q; accepted := accepted h;
    delivered := delivered h ++ [p] |}) by (cbn [exec]; by rewrite <- wo_queue0, Ep).
  exists [p]. constructor; cbn [foldl wd_live wd_orphan wd_reading put_queue lv_shared lv_queue lv_pump]; rewrite ?Ex; try done.
  cbn [delivered]. by rewrite wo_delivered0, app_nil_r.
Qed.

Lemma abort_wound wd h fs cut sent lost c : wound ps fin w0 wd h fs cut sent lost ->
  exists cut', wound ps fin w0 (abort_read elapsed_ns c wd) h fs cut' sent lost.
Proof.
  intros H. unfold abort_read. destruct (wd_reading wd) eqn:Er; [| by exists cut].
  destruct H. destruct (wo_reading0 Er) as (Hf & ->). destruct c as [[k m]|].
  2: { exists []. constructor; try done. }
  destruct (cut_effects elapsed_ns m k (lv_shared (wd_live wd))) as (cut & Hp & Ec).
  exists cut. constructor; cbn [wd_live wd_orphan wd_reading put_shared with_shared lv_shared lv_queue lv_pump]; try done.
  destruct wo_wire0 as (bytes & Hb & Ew). apply wire_uncut in Hb as ->. exists (on_wire fs ++ cut).
  split; [apply wire_cut_here |]. by rewrite Ec, wrote_app, <- Ew.
Qed.

(** What a step does to the queue, and what it may do. *)
Definition step_ops wd (x : LateStep) : list (@Op EncodedPacket) :=
  match x with
  | LTurn t => if late_turn wd t then turn_ops (wd_live wd) t else []
  | LOrphan => orphan_ops wd
  | LAbort _ => []
  end.

Definition late_ops (x : LateStep) : list (@Op EncodedPacket) :=
  match x with LTurn t => queue_ops [t] | LOrphan => [OpPop] | LAbort _ => [] end.

Lemma step_ops_reached wd x : reached (late_ops x) (step_ops wd x).
Proof.
  destruct x as [t | | c]; [| apply orphan_ops_reached | apply reached_refl]. cbn [late_ops step_ops].
  destruct (late_turn wd t) eqn:Et; [apply turn_ops_reached |].
  destruct t; try done; (split; [apply sublist_nil_l | done]).
Qed.

Lemma step_wound wd h fs cut sent lost x : wound ps fin w0 wd h fs cut sent lost ->
  exists fs' cut' sent' lost',
  wound ps fin w0 (wind_step os elapsed_ns cfg coords vscreen wd x) (foldl exec h (step_ops wd x)) (fs ++ fs') cut' sent' lost'.
Proof.
  intros H. destruct x as [t | | c]; cbn [wind_step step_ops].
  - destruct (turn_wound _ _ _ _ _ _ t H) as (fs' & sent' & H'). by exists fs', cut, sent', lost.
  - destruct (orphan_wound _ _ _ _ _ _ H) as (lost' & H'). exists [], cut, sent, lost'. by rewrite app_nil_r.
  - destruct (abort_wound _ _ _ _ _ _ c H) as (cut' & H'). exists [], cut', sent, lost. by rewrite app_nil_r.
Qed.

Lemma steps_wound xs : forall wd h fs cut sent lost, wound ps fin w0 wd h fs cut sent lost ->
  exists ops fs' cut' sent' lost',
  wound ps fin w0 (foldl (wind_step os elapsed_ns cfg coords vscreen) wd xs) (foldl exec h ops) (fs ++ fs') cut' sent' lost'
  /\ reached (flat_map late_ops xs) ops.
Proof.
  induction xs as [|x xs IH]; intros wd h fs cut sent lost H.
  { exists [], [], cut, sent, lost. rewrite app_nil_r. split; [done | apply reached_refl]. }
  destruct (step_wound _ _ _ _ _ _ x H) as (fs1 & cut1 & sent1 & lost1 & H1).
  destruct (IH _ _ _ _ _ _ H1) as (ops2 & fs2 & cut2 & sent2 & lost2 & H2 & R2).
  exists (step_ops wd x ++ ops2), (fs1 ++ fs2), cut2, sent2, lost2. rewrite foldl_app, app_assoc. split; [exact H2 |].
  cbn [flat_map]. apply reached_app; [apply step_ops_reached | done].
Qed.

Lemma goodbye_wound wd h fs cut sent lost : wound ps fin w0 wd h fs cut sent lost ->
  wound ps fin w0 (say_goodbye wd) h (fs ++ [(MSG_PC_GOODBYE, [])]) cut sent lost.
Proof.
  intros []. destruct wo_wire0 as (bytes & Hb & Ew).
  constructor; cbn [say_goodbye with_live_of put_shared with_shared with_writer wd_live wd_orphan wd_reading lv_shared lv_queue lv_pump io_writer];
    try done.
  - eexists. split; [by apply wire_grows |]. unfold write_frame. rewrite write_all_wrote, Ew, <- wrote_app.
    unfold on_wire. cbn [map concat fst snd]. by rewrite app_nil_r.
  - by rewrite filter_video_snoc, app_nil_r.
Qed.

Lemma close_wound wd h fs cut sent lost : wound ps fin w0 wd h fs cut sent lost ->
  wound ps fin w0 (close_queue wd) (exec h OpClose) fs cut sent lost.
Proof.
  intros []. constructor; cbn [close_queue with_live_of put_queue wd_live wd_orphan wd_reading lv_shared lv_queue lv_pump];
    cbn [exec PacketQueue.queue delivered]; try done.
  by rewrite wo_queue0.
Qed.

(** All that the end of a session asks of the queue. *)
Definition ending_ops (late after closing : list LateStep) : list (@Op EncodedPacket) :=
  flat_map late_ops late ++ flat_map late_ops after ++ [OpClose] ++ flat_map late_ops closing.

(** The whole of it. *)
Lemma wind_down_wound wd h fs cut sent lost late after closing :
  wound ps fin w0 wd h fs cut sent lost -> exists ops fs1 fs2 cut' sent' lost',
  wound ps fin w0 (wind_down os elapsed_ns cfg coords vscreen late after closing wd) (foldl exec h ops)
    (fs ++ fs1 ++ (MSG_PC_GOODBYE, []) :: fs2) cut' sent' lost'
  /\ reached (ending_ops late after closing) ops.
Proof.
  intros H. destruct (steps_wound late _ _ _ _ _ _ H) as (o1 & f1 & c1 & s1 & l1 & H1 & R1).
  apply goodbye_wound in H1.
  destruct (steps_wound after _ _ _ _ _ _ H1) as (o2 & f2 & c2 & s2 & l2 & H2 & R2).
  apply close_wound in H2.
  destruct (steps_wound closing _ _ _ _ _ _ H2) as (o3 & f3 & c3 & s3 & l3 & H3 & R3).
  exists (o1 ++ o2 ++ [OpClose] ++ o3), f1, (f2 ++ f3), c3, s3, l3. rewrite !foldl_app. split.
  - rewrite <- !app_assoc in H3. cbn [app] in H3. exact H3.
  - unfold ending_ops. repeat apply reached_app; try done; apply reached_refl.
Qed.
End WindDownSpec.

(** Where it begins: a session that has written [fs]. *)
Lemma notify_wound ps ts e l0 l h fs : live_ok l0 l h fs ->
  wound ps (match e with Finished => true | ReadEnded _ => false end) (io_writer (lv_shared l0))
    (notify_pumps ps ts e l) h fs [] (delivered h) [].
Proof.
  intros (Hw & Hq & Hv & _). constructor; cbn [notify_pumps wd_live wd_orphan wd_reading lv_shared lv_queue lv_pump]; try done.
  - exists (on_wire fs). split; [by apply wire_uncut | done].
  - by rewrite app_nil_r.
  - split; [cbn; lia | done].
  - intros (Hp & ->)%andb_true_iff. by rewrite Hp.
  - split; [apply part_nil | done].
Qed.
