(* ===== verification/EndToEnd.v ===== *)
(** The streaming phase from the desktop to the wire: the capture thread with
    its encoder ([crates/penflow-core/src/pipeline.rs], [encoder/mf.rs]) and the
    tasks of a session ([crates/penflow-server/src/session.rs]) as one system of
    interleaved steps.  They share the packet queue and the key-frame flag. *)
From stdpp Require Import list.
From S2P Require Import Prelude Bytes Engine Protocol Encoder PacketQueue Pipeline EncodedPipeline.
From S2P Require Import Coords Inject InjectSpec ReadLoop Session.

Section EndToEnd.
Context {Image Shape Blitter : Type} (gpu : Gpu Image Shape Blitter) (start_instant_ns : Z).
Context (mf : MfConstants) (ecfg : Engine.SessionConfig).
Context (os : Os) (elapsed_ns : nat -> Z) (cfg : Session.SessionConfig).
Context (coords : AffineTransform) (vscreen : Z * Z).

(** The queue is the session's; [sy_pushing] are packets that the tick under
    way still has to push, [sy_capture] how the capture thread fares. *)
Record Sys := {
  sy_live : Live;
  sy_loop : LoopState Image Blitter;
  sy_enc : Enc;
  sy_pushing : list EncodedPacket;
  sy_capture : RunEnd;
}.

Inductive SysStep :=
| SCapture (t : TickInput Image Shape)
| SPush
| STurn (t : Turn).

Definition with_live (l : Live) (y : Sys) : Sys :=
  {| sy_live := l; sy_loop := sy_loop y; sy_enc := sy_enc y; sy_pushing := sy_pushing y; sy_capture := sy_capture y |}.

(** The environment of a tick whose packets are pushed later. *)
Definition hold_packets (e : TickEnv Image Shape) : TickEnv Image Shape :=
  {| te_acquired := te_acquired e; te_now_ns := te_now_ns e; te_convert := te_convert e;
     te_submit := te_submit e; te_packets := []; te_drained := te_drained e; te_stop_after := None |}.

(** [LoopState::tick] up to its pushes, when the thread is at the head of its
    loop. *)
Definition capture_step (t : TickInput Image Shape) (y : Sys) : Sys :=
  match sy_capture y, sy_pushing y with
  | Running, [] =>
      match encode start_instant_ns mf ecfg t (sy_loop y) (sy_enc y) with
      | (None, e') =>
          {| sy_live := sy_live y; sy_loop := sy_loop y; sy_enc := e'; sy_pushing := []; sy_capture := Hung |}
      | (Some env, e') =>
          let '(r, s') := tick gpu start_instant_ns (hold_packets env) (sy_loop y) in
          {| sy_live := sy_live y; sy_loop := s'; sy_enc := e'; sy_pushing := te_packets env;
             sy_capture := match r with Ok _ => Running | Err err => Returned (Err err) end |}
      end
  | _, _ => y
  end.

Definition push_step (y : Sys) : Sys :=
  match sy_pushing y with
  | [] => y
  | p :: ps =>
      {| sy_live := put_queue (push p (lv_queue (sy_live y))).1 (sy_live y); sy_loop := sy_loop y;
         sy_enc := sy_enc y; sy_pushing := ps; sy_capture := sy_capture y |}
  end.

(** A turn of the session; the service of a key-frame request sets the
    pipeline's flag. *)
Definition turn_step (t : Turn) (y : Sys) : Sys * option (result SessionError unit) :=
  let '(l, res) := turn os elapsed_ns cfg coords vscreen (sy_live y) t in
  let served := negb (Nat.eqb (lv_engine_idr l) (lv_engine_idr (sy_live y))) in
  ({| sy_live := l; sy_loop := if served then set_idr true (sy_loop y) else sy_loop y;
      sy_enc := sy_enc y; sy_pushing := sy_pushing y; sy_capture := sy_capture y |}, res).

(** The encoder's turn of [Session] is [SPush] here. *)
Definition sys_step (x : SysStep) (y : Sys) : Sys * option (result SessionError unit) :=
  match x with
  | STurn (TEncode _) => (y, None)
  | SCapture t => (capture_step t y, None)
  | SPush => (push_step y, None)
  | STurn t => turn_step t y
  end.

(** The steps up to the one that ends the read loop; the end of its stream and
    the finish signal come between two steps, after any part of a list. *)
Fixpoint run_sys (xs : list SysStep) (y : Sys) : Sys * option (result SessionError unit) :=
  match xs with
  | [] => (y, None)
  | x :: xs' =>
      match sys_step x y with
      | (y', Some res) => (y', Some res)
      | (y', None) => run_sys xs' y'
      end
  end.

(** * What is kept *)

(** The packets the encoder handed out, in terms of the frames submitted. *)
Definition encoder_linked (y : Sys) (handed : list EncodedPacket) : Prop :=
  match sy_capture y with
  | Running => linked ecfg (sy_loop y) (sy_enc y) handed
  | _ => exists acc, session_inv ecfg acc handed (e_session (sy_enc y))
           /\ su_pts_ns <$> submits (sy_loop y) `prefix_of` acc
  end.

(** Key frames that were forced, with the one that is still asked for. *)
Definition idr_debt (s : LoopState Image Blitter) : nat :=
  (length (List.filter su_force_idr (submits s)) + if idr_request s then 1 else 0)%nat.

Lemma tick_held e s : let '(r, s') := tick gpu start_instant_ns e s in
  exists s0, tick gpu start_instant_ns (hold_packets e) s = (r, s0)
    /\ submits s0 = submits s' /\ idr_request s0 = idr_request s'.
Proof.
  unfold tick. cbn [hold_packets te_acquired te_convert te_submit te_drained te_now_ns].
  destruct (te_acquired e) as [[f|]|]; [| | by eexists].
  all: destruct (te_convert e); [| by eexists]; destruct (te_submit e); by eexists.
Qed.

(** A tick forces a key frame at most once, and only when one was asked for. *)
Lemma tick_debt e s : (idr_debt (tick gpu start_instant_ns e s).2 <= idr_debt s)%nat.
Proof.
  pose proof (tick_adds gpu start_instant_ns e s) as H. unfold idr_debt. destruct (tick gpu start_instant_ns e s) as [r s'].
  destruct H as (_ & Hf & _ & _ & Hi). cbn [snd]. rewrite Hi.
  assert (Hl : forall l : list (Submit Image), length (List.filter su_force_idr l) = length (List.filter id (su_force_idr <$> l))).
  { induction l as [|x l IH]; [done |]. cbn. destruct (su_force_idr x); cbn; by rewrite IH. }
  rewrite !Hl, Hf, List.filter_app, length_app. destruct (submitted e), (idr_request s); cbn; lia.
Qed.

(** No step but one of the read loop ends the streaming phase: not even the end
    of the capture thread. *)
Lemma run_ends_by_message xs : forall y res, (run_sys xs y).2 = Some res -> exists m, STurn (TMessage m) ∈ xs.
Proof.
  induction xs as [|x xs IH]; intros y res; [done |]. cbn [run_sys].
  destruct (sys_step x y) as [y' [r|]] eqn:E; cbn [snd].
  - intros _. destruct x as [t| |t]; [done | done |]. unfold sys_step, turn_step in E.
    destruct t as [| | | | |m]; [..| exists m; apply elem_of_cons; by left]; cbn in E; try done.
    by destruct (io_idr (lv_shared (sy_live y))).
  - intros Hr. destruct (IH _ _ Hr) as (m & Hm). exists m. apply elem_of_cons. by right.
Qed.

(** The system after some steps, but for the wire: [h] is the history of the
    queue since the engine started, [h'] the part since the streaming began,
    [new] are the packets the encoder handed out, and [rejected] those that a
    queue which was closed already did not take. *)
Record sys_core (cap : nat) (y0 : Sys) (h0 : @History EncodedPacket) (y : Sys) (h h' : @History EncodedPacket)
    (new rejected : list EncodedPacket) : Prop := {
  co_spec : queue_spec cap h;
  co_queue : PacketQueue.queue h = lv_queue (sy_live y);
  co_same : PacketQueue.queue h = PacketQueue.queue h';
  co_delivered : delivered h = delivered h0 ++ delivered h';
  co_rejected : closed (PacketQueue.queue h) = false -> rejected = [];
  co_accepted : accepted h ++ rejected ++ sy_pushing y = accepted h0 ++ new;
  co_linked : encoder_linked y (accepted h0 ++ new);
  co_idr : (idr_debt (sy_loop y) + lv_engine_idr (sy_live y0)
            <= idr_debt (sy_loop y0) + lv_engine_idr (sy_live y))%nat;
}.

(** A round of the queue, in both histories. *)
Lemma core_op cap y0 h0 y h h' new rej o l : sys_core cap y0 h0 y h h' new rej ->
  (forall p, o <> OpPush p) -> lv_queue l = PacketQueue.queue (exec h' o) ->
  lv_engine_idr l = lv_engine_idr (sy_live y) ->
  sys_core cap y0 h0 (with_live l y) (exec h o) (exec h' o) new rej.
Proof.
  intros [] Ho Hq Hi.
  destruct (exec_parallel h h' (delivered h0) o co_same0 co_delivered0) as (Eq & Ed).
  assert (Ha : accepted (exec h o) = accepted h)
    by (destruct o as [p | |]; [by destruct (Ho p) | cbn; by destruct (pop_round _) as [[[?|] ?]|] | done]).
  constructor; cbn [with_live sy_live sy_loop sy_enc sy_pushing]; rewrite ?Ha, ?Hi; try done.
  - by apply exec_spec.
  - by rewrite Eq.
  - intros Hc. apply co_rejected0. destruct (closed (PacketQueue.queue h)) eqn:E; [| done].
    revert Hc. destruct o as [p | |]; [by destruct (Ho p) | by rewrite exec_open, E | done].
Qed.

Lemma core_ops cap y0 h0 ops : forall y h h' new rej l, sys_core cap y0 h0 y h h' new rej ->
  Forall (fun o => forall p, o <> OpPush p) ops -> lv_queue l = PacketQueue.queue (foldl exec h' ops) ->
  lv_engine_idr l = lv_engine_idr (sy_live y) ->
  sys_core cap y0 h0 (with_live l y) (foldl exec h ops) (foldl exec h' ops) new rej.
Proof.
  induction ops as [|o ops IH]; intros y h h' new rej l H Hops Hq Hi; cbn [foldl] in *.
  { destruct H. constructor; cbn [with_live sy_live sy_loop sy_enc sy_pushing]; try done; [by rewrite Hq | by rewrite Hi]. }
  apply Forall_cons_1 in Hops as (Ho & Hops).
  pose proof (core_op cap y0 h0 y h h' new rej o (put_queue (PacketQueue.queue (exec h' o)) (sy_live y)) H Ho eq_refl eq_refl) as H1.
  exact (IH (with_live _ y) _ _ _ _ l H1 Hops Hq Hi).
Qed.

(** The service of a request moves it from the session to the pipeline. *)
Lemma core_served cap y0 h0 y h h' new rej l : sys_core cap y0 h0 y h h' new rej ->
  lv_queue l = lv_queue (sy_live y) -> lv_engine_idr l = S (lv_engine_idr (sy_live y)) ->
  sys_core cap y0 h0 {| sy_live := l; sy_loop := set_idr true (sy_loop y); sy_enc := sy_enc y;
                        sy_pushing := sy_pushing y; sy_capture := sy_capture y |} h h' new rej.
Proof.
  intros [] Hq Hi. constructor; cbn [sy_live sy_loop sy_enc sy_pushing]; try done; [by rewrite Hq |].
  rewrite Hi. unfold idr_debt in *. cbn [set_idr submits idr_request]. destruct (idr_request (sy_loop y)); lia.
Qed.

(** A step of the capture thread hands packets out and keeps the links. *)
Lemma capture_links t y ps : encoder_linked y (ps ++ sy_pushing y) ->
  let y' := capture_step t y in
  (exists more, sy_pushing y' = sy_pushing y ++ more) /\ encoder_linked y' (ps ++ sy_pushing y')
  /\ (idr_debt (sy_loop y') <= idr_debt (sy_loop y))%nat /\ sy_live y' = sy_live y.
Proof.
  intros Hl y'. subst y'.
  assert (Hstay : (exists more, sy_pushing y = sy_pushing y ++ more) /\ encoder_linked y (ps ++ sy_pushing y)
    /\ (idr_debt (sy_loop y) <= idr_debt (sy_loop y))%nat /\ sy_live y = sy_live y)
    by (split; [exists []; by rewrite app_nil_r | done]).
  unfold capture_step. destruct (sy_capture y) eqn:Ec; [| exact Hstay..].
  destruct (sy_pushing y) eqn:Ep; [| by rewrite Ep]. clear Hstay.
  unfold encoder_linked in Hl. rewrite Ec, app_nil_r in Hl.
  pose proof (encode_linked gpu start_instant_ns mf ecfg t (sy_loop y) (sy_enc y) _ Hl) as He.
  destruct (encode start_instant_ns mf ecfg t (sy_loop y) (sy_enc y)) as [[env|] e'].
  - pose proof (tick_held env (sy_loop y)) as Ht. pose proof (tick_debt env (sy_loop y)) as Hdebt.
    destruct (tick gpu start_instant_ns env (sy_loop y)) as [r s']. destruct Ht as (s0 & -> & Hs & Hi).
    cbn [sy_live sy_loop sy_enc sy_pushing]. split_and!; [by eexists | | | done].
    + unfold encoder_linked. cbn [sy_capture sy_loop sy_enc]. destruct r; unfold linked in *; rewrite Hs; exact He.
    + unfold idr_debt in *. cbn [snd] in Hdebt. rewrite Hs, Hi. lia.
  - cbn [sy_live sy_loop sy_enc sy_pushing]. rewrite app_nil_r. split_and!; [by exists [] | exact He | done | done].
Qed.

Lemma capture_live t y : sy_live (capture_step t y) = sy_live y.
Proof.
  unfold capture_step. destruct (sy_capture y); [| done..]. destruct (sy_pushing y); [| done].
  destruct (encode _ _ _ _ _ _) as [[env|] e']; [| done]. by destruct (tick _ _ _ _).
Qed.

Lemma core_capture cap y0 h0 y h h' new rej t : sys_core cap y0 h0 y h h' new rej ->
  exists new', sys_core cap y0 h0 (capture_step t y) h h' new' rej.
Proof.
  intros []. rewrite <- co_accepted0, app_assoc in co_linked0.
  destruct (capture_links t y (accepted h ++ rej) co_linked0) as ((more & Em) & Hl & Hi & Elive).
  exists (new ++ more). constructor; rewrite ?Elive; try done.
  - rewrite Em, !app_assoc. rewrite app_assoc in co_accepted0. by rewrite co_accepted0.
  - rewrite app_assoc, <- co_accepted0, <- !app_assoc, <- Em. by rewrite <- app_assoc in Hl.
  - lia.
Qed.

Lemma core_push cap y0 h0 y h h' new rej : sys_core cap y0 h0 y h h' new rej ->
  let ops := match sy_pushing y with p :: _ => [OpPush p] | [] => [] end in exists rej',
  sys_core cap y0 h0 (push_step y) (foldl exec h ops) (foldl exec h' ops) new rej'
  /\ (closed (PacketQueue.queue h) = false -> rej' = []).
Proof.
  intros H. unfold push_step. destruct (sy_pushing y) as [|p ps] eqn:Ep; [exists rej; by destruct H |].
  destruct H. destruct (exec_parallel h h' (delivered h0) (OpPush p) co_same0 co_delivered0) as (Eq & Ed).
  exists (if closed (PacketQueue.queue h) then rej ++ [p] else []). cbn [foldl].
  assert (Hop : closed (PacketQueue.queue (exec h (OpPush p))) = closed (PacketQueue.queue h)) by (by rewrite exec_open).
  split; [| by intros ->]. rewrite Ep in co_accepted0.
  constructor; cbn [sy_live sy_loop sy_enc sy_pushing put_queue lv_queue lv_engine_idr]; try done.
  - by apply exec_spec.
  - cbn [exec PacketQueue.queue]. by rewrite co_queue0.
  - rewrite Hop. by intros ->.
  - cbn [exec accepted]. destruct (closed (PacketQueue.queue h)); [by rewrite <- app_assoc |].
    rewrite (co_rejected0 eq_refl) in co_accepted0. by rewrite <- app_assoc.
Qed.

(** While the session streams, with the frames [fs] it has written. *)
Record sys_ok (cap : nat) (y0 : Sys) (h0 : @History EncodedPacket) (y : Sys) (h h' : @History EncodedPacket)
    (fs : list (Z * list Z)) (new : list EncodedPacket) : Prop := {
  ok_live : live_ok (sy_live y0) (sy_live y) h' fs;
  ok_core : sys_core cap y0 h0 y h h' new [];
  ok_open : closed (PacketQueue.queue h) = false;
}.

Lemma push_ok cap y0 h0 y h h' fs new : sys_ok cap y0 h0 y h h' fs new ->
  let ops := match sy_pushing y with p :: _ => [OpPush p] | [] => [] end in exists fs',
  sys_ok cap y0 h0 (push_step y) (foldl exec h ops) (foldl exec h' ops) fs' new.
Proof.
  intros [Hlive Hcore Hopen] ops. destruct (core_push _ _ _ _ _ _ _ _ Hcore) as (rej & Hc & Hr).
  rewrite (Hr Hopen) in Hc. subst ops. revert Hc. unfold push_step. destruct (sy_pushing y) as [|p ps]; intros Hc; [by exists fs |].
  destruct (turn_ok os elapsed_ns cfg coords vscreen (sy_live y0) (sy_live y) h' fs (TEncode p) Hlive) as (fs' & H).
  exists (fs ++ fs'). constructor; [| done | cbn [foldl]; by rewrite exec_open].
  revert H. cbn [sy_live foldl turn fst]. unfold turn_ops. by destruct (lv_pump (sy_live y)).
Qed.

Lemma turn_idr l t : let l' := (turn os elapsed_ns cfg coords vscreen l t).1 in
  lv_engine_idr l' = lv_engine_idr l \/ lv_engine_idr l' = S (lv_engine_idr l).
Proof.
  destruct t as [p|now| | | |m]; cbn [turn fst]; [by left | | | | by left |].
  - left. destruct (lv_pump l); [| done]. unfold pump_turn. destruct (pop_round _) as [[[p|] q]|]; try done.
    by destruct (write_all _ _) as [[]].
  - left. destruct (lv_telemetry l); [| done]. unfold tick_turn. destruct (telemetry_tick _ _). by destruct (write_all _ _).
  - destruct (io_idr _); [by left | by right].
  - left. by destruct (handle_message _ _ _ _ _ m _).
Qed.

Lemma turn_ops_pops l t : (forall p, t <> TEncode p) ->
  Forall (fun o : @Op EncodedPacket => forall p, o <> OpPush p) (turn_ops l t).
Proof.
  intros Ht. unfold turn_ops. destruct t as [p | | | | |]; [by destruct (Ht p) |..]; destruct (lv_pump l); cbn;
    repeat constructor; done.
Qed.

Lemma core_turn cap y0 h0 y h h' new rej t : sys_core cap y0 h0 y h h' new rej -> (forall p, t <> TEncode p) ->
  sys_core cap y0 h0 (turn_step t y).1 (foldl exec h (turn_ops (sy_live y) t)) (foldl exec h' (turn_ops (sy_live y) t)) new rej.
Proof.
  intros H Ht.
  destruct (turn_adds os elapsed_ns cfg coords vscreen (sy_live y) t h') as (_ & _ & _ & Hq & _).
  { destruct H. by rewrite <- co_same0. }
  pose proof (turn_idr (sy_live y) t) as Hi. pose proof (turn_ops_pops (sy_live y) t Ht) as Hops.
  unfold turn_step. destruct (turn os elapsed_ns cfg coords vscreen (sy_live y) t) as [l' res]. cbn [fst] in *.
  destruct Hi as [Hi | Hi].
  - rewrite Hi, Nat.eqb_refl. by apply core_ops.
  - rewrite (proj2 (Nat.eqb_neq (lv_engine_idr l') _)) by lia. cbn [negb].
    pose proof (core_ops cap y0 h0 (turn_ops (sy_live y) t) y h h' new rej
      (put_queue (PacketQueue.queue (foldl exec h' (turn_ops (sy_live y) t))) (sy_live y)) H Hops eq_refl eq_refl) as H1.
    exact (core_served cap y0 h0 _ _ _ new rej l' H1 Hq Hi).
Qed.

Lemma pops_open ops : forall (h : @History EncodedPacket), Forall (fun o => o <> OpClose) ops ->
  closed (PacketQueue.queue (foldl exec h ops)) = closed (PacketQueue.queue h).
Proof.
  induction ops as [|o ops IH]; intros h Hf; [done |]. apply Forall_cons_1 in Hf as (Ho & Hf). cbn [foldl].
  rewrite IH by done. by apply exec_open.
Qed.

Lemma turn_ops_open l t : Forall (fun o : @Op EncodedPacket => o <> OpClose) (turn_ops l t).
Proof. unfold turn_ops. destruct (lv_pump l), t; cbn; repeat constructor; done. Qed.

Lemma turn_step_ok cap y0 h0 y h h' fs new t : sys_ok cap y0 h0 y h h' fs new -> (forall p, t <> TEncode p) ->
  exists fs', sys_ok cap y0 h0 (turn_step t y).1 (foldl exec h (turn_ops (sy_live y) t))
                (foldl exec h' (turn_ops (sy_live y) t)) fs' new.
Proof.
  intros [Hlive Hcore Hopen] Ht.
  destruct (turn_ok os elapsed_ns cfg coords vscreen (sy_live y0) (sy_live y) h' fs t Hlive) as (fs' & H).
  exists (fs ++ fs'). constructor; [| by apply core_turn |].
  - revert H. unfold turn_step. by destruct (turn os elapsed_ns cfg coords vscreen (sy_live y) t).
  - rewrite pops_open; [done | apply turn_ops_open].
Qed.

Lemma run_sys_ok cap y0 h0 xs : forall y h h' fs new, sys_ok cap y0 h0 y h h' fs new ->
  exists k k' fs' new', sys_ok cap y0 h0 (run_sys xs y).1 k k' fs' new'.
Proof.
  induction xs as [|x xs IH]; intros y h h' fs new H; [by exists h, h', fs, new |]. cbn [run_sys].
  assert (Hx : exists k k' fs' new', sys_ok cap y0 h0 (sys_step x y).1 k k' fs' new').
  { destruct x as [t| |t].
    - destruct H as [Hl Hc Ho]. destruct (core_capture _ _ _ _ _ _ _ _ t Hc) as (new' & H'). exists h, h', fs, new'.
      constructor; try done. cbn [sys_step fst]. by rewrite capture_live.
    - destruct (push_ok _ _ _ _ _ _ _ _ H) as (fs' & H'). by do 3 eexists; exists new.
    - assert (Ht : (exists p, t = TEncode p) \/ forall p, t <> TEncode p)
        by (destruct t; [by left; eexists | by right..]).
      destruct Ht as [(p & ->) | Ht]; [by exists h, h', fs, new |].
      replace (sys_step (STurn t) y) with (turn_step t y) by (destruct t as [p| | | | |]; [by destruct (Ht p) | done..]).
      destruct (turn_step_ok _ _ _ _ _ _ _ _ t H Ht) as (fs' & H'). by do 3 eexists; exists new. }
  destruct Hx as (k & k' & fs' & new' & Hx). destruct (sys_step x y) as [y' [res|]]; cbn [fst] in *; [by eauto |].
  by apply (IH y' k k' fs' new').
Qed.

(** Where the streaming begins; a tick may still have packets to push. *)
Lemma sys_starts cap y0 (h0 : @History EncodedPacket) :
  queue_spec cap h0 -> PacketQueue.queue h0 = lv_queue (sy_live y0) -> closed (PacketQueue.queue h0) = false ->
  encoder_linked y0 (accepted h0 ++ sy_pushing y0) -> exists h1, sys_ok cap y0 h0 y0 h0 h1 [] (sy_pushing y0).
Proof.
  intros Hspec Hq Hopen Hlink.
  exists {| PacketQueue.queue := PacketQueue.queue h0; accepted := []; delivered := [] |}.
  constructor; [| constructor |]; try done.
  - unfold live_ok. cbn. rewrite wrote_nil. by split_and!.
  - cbn. by rewrite app_nil_r.
Qed.

(** What is between the tablet and the desktop after any number of steps. *)
Definition delivered_in_order (cap : nat) (y0 y : Sys) (h0 : @History EncodedPacket) : Prop :=
  exists fs sent new on_queue,
    w_sent (io_writer (lv_shared (sy_live y))) = w_sent (io_writer (lv_shared (sy_live y0))) ++ on_wire fs
    /\ map snd (List.filter is_video fs) = map video_payload sent
    /\ on_queue = deque (lv_queue (sy_live y))
    /\ (exists pushed, accepted h0 ++ new = pushed ++ sy_pushing y
         /\ sublist (delivered h0 ++ sent ++ on_queue) pushed
         /\ (exists old, pushed = old ++ on_queue)
         /\ dropped_overflow (lv_queue (sy_live y))
            = Z.min (2 ^ 64 - 1) (Z.of_nat (length pushed) - Z.of_nat (length (delivered h0) + length sent)
                                  - Z.of_nat (length on_queue)))
    /\ (length on_queue <= Nat.max cap 1)%nat
    /\ encoder_linked y (accepted h0 ++ new).

Lemma sys_ok_delivers cap y0 h0 y h h' fs new : w_err (io_writer (lv_shared (sy_live y0))) = None ->
  sys_ok cap y0 h0 y h h' fs new -> delivered_in_order cap y0 y h0.
Proof.
  intros Hopen [(Hw' & Hq' & Hv & _) [] _].
  destruct co_spec0 as (_ & Hl & Hs & Hold & Hd). rewrite co_queue0 in Hl, Hs, Hold, Hd.
  exists fs, (delivered h'), new, (deque (lv_queue (sy_live y))). split_and!; try done.
  - by rewrite Hw', wrote_open.
  - exists (accepted h). split_and!; try done.
    + by rewrite app_assoc, <- co_delivered0.
    + by rewrite Hd, co_delivered0, length_app.
Qed.

(** From the desktop to the wire.  However the capture thread, its pushes,
    the pumps, the key-frame services and the read loop interleave, the client
    gets whole frames; the video in them is, in order, without repetition and
    byte for byte, a part of what the encoder handed out; the newest packets are
    the ones that wait, and every other loss is counted; the stamps of what was
    handed out are those of the frames that were submitted, in order; and no
    more key frames were forced than requests were served. *)
Theorem end_to_end cap y0 h0 xs :
  w_err (io_writer (lv_shared (sy_live y0))) = None ->
  queue_spec cap h0 -> PacketQueue.queue h0 = lv_queue (sy_live y0) -> closed (PacketQueue.queue h0) = false ->
  encoder_linked y0 (accepted h0 ++ sy_pushing y0) ->
  let y := (run_sys xs y0).1 in
  delivered_in_order cap y0 y h0
  /\ (idr_debt (sy_loop y) + lv_engine_idr (sy_live y0) <= idr_debt (sy_loop y0) + lv_engine_idr (sy_live y))%nat
  /\ ((run_sys xs y0).2 <> None -> exists m, STurn (TMessage m) ∈ xs).
Proof.
  intros Hw Hspec Hq Hopen Hlink y.
  destruct (sys_starts cap y0 h0 Hspec Hq Hopen Hlink) as (h1 & H0).
  destruct (run_sys_ok cap y0 h0 xs y0 h0 h1 [] _ H0) as (h & h' & fs & new & H). split_and!.
  - by eapply sys_ok_delivers.
  - apply H.
  - intros Hr. destruct (run_sys xs y0).2 as [res|] eqn:E; [| done]. by apply (run_ends_by_message xs y0 res).
Qed.

(** ** Key frames *)

Definition is_capture (x : SysStep) : bool := match x with SCapture _ => true | _ => false end.

Lemma request_stays xs : forall y, forallb (fun x => negb (is_capture x)) xs = true ->
  idr_request (sy_loop y) = true -> idr_request (sy_loop (run_sys xs y).1) = true.
Proof.
  induction xs as [|x xs IH]; intros y Hxs Hy; [done |]. cbn [forallb] in Hxs. apply andb_true_iff in Hxs as (Hx & Hxs).
  cbn [run_sys]. assert (H : idr_request (sy_loop (sys_step x y).1) = true).
  { destruct x as [t| |t]; [done | |].
    - cbn. unfold push_step. by destruct (sy_pushing y).
    - assert (Ht : idr_request (sy_loop (turn_step t y).1) = true).
      { unfold turn_step. destruct (turn _ _ _ _ _ _ t). cbn [fst sy_loop]. by destruct (negb (Nat.eqb _ _)). }
      by destruct t. }
  destruct (sys_step x y) as [y' [res|]]; cbn [fst] in *; [done | by apply IH].
Qed.

(** A served request makes the next frame that is submitted a key frame,
    whatever the other tasks do in between. *)
Lemma served_request_forces xs y t : io_idr (lv_shared (sy_live y)) <> 0%nat ->
  forallb (fun x => negb (is_capture x)) xs = true ->
  let y1 := (run_sys (STurn TServeIdr :: xs) y).1 in
  let y2 := capture_step t y1 in
  sy_capture y1 = Running -> sy_pushing y1 = [] -> sy_capture y2 = Running ->
  su_force_idr <$> submits (sy_loop y2) = (su_force_idr <$> submits (sy_loop y1)) ++ [true].
Proof.
  intros Hn Hxs y1 y2 Hc Hp. assert (Hi : idr_request (sy_loop y1) = true).
  { subst y1. cbn [run_sys sys_step]. unfold turn_step. cbn [turn].
    destruct (io_idr (lv_shared (sy_live y))) as [|n]; [done |]. cbn [with_shared lv_engine_idr].
    rewrite (proj2 (Nat.eqb_neq (S _) _)) by lia. by apply request_stays. }
  subst y2. unfold capture_step. rewrite Hc, Hp.
  destruct (encode start_instant_ns mf ecfg t (sy_loop y1) (sy_enc y1)) as [[env|] e']; [| done].
  pose proof (tick_adds gpu start_instant_ns (hold_packets env) (sy_loop y1)) as H.
  destruct (tick gpu start_instant_ns (hold_packets env) (sy_loop y1)) as [r s']. destruct H as (Hr & Hf & _).
  cbn [sy_capture sy_loop]. destruct r; [| done]. intros _. cbn [is_ok] in Hr. rewrite Hf, Hi.
  unfold completes in Hr. symmetry in Hr. apply andb_true_iff in Hr as (-> & _). done.
Qed.
End EndToEnd.

Arguments Sys : clear implicits.
Arguments SysStep : clear implicits.

(** * Witnesses *)

(** A running engine that has shown nothing yet, with a session on it. *)
Definition demo_sys : Sys Z Z :=
  {| sy_live := demo_live; sy_loop := demo_loop; sy_enc := new_enc [input_event demo_mf]; sy_pushing := [];
     sy_capture := Running |}.

Definition demo_history : @History EncodedPacket :=
  {| PacketQueue.queue := PacketQueue.new 2; accepted := []; delivered := [] |}.

Definition failing_input : TickInput Z Z :=
  {| ti_acquired := Err (Win32 5); ti_now_ns := 3000; ti_convert := Ok tt; ti_submit := demo_submit 3000 demo_slice;
     ti_arrived _ := 4%nat; ti_stop_after := None |}.

(** The periodic key frame, two frames, and a capture that fails. *)
Definition demo_steps : list (SysStep Z Z) :=
  [STurn TPeriodicIdr; STurn TServeIdr; SCapture (demo_input 1000 demo_idr); SPush; STurn (TPump 300);
   SCapture (demo_input 2000 demo_slice); SPush; STurn (TPump 310); SCapture failing_input; STurn TTick].

Definition demo_run_sys := run_sys demo_gpu 0 demo_mf Encoder.demo_cfg friendly_os demo_clock Session.demo_cfg
  demo_coords (1920, 1080) demo_steps demo_sys.

Lemma end_to_end_witness :
  delivered_in_order Encoder.demo_cfg 2 demo_sys demo_run_sys.1 demo_history
  /\ map su_force_idr (submits (sy_loop demo_run_sys.1)) = [true; false]
  /\ sy_capture demo_run_sys.1 = Returned (Err (Win32 5)).
Proof.
  destruct (end_to_end demo_gpu 0 demo_mf Encoder.demo_cfg friendly_os demo_clock Session.demo_cfg demo_coords
    (1920, 1080) 2 demo_sys demo_history demo_steps) as (H & _).
  all: try reflexivity.
  - repeat split; [cbn; lia | constructor | by exists []].
  - split; [apply new_session_inv | done].
  - split; [exact H |]. split; vm_compute; reflexivity.
Defined.

(** The capture thread failed at the last frame but one, and nobody noticed: the
    session goes on without video, whatever its pumps do. *)
Lemma capture_failure_unnoticed xs :
  (forall m, STurn (TMessage m) ∉ xs) ->
  sy_capture demo_run_sys.1 = Returned (Err (Win32 5)) /\ demo_run_sys.2 = None
  /\ (run_sys demo_gpu 0 demo_mf Encoder.demo_cfg friendly_os demo_clock Session.demo_cfg demo_coords (1920, 1080)
        xs demo_run_sys.1).2 = None.
Proof.
  intros Hxs. split; [vm_compute; reflexivity |]. split; [vm_compute; reflexivity |].
  destruct (run_sys _ _ _ _ _ _ _ _ _ xs demo_run_sys.1).2 as [res|] eqn:E; [| done].
  apply run_ends_by_message in E as (m & Hm). by destruct (Hxs m).
Qed.
