(* ===== verification/SystemWind.v ===== *)
(** The end of a streaming session with the capture thread still at work: the
    late steps of [WindDown] over the running system of [EndToEnd].  The
    capture thread ticks and pushes until [engine.stop] of
    [crates/penflow-server/src/session.rs] has closed the queue, and after
    that until it is joined. *)
From stdpp Require Import list.
From S2P Require Import Prelude Bytes Engine Protocol Encoder PacketQueue Pipeline EncodedPipeline.
From S2P Require Import Coords Inject InjectSpec ReadLoop Session WindDown EndToEnd.

(** A step of the capture thread, or of the session's tasks, which the encoder's
    turn is not. *)
Inductive YStep (Image Shape : Type) :=
| YCapture (t : TickInput Image Shape)
| YPush
| YTurn (t : Turn)
| YOrphan
| YAbort (cut : option (nat * (Z * list Z))).
Arguments YCapture {_ _}.
Arguments YPush {_ _}.
Arguments YTurn {_ _}.
Arguments YOrphan {_ _}.
Arguments YAbort {_ _}.

Section SystemWind.
Context {Image Shape Blitter : Type} (gpu : Gpu Image Shape Blitter) (start_instant_ns : Z).
Context (mf : MfConstants) (ecfg : Engine.SessionConfig).
Context (os : Os) (elapsed_ns : nat -> Z) (cfg : Session.SessionConfig).
Context (coords : AffineTransform) (vscreen : Z * Z).

(** The system, and what a session that ends keeps besides. *)
Record SysWind := { sw_sys : Sys Image Blitter; sw_orphan : bool; sw_reading : bool }.

Definition wind_of (s : SysWind) : Wind :=
  {| wd_live := sy_live (sw_sys s); wd_orphan := sw_orphan s; wd_reading := sw_reading s |}.

Definition put_wind (s : SysWind) (wd : Wind) : SysWind :=
  {| sw_sys := with_live (wd_live wd) (sw_sys s); sw_orphan := wd_orphan wd; sw_reading := wd_reading wd |}.

Definition put_sys (s : SysWind) (y : Sys Image Blitter) : SysWind :=
  {| sw_sys := y; sw_orphan := sw_orphan s; sw_reading := sw_reading s |}.

(** What the session sees of a step. *)
Definition late_of (s : SysWind) (x : YStep Image Shape) : list LateStep :=
  match x with
  | YCapture _ => []
  | YPush => match sy_pushing (sw_sys s) with p :: _ => [LTurn (TEncode p)] | [] => [] end
  | YTurn (TEncode _) => []
  | YTurn t => [LTurn t]
  | YOrphan => [LOrphan]
  | YAbort cut => [LAbort cut]
  end.

Definition sys_wind_step (s : SysWind) (x : YStep Image Shape) : SysWind :=
  match x with
  | YCapture t => put_sys s (capture_step gpu start_instant_ns mf ecfg t (sw_sys s))
  | YPush => put_sys s (push_step (sw_sys s))
  | _ => put_wind s (foldl (wind_step os elapsed_ns cfg coords vscreen) (wind_of s) (late_of s x))
  end.

Definition sys_wind_down (late after closing : list (YStep Image Shape)) (s : SysWind) : SysWind :=
  let s := foldl sys_wind_step s late in
  let s := put_wind s (say_goodbye (wind_of s)) in
  let s := foldl sys_wind_step s after in
  let s := put_wind s (close_queue (wind_of s)) in
  foldl sys_wind_step s closing.

(** ** Refinement *)

Fixpoint lates_of (s : SysWind) (xs : list (YStep Image Shape)) : list LateStep :=
  match xs with
  | [] => []
  | x :: xs' => late_of s x ++ lates_of (sys_wind_step s x) xs'
  end.

Lemma put_wind_of s wd : wind_of (put_wind s wd) = wd.
Proof. by destruct wd. Qed.

Lemma sys_wind_step_late s x :
  foldl (wind_step os elapsed_ns cfg coords vscreen) (wind_of s) (late_of s x) = wind_of (sys_wind_step s x).
Proof.
  destruct x as [t | | t | | cut]; cbn [sys_wind_step]; rewrite ?put_wind_of; try done.
  - unfold wind_of. cbn [put_sys sw_sys sw_orphan sw_reading late_of foldl]. by rewrite capture_live.
  - cbn [late_of]. unfold put_sys, push_step. destruct (sy_pushing (sw_sys s)) as [|p ps]; [done |].
    cbn. unfold take_turn. cbn. by rewrite andb_true_r.
Qed.

Lemma sys_winds_late xs : forall s,
  foldl (wind_step os elapsed_ns cfg coords vscreen) (wind_of s) (lates_of s xs) = wind_of (foldl sys_wind_step s xs).
Proof.
  induction xs as [|x xs IH]; intros s; [done |]. cbn [lates_of foldl]. by rewrite foldl_app, sys_wind_step_late.
Qed.

(** The steps that a session sees of the three parts of its end. *)
Definition ending_of (late after closing : list (YStep Image Shape)) (s : SysWind)
  : list LateStep * list LateStep * list LateStep :=
  let s1 := foldl sys_wind_step s late in
  let s2 := put_wind s1 (say_goodbye (wind_of s1)) in
  let s3 := foldl sys_wind_step s2 after in
  let s4 := put_wind s3 (close_queue (wind_of s3)) in
  (lates_of s late, lates_of s2 after, lates_of s4 closing).

Lemma wind_down_system late after closing s : let '(l, a, c) := ending_of late after closing s in
  wind_down os elapsed_ns cfg coords vscreen l a c (wind_of s) = wind_of (sys_wind_down late after closing s).
Proof.
  unfold ending_of, wind_down, sys_wind_down. rewrite sys_winds_late. cbv zeta.
  set (s1 := foldl sys_wind_step s late). set (s2 := put_wind s1 _).
  replace (say_goodbye (wind_of s1)) with (wind_of s2) by apply put_wind_of.
  rewrite sys_winds_late. set (s3 := foldl sys_wind_step s2 after). set (s4 := put_wind s3 _).
  replace (close_queue (wind_of s3)) with (wind_of s4) by apply put_wind_of. apply sys_winds_late.
Qed.

(** * What is kept *)

(** The system at the end of a session: what the session keeps, and what the
    system does besides. *)
Record sys_wound (cap : nat) (ps fin : bool) (y0 : Sys Image Blitter) (h0 : @History EncodedPacket) (s : SysWind)
    (h h' : @History EncodedPacket) (fs : list (Z * list Z)) (cut : list Z) (sent lost new rejected : list EncodedPacket)
  : Prop := {
  sw_wound : wound ps fin (io_writer (lv_shared (sy_live y0))) (wind_of s) h' fs cut sent lost;
  sw_core : sys_core ecfg cap y0 h0 (sw_sys s) h h' new rejected;
}.

Lemma put_sys_id s : put_sys s (sw_sys s) = s.
Proof. by destruct s. Qed.

Definition is_encode (t : Turn) : bool := match t with TEncode _ => true | _ => false end.

(** A step of the session's tasks serves no key frame and pushes nothing. *)
Lemma task_step_core cap y0 h0 s h h' new rej x wd : sys_core ecfg cap y0 h0 (sw_sys s) h h' new rej ->
  wind_step os elapsed_ns cfg coords vscreen (wind_of s) x = wd ->
  match x with LTurn t => is_encode t | _ => false end = false ->
  lv_queue (wd_live wd) = PacketQueue.queue (foldl exec h' (step_ops (wind_of s) x)) ->
  sys_core ecfg cap y0 h0 (sw_sys (put_wind s wd))
    (foldl exec h (step_ops (wind_of s) x)) (foldl exec h' (step_ops (wind_of s) x)) new rej.
Proof.
  intros H <- Hx Hq. apply core_ops; [done | | exact Hq |].
  - destruct x as [t | | c]; cbn [step_ops]; [| |by constructor].
    + destruct (late_turn (wind_of s) t); [| by constructor]. apply turn_ops_pops. by destruct t.
    + unfold orphan_ops. destruct (wd_orphan _); [| by constructor]. destruct (pop_round _) as [[[?|] ?]|]; by repeat constructor.
  - destruct x as [t | | c]; cbn [wind_step].
    + unfold take_turn. destruct (late_turn (wind_of s) t) eqn:El; [| done].
      destruct (turn os elapsed_ns cfg coords vscreen (wd_live (wind_of s)) t) as [l res] eqn:Et. cbn [wd_live].
      change l with (l, res).1. rewrite <- Et. destruct t as [p|now| | | |m]; try done; cbn [turn fst wind_of wd_live].
      * destruct (lv_pump _); [| done]. unfold pump_turn. destruct (pop_round _) as [[[p|] q]|]; try done.
        by destruct (write_all _ _) as [[]].
      * destruct (lv_telemetry _); [| done]. unfold tick_turn. destruct (telemetry_tick _ _). by destruct (write_all _ _).
      * by destruct (handle_message _ _ _ _ _ m _).
    + unfold orphan_returns. destruct (wd_orphan _); [| done]. cbn [wd_live].
      by destruct (pop_round _) as [[[?|] ?]|].
    + unfold abort_read. destruct (wd_reading _); [| done]. by destruct c as [[k m]|].
Qed.

Lemma task_step_wound cap ps fin y0 h0 s h h' fs cut sent lost new rej x :
  sys_wound cap ps fin y0 h0 s h h' fs cut sent lost new rej ->
  match x with LTurn t => is_encode t | _ => false end = false -> exists k k' fs' cut' sent' lost',
  sys_wound cap ps fin y0 h0 (put_wind s (wind_step os elapsed_ns cfg coords vscreen (wind_of s) x)) k k' (fs ++ fs') cut' sent' lost'
    new rej.
Proof.
  intros [Hw Hc] Hx.
  destruct (step_wound os elapsed_ns cfg coords vscreen _ _ _ _ _ _ _ _ _ x Hw) as (fs' & cut' & sent' & lost' & H).
  do 2 eexists. exists fs', cut', sent', lost'. constructor; [rewrite put_wind_of; exact H |].
  apply task_step_core; [done | done | done |]. by destruct H.
Qed.

Lemma sys_step_wound cap ps fin y0 h0 s h h' fs cut sent lost new rej x :
  sys_wound cap ps fin y0 h0 s h h' fs cut sent lost new rej -> exists k k' fs' cut' sent' lost' new' rej',
  sys_wound cap ps fin y0 h0 (sys_wind_step s x) k k' (fs ++ fs') cut' sent' lost' new' rej'.
Proof.
  intros H.
  assert (Htask : forall z, match z with LTurn t => is_encode t | _ => false end = false -> late_of s x = [z] ->
    exists k k' fs' cut' sent' lost' new' rej',
    sys_wound cap ps fin y0 h0 (put_wind s (foldl (wind_step os elapsed_ns cfg coords vscreen) (wind_of s) (late_of s x)))
      k k' (fs ++ fs') cut' sent' lost' new' rej').
  { intros z Hz ->. destruct (task_step_wound _ _ _ _ _ _ _ _ _ _ _ _ _ _ z H Hz) as (k & k' & fs' & cut' & sent' & lost' & H').
    do 6 eexists. exists new, rej. exact H'. }
  destruct x as [t | | t | | c]; cbn [sys_wind_step].
  - destruct H as [Hw Hc]. destruct (core_capture gpu start_instant_ns mf ecfg _ _ _ _ _ _ _ _ t Hc) as (new' & H').
    exists h, h', [], cut, sent, lost, new', rej. rewrite app_nil_r. constructor; [| done].
    unfold wind_of. cbn [put_sys sw_sys sw_orphan sw_reading]. by rewrite capture_live.
  - pose proof (sys_wind_step_late s YPush) as Es. destruct H as [Hw Hc].
    destruct (core_push ecfg _ _ _ _ _ _ _ _ Hc) as (rej' & H' & _). cbn [late_of sys_wind_step] in Es.
    revert H' Es. unfold push_step. destruct (sy_pushing (sw_sys s)) as [|p ps'] eqn:Ep; intros H' Es.
    { exists h, h', [], cut, sent, lost, new, rej'. rewrite app_nil_r, put_sys_id. by constructor. }
    destruct (step_wound os elapsed_ns cfg coords vscreen _ _ _ _ _ _ _ _ _ (LTurn (TEncode p)) Hw)
      as (fs' & cut' & sent' & lost' & Hs).
    assert (Eo : step_ops (wind_of s) (LTurn (TEncode p)) = [OpPush p]) by (cbn; unfold turn_ops; by destruct (lv_pump _)).
    rewrite Eo in Hs. cbn [foldl] in Es. rewrite Es in Hs.
    do 2 eexists. exists fs', cut', sent', lost', new, rej'. constructor; [exact Hs | exact H'].
  - destruct t as [p| | | | |]; [| eapply Htask; [| reflexivity]; done..].
    exists h, h', [], cut, sent, lost, new, rej. rewrite app_nil_r. cbn. by destruct s as [[]].
  - eapply Htask; [| reflexivity]; done.
  - eapply Htask; [| reflexivity]; done.
Qed.

Lemma sys_steps_wound cap ps fin y0 h0 xs : forall s h h' fs cut sent lost new rej,
  sys_wound cap ps fin y0 h0 s h h' fs cut sent lost new rej -> exists k k' fs' cut' sent' lost' new' rej',
  sys_wound cap ps fin y0 h0 (foldl sys_wind_step s xs) k k' (fs ++ fs') cut' sent' lost' new' rej'.
Proof.
  induction xs as [|x xs IH]; intros s h h' fs cut sent lost new rej H.
  { exists h, h', []. rewrite app_nil_r. by eauto 6. }
  destruct (sys_step_wound _ _ _ _ _ _ _ _ _ _ _ _ _ _ x H) as (k & k' & f1 & c1 & s1 & l1 & n1 & r1 & H1).
  destruct (IH _ _ _ _ _ _ _ _ _ H1) as (k2 & k2' & f2 & c2 & s2 & l2 & n2 & r2 & H2).
  exists k2, k2', (f1 ++ f2), c2, s2, l2, n2, r2. by rewrite app_assoc.
Qed.

(** Only the engine's stop closes the queue. *)
Lemma wind_step_closed wd x : closed (lv_queue (wd_live (wind_step os elapsed_ns cfg coords vscreen wd x)))
  = closed (lv_queue (wd_live wd)).
Proof.
  destruct x as [t | | c]; cbn [wind_step].
  - unfold take_turn. destruct (late_turn wd t); [| done].
    set (h := {| PacketQueue.queue := lv_queue (wd_live wd); accepted := []; delivered := [] |} : @History EncodedPacket).
    destruct (turn_adds os elapsed_ns cfg coords vscreen (wd_live wd) t h eq_refl) as (_ & _ & _ & Hq & _).
    destruct (turn _ _ _ _ _ (wd_live wd) t) as [l res]. cbn [fst wd_live] in *. rewrite Hq. apply (pops_open _ h), turn_ops_open.
  - unfold orphan_returns. destruct (wd_orphan wd); [| done]. cbn [wd_live].
    destruct (pop_round (lv_queue (wd_live wd))) as [[[p|] q]|] eqn:E; [| done..]. unfold pop_round in E.
    destruct (deque _); [by destruct (closed _) | by injection E as _ <-].
  - unfold abort_read. destruct (wd_reading wd); [| done]. by destruct c as [[k m]|].
Qed.

Lemma wind_steps_closed xs : forall wd,
  closed (lv_queue (wd_live (foldl (wind_step os elapsed_ns cfg coords vscreen) wd xs))) = closed (lv_queue (wd_live wd)).
Proof. induction xs as [|x xs IH]; intros wd; [done |]. cbn [foldl]. by rewrite IH, wind_step_closed. Qed.

Lemma sys_wind_steps_closed xs s : closed (lv_queue (sy_live (sw_sys (foldl sys_wind_step s xs))))
  = closed (lv_queue (sy_live (sw_sys s))).
Proof.
  change (closed (lv_queue (wd_live (wind_of (foldl sys_wind_step s xs)))) = closed (lv_queue (wd_live (wind_of s)))).
  rewrite <- sys_winds_late. apply wind_steps_closed.
Qed.

(** The whole end of a session; a packet is rejected only by the closed queue. *)
Lemma sys_wind_down_wound cap ps fin y0 h0 s h h' fs cut sent lost new rej late after closing :
  sys_wound cap ps fin y0 h0 s h h' fs cut sent lost new rej -> closed (lv_queue (sy_live (sw_sys s))) = false ->
  exists k k' fs1 fs2 cut' sent' lost' new' rej',
  sys_wound cap ps fin y0 h0 (sys_wind_down late after closing s) k k' (fs ++ fs1 ++ (MSG_PC_GOODBYE, []) :: fs2)
    cut' sent' lost' new' rej' /\ (closing = [] -> rej' = []).
Proof.
  intros H Hopen.
  destruct (sys_steps_wound _ _ _ _ _ late _ _ _ _ _ _ _ _ _ H) as (k1 & k1' & f1 & c1 & s1 & l1 & n1 & r1 & [Hw1 Hc1]).
  set (s' := foldl sys_wind_step s late) in *. set (g := put_wind s' (say_goodbye (wind_of s'))).
  assert (H2 : sys_wound cap ps fin y0 h0 g k1 k1' ((fs ++ f1) ++ [(MSG_PC_GOODBYE, [])]) c1 s1 l1 n1 r1).
  { constructor; [unfold g; rewrite put_wind_of; by apply goodbye_wound |].
    apply (core_ops ecfg cap y0 h0 [] (sw_sys s')); try done; by destruct Hw1. }
  destruct (sys_steps_wound _ _ _ _ _ after _ _ _ _ _ _ _ _ _ H2) as (k3 & k3' & f3 & c3 & s3 & l3 & n3 & r3 & [Hw3 Hc3]).
  set (s'' := foldl sys_wind_step g after) in *. set (q := put_wind s'' (close_queue (wind_of s''))).
  assert (H4 : sys_wound cap ps fin y0 h0 q (exec k3 OpClose) (exec k3' OpClose)
    (((fs ++ f1) ++ [(MSG_PC_GOODBYE, [])]) ++ f3) c3 s3 l3 n3 r3).
  { pose proof (close_wound ps fin _ _ _ _ _ _ _ Hw3) as Hq.
    constructor; [unfold q; rewrite put_wind_of; done |].
    apply (core_op ecfg cap y0 h0 (sw_sys s'')); [done | done | by destruct Hq | done]. }
  assert (Hr3 : r3 = []).
  { apply (co_rejected _ _ _ _ _ _ _ _ _ Hc3). rewrite (co_queue _ _ _ _ _ _ _ _ _ Hc3). unfold s''.
    rewrite sys_wind_steps_closed. change (lv_queue (sy_live (sw_sys g))) with (lv_queue (sy_live (sw_sys s'))).
    unfold s'. by rewrite sys_wind_steps_closed. }
  destruct closing as [|x closing].
  { exists (exec k3 OpClose), (exec k3' OpClose), f1, f3, c3, s3, l3, n3, r3.
    rewrite <- !app_assoc in H4. by split. }
  destruct (sys_steps_wound _ _ _ _ _ (x :: closing) _ _ _ _ _ _ _ _ _ H4) as (k5 & k5' & f5 & c5 & s5 & l5 & n5 & r5 & H5).
  exists k5, k5', f1, (f3 ++ f5), c5, s5, l5, n5, r5.
  rewrite <- !app_assoc in H5. cbn [app] in H5. by split.
Qed.
End SystemWind.
