(* ===== verification/SessionRun.v ===== *)
(** A whole streaming session: [Session::run] of
    [crates/penflow-server/src/session.rs] from the accepted connection to the
    drop of the virtual display.  It composes the handshake and the streaming
    phase of [Session] with the display's lifecycle of [Vdd]; what the
    transport, DXGI, the engine and the encoder answer is open. *)
From stdpp Require Import list strings.
From S2P Require Import Prelude Bytes Protocol Engine AnnexB PacketQueue F32 Coords.
From S2P Require Import Inject InjectSpec Vdd ReadLoop Session WindDown.

(** What surrounds a run: the accepted connection; DXGI before the display is
    enabled, while the session waits for it, and after its mode was forced;
    the adapter query; the engine's start, which gives the monitor it
    captures; the injector; the pops before the first key frame; the queue
    and the clock when the pumps start; the turns of the tasks, and how the
    main loop ends when no message ends it, if it does; which pumps the stop
    signal reaches; what the tasks still do up to the goodbye, from there to
    the queue's end, and from there to the return. *)
Record RunEnv := {
  re_accept : option (Reader * Writer * string);
  re_snapshot : result VddError (list MonitorInfo);
  re_samples : list (option (list MonitorInfo));
  re_force : result VddError unit;
  re_resamples : list (option (list MonitorInfo));
  re_adapter : result SessionError unit;
  re_engine : MonitorInfo -> EngineResult MonitorInfo;
  re_injector : EngineResult (option VMultiPen);
  re_pops : list (option EncodedPacket);
  re_queue : @Queue EncodedPacket;
  re_now : Z;
  re_turns : list Turn;
  re_end : option MainEnd;
  re_pump_stops : bool;
  re_ticks_stop : bool;
  re_late : list LateStep;
  re_after : list LateStep;
  re_closing : list LateStep;
}.

Section Run.
Context (os : Os) (elapsed_ns : nat -> Z) (initial_profile : PenButtonProfile) (venv : VddEnv).
Context (cfg : SessionConfig) (env : RunEnv) (off_env : ScreenOffEnv).

(** ** The monitor to capture *)

(** The monitor after its resolution was forced, if it had to be. *)
Definition force_target (baseline : list string) (virt : MonitorInfo) : MonitorInfo :=
  match sc_vdd_target_resolution cfg with
  | Some (target_w, target_h) =>
      if negb (mon_width virt =? target_w) || negb (mon_height virt =? target_h) then
        match re_force env with
        | Err _ => virt
        | Ok _ =>
            match wait_for_virtual_monitor 3000 (Some baseline) (re_resamples env) with
            | Ok refreshed => refreshed
            | Err _ => virt
            end
        end
      else virt
  | None => virt
  end.

(** A display on another adapter than the encoder's only gets a warning. *)
Definition virtual_monitor (baseline : list string) : result SessionError MonitorInfo :=
  match wait_for_virtual_monitor 15000 (Some baseline) (re_samples env) with
  | Err e => Err (SeVdd e)
  | Ok virt =>
      let virt := force_target baseline virt in
      _ ← re_adapter env;
      Ok virt
  end.

(** The controller as it is left, and the monitor. *)
Definition capture_monitor : V (option VddController * result SessionError MonitorInfo) :=
  match sc_vdd cfg with
  | None => mret (None, Ok (sc_monitor cfg))
  | Some c =>
      match re_snapshot env with
      | Err e => mret (Some c, Err (SeVdd e))
      | Ok before =>
          r ← v_try (enable venv c);
          mret match r with
               | Err e => (Some c, Err (SeVdd e))
               | Ok c' => (Some c', virtual_monitor (snapshot_attached_monitor_keys before))
               end
      end
  end.

(** ** The stream *)

Definition initial_live (injector : World) (writer : Writer) : Live :=
  {| lv_shared := {| io_world := injector; io_writer := writer; io_idr := 0; io_clock := 0 |};
     lv_queue := re_queue env; lv_stats := {| frames := 0; queue_depth := 0; encode_us_ring := [] |};
     lv_last_motion_idr := re_now env; lv_pump := true; lv_telemetry := true; lv_engine_idr := 0 |}.

Definition run_injector (v : option VMultiPen) : World :=
  (set_pen_profile os (sc_pen_profile cfg) (start initial_profile v)).2.

(** Steps 7 to 9: the tasks, the goodbye, the last event; nothing yet when the
    session is still streaming. *)
Definition stream (events : list SessionEvent) (m : MonitorInfo) (injector : World) (writer : Writer) : option Outcome :=
  let coords := session_coords m in
  let vscreen := vscreen_size os injector in
  let '(l, res) := run_turns os elapsed_ns cfg coords vscreen (initial_live injector writer) (re_turns env) in
  match match res with Some r => Some (ReadEnded r) | None => re_end env end with
  | None => None
  | Some e =>
      let wd := wind_down os elapsed_ns cfg coords vscreen (re_late env) (re_after env) (re_closing env)
        (notify_pumps (re_pump_stops env) (re_ticks_stop env) e l) in
      Some {| oc_result := end_result e; oc_events := events ++ [final_event (end_result e)];
              oc_writer := io_writer (lv_shared (wd_live wd)) |}
  end.

(** Steps 4 to 6: engine, injector, first key frame, header. *)
Definition open_stream (writer : Writer) (peer : string) (android : HelloAndroid)
    (capture : result SessionError MonitorInfo) : option Outcome :=
  let events := [Connecting peer] in
  let fail e w := Some {| oc_result := Err e; oc_events := events; oc_writer := w |} in
  match capture with
  | Err e => fail e writer
  | Ok capture =>
      match re_engine env capture with
      | Err e => fail (SeEngine e) writer
      | Ok m =>
          match re_injector env with
          | Err e => fail (SeEngine e) writer
          | Ok v =>
              match wait_for_keyframe 5000 (re_pops env) with
              | Err e => fail e writer
              | Ok first_pkt =>
                  match stream_header cfg m first_pkt with
                  | Err e => fail e writer
                  | Ok fs =>
                      match write_frames writer fs with
                      | (Err e, writer) => fail (SeProtocol e) writer
                      | (Ok _, writer) =>
                          stream (events ++ [Connected peer (ha_display_width android) (ha_display_height android)])
                            m (run_injector v) writer
                      end
                  end
              end
          end
      end
  end.

(** [run] without its screen-off branch; the controller is a part of the
    session and is dropped with it, wherever it returns. *)
Definition run_streaming : V (option Outcome) :=
  match re_accept env with
  | None =>
      match sc_vdd cfg with Some c => drop_controller venv c | None => mret tt end;;
      mret (Some {| oc_result := Err SeIo; oc_events := []; oc_writer := closed_connection |})
  | Some (reader, writer, peer) =>
      match read_hello reader with
      | Err e =>
          match sc_vdd cfg with Some c => drop_controller venv c | None => mret tt end;;
          mret (Some {| oc_result := Err e; oc_events := [Connecting peer]; oc_writer := writer |})
      | Ok (android, _) =>
          p ← capture_monitor;
          match open_stream writer peer android p.2 with
          | None => mret None
          | Some o =>
              match p.1 with Some c => drop_controller venv c | None => mret tt end;;
              mret (Some o)
          end
      end
  end.

(** [run]; a screen-off session has surroundings of its own. *)
Definition run : V (option Outcome) :=
  if sc_screen_off cfg then
    match sc_vdd cfg with Some c => drop_controller venv c | None => mret tt end;;
    mret (run_screen_off os elapsed_ns initial_profile cfg off_env)
  else run_streaming.

(** * What a run shows to the outside *)

Definition start_history : @History EncodedPacket :=
  {| PacketQueue.queue := re_queue env; accepted := deque (re_queue env); delivered := [] |}.

(** What a run on the connection [w0] shows.  It failed before it wrote
    anything; or the connection broke within the header; or it streamed. *)
Definition failed_early (peer : string) (w0 : Writer) (o : Outcome) : Prop :=
  oc_events o = [Connecting peer] /\ is_ok (oc_result o) = false /\ oc_writer o = w0.

(** The header of the monitor that the engine captures. *)
Definition session_header (header : list (Z * list Z)) : Prop :=
  exists capture m pkt, re_engine env capture = Ok m /\ pkt_is_keyframe pkt = true
    /\ stream_header cfg m pkt = Ok header.

Definition broke_in_header (peer : string) (w0 : Writer) (o : Outcome) : Prop :=
  exists header n k, session_header header
    /\ w_err w0 = Some (n, k) /\ (n < length (on_wire header))%nat
    /\ oc_events o = [Connecting peer] /\ oc_result o = Err (SeProtocol (Io k))
    /\ oc_writer o = wrote (on_wire header) w0.

(** [sent] are the packets the pump had from the queue, [lost] what the pop of a
    stopped pump took. *)
Definition video_delivered (w0 : Writer) (fs : list (Z * list Z)) : Prop :=
  exists executed main rest sent lost,
    map snd (List.filter is_video fs) = map video_payload sent
    /\ delivered (foldl exec start_history (main ++ rest)) = sent ++ lost
    /\ executed `prefix_of` re_turns env
    /\ reached (queue_ops executed) main /\ (w_err w0 = None -> main = queue_ops executed)
    /\ reached (ending_ops (re_late env) (re_after env) (re_closing env)) rest
    /\ (length lost <= 1)%nat /\ (lost <> [] -> re_pump_stops env = true).

Definition streamed (peer : string) (w0 : Writer) (o : Outcome) : Prop :=
  exists android header e before after cut bytes,
    session_header header /\ oc_result o = end_result e
    /\ oc_events o = [Connecting peer;
                      Connected peer (ha_display_width android) (ha_display_height android);
                      final_event (oc_result o)]
    /\ oc_writer o = wrote (on_wire header ++ bytes) w0
    /\ wire_with_cut (before ++ (MSG_PC_GOODBYE, []) :: after) cut bytes
    /\ part_of_response cut /\ (cut <> [] -> e = Finished)
    /\ video_delivered w0 (before ++ after).

Definition run_lifecycle (peer : string) (w0 : Writer) (o : Outcome) : Prop :=
  failed_early peer w0 o \/ broke_in_header peer w0 o \/ streamed peer w0 o.

Lemma wait_for_keyframe_key t pops pkt : wait_for_keyframe t pops = Ok pkt -> pkt_is_keyframe pkt = true.
Proof.
  induction pops as [|[p|] pops IH]; cbn; [done | | done]. destruct (pkt_is_keyframe p) eqn:E; [| done].
  by intros [= <-].
Qed.

(** The streaming phase, once it has ended. *)
Lemma stream_streams events m injector header w0 o :
  (forall n k, w_err w0 = Some (n, k) -> (length (on_wire header) <= n)%nat) ->
  stream events m injector (wrote (on_wire header) w0) = Some o ->
  exists e before after cut bytes,
    oc_result o = end_result e /\ oc_events o = events ++ [final_event (oc_result o)]
    /\ oc_writer o = wrote (on_wire header ++ bytes) w0
    /\ wire_with_cut (before ++ (MSG_PC_GOODBYE, []) :: after) cut bytes
    /\ part_of_response cut /\ (cut <> [] -> e = Finished)
    /\ video_delivered w0 (before ++ after).
Proof.
  intros Htakes. unfold stream. set (w := wrote (on_wire header) w0).
  assert (Hopen : w_err w0 = None -> w_err w = None) by (intros Hn; subst w; by rewrite wrote_open).
  destruct (run_turns_ok os elapsed_ns cfg (session_coords m) (vscreen_size os injector)
    (initial_live injector w) (re_turns env) (initial_live injector w) start_history []) as (fs & d & main & Hd & Hl & Hr & Ho).
  { unfold live_ok. cbn. rewrite wrote_nil. by split_and!. }
  destruct (run_turns _ _ _ _ _ (initial_live injector w) _) as [l res]. cbn [fst app] in Hl.
  destruct (match res with Some r => Some (ReadEnded r) | None => re_end env end) as [e|]; [| done]. intros [= <-].
  destruct (wind_down_wound os elapsed_ns cfg (session_coords m) (vscreen_size os injector) _ _ _ _ _ _ _ _ _
    (re_late env) (re_after env) (re_closing env)
    (notify_wound (re_pump_stops env) (re_ticks_stop env) e _ l _ fs Hl))
    as (rest & fs1 & fs2 & cut & sent & lost & [] & Hrest).
  destruct wo_wire as (bytes & Hb & Ew). cbn [initial_live lv_shared io_writer] in Ew.
  exists e, (fs ++ fs1), fs2, cut, bytes. cbn [oc_result oc_events oc_writer].
  split_and!; [done | done | by rewrite Ew, wrote_app | by rewrite <- app_assoc | apply wo_cut | |].
  - intros Hc. destruct e; [| done]. discriminate (proj2 wo_cut Hc).
  - exists d, main, rest, sent, lost. rewrite foldl_app. split_and!; try done; [| intros Hn; apply Ho; [by apply Hopen | done] | apply wo_lost |].
    + rewrite <- wo_video, app_assoc, !List.filter_app. cbn [List.filter]. done.
    + intros Hl'. by apply (proj2 wo_lost).
Qed.

(** How a run ends, once it does: before its main loop or with it. *)
Lemma open_stream_lifecycle peer w0 android capture :
  match open_stream w0 peer android capture with
  | Some o => run_lifecycle peer w0 o
  | None => re_end env = None
  end.
Proof.
  unfold open_stream. destruct capture as [mon|e]; [| by left].
  destruct (re_engine env mon) as [m|e] eqn:Em; [| by left]. destruct (re_injector env) as [v|e]; [| by left].
  destruct (wait_for_keyframe 5000 (re_pops env)) as [pkt|e] eqn:Ek; [| by left].
  destruct (stream_header cfg m pkt) as [header|e] eqn:Eh; [| by left].
  assert (Hhead : session_header header) by (exists mon, m, pkt; split_and!; [done | by eapply wait_for_keyframe_key | done]).
  pose proof (write_frames_wrote header w0) as Hw. pose proof (write_frames_result header w0) as Hr.
  fold (on_wire header) in Hw, Hr. destruct (write_frames w0 header) as [[[]|e] w1]; cbn [fst snd] in Hw, Hr; subst w1.
  - destruct (stream _ m _ _) as [o|] eqn:Es.
    + right. right. destruct (stream_streams _ _ _ _ _ _ Hr Es) as (e & before & after & cut & bytes & H1 & H2 & H3).
      exists android, header, e, before, after, cut, bytes. do 3 (split; [done |]). exact H3.
    + revert Es. unfold stream. destruct (run_turns _ _ _ _ _ _ _) as [l [res|]]; [done |]. by destruct (re_end env).
  - destruct Hr as (n & k & Ew & -> & Hn). right. left. exists header, n, k. by split_and!.
Qed.

(** ** Nothing in the drop fails *)

Definition total {A} (m : V A) : Prop := forall tr, is_ok (m tr).1 = true.

Lemma total_bind {A B} (m : V A) (f : A -> V B) : total m -> (forall a, total (f a)) -> total (m ≫= f).
Proof.
  intros Hm Hf tr. unfold mbind, V_bind. specialize (Hm tr). destruct (m tr) as [[a|e] tr1]; [apply Hf | done].
Qed.

Lemma total_try {A} (m : V A) : total (v_try m).
Proof. intros tr. unfold v_try. by destruct (m tr). Qed.

Lemma total_ret {A} (a : A) : total (mret a).
Proof. by intros tr. Qed.

Lemma total_ask {A} (f : Trace -> A) : total (v_ask f).
Proof. by intros tr. Qed.

Ltac total :=
  repeat first
    [ apply total_try | apply total_ret | apply total_ask | apply total_bind; [| intros ?]
    | match goal with |- total (match ?x with _ => _ end) => destruct x end
    | match goal with |- total (if ?x then _ else _) => destruct x end ].

Lemma shutdown_total h : total (shutdown venv h).
Proof. unfold shutdown, resident_stop. total. Qed.

Lemma drop_total c : total (drop_controller venv c).
Proof.
  unfold drop_controller, disable, stop_resident, helper_drop.
  repeat first [apply shutdown_total | progress total].
Qed.

Definition drop_display (c : option VddController) : V unit :=
  match c with Some c => drop_controller venv c | None => mret tt end.

Lemma drop_display_total c : total (drop_display c).
Proof. destruct c; [apply drop_total | apply total_ret]. Qed.

(** What a computation that drops and then returns gives. *)
Lemma drop_then {A} c (a : A) tr : ((drop_display c;; mret a) tr).1 = Ok a.
Proof.
  pose proof (drop_display_total c tr) as H. unfold mbind, V_bind.
  by destruct (drop_display c tr) as [[[]|] tr1].
Qed.

Lemma capture_total : total capture_monitor.
Proof. unfold capture_monitor. total. Qed.

(** Wherever the streaming session returns, it returned an outcome. *)
Lemma run_streaming_lifecycle r w peer tr : re_accept env = Some (r, w, peer) ->
  exists res, (run_streaming tr).1 = Ok res
  /\ match res with Some o => run_lifecycle peer w o | None => re_end env = None end.
Proof.
  intros Ha. unfold run_streaming. rewrite Ha. fold (drop_display (sc_vdd cfg)).
  destruct (read_hello r) as [[android r']|e].
  2: { eexists. split; [apply drop_then | by left]. }
  pose proof (capture_total tr) as Hc. unfold mbind at 1, V_bind at 1.
  destruct (capture_monitor tr) as [[[c capture]|] tr1]; [| done]. cbn [fst snd].
  pose proof (open_stream_lifecycle peer w android capture) as Ho.
  destruct (open_stream w peer android capture) as [o|]; eexists; [split; [apply (drop_then c) | done] | by split].
Qed.

(** C4. A session tells the truth, on any connection, wherever it breaks.  A
    run that is not screen-off returns once its main loop has ended (no write
    and no lock waiting for ever), in one of three ways.  It failed before it
    wrote: an error, the one event Connecting, and a connection on which
    nothing was written.  The connection broke within the header: its error
    and the one event.  Or it streamed: the events are Connecting, Connected
    and the last one as the result is, and the bytes, as far as the connection
    took them, are the header for the captured monitor and a first key frame,
    then whole frames with the goodbye among them; frames follow the goodbye
    when a pump missed the stop signal, and at one place a part of one sync
    response may stand between two frames when the caller's signal aborted the
    read task.  The video in the frames is the queue's packets in order, each
    once, but for at most the last one, lost in the pop that a stopped pump
    leaves behind. *)
Theorem session_run_lifecycle r w peer tr :
  sc_screen_off cfg = false -> re_accept env = Some (r, w, peer) ->
  exists res, (run tr).1 = Ok res
  /\ match res with Some o => run_lifecycle peer w o | None => re_end env = None end.
Proof. intros Hs Ha. unfold run. rewrite Hs. by apply (run_streaming_lifecycle r). Qed.

(** * The display after a run *)

(** The drop of an enabled controller is its disable. *)
Lemma drop_enabled c tr : enabled c = true -> helper_ok c -> exists post,
  (disable venv c tr).2 = tr ++ post /\ (drop_controller venv c tr).2 = tr ++ post
  /\ disabled_by venv c (disable venv c tr).1 post.
Proof.
  intros He Hh. unfold drop_controller. rewrite He.
  destruct (disable_does venv c Hh tr) as (post & E & Hd). exists post.
  pose proof Hd as (_ & _ & c' & res & Hr & Hres & _). unfold mbind, V_bind.
  destruct (disable venv c tr) as [r tr1]. cbn [fst snd] in *. subst r tr1. split_and!; [done | | done].
  cbn. by rewrite Hres.
Qed.

(** Whether the run gets as far as the display. *)
Definition reaches_display : bool :=
  match re_accept env with
  | Some (r, _, _) => is_ok (read_hello r) && is_ok (re_snapshot env)
  | None => false
  end.

Definition failed_quietly (res : option Outcome) (e : option SessionError) : Prop :=
  exists o, res = Some o /\ (length (oc_events o) <= 1)%nat
    /\ match e with Some e => oc_result o = Err e | None => is_ok (oc_result o) = false end.

(** What a run that began after [tr] did to the display, [ext].  Nothing, if it
    failed before; else it enabled it, and if that was not reported, it failed
    with that error.  If it was, and the run has returned, the rest is the
    disable of the enabled controller. *)
Definition display_left (tr : Trace) (res : option Outcome) (ext : Trace) : Prop :=
  if reaches_display then
    match enable venv VddController_new tr with
    | (Err e, tr1) => tr1 = tr ++ ext /\ failed_quietly res (Some (SeVdd e))
    | (Ok c, tr1) =>
        enabled c = true
        /\ match res with
           | None => tr1 = tr ++ ext
           | Some _ => exists pre post, tr1 = tr ++ pre /\ ext = pre ++ post
                       /\ (disable venv c tr1).2 = tr ++ ext /\ disabled_by venv c (disable venv c tr1).1 post
           end
    end
  else ext = [] /\ failed_quietly res None.

Lemma drop_idle {A} (a : A) tr : (drop_display (Some VddController_new);; mret a) tr = (Ok a, tr).
Proof. done. Qed.

Lemma run_streaming_releases tr : sc_vdd cfg = Some VddController_new ->
  exists ext res, run_streaming tr = (Ok res, tr ++ ext) /\ display_left tr res ext.
Proof.
  intros Hv. unfold run_streaming, display_left, reaches_display. rewrite Hv.
  change (drop_controller venv VddController_new) with (drop_display (Some VddController_new)).
  destruct (re_accept env) as [[[reader writer] peer]|].
  2: { eexists [], _. rewrite app_nil_r, drop_idle. split; [done |]. split; [done |]. eexists. split_and!; [reflexivity | cbn; lia | done]. }
  destruct (read_hello reader) as [[android r']|e]; cbn [is_ok andb].
  2: { eexists [], _. rewrite app_nil_r, drop_idle. split; [done |]. split; [done |]. eexists. split_and!; [reflexivity | cbn; lia | done]. }
  unfold mbind at 1, V_bind at 1. unfold capture_monitor. rewrite Hv.
  destruct (re_snapshot env) as [before|e]; cbn [is_ok].
  2: { eexists [], _. rewrite app_nil_r. cbn. split; [done |]. split; [done |]. eexists. split_and!; [reflexivity | cbn; lia | done]. }
  destruct (enable_yields venv tr) as (pre & Etr & Hy). unfold mbind at 1, V_bind at 1, v_try.
  destruct (enable venv VddController_new tr) as [[c|e] tr1]; cbn [fst snd] in *; subst tr1.
  2: { exists pre. eexists. cbn. split; [done |]. split; [done |]. eexists. split_and!; [reflexivity | cbn; lia | done]. }
  destruct Hy as (He & Hh). set (capture := virtual_monitor _). cbn [mret V_ret fst snd].
  destruct (open_stream writer peer android capture) as [o|].
  - destruct (drop_enabled c (tr ++ pre) He Hh) as (post & E1 & E2 & Hd). exists (pre ++ post), (Some o).
    rewrite app_assoc. split; [| split; [done |]; by exists pre, post].
    pose proof (drop_total c (tr ++ pre)) as Ht. unfold mbind, V_bind.
    destruct (drop_controller venv c (tr ++ pre)) as [[[]|] tr2]; [| done]. cbn [snd] in E2. by subst tr2.
  - exists pre, None. by split.
Qed.

Lemma run_releases : sc_screen_off cfg = false -> sc_vdd cfg = Some VddController_new -> gives run display_left.
Proof.
  intros Hs Hv tr. destruct (run_streaming_releases tr Hv) as (ext & res & E & H). exists res, ext.
  split; [| done]. unfold run. by rewrite Hs.
Qed.

(** C9. A session does not leave its display behind.  A run with a virtual
    display that fails before it gets to the display, at the handshake or at the
    look at the monitors, does nothing to it and returns an error; one whose
    enabling is not reported returns that error; and once enabling was
    reported, wherever the run then returns, in the wait for the monitor, in
    the engine, in the injector, at the first key frame, in the header or after
    streaming, all it did to the device since is to disable the enabled
    controller: after that nothing is enabled, and if the disable reports
    success, a query read the device as disabled, or the helper that was to do
    it left an exit code that could not be read. *)
Theorem session_releases_display tr :
  sc_screen_off cfg = false -> sc_vdd cfg = Some VddController_new ->
  exists ext res, run tr = (Ok res, tr ++ ext) /\ display_left tr res ext.
Proof. intros Hs Hv. unfold run. rewrite Hs. by apply run_streaming_releases. Qed.
End Run.

(** * Witnesses *)

Definition virtual_display : MonitorInfo :=
  {| adapter_index := 1; adapter_luid := 9; adapter_name := "gpu"; adapter_vendor_id := 0x10de;
     adapter_device_id := 1; adapter_is_software := false; output_index_within_adapter := 0;
     device_name := "DISPLAY9"; mon_width := 1280; mon_height := 800;
     desktop_coords := (1920, 0, 3200, 800); rotation := 1; attached_to_desktop := true;
     looks_virtual := true |}.

Definition demo_streaming : SessionConfig :=
  {| sc_monitor := demo_monitor; sc_codec := Hevc; sc_bitrate_bps := 50000000; sc_fps := 120;
     sc_idr_interval := None; sc_vdd := Some VddController_new;
     sc_vdd_target_resolution := Some (2880, 1800); sc_screen_off := false;
     sc_motion_idr_threshold_bytes := Some 3; sc_motion_idr_min_interval := 250;
     sc_hud_enabled := true; sc_disable_touch := false; sc_pen_profile := demo_profile |}.

(** A run whose main loop ends as given. *)
Definition ending_env (e : MainEnd) (pump_stops : bool) (late after closing : list LateStep) : RunEnv :=
  {| re_accept := Some (demo_client, {| w_sent := []; w_err := None |}, "adb"%string);
     re_snapshot := Ok [demo_monitor]; re_samples := [None; Some [demo_monitor; virtual_display]];
     re_force := Ok tt; re_resamples := []; re_adapter := Ok tt; re_engine := Ok; re_injector := Ok None;
     re_pops := [None; Some demo_keyframe]; re_queue := PacketQueue.new 8; re_now := 0; re_turns := demo_turns;
     re_end := Some e; re_pump_stops := pump_stops; re_ticks_stop := true; re_late := late;
     re_after := after; re_closing := closing |}.

Definition demo_run_env : RunEnv := ending_env (ReadEnded (Ok tt)) true [] [] [].

Definition demo_session_run : V (option Outcome) :=
  run friendly_os demo_clock demo_profile demo_env_vdd demo_streaming demo_run_env Session.demo_env.

(** The resolution could not be read again, so the stale one is used. *)
Example demo_run_streams :
  exists o tr, demo_session_run [] = (Ok (Some o), tr) /\ oc_events o = [Connecting "adb"; Connected "adb" 2880 1800; Disconnected]
  /\ (length tr = 5)%nat.
Proof. eexists _, _. split; [vm_compute; reflexivity |]. split; vm_compute; reflexivity. Qed.

(** The caller's signal drops the read task within an answer, while the frame
    pump misses the stop: it sends one more frame, and another after the
    goodbye. *)
Definition finished_env : RunEnv :=
  ending_env Finished false
    [LAbort (Some (10%nat, (MSG_TIME_SYNC_REQ, be_bytes_s 8 5))); LTurn (TPump 320)]
    [LTurn (TEncode (demo_packet_of 4 false)); LTurn (TPump 330)] [LOrphan].

Lemma session_run_lifecycle_witness : exists res,
  (run friendly_os demo_clock demo_profile demo_env_vdd demo_streaming finished_env Session.demo_env []).1 = Ok res
  /\ match res with
     | Some o => run_lifecycle demo_streaming finished_env "adb" {| w_sent := []; w_err := None |} o
     | None => re_end finished_env = None
     end.
Proof.
  by apply (session_run_lifecycle friendly_os demo_clock demo_profile demo_env_vdd demo_streaming finished_env
    Session.demo_env demo_client _ "adb" []).
Defined.

Lemma session_releases_display_witness :
  exists ext res, demo_session_run [] = (Ok res, [] ++ ext)
  /\ display_left demo_env_vdd demo_run_env [] res ext.
Proof.
  by apply (session_releases_display friendly_os demo_clock demo_profile demo_env_vdd demo_streaming demo_run_env
    Session.demo_env []).
Defined.

(** The exception is real: an elevated process whose enable is accepted but
    cannot be verified ends the session with the device enabled, since the
    controller was never marked. *)
Definition unverifiable_vdd : VddEnv :=
  {| is_process_elevated := true; DN_HAS_PROBLEM := 0x400; CM_PROB_DISABLED := 22;
     env_devcon := fun _ _ => Some {| do_code := Some 0; do_transcript := "1 device(s) enabled" |};
     env_status := fun _ => Err AccessDenied; env_polls := fun _ => 20%nat;
     env_started := fun _ => true; env_in_time := fun _ => true; env_exit_code := fun _ => true |}.

Lemma unverified_enable_left_on : exists o,
  run friendly_os demo_clock demo_profile unverifiable_vdd demo_streaming demo_run_env Session.demo_env []
  = (Ok (Some o), [EvDevcon Enable true; EvStatus (Err AccessDenied)])
  /\ oc_result o = Err (SeVdd AccessDenied) /\ oc_events o = [Connecting "adb"].
Proof. eexists. split; [vm_compute; reflexivity |]. split; reflexivity. Qed.

(** What the client of a run reads, as far as it is whole frames. *)
Definition client_reads (n : nat) (env : RunEnv) : list Z :=
  match (run friendly_os demo_clock demo_profile demo_env_vdd demo_streaming env Session.demo_env []).1 with
  | Ok (Some o) =>
      match read_frames n {| r_bytes := w_sent (oc_writer o); r_end := UnexpectedEof |} with
      | Ok (fs, _) => map fst fs
      | Err _ => []
      end
  | _ => []
  end.

(** A pump that missed the stop signal writes video after the goodbye. *)
Lemma video_after_goodbye :
  client_reads 10 (ending_env (ReadEnded (Ok tt)) false [] [LTurn (TPump 320)] [])
  = [MSG_HELLO_PC; MSG_CLIENT_CONFIG; MSG_VIDEO_CONFIG; MSG_VIDEO_FRAME; MSG_TIME_SYNC_RESP; MSG_VIDEO_FRAME;
     MSG_TELEMETRY; MSG_VIDEO_FRAME; MSG_PC_GOODBYE; MSG_VIDEO_FRAME].
Proof. vm_compute. reflexivity. Qed.

(** The pump stops at once, but not its pop, which takes the third packet with
    it: it is on no queue, in no frame and in no count. *)
Lemma stopped_pump_loses_packet : let l := {| lv_shared := demo_shared; lv_queue := PacketQueue.new 8;
      lv_stats := {| frames := 0; queue_depth := 0; encode_us_ring := [] |}; lv_last_motion_idr := 0;
      lv_pump := true; lv_telemetry := true; lv_engine_idr := 0 |} in
  let l := (run_turns friendly_os demo_clock demo_streaming demo_coords (1920, 1080) l demo_turns).1 in
  let wd := wind_step friendly_os demo_clock demo_streaming demo_coords (1920, 1080)
    (notify_pumps true true (ReadEnded (Ok tt)) l) LOrphan in
  deque (lv_queue l) = [demo_packet_of 3 false] /\ deque (lv_queue (wd_live wd)) = []
  /\ dropped_overflow (lv_queue (wd_live wd)) = 0
  /\ io_writer (lv_shared (wd_live wd)) = io_writer (lv_shared l).
Proof. vm_compute. auto. Qed.
