(* ===== verification/SystemRun.v ===== *)
(** The whole of [Session::run] ([crates/penflow-server/src/session.rs]) over
    the running engine: the wait for the first key frame while the capture
    thread works, then the streaming phase as the system of [EndToEnd], then
    the goodbye.  The turns that [Session] takes as given are here those of
    the system, which refines them. *)
From stdpp Require Import list strings.
From S2P Require Import Prelude Bytes Engine Protocol AnnexB Encoder PacketQueue Pipeline EncodedPipeline.
From S2P Require Import Coords Inject InjectSpec Vdd ReadLoop Session WindDown EndToEnd SystemWind SessionRun.

(** * The system refines the session's turns *)

Section Refinement.
Context {Image Shape Blitter : Type} (gpu : Gpu Image Shape Blitter) (start_instant_ns : Z).
Context (mf : MfConstants) (ecfg : Engine.SessionConfig).
Context (os : Os) (elapsed_ns : nat -> Z) (cfg : Session.SessionConfig).
Context (coords : AffineTransform) (vscreen : Z * Z).

(** What a session sees of a step: a push is the encoder's turn, a capture is
    nothing. *)
Definition turn_of (x : SysStep Image Shape) (y : Sys Image Blitter) : list Turn :=
  match x with
  | SCapture _ => []
  | SPush => match sy_pushing y with p :: _ => [TEncode p] | [] => [] end
  | STurn (TEncode _) => []
  | STurn t => [t]
  end.

Fixpoint turns_of (xs : list (SysStep Image Shape)) (y : Sys Image Blitter) : list Turn :=
  match xs with
  | [] => []
  | x :: xs' =>
      turn_of x y ++
      match sys_step gpu start_instant_ns mf ecfg os elapsed_ns cfg coords vscreen x y with
      | (_, Some _) => []
      | (y', None) => turns_of xs' y'
      end
  end.

Lemma sys_step_turns x y :
  run_turns os elapsed_ns cfg coords vscreen (sy_live y) (turn_of x y)
  = (sy_live (sys_step gpu start_instant_ns mf ecfg os elapsed_ns cfg coords vscreen x y).1,
     (sys_step gpu start_instant_ns mf ecfg os elapsed_ns cfg coords vscreen x y).2).
Proof.
  destruct x as [t| |t].
  - cbn. unfold capture_step. destruct (sy_capture y); [| done..]. destruct (sy_pushing y); [| done].
    destruct (encode _ _ _ _ _ _) as [[env|] e']; [| done]. by destruct (tick _ _ _ _).
  - cbn. unfold push_step. by destruct (sy_pushing y).
  - assert (Ht : (exists p, t = TEncode p) \/ forall p, t <> TEncode p) by (destruct t; [by left; eexists | by right..]).
    destruct Ht as [(p & ->) | Ht]; [done |].
    assert (E : turn_of (STurn t) y = [t]) by (destruct t as [p| | | | |]; [by destruct (Ht p) | done..]).
    assert (E' : sys_step gpu start_instant_ns mf ecfg os elapsed_ns cfg coords vscreen (STurn t) y
      = turn_step os elapsed_ns cfg coords vscreen t y)
      by (destruct t as [p| | | | |]; [by destruct (Ht p) | done..]).
    rewrite E, E'. unfold turn_step. cbn [run_turns].
    by destruct (turn os elapsed_ns cfg coords vscreen (sy_live y) t) as [l [res|]].
Qed.

Lemma run_turns_app l ts us : run_turns os elapsed_ns cfg coords vscreen l (ts ++ us)
  = match run_turns os elapsed_ns cfg coords vscreen l ts with
    | (l', Some res) => (l', Some res)
    | (l', None) => run_turns os elapsed_ns cfg coords vscreen l' us
    end.
Proof.
  revert l. induction ts as [|t ts IH]; intros l; [done |]. cbn [app run_turns].
  by destruct (turn os elapsed_ns cfg coords vscreen l t) as [l' [res|]].
Qed.

(** The session in the system is a session that takes those turns. *)
Lemma run_sys_refines xs : forall y, let y' := run_sys gpu start_instant_ns mf ecfg os elapsed_ns cfg coords vscreen xs y in
  run_turns os elapsed_ns cfg coords vscreen (sy_live y) (turns_of xs y) = (sy_live y'.1, y'.2).
Proof.
  induction xs as [|x xs IH]; intros y; [done |]. cbn [turns_of run_sys]. rewrite run_turns_app, sys_step_turns.
  destruct (sys_step _ _ _ _ _ _ _ _ _ x y) as [y1 [res|]]; cbn [fst snd]; [done | apply IH].
Qed.

End Refinement.

(** * Waiting for the first key frame *)

Section Boot.
Context {Image Shape Blitter : Type} (gpu : Gpu Image Shape Blitter) (start_instant_ns : Z).
Context (mf : MfConstants) (ecfg : Engine.SessionConfig).

(** [BPop]: a [pop_timeout] of [wait_for_keyframe] returns. *)
Inductive BootStep := BCapture (t : TickInput Image Shape) | BPush | BPop.

(** The engine up to the first key frame, and what was popped. *)
Fixpoint boot (xs : list BootStep) (y : Sys Image Blitter) : Sys Image Blitter * list (option EncodedPacket) :=
  match xs with
  | [] => (y, [])
  | BCapture t :: xs' => boot xs' (capture_step gpu start_instant_ns mf ecfg t y)
  | BPush :: xs' => boot xs' (push_step y)
  | BPop :: xs' =>
      match pop_round (lv_queue (sy_live y)) with
      | Some (Some p, q) =>
          let y' := with_live (put_queue q (sy_live y)) y in
          if pkt_is_keyframe p then (y', [Some p])
          else let '(y'', pops) := boot xs' y' in (y'', Some p :: pops)
      | _ => let '(y'', pops) := boot xs' y in (y'', None :: pops)
      end
  end.

(** The engine with the history of its queue. *)
Record booting (cap : nat) (y : Sys Image Blitter) (h : @History EncodedPacket) : Prop := {
  bo_spec : queue_spec cap h;
  bo_queue : PacketQueue.queue h = lv_queue (sy_live y);
  bo_open : closed (PacketQueue.queue h) = false;
  bo_linked : encoder_linked ecfg y (accepted h ++ sy_pushing y);
}.

Lemma booting_capture cap y h t : booting cap y h ->
  booting cap (capture_step gpu start_instant_ns mf ecfg t y) h
  /\ (idr_debt (sy_loop (capture_step gpu start_instant_ns mf ecfg t y)) <= idr_debt (sy_loop y))%nat.
Proof.
  intros []. destruct (capture_links gpu start_instant_ns mf ecfg t y (accepted h) bo_linked0) as (_ & Hl & Hd & El).
  split; [| done]. by constructor; rewrite ?El.
Qed.

Lemma booting_push cap y h : booting cap y h -> exists h', booting cap (push_step y) h' /\ delivered h' = delivered h.
Proof.
  intros []. unfold push_step. destruct (sy_pushing y) as [|p ps] eqn:Ep.
  { exists h. split; [| done]. by constructor; rewrite ?Ep. }
  exists (exec h (OpPush p)). split; [| done]. constructor.
  - by apply exec_spec.
  - cbn. by rewrite bo_queue0.
  - by rewrite exec_open.
  - cbn [exec accepted sy_pushing]. rewrite bo_open0, <- app_assoc. exact bo_linked0.
Qed.

Lemma booting_pop cap y h p q : booting cap y h -> pop_round (lv_queue (sy_live y)) = Some (Some p, q) ->
  exists h', booting cap (with_live (put_queue q (sy_live y)) y) h' /\ delivered h' = delivered h ++ [p].
Proof.
  intros [] E. exists (exec h OpPop).
  assert (Eh : exec h OpPop = {| PacketQueue.queue := q; accepted := accepted h; delivered := delivered h ++ [p] |})
    by (cbn [exec]; by rewrite bo_queue0, E).
  split; [| by rewrite Eh]. constructor.
  - by apply exec_spec.
  - by rewrite Eh.
  - by rewrite exec_open.
  - by rewrite Eh.
Qed.

Lemma boot_ok cap xs : forall y h, booting cap y h -> let y' := (boot xs y).1 in exists h',
  booting cap y' h' /\ delivered h' = delivered h ++ omap id (boot xs y).2
  /\ (idr_debt (sy_loop y') <= idr_debt (sy_loop y))%nat.
Proof.
  induction xs as [|x xs IH]; intros y h H; cbn [boot].
  { exists h. cbn. by rewrite app_nil_r. }
  destruct x as [t| |].
  - destruct (booting_capture cap y h t H) as (H1 & Hd). destruct (IH _ _ H1) as (h' & H2 & E & Hi).
    exists h'. split_and!; [done | done | lia].
  - destruct (booting_push cap y h H) as (h1 & H1 & E1). destruct (IH _ _ H1) as (h' & H2 & E & Hi).
    exists h'. split_and!; [done | by rewrite E, E1 |]. revert Hi. unfold push_step. by destruct (sy_pushing y).
  - destruct (pop_round (lv_queue (sy_live y))) as [[[p|] q]|] eqn:Ep.
    2-3: destruct (IH _ _ H) as (h' & H2 & E & Hi); destruct (boot xs y) as [y'' pops]; by exists h'.
    destruct (booting_pop cap y h p q H Ep) as (h1 & H1 & E1). destruct (pkt_is_keyframe p).
    + exists h1. by split_and!.
    + destruct (IH _ _ H1) as (h' & H2 & E & Hi). destruct (boot xs _) as [y'' pops]. exists h'.
      split_and!; [done | | done]. rewrite E, E1, <- app_assoc. done.
Qed.

(** The key frame is the last of what was popped. *)
Lemma boot_keyframe t xs : forall y pkt, wait_for_keyframe t (boot xs y).2 = Ok pkt -> exists skipped,
  omap id (boot xs y).2 = skipped ++ [pkt] /\ Forall (fun p => pkt_is_keyframe p = false) skipped
  /\ pkt_is_keyframe pkt = true.
Proof.
  induction xs as [|x xs IH]; intros y pkt; cbn [boot]; [done |]. destruct x as [i| |]; [apply IH | apply IH |].
  destruct (pop_round (lv_queue (sy_live y))) as [[[p|] q]|].
  2-3: specialize (IH y pkt); destruct (boot xs y) as [y'' pops]; exact IH.
  destruct (pkt_is_keyframe p) eqn:Ek.
  - cbn. rewrite Ek. intros [= <-]. exists []. by split_and!; [| constructor |].
  - specialize (IH (with_live (put_queue q (sy_live y)) y) pkt). destruct (boot xs _) as [y'' pops].
    cbn. rewrite Ek. intros H. destruct (IH H) as (skipped & E & Hs & Hk). exists (p :: skipped).
    split_and!; [cbn [snd] in E |- *; by rewrite E | by constructor | done].
Qed.
End Boot.

Arguments BootStep : clear implicits.

(** * The whole session *)

Section Whole.
Context {Image Shape Blitter : Type} (gpu : Gpu Image Shape Blitter) (start_instant_ns : Z).
Context (mf : MfConstants) (ecfg : Engine.SessionConfig).
Context (os : Os) (elapsed_ns : nat -> Z) (initial_profile : PenButtonProfile) (venv : VddEnv).
Context (cfg : Session.SessionConfig) (off_env : ScreenOffEnv).

(** What the session meets from the engine's start on, put into an
    environment: the monitor and the injector, the pops, the turns, and the
    steps of its end. *)
Definition with_tasks (env : RunEnv) (m : MonitorInfo) (v : option VMultiPen) (pops : list (option EncodedPacket))
    (q : Queue EncodedPacket) (turns : list Turn) (ending : list LateStep * list LateStep * list LateStep) : RunEnv :=
  {| re_accept := re_accept env; re_snapshot := re_snapshot env; re_samples := re_samples env;
     re_force := re_force env; re_resamples := re_resamples env; re_adapter := re_adapter env;
     re_engine _ := Ok m; re_injector := Ok v; re_pops := pops; re_queue := q; re_now := re_now env;
     re_turns := turns; re_end := re_end env; re_pump_stops := re_pump_stops env; re_ticks_stop := re_ticks_stop env;
     re_late := ending.1.1; re_after := ending.1.2; re_closing := ending.2 |}.

(** The system when its tasks are spawned: the engine as the first key frame
    left it, and a session that has written its header to [w0]. *)
Definition spawned (env : RunEnv) (w0 : Writer) (v : option VMultiPen) (header : list (Z * list Z)) (y : Sys Image Blitter)
  : Sys Image Blitter :=
  let queued := with_tasks env (sc_monitor cfg) v [] (lv_queue (sy_live y)) [] ([], [], []) in
  with_live (initial_live queued (run_injector os initial_profile cfg v) (wrote (on_wire header) w0)) y.

Definition run_system (m : MonitorInfo) (v : option VMultiPen) (xs : list (SysStep Image Shape)) (y : Sys Image Blitter)
  : Sys Image Blitter * option (result SessionError unit) :=
  run_sys gpu start_instant_ns mf ecfg os elapsed_ns cfg (session_coords m)
    (vscreen_size os (run_injector os initial_profile cfg v)) xs y.

Definition session_turns (m : MonitorInfo) (v : option VMultiPen) : list (SysStep Image Shape) -> Sys Image Blitter -> list Turn :=
  turns_of gpu start_instant_ns mf ecfg os elapsed_ns cfg (session_coords m)
    (vscreen_size os (run_injector os initial_profile cfg v)).

(** How the main loop ends, and the system then. *)
Definition main_end (env : RunEnv) (res : option (result SessionError unit)) : option MainEnd :=
  match res with Some r => Some (ReadEnded r) | None => re_end env end.

Definition winding (env : RunEnv) (e : MainEnd) (y : Sys Image Blitter) : SysWind :=
  let wd := notify_pumps (re_pump_stops env) (re_ticks_stop env) e (sy_live y) in
  {| sw_sys := with_live (wd_live wd) y; sw_orphan := wd_orphan wd; sw_reading := wd_reading wd |}.

Definition end_system (m : MonitorInfo) (v : option VMultiPen) (late after closing : list (YStep Image Shape))
  : SysWind -> SysWind :=
  sys_wind_down gpu start_instant_ns mf ecfg os elapsed_ns cfg (session_coords m)
    (vscreen_size os (run_injector os initial_profile cfg v)) late after closing.

(** [Session::run] on an engine in the state [y0]: [bs] up to the first key
    frame, [xs] up to the end of the main loop, [late] up to the goodbye,
    [after] up to the queue's end, [closing] up to the return. *)
Definition on_system (env : RunEnv) (w0 : Writer) (m : MonitorInfo) (v : option VMultiPen) (y0 : Sys Image Blitter)
    (bs : list (BootStep Image Shape)) (xs : list (SysStep Image Shape)) (late after closing : list (YStep Image Shape))
  : RunEnv :=
  let booted := boot gpu start_instant_ns mf ecfg bs y0 in
  let '(turns, ending) :=
    match wait_for_keyframe 5000 booted.2 with
    | Ok pkt =>
        match stream_header cfg m pkt with
        | Ok header =>
            let y := spawned env w0 v header booted.1 in
            let '(y', res) := run_system m v xs y in
            (session_turns m v xs y,
             match main_end env res with
             | Some e =>
                 ending_of gpu start_instant_ns mf ecfg os elapsed_ns cfg (session_coords m)
                   (vscreen_size os (run_injector os initial_profile cfg v)) late after closing (winding env e y')
             | None => ([], [], [])
             end)
        | Err _ => ([], ([], [], []))
        end
    | Err _ => ([], ([], [], []))
    end in
  with_tasks env m v booted.2 (lv_queue (sy_live booted.1)) turns ending.

(** What the connection [w0] was given, against what the encoder handed out:
    [skipped] was popped before the first key frame, [pkt] is that key frame,
    [sent] was delivered to the pump, [lost] to the pop of a stopped pump,
    [waiting] is still queued, and [rejected] came when the queue was closed. *)
Definition wire_of_session (cap : nat) (env : RunEnv) (e : MainEnd) (w0 : Writer) (header : list (Z * list Z))
    (pkt : EncodedPacket) (closing : list (YStep Image Shape)) (y : Sys Image Blitter) (w : Writer) : Prop :=
  exists before after cut bytes skipped sent lost pushed rejected,
    w = wrote (on_wire header ++ bytes) w0
    /\ wire_with_cut (before ++ (MSG_PC_GOODBYE, []) :: after) cut bytes
    /\ part_of_response cut /\ (cut <> [] -> e = Finished)
    /\ map snd (List.filter is_video (before ++ after)) = map video_payload sent
    /\ Forall (fun p => pkt_is_keyframe p = false) skipped /\ pkt_is_keyframe pkt = true
    /\ (length lost <= 1)%nat /\ (lost <> [] -> re_pump_stops env = true)
    /\ (closing = [] -> rejected = [])
    /\ let waiting := deque (lv_queue (sy_live y)) in
       let delivered := skipped ++ pkt :: sent ++ lost in
       sublist (delivered ++ waiting) pushed
       /\ (exists old, pushed = old ++ waiting) /\ (length waiting <= Nat.max cap 1)%nat
       /\ dropped_overflow (lv_queue (sy_live y))
          = Z.min (2 ^ 64 - 1) (Z.of_nat (length pushed) - Z.of_nat (length delivered) - Z.of_nat (length waiting))
       /\ encoder_linked ecfg y (pushed ++ rejected ++ sy_pushing y).

Lemma run_system_refines m v xs y : run_turns os elapsed_ns cfg (session_coords m)
    (vscreen_size os (run_injector os initial_profile cfg v)) (sy_live y) (session_turns m v xs y)
  = (sy_live (run_system m v xs y).1, (run_system m v xs y).2).
Proof. unfold run_system, session_turns. exact (run_sys_refines _ _ _ _ _ _ _ _ _ xs y). Qed.

(** The session as the system ends it. *)
Definition system_outcome (peer : string) (android : HelloAndroid) (e : MainEnd) (y : Sys Image Blitter) : Outcome :=
  {| oc_result := end_result e;
     oc_events := [Connecting peer; Connected peer (ha_display_width android) (ha_display_height android);
                   final_event (end_result e)];
     oc_writer := io_writer (lv_shared (sy_live y)) |}.

Lemma header_written w0 header : takes w0 (on_wire header) = true ->
  write_frames w0 header = (Ok tt, wrote (on_wire header) w0).
Proof.
  intros Ht. pose proof (write_frames_wrote header w0) as Hw. pose proof (write_frames_result header w0) as Hr.
  fold (on_wire header) in Hw, Hr. destruct (write_frames w0 header) as [[[]|e] w1]; cbn [fst snd] in *; subst w1; [done |].
  destruct Hr as (n & k & Ew & _ & Hn). unfold takes in Ht. rewrite Ew in Ht. apply Nat.leb_le in Ht. lia.
Qed.

Lemma open_stream_system env w0 m v y0 bs xs late after closing peer android mon pkt header :
  let y1 := (boot gpu start_instant_ns mf ecfg bs y0).1 in
  wait_for_keyframe 5000 (boot gpu start_instant_ns mf ecfg bs y0).2 = Ok pkt -> stream_header cfg m pkt = Ok header ->
  takes w0 (on_wire header) = true ->
  let '(y, res) := run_system m v xs (spawned env w0 v header y1) in
  open_stream os elapsed_ns initial_profile cfg (on_system env w0 m v y0 bs xs late after closing) w0 peer android (Ok mon)
  = (fun e => system_outcome peer android e (sw_sys (end_system m v late after closing (winding env e y)))) <$> main_end env res.
Proof.
  intros y1 Hk Hh Ht. unfold open_stream, on_system. rewrite Hk, Hh. fold y1.
  set (y2 := spawned env w0 v header y1).
  pose proof (run_system_refines m v xs y2) as Hrun.
  destruct (run_system m v xs y2) as [y res]. cbn [fst snd] in Hrun.
  cbn [with_tasks re_engine re_injector re_pops]. rewrite Hk, Hh, header_written by done.
  unfold stream. cbn [with_tasks re_turns re_late re_after re_closing re_end re_pump_stops re_ticks_stop].
  match goal with |- context [initial_live ?e ?i ?w] => change (initial_live e i w) with (sy_live y2) end.
  rewrite Hrun. fold (main_end env res). destruct (main_end env res) as [e|]; [| done]. cbn [fmap option_fmap option_map].
  pose proof (wind_down_system gpu start_instant_ns mf ecfg os elapsed_ns cfg (session_coords m)
    (vscreen_size os (run_injector os initial_profile cfg v)) late after closing (winding env e y)) as Hwind.
  destruct (ending_of _ _ _ _ _ _ _ _ _ late after closing (winding env e y)) as [[l a] c]. cbn [fst snd].
  change (notify_pumps (re_pump_stops env) (re_ticks_stop env) e (sy_live y)) with (wind_of (winding env e y)).
  by rewrite Hwind.
Qed.

(** An engine that was just started. *)
Definition fresh_engine (cap : nat) (y : Sys Image Blitter) : Prop :=
  sy_pushing y = [] /\ lv_queue (sy_live y) = PacketQueue.new cap /\ encoder_linked ecfg y [].

Lemma fresh_booting cap y : fresh_engine cap y ->
  booting ecfg cap y {| PacketQueue.queue := PacketQueue.new cap; accepted := []; delivered := [] |}.
Proof.
  intros (Hp & Hq & Hl). constructor; rewrite ?Hq, ?Hp; try done.
  apply (queue_new_spec cap).
Qed.

(** Everything that the system did, from the engine's start to the return. *)
Lemma system_wire cap env w0 m v y0 bs xs late after closing pkt header e :
  let booted := boot gpu start_instant_ns mf ecfg bs y0 in
  fresh_engine cap y0 -> wait_for_keyframe 5000 booted.2 = Ok pkt ->
  let y := sw_sys (end_system m v late after closing
    (winding env e (run_system m v xs (spawned env w0 v header booted.1)).1)) in
  wire_of_session cap env e w0 header pkt closing y (io_writer (lv_shared (sy_live y)))
  /\ (idr_debt (sy_loop y) <= idr_debt (sy_loop y0) + lv_engine_idr (sy_live y))%nat.
Proof.
  intros booted Hf Hk y.
  destruct (boot_ok gpu start_instant_ns mf ecfg cap bs y0 _ (fresh_booting cap y0 Hf)) as (h & [] & Ed & Hi).
  fold booted in bo_spec0, bo_queue0, bo_open0, bo_linked0, Ed, Hi.
  destruct (boot_keyframe gpu start_instant_ns mf ecfg 5000 bs y0 pkt Hk) as (skipped & Eo & Hs & Hkey).
  fold booted in Eo. cbn [delivered app] in Ed. rewrite Eo in Ed.
  set (y2 := spawned env w0 v header booted.1) in *.
  destruct (sys_starts ecfg cap y2 h) as (h1 & H2); try done.
  destruct (run_sys_ok gpu start_instant_ns mf ecfg os elapsed_ns cfg (session_coords m)
    (vscreen_size os (run_injector os initial_profile cfg v)) cap y2 h xs y2 h h1 [] _ H2) as (h2 & h2' & fs & new2 & [Hl Hc Ho]).
  fold (run_system m v xs y2) in Hl, Hc. set (y3 := (run_system m v xs y2).1) in *.
  pose proof (notify_wound (re_pump_stops env) (re_ticks_stop env) e _ _ _ _ Hl) as Hw.
  assert (H3 : sys_wound ecfg cap (re_pump_stops env) (match e with Finished => true | ReadEnded _ => false end) y2 h
    (winding env e y3) h2 h2' fs [] (delivered h2') [] new2 []).
  { constructor; [exact Hw |]. apply (core_ops ecfg cap y2 h [] y3); try done. by destruct Hw. }
  destruct (sys_wind_down_wound gpu start_instant_ns mf ecfg os elapsed_ns cfg (session_coords m)
    (vscreen_size os (run_injector os initial_profile cfg v)) cap _ _ _ _ _ _ _ _ _ _ _ _ _ late after closing H3)
    as (k & k' & fs1 & fs2 & cut & sent & lost & new & rej & [[] []] & Hrej).
  { change (closed (lv_queue (sy_live y3)) = false). destruct Hc. by rewrite <- co_queue. }
  fold (end_system m v late after closing) in *. fold y in co_queue, co_accepted, co_linked, co_idr. split.
  - destruct wo_wire as (bytes & Hb & Ew). destruct co_spec as (_ & Hlen & Hsub & Hold & Hd).
    rewrite co_queue in Hlen, Hsub, Hold, Hd. rewrite co_delivered, Ed, wo_delivered, <- app_assoc in Hsub.
    exists (fs ++ fs1), fs2, cut, bytes, skipped, sent, lost, (accepted k), rej. cbv zeta. split_and!; try done.
    + change (io_writer (lv_shared (sy_live y2))) with (wrote (on_wire header) w0) in Ew.
      rewrite wrote_app. exact Ew.
    + by rewrite <- app_assoc.
    + apply wo_cut.
    + intros Hne. destruct e; [discriminate (proj2 wo_cut Hne) | done].
    + rewrite <- wo_video, <- app_assoc, !List.filter_app. done.
    + apply wo_lost.
    + intros Hne. by apply (proj2 wo_lost).
    + rewrite <- !app_assoc in Hsub |- *. cbn [app] in Hsub |- *. rewrite <- ?app_assoc in Hsub |- *. exact Hsub.
    + rewrite Hd, co_delivered, Ed, wo_delivered, !length_app. cbn [length]. rewrite length_app. lia.
    + by rewrite co_accepted.
  - change (lv_engine_idr (sy_live y2)) with 0%nat in co_idr.
    change (sy_loop y2) with (sy_loop booted.1) in co_idr. lia.
Qed.

(** C2. A whole session, from the start of the engine to the return.  When the
    client greets, the monitor comes up, a key frame with parameter sets is
    among what the encoder makes in time, and the connection takes the header,
    then [run] returns once its main loop has ended (no write, no lock and no
    join of a thread waiting for ever), however the capture thread, its
    pushes, the pumps, the key-frame services and the read loop interleave
    before, during and after the main loop.  The events are Connecting,
    Connected and the last one as the result is, and the result is the read
    loop's, or success at the caller's signal.  The bytes, as far as the
    connection takes them, are the header with that key frame and then whole
    frames with the goodbye among them (frames follow it when a pump missed the
    stop signal), and, if the caller's signal aborted the read task, a part of
    one sync response at one place between them.  The video in the frames is,
    in order, once and byte for byte, what the encoder handed out before the
    queue was closed, but for the frames before the key frame, the oldest ones
    that a full queue dropped and counted, those still queued, and at most one
    that nobody counts, lost in the pop that a stopped pump leaves behind; the
    stamps are those of the frames submitted, in order; and no more key frames
    were forced than were asked for. *)
Theorem whole_session cap env w0 m v y0 bs xs late after closing r r' android peer tr c mon pkt header e :
  let booted := boot gpu start_instant_ns mf ecfg bs y0 in
  sc_screen_off cfg = false -> re_accept env = Some (r, w0, peer) ->
  read_hello r = Ok (android, r') -> (capture_monitor venv cfg env tr).1 = Ok (c, Ok mon) ->
  fresh_engine cap y0 -> wait_for_keyframe 5000 booted.2 = Ok pkt -> stream_header cfg m pkt = Ok header ->
  takes w0 (on_wire header) = true ->
  let ended := run_system m v xs (spawned env w0 v header booted.1) in
  main_end env ended.2 = Some e ->
  let y := sw_sys (end_system m v late after closing (winding env e ended.1)) in
  exists o, (run os elapsed_ns initial_profile venv cfg (on_system env w0 m v y0 bs xs late after closing) off_env tr).1
    = Ok (Some o)
  /\ oc_result o = end_result e
  /\ oc_events o = [Connecting peer; Connected peer (ha_display_width android) (ha_display_height android);
                    final_event (oc_result o)]
  /\ wire_of_session cap env e w0 header pkt closing y (oc_writer o)
  /\ (idr_debt (sy_loop y) <= idr_debt (sy_loop y0) + lv_engine_idr (sy_live y))%nat.
Proof.
  intros booted Hs Ha Hr Hc Hf Hk Hh Ht ended.
  pose proof (open_stream_system env w0 m v y0 bs xs late after closing peer android mon pkt header Hk Hh Ht) as Ho.
  pose proof (system_wire cap env w0 m v y0 bs xs late after closing pkt header e Hf Hk) as (Hw & Hi).
  fold booted in Ho, Hw, Hi. fold ended in Ho, Hw, Hi. clearbody ended.
  destruct ended as [y3 res]. cbn [fst snd] in *. intros He. rewrite He in Ho. cbv zeta.
  set (y := sw_sys (end_system m v late after closing (winding env e y3))) in *.
  exists (system_outcome peer android e y).
  split; [| split_and!; [reflexivity | reflexivity | exact Hw | exact Hi]].
  unfold run, run_streaming. rewrite Hs.
  assert (Hon : exists m1 v1 pops q turns ending,
    on_system env w0 m v y0 bs xs late after closing = with_tasks env m1 v1 pops q turns ending).
  { unfold on_system. destruct (match wait_for_keyframe 5000 _ with Ok _ => _ | Err _ => _ end). by do 6 eexists. }
  assert (Ha' : re_accept (on_system env w0 m v y0 bs xs late after closing) = Some (r, w0, peer))
    by (by destruct Hon as (? & ? & ? & ? & ? & ? & ->)).
  assert (Hc' : (capture_monitor venv cfg (on_system env w0 m v y0 bs xs late after closing) tr).1 = Ok (c, Ok mon))
    by (by destruct Hon as (? & ? & ? & ? & ? & ? & ->)).
  rewrite Ha', Hr. unfold mbind at 1, V_bind at 1.
  destruct (capture_monitor venv cfg (on_system env w0 m v y0 bs xs late after closing) tr) as [cr tr1]. cbn [fst] in Hc'. subst cr.
  cbn [fst snd]. rewrite Ho. cbn [fmap option_fmap option_map]. apply (drop_then venv c).
Qed.
End Whole.

(** * Witness *)

Definition demo_h264 : Session.SessionConfig :=
  {| sc_monitor := demo_monitor; sc_codec := H264; sc_bitrate_bps := 5000000; sc_fps := 60;
     sc_idr_interval := Some 500; sc_vdd := Some VddController_new; sc_vdd_target_resolution := None;
     sc_screen_off := false; sc_motion_idr_threshold_bytes := None; sc_motion_idr_min_interval := 250;
     sc_hud_enabled := true; sc_disable_touch := false; sc_pen_profile := demo_profile |}.

(** A key frame with its parameter sets. *)
Definition demo_start_frame : list Z := SC4 ++ [0x67; 1] ++ SC4 ++ [0x68; 2] ++ SC4 ++ [0x65; 3].

(** A pop that times out, the key frame, and a frame that is not pushed yet. *)
Definition demo_boot : list (BootStep Z Z) :=
  [BPop; BCapture (demo_input 1000 demo_start_frame); BPush; BCapture (demo_input 2000 demo_slice); BPop].

Definition demo_session_steps : list (SysStep Z Z) :=
  [SPush; STurn TPeriodicIdr; STurn (TPump 300); STurn TServeIdr; SCapture (demo_input 3000 demo_start_frame); SPush].

(** The main loop ends with the read task, and the pump misses the stop. *)
Definition lagging_env : RunEnv := ending_env (ReadEnded (Ok tt)) false [] [] [].

Definition open_connection : Writer := {| w_sent := []; w_err := None |}.

Definition demo_late : list (YStep Z Z) := [YTurn (TPump 310); YCapture (demo_input 4000 demo_slice); YPush].

Definition demo_after : list (YStep Z Z) := [YTurn (TPump 320); YCapture (demo_input 5000 demo_slice); YPush].

Definition demo_closing : list (YStep Z Z) := [YCapture (demo_input 6000 demo_slice); YPush; YTurn (TPump 330)].

Definition demo_booted := boot demo_gpu 0 demo_mf Encoder.demo_cfg demo_boot demo_sys.

Definition demo_first : EncodedPacket :=
  {| pkt_bytes := demo_start_frame; pkt_pts_ns := 1000; pkt_is_keyframe := true; pkt_encode_us := Some 3000 |}.

Example demo_boot_pops : demo_booted.2 = [None; Some demo_first].
Proof. vm_compute. reflexivity. Qed.

Definition demo_header : list (Z * list Z) :=
  match stream_header demo_h264 demo_monitor demo_first with Ok header => header | Err _ => [] end.

Definition demo_tasks := run_system demo_gpu 0 demo_mf Encoder.demo_cfg friendly_os demo_clock demo_profile demo_h264
  demo_monitor None.

Definition demo_ended : Sys Z Z * option (result SessionError unit) :=
  demo_tasks demo_session_steps
    (spawned friendly_os demo_profile demo_h264 lagging_env open_connection None demo_header demo_booted.1).

Definition demo_returned : Sys Z Z :=
  sw_sys (end_system demo_gpu 0 demo_mf Encoder.demo_cfg friendly_os demo_clock demo_profile demo_h264
    demo_monitor None demo_late demo_after demo_closing (winding lagging_env (ReadEnded (Ok tt)) demo_ended.1)).

(** The second key frame was forced by the periodic request, and the pump was
    late: a frame follows the main loop, another the goodbye, and the last one
    came to a closed queue. *)
Lemma whole_session_witness : exists o,
  (run friendly_os demo_clock demo_profile demo_env_vdd demo_h264
     (on_system demo_gpu 0 demo_mf Encoder.demo_cfg friendly_os demo_clock demo_profile demo_h264 lagging_env
        open_connection demo_monitor None demo_sys demo_boot demo_session_steps demo_late demo_after demo_closing)
     Session.demo_env []).1 = Ok (Some o)
  /\ oc_events o = [Connecting "adb"; Connected "adb" 2880 1800; Disconnected]
  /\ wire_of_session Encoder.demo_cfg 2 lagging_env (ReadEnded (Ok tt)) open_connection demo_header demo_first
       demo_closing demo_returned (oc_writer o)
  /\ map su_force_idr (submits (sy_loop demo_returned)) = [false; false; true; false; false; false].
Proof.
  destruct (whole_session demo_gpu 0 demo_mf Encoder.demo_cfg friendly_os demo_clock demo_profile demo_env_vdd
    demo_h264 Session.demo_env 2 lagging_env open_connection demo_monitor None demo_sys demo_boot demo_session_steps
    demo_late demo_after demo_closing
    demo_client (match read_hello demo_client with Ok (_, r') => r' | Err _ => demo_client end) demo_hello "adb"
    [] (Some {| enabled := true; resident := Some HWaiting |}) virtual_display demo_first demo_header (ReadEnded (Ok tt)))
    as (o & Ho & Hr & He & Hw & _).
  1-4, 6-9: vm_compute; reflexivity.
  - split; [done |]. split; [done |]. split; [apply new_session_inv | done].
  - exists o. split; [exact Ho |]. split; [| split].
    + rewrite He, Hr. vm_compute. reflexivity.
    + exact Hw.
    + vm_compute. reflexivity.
Defined.
