(* ===== verification/Adb.v ===== *)
(** The ADB reverse-tunnel transport: [crates/penflow-transport/src/adb.rs].

    The program adb, with the device behind it, is a parameter: what a run
    answers, if it ever ends, and what it changes.  What the code relies on is
    a class of laws on successful runs; a run that fails may have changed its
    own rule in any way.  The listener mutex is held by [accept] while it
    waits. *)
From stdpp Require Import list gmap strings.
From S2P Require Import Prelude Text.

(** * Adb *)

Inductive AdbCall :=
| StartServer
| ReverseRemove (name : string)
| ReverseAdd (name : string) (port : Z).

#[export] Instance AdbCall_eq_dec : EqDecision AdbCall.
Proof. solve_decision. Defined.

(** Errors of a run: the program cannot be started, or it exits with another
    status than success. *)
Inductive AdbError := NotInvoked | ExitStatus | BindFailed | NotConnected.

(** A run on the devices [D]: its result, or [None] when it never ends, and the
    devices then. *)
Class Adb (D : Type) := adb_run : AdbCall -> D -> option (result AdbError unit) * D.
#[global] Hint Mode Adb ! : typeclass_instances.

Definition concerns (c : AdbCall) (name : string) : bool :=
  match c with StartServer => false | ReverseRemove n | ReverseAdd n _ => bool_decide (n = name) end.

(** What adb's documentation says of a run: [reverse] sets the rule of its name
    and [reverse --remove] removes it, when they report success; a removal
    sets no rule; and no run concerns another name's. *)
Class AdbLaws (D : Type) `{!Adb D} := {
  rule : string -> D -> option Z;
  adb_sets name port d v : adb_run (ReverseAdd name port) d = (Some (Ok tt), v) -> rule name v = Some port;
  adb_removes name d v : adb_run (ReverseRemove name) d = (Some (Ok tt), v) -> rule name v = None;
  adb_removal name d : let v := (adb_run (ReverseRemove name) d).2 in rule name v = rule name d \/ rule name v = None;
  adb_frame c name d : concerns c name = false -> rule name (adb_run c d).2 = rule name d;
}.

(** * The tunnel *)

Record AdbLocalAbstractTransport := {
  abstract_name : string;
  listener : option Z;
  (** The guard of the listener mutex is held. *)
  listener_held : bool;
  bound_port : Z;
  reverse_active : bool;
}.

(** The devices with the runs so far, of which nobody awaits the [pending]
    ones any more. *)
Record Device (D : Type) := { dev : D; calls : list AdbCall; pending : list AdbCall }.
Arguments dev {D} _.
Arguments calls {D} _.
Arguments pending {D} _.

(** Which timer ends the wait for the removal in [shutdown]: none, its own of
    two seconds, or one of the caller, which drops the whole call. *)
Inductive Timer := NoneFires | OwnFires | CallerFires.

Section Transport.
Context {D : Type} `{!Adb D}.
(** The port of the TCP listener, if it could be bound. *)
Context (tcp_bind : option Z).

Definition run_adb (c : AdbCall) (d : Device D) : option (result AdbError unit) * Device D :=
  let '(r, v) := adb_run c (dev d) in (r, {| dev := v; calls := calls d ++ [c]; pending := pending d |}).

(** [None]: a run that is awaited without a timer never ends. *)
Definition bind_with_adb (name : string) (d : Device D) : option (result AdbError AdbLocalAbstractTransport) * Device D :=
  match run_adb StartServer d with
  | (None, d) => (None, d)
  | (Some (Err e), d) => (Some (Err e), d)
  | (Some (Ok _), d) =>
      match tcp_bind with
      | None => (Some (Err BindFailed), d)
      | Some port =>
          match run_adb (ReverseRemove name) d with
          | (None, d) => (None, d)
          | (Some _, d) =>
              match run_adb (ReverseAdd name port) d with
              | (None, d) => (None, d)
              | (Some (Err e), d) => (Some (Err e), d)
              | (Some (Ok _), d) =>
                  (Some (Ok {| abstract_name := name; listener := Some port; listener_held := false;
                               bound_port := port; reverse_active := true |}), d)
              end
          end
      end
  end.

(** The first poll of [accept]: [None] while another task holds the mutex. *)
Definition accept_begin (t : AdbLocalAbstractTransport) : option (result AdbError AdbLocalAbstractTransport) :=
  if listener_held t then None
  else match listener t with
       | None => Some (Err NotConnected)
       | Some _ =>
           Some (Ok {| abstract_name := abstract_name t; listener := listener t; listener_held := true;
                       bound_port := bound_port t; reverse_active := reverse_active t |})
       end.

(** A connection arrives, or the waiting future is dropped. *)
Definition accept_end (t : AdbLocalAbstractTransport) : AdbLocalAbstractTransport :=
  {| abstract_name := abstract_name t; listener := listener t; listener_held := false;
     bound_port := bound_port t; reverse_active := reverse_active t |}.

(** A run that goes on while nobody waits for it; and its end. *)
Definition leave_running (c : AdbCall) (d : Device D) : Device D :=
  {| dev := dev d; calls := calls d ++ [c]; pending := pending d ++ [c] |}.

Definition settle (d : Device D) : Device D :=
  {| dev := foldl (fun v c => (adb_run c v).2) (dev d) (pending d); calls := calls d; pending := [] |}.

Definition shut (active : bool) (t : AdbLocalAbstractTransport) : AdbLocalAbstractTransport :=
  {| abstract_name := abstract_name t; listener := None; listener_held := false;
     bound_port := bound_port t; reverse_active := active |}.

(** [None] while the mutex is held.  The rule counts as removed when the wait
    for its removal is over, however; the call that is dropped leaves it
    active. *)
Definition shutdown (timer : Timer) (t : AdbLocalAbstractTransport) (d : Device D)
    : option (AdbLocalAbstractTransport * Device D) :=
  let c := ReverseRemove (abstract_name t) in
  if listener_held t then None
  else if reverse_active t then
    match timer with
    | NoneFires =>
        match run_adb c d with
        | (Some _, d') => Some (shut false t, d')
        | (None, _) => Some (shut false t, leave_running c d)
        end
    | OwnFires => Some (shut false t, leave_running c d)
    | CallerFires => Some (shut true t, leave_running c d)
    end
  else Some (shut false t, d).

(** The removal in the drop is waited for without a timer; [None]: for ever. *)
Definition drop_transport (t : AdbLocalAbstractTransport) (d : Device D) : option (Device D) :=
  if reverse_active t then
    match run_adb (ReverseRemove (abstract_name t)) d with
    | (Some _, d') => Some d'
    | (None, _) => None
    end
  else Some d.

(** [transport.shutdown()] within its caller's time, then the drop. *)
Definition close_transport (timer : Timer) (t : AdbLocalAbstractTransport) (d : Device D) : option (Device D) :=
  match shutdown timer t d with
  | Some (t', d') => drop_transport t' d'
  | None => drop_transport t d
  end.
End Transport.

(** * The executable behind a shim *)

Definition BACKSLASH : Z := 92.
Definition SLASH : Z := 47.
Definition DOT : Z := 46.
Definition QUOTE : Z := 34.

Definition is_separator (c : Z) : bool := (c =? BACKSLASH) || (c =? SLASH).

Fixpoint strip_prefix (pre s : Str) : option Str :=
  match pre, s with
  | [], _ => Some s
  | p :: pre', c :: s' => if p =? c then strip_prefix pre' s' else None
  | _ :: _, [] => None
  end.

Fixpoint trim_quotes_start (s : Str) : Str :=
  match s with c :: s' => if c =? QUOTE then trim_quotes_start s' else s | [] => [] end.

Definition trim_quotes (s : Str) : Str := reverse (trim_quotes_start (reverse (trim_quotes_start s))).

(** [Path::join] of a file name to a directory. *)
Definition join_path (dir name : Str) : Str :=
  match reverse dir with
  | [] => name
  | c :: _ => if is_separator c then dir ++ name else dir ++ [BACKSLASH] ++ name
  end.

(** The reversed file name, and what comes before it. *)
Fixpoint last_component (rev_path : Str) : Str * Str :=
  match rev_path with
  | [] => ([], [])
  | c :: p => if is_separator c then ([], c :: p)
              else let '(name, dir) := last_component p in (c :: name, dir)
  end.

(** Of a reversed file name: the reversed stem, when there is an extension. *)
Fixpoint rev_stem (rev_name : Str) : option Str :=
  match rev_name with
  | [] => None
  | c :: s => if c =? DOT then match s with [] => None | _ => Some s end else rev_stem s
  end.

Fixpoint drop_separators (rev_path : Str) : Str :=
  match rev_path with c :: p => if is_separator c then drop_separators p else rev_path | [] => [] end.

(** [Path::with_extension], for a path whose last component is a plain name. *)
Definition with_extension (path ext : Str) : Str :=
  let '(name, dir) := last_component (drop_separators (reverse path)) in
  if bool_decide (name = [] \/ name = [DOT; DOT]) then path
  else reverse dir ++ reverse (default name (rev_stem name)) ++ [DOT] ++ ext.

(** [str::lines]: no piece for a final line feed, and no carriage return
    before a line feed. *)
Definition chomp (s : Str) : Str :=
  match reverse s with 13 :: s' => reverse s' | _ => s end.

Definition lines (s : Str) : list Str :=
  match reverse (split 10 s) with
  | [] => []
  | [] :: rev_pieces => reverse (chomp <$> rev_pieces)
  | piece :: rev_pieces => reverse (chomp <$> rev_pieces) ++ [piece]
  end.

Section Shim.
Context (PATH : option (list Str)) (is_file : Str -> bool) (read_to_string : Str -> option Str).

Definition executable_extensions : list Str := [lit ""; lit ".exe"; lit ".bat"; lit ".cmd"].

Definition probes (cmd : Str) (dirs : list Str) : list Str :=
  List.flat_map (fun dir => List.map (fun ext => join_path dir (cmd ++ ext)) executable_extensions) dirs.

Definition candidate (cmd : Str) : option Str :=
  if existsb is_separator cmd then Some cmd
  else dirs ← PATH; List.find is_file (probes cmd dirs).

(** The target a line of a shim names. *)
Definition shim_line (line : Str) : option Str :=
  rest ← strip_prefix (lit "path") (trim line);
  Some (trim_quotes (trim (default [] (strip_prefix (lit "=") (trim_start rest))))).

Definition usable (target : Str) : bool :=
  match target with [] => false | _ => is_file target end.

Fixpoint first_target (ls : list Str) : option Str :=
  match ls with
  | [] => None
  | line :: ls' =>
      match shim_line line with
      | Some target => if usable target then Some target else first_target ls'
      | None => first_target ls'
      end
  end.

Definition resolve_through_shim (cmd : Str) : Str :=
  match candidate cmd with
  | None => cmd
  | Some c =>
      let shim := with_extension c (lit "shim") in
      if is_file shim then
        match read_to_string shim with
        | Some content => default c (first_target (lines content))
        | None => c
        end
      else c
  end.
End Shim.

(** * The life of a reverse rule *)

Section TunnelTheorems.
Context {D : Type} `{!Adb D, !AdbLaws D} (tcp_bind : option Z).

Implicit Types d : Device D.

(** The rules of the other names. *)
Definition others_same (name : string) d d' : Prop :=
  forall n, n <> name -> rule n (dev d') = rule n (dev d).

Lemma run_frame c n d : concerns c n = false -> rule n (dev (run_adb c d).2) = rule n (dev d).
Proof.
  intros H. unfold run_adb. pose proof (adb_frame c n (dev d) H) as Hf. by destruct (adb_run c (dev d)).
Qed.

Lemma run_calls c d : calls (run_adb c d).2 = calls d ++ [c].
Proof. unfold run_adb. by destruct (adb_run _ _). Qed.

Lemma run_removal name d : let d' := (run_adb (ReverseRemove name) d).2 in
  rule name (dev d') = rule name (dev d) \/ rule name (dev d') = None.
Proof.
  unfold run_adb. pose proof (adb_removal name (dev d)) as H. by destruct (adb_run _ (dev d)).
Qed.

(** What the log says of a bind that did not succeed: whether it got to set the
    rule. *)
Definition rule_unset (name : string) d d' : Prop :=
  (forall port, ReverseAdd name port ∉ drop (length (calls d)) (calls d'))
  /\ (rule name (dev d') = rule name (dev d) \/ rule name (dev d') = None).

Definition rule_attempted (name : string) d d' : Prop :=
  exists port, tcp_bind = Some port /\ calls d' = calls d ++ [StartServer; ReverseRemove name; ReverseAdd name port].

(** What a bind does to the rule of any name. *)
Lemma bind_rules name d :
  let '(r, d') := bind_with_adb tcp_bind name d in
  others_same name d d'
  /\ match r with
     | Some (Ok t) => rule name (dev d') = Some (bound_port t) /\ listener t = Some (bound_port t)
               /\ abstract_name t = name /\ reverse_active t = true /\ listener_held t = false
               /\ tcp_bind = Some (bound_port t)
               /\ calls d' = calls d ++ [StartServer; ReverseRemove name; ReverseAdd name (bound_port t)]
               /\ pending d' = pending d
     | Some (Err _) | None => rule_unset name d d' \/ rule_attempted name d d'
     end.
Proof.
  unfold bind_with_adb. pose proof (run_frame StartServer) as F1. pose proof (run_calls StartServer d) as C1.
  destruct (run_adb StartServer d) as [r1 d1] eqn:E1. cbn [snd] in *.
  assert (R1 : forall n, rule n (dev d1) = rule n (dev d)).
  { intros n. specialize (F1 n d eq_refl). rewrite E1 in F1. exact F1. }
  assert (P1 : pending d1 = pending d) by (unfold run_adb in E1; destruct (adb_run _ _); by injection E1 as _ <-).
  assert (U1 : rule_unset name d d1).
  { split; [| left; apply R1]. rewrite C1, drop_app_length. intros port. by rewrite list_elem_of_singleton. }
  assert (O1 : others_same name d d1) by (intros n _; apply R1).
  destruct r1 as [[[]|e]|]; [| by split; [| left] ..].
  destruct tcp_bind as [port|] eqn:Et; [| by split; [| left]].
  pose proof (run_calls (ReverseRemove name) d1) as C2. pose proof (run_removal name d1) as M2.
  pose proof (fun n H => run_frame (ReverseRemove name) n d1 (bool_decide_eq_false_2 _ H)) as F2.
  destruct (run_adb (ReverseRemove name) d1) as [r2 d2] eqn:E2. cbn [snd] in *.
  assert (P2 : pending d2 = pending d) by (unfold run_adb in E2; destruct (adb_run _ _); injection E2 as _ <-; done).
  assert (U2 : rule_unset name d d2).
  { split; [| by rewrite <- R1]. rewrite C2, C1, <- app_assoc, drop_app_length. intros p. cbn.
    by rewrite !elem_of_cons, elem_of_nil; intros [|[|]]. }
  assert (O2 : others_same name d d2) by (intros n Hn; rewrite <- R1; apply F2; congruence).
  destruct r2 as [r2|]; [| by split; [| left]]. clear U1 U2.
  pose proof (run_calls (ReverseAdd name port) d2) as C3.
  pose proof (fun n H => run_frame (ReverseAdd name port) n d2 (bool_decide_eq_false_2 _ H)) as F3.
  assert (S3 : (run_adb (ReverseAdd name port) d2).1 = Some (Ok tt) -> rule name (dev (run_adb (ReverseAdd name port) d2).2) = Some port).
  { unfold run_adb. destruct (adb_run _ (dev d2)) as [r v] eqn:Er. cbn. intros ->. by eapply adb_sets. }
  destruct (run_adb (ReverseAdd name port) d2) as [r3 d3] eqn:E3. cbn [fst snd] in *.
  assert (P3 : pending d3 = pending d) by (unfold run_adb in E3; destruct (adb_run _ _); injection E3 as _ <-; done).
  assert (O3 : others_same name d d3) by (intros n Hn; rewrite <- O2 by done; apply F3; congruence).
  assert (C : calls d3 = calls d ++ [StartServer; ReverseRemove name; ReverseAdd name port])
    by (by rewrite C3, C2, C1, <- !app_assoc).
  destruct r3 as [[[]|e]|].
  - split; [exact O3 |]. cbn. split_and!; try done. by apply S3.
  - split; [exact O3 |]. right. by exists port.
  - split; [exact O3 |]. right. by exists port.
Qed.

(** How a transport that was bound is shut down: the listener goes, the removal
    is run, and if it is waited for and succeeds, the rule is gone; only the
    caller's timer leaves the rule to the drop. *)
Definition shut_down (timer : Timer) (name : string) d (t' : AdbLocalAbstractTransport) d' : Prop :=
  accept_begin t' = Some (Err NotConnected)
  /\ abstract_name t' = name /\ listener_held t' = false
  /\ calls d' = calls d ++ [ReverseRemove name]
  /\ (reverse_active t' = match timer with CallerFires => true | _ => false end)
  /\ ((dev d' = dev d /\ pending d' = pending d ++ [ReverseRemove name]
       /\ (timer = NoneFires -> (adb_run (ReverseRemove name) (dev d)).1 = None))
      \/ (timer = NoneFires /\ pending d' = pending d
          /\ exists r, adb_run (ReverseRemove name) (dev d) = (Some r, dev d')
             /\ (r = Ok tt -> rule name (dev d') = None))).

(** The drop of a transport whose rule is active: the removal is run, whatever
    time that takes. *)
Definition dropped_active (name : string) d (od : option (Device D)) : Prop :=
  match od with
  | None => (adb_run (ReverseRemove name) (dev d)).1 = None
  | Some d' => calls d' = calls d ++ [ReverseRemove name] /\ pending d' = pending d
      /\ exists r, adb_run (ReverseRemove name) (dev d) = (Some r, dev d') /\ (r = Ok tt -> rule name (dev d') = None)
  end.

Lemma shutdown_active timer t d : listener_held t = false -> reverse_active t = true ->
  exists t' d', shutdown timer t d = Some (t', d') /\ shut_down timer (abstract_name t) d t' d'.
Proof.
  intros Hh Ha. unfold shutdown. rewrite Hh, Ha.
  destruct timer.
  - unfold run_adb. destruct (adb_run (ReverseRemove (abstract_name t)) (dev d)) as [[r|] v] eqn:E;
      eexists _, _; (split; [reflexivity |]); unfold shut_down; cbn; split_and!; try done; [right | left; by rewrite E].
    split_and!; [done | done |]. exists r. split; [exact E |]. intros ->. by eapply adb_removes.
  - eexists _, _. split; [reflexivity |]. unfold shut_down. cbn. split_and!; try done. by left.
  - eexists _, _. split; [reflexivity |]. unfold shut_down. cbn. split_and!; try done. by left.
Qed.

Lemma drop_active t d : reverse_active t = true -> dropped_active (abstract_name t) d (drop_transport t d).
Proof.
  intros Ha. unfold drop_transport, run_adb, dropped_active. rewrite Ha.
  destruct (adb_run (ReverseRemove (abstract_name t)) (dev d)) as [[r|] v] eqn:E; cbn; [| done].
  split_and!; [done | done |]. exists r. split; [done |]. intros ->. by eapply adb_removes.
Qed.

(** Closing a transport that was bound and that nobody waits on: one removal, or
    two when the caller's timer cut the first. *)
Definition closed_by (timer : Timer) (name : string) d (od : option (Device D)) : Prop :=
  exists t' d1, shut_down timer name d t' d1
  /\ match timer with CallerFires => dropped_active name d1 od | _ => od = Some d1 end.

Lemma close_active timer t d : listener_held t = false -> reverse_active t = true ->
  closed_by timer (abstract_name t) d (close_transport timer t d).
Proof.
  intros Hh Ha. destruct (shutdown_active timer t d Hh Ha) as (t' & d1 & E & H). unfold close_transport. rewrite E.
  exists t', d1. split; [done |]. pose proof H as (_ & Hn & _ & _ & Hact & _).
  destruct timer; [unfold drop_transport; by rewrite Hact.. |]. rewrite <- Hn. by apply drop_active.
Qed.

Lemma closed_others timer name d d' : closed_by timer name d (Some d') -> others_same name d d'.
Proof.
  intros (t' & d1 & (_ & _ & _ & _ & _ & H) & Hd) n Hn.
  assert (Hrun : forall v r v', adb_run (ReverseRemove name) v = (r, v') -> rule n v' = rule n v).
  { intros v r v' E. pose proof (adb_frame (ReverseRemove name) n v) as Hf. rewrite E in Hf. apply Hf.
    cbn. apply bool_decide_eq_false_2. congruence. }
  assert (H1 : rule n (dev d1) = rule n (dev d)).
  { destruct H as [(-> & _) | (_ & _ & r & E & _)]; [done |]. by eapply Hrun. }
  destruct timer; [by injection Hd as -> .. |]. destruct Hd as (_ & _ & r & E & _). rewrite <- H1. by eapply Hrun.
Qed.

(** C40. The tunnel's rule, whatever adb does.  A bind that succeeds has started
    the server, removed a stale rule and set the rule of its name to the port
    of its own live listener, in this order, and the rule is there; one that
    does not succeed, or that waits for a run that never ends, leaves the rule
    as it was or removed, unless the run that sets it was made; the rules of
    other names are untouched.  Shutting down always comes to an end when
    nobody waits in [accept], within its timers; it runs the removal once,
    drops the listener, so that a later [accept] reports it, and the drop
    afterwards runs no other, unless the caller's timer fired first: then the
    drop runs it again, and waits for it.  Dropping alone runs the removal,
    and waits.  A removal that was waited for and reports success has removed
    the rule.  While a task waits in [accept] a shutdown cannot get past the
    mutex. *)
Theorem reverse_rule_lifecycle name d :
  let '(r, d1) := bind_with_adb tcp_bind name d in
  others_same name d d1
  /\ match r with
     | Some (Err _) | None => rule_unset name d d1 \/ rule_attempted name d d1
     | Some (Ok t) =>
         rule name (dev d1) = Some (bound_port t) /\ listener t = Some (bound_port t)
         /\ tcp_bind = Some (bound_port t)
         /\ calls d1 = calls d ++ [StartServer; ReverseRemove name; ReverseAdd name (bound_port t)]
         /\ (forall timer, closed_by timer name d1 (close_transport timer t d1))
         /\ dropped_active name d1 (drop_transport t d1)
         /\ (exists w, accept_begin t = Some (Ok w) /\ (forall timer, shutdown timer w d1 = None)
              /\ accept_begin w = None /\ accept_end w = t)
     end.
Proof.
  pose proof (bind_rules name d) as H. destruct (bind_with_adb _ _ _) as [[[t | e]|] d1]; [| exact H..].
  destruct H as (Hn & Hr & Hl & Ha & Hrev & Hh & Ht & Hc & _). split_and!; try done.
  - intros timer. rewrite <- Ha. by apply close_active.
  - rewrite <- Ha. by apply drop_active.
  - unfold accept_begin. rewrite Hh, Hl. eexists. split; [reflexivity |]. split_and!; try done.
    destruct t. cbn in *. by subst.
Qed.
End TunnelTheorems.

(** ** A table of rules as the device

    Adb with a table of rules, for concrete runs: [answer] says how the runs
    end; those that fail have their effect or not, as [sloppy] says. *)

Record Table := { table : gmap string Z; runs : nat }.

Definition call_effect (c : AdbCall) (r : gmap string Z) : gmap string Z :=
  match c with
  | StartServer => r
  | ReverseRemove name => delete name r
  | ReverseAdd name port => <[name := port]> r
  end.

Definition table_adb (answer : nat -> AdbCall -> option (result AdbError unit)) (sloppy : bool) : Adb Table :=
  fun c d =>
    let r := answer (runs d) c in
    let done := match r with Some (Ok _) => true | _ => sloppy end in
    (r, {| table := if done then call_effect c (table d) else table d; runs := S (runs d) |}).

#[refine] Definition table_laws answer sloppy : @AdbLaws Table (table_adb answer sloppy) :=
  {| rule n d := table d !! n |}.
Proof.
  - intros name port d v. cbv [adb_run table_adb]. intros [= Hr <-]. cbn. rewrite Hr. apply lookup_insert_eq.
  - intros name d v. cbv [adb_run table_adb]. intros [= Hr <-]. cbn. rewrite Hr. apply lookup_delete_eq.
  - intros name d. cbv [adb_run table_adb]. cbn. destruct (match answer _ _ with Some _ => _ | None => _ end); [| by left].
    right. apply lookup_delete_eq.
  - intros c name d Hc. cbv [adb_run table_adb]. cbn. destruct (match answer _ _ with Some _ => _ | None => _ end); [| done].
    destruct c as [|n|n p]; cbn in *; [done | apply bool_decide_eq_false in Hc ..].
    + by rewrite lookup_delete_ne.
    + by rewrite lookup_insert_ne.
Defined.

Definition no_rules : Device Table := {| dev := {| table := ∅; runs := 0 |}; calls := []; pending := [] |}.

(** The device is unplugged when the rule was just set: the bind fails, and has
    no clean-up for what it did. *)
Definition unplugged (n : nat) (c : AdbCall) : option (result AdbError unit) :=
  match c with ReverseAdd _ _ => Some (Err ExitStatus) | _ => Some (Ok tt) end.

Lemma failed_bind_leaves_rule : let '(r, d) := @bind_with_adb _ (table_adb unplugged true) (Some 5555) "penflow" no_rules in
  r = Some (Err ExitStatus) /\ table (dev d) !! "penflow"%string = Some 5555.
Proof. split; reflexivity. Qed.

(** A removal that took longer than its two seconds ends when the next tunnel
    stands: its rule is gone, with nothing to tell the listener. *)
Definition all_well (n : nat) (c : AdbCall) : option (result AdbError unit) := Some (Ok tt).

Lemma late_removal_cuts_next_tunnel : let adb := table_adb all_well false in
  let '(r, d) := @bind_with_adb _ adb (Some 5555) "penflow" no_rules in
  exists t d1, r = Some (Ok t) /\ @close_transport _ adb OwnFires t d = Some d1
  /\ let '(r', d2) := @bind_with_adb _ adb (Some 6666) "penflow" d1 in
     is_ok (default (Err NotConnected) r') = true
     /\ table (dev d2) !! "penflow"%string = Some 6666
     /\ table (dev (@settle _ adb d2)) !! "penflow"%string = None.
Proof. eexists _, _. split; [reflexivity |]. split; [reflexivity |]. split_and!; reflexivity. Qed.

(** * Resolving a shim *)

Lemma trim_id a m b : is_whitespace a = false -> is_whitespace b = false -> trim (a :: m ++ [b]) = a :: m ++ [b].
Proof.
  intros Ha Hb. unfold trim, trim_end. cbn [trim_start]. rewrite Ha.
  rewrite app_comm_cons, reverse_snoc. cbn [trim_start]. rewrite Hb.
  by rewrite <- reverse_snoc, reverse_involutive.
Qed.

Lemma trim_quotes_start_free s : QUOTE ∉ s -> trim_quotes_start s = s.
Proof.
  destruct s as [| c s]; [done |]. cbn. intros H%not_elem_of_cons.
  destruct (Z.eqb_spec c QUOTE); [| done]. by destruct H.
Qed.

Lemma trim_quotes_quoted s : s <> [] -> QUOTE ∉ s -> trim_quotes (QUOTE :: s ++ [QUOTE]) = s.
Proof.
  intros Hs Hq. unfold trim_quotes.
  change (trim_quotes_start (QUOTE :: s ++ [QUOTE])) with (trim_quotes_start (s ++ [QUOTE])).
  assert (trim_quotes_start (s ++ [QUOTE]) = s ++ [QUOTE]) as ->.
  { destruct s as [| c s]; [done |]. cbn. apply not_elem_of_cons in Hq as [Hc _].
    by destruct (Z.eqb_spec c QUOTE). }
  rewrite reverse_snoc. change (trim_quotes_start (QUOTE :: reverse s)) with (trim_quotes_start (reverse s)).
  rewrite trim_quotes_start_free by by rewrite elem_of_reverse. apply reverse_involutive.
Qed.

(** The line scoop writes. *)
Definition scoop_line (target : Str) : Str := lit "path = " ++ QUOTE :: target ++ [QUOTE].

Lemma shim_line_scoop target : target <> [] -> QUOTE ∉ target -> shim_line (scoop_line target) = Some target.
Proof.
  intros Hs Hq. unfold shim_line, scoop_line.
  change (lit "path = " ++ QUOTE :: target ++ [QUOTE]) with (112 :: (lit "ath = " ++ QUOTE :: target) ++ [QUOTE]).
  rewrite trim_id by done.
  change (strip_prefix (lit "path") (112 :: (lit "ath = " ++ QUOTE :: target) ++ [QUOTE]))
    with (Some (lit " = " ++ QUOTE :: target ++ [QUOTE])).
  cbn [mbind option_bind].
  change (strip_prefix (lit "=") (trim_start (lit " = " ++ QUOTE :: target ++ [QUOTE])))
    with (Some (32 :: QUOTE :: target ++ [QUOTE])).
  cbn [default from_option id]. f_equal.
  replace (trim (32 :: QUOTE :: target ++ [QUOTE])) with (trim (QUOTE :: target ++ [QUOTE])) by done.
  rewrite trim_id by done. by apply trim_quotes_quoted.
Qed.

Lemma chomp_snoc s c : chomp (s ++ [c]) = if c =? 13 then s else s ++ [c].
Proof.
  unfold chomp. rewrite reverse_snoc. destruct (Z.eqb_spec c 13) as [-> | H].
  - apply reverse_involutive.
  - destruct c as [| p | p]; [done | | done]. do 4 (destruct p as [p | p |]; try done).
Qed.

Lemma lines_terminated s : 10 ∉ s -> lines (s ++ [10]) = [chomp s].
Proof. intros Hs. unfold lines. by rewrite split_app_sep. Qed.

Definition eol_ok (eol : Str) : Prop := eol = [10] \/ eol = [13; 10].

Lemma lines_one s q eol : 10 ∉ s -> q <> 10 -> q <> 13 -> eol_ok eol -> lines ((s ++ [q]) ++ eol) = [s ++ [q]].
Proof.
  intros Hs H10 H13 Heol. assert (10 ∉ s ++ [q]) by set_solver.
  destruct Heol as [-> | ->].
  - rewrite lines_terminated by done. rewrite chomp_snoc. by destruct (Z.eqb_spec q 13).
  - replace ((s ++ [q]) ++ [13; 10]) with (((s ++ [q]) ++ [13]) ++ [10]) by by rewrite <- app_assoc.
    rewrite lines_terminated by set_solver. by rewrite chomp_snoc.
Qed.

Section ShimTheorems.
Context (PATH : option (list Str)) (is_file : Str -> bool) (read_to_string : Str -> option Str).

Abbreviation resolve := (resolve_through_shim PATH is_file read_to_string).
Abbreviation cand := (candidate PATH is_file).

Lemma first_target_usable ls target : first_target is_file ls = Some target -> is_file target = true.
Proof.
  induction ls as [| l ls IH]; cbn [first_target]; [done |]. destruct (shim_line l) as [t |]; [| exact IH].
  destruct (usable is_file t) eqn:E; [| exact IH]. intros [= <-]. by destruct t.
Qed.

Lemma candidate_file cmd c : cand cmd = Some c -> c = cmd \/ is_file c = true.
Proof.
  unfold candidate. destruct (existsb _ cmd); [intros [= <-]; by left |].
  destruct PATH as [dirs |]; cbn; [| done]. intros H. right. by apply List.find_some in H as [_ H].
Qed.

(** Which executable runs.  The result is the command as given or a file that
    exists; a name found nowhere on the path is left alone; without a shim
    beside it the candidate runs; and a shim with the line scoop writes, with
    either line ending, gives its target, whatever quotes surround it. *)
Theorem shim_resolution :
  (forall cmd, resolve cmd = cmd \/ is_file (resolve cmd) = true)
  /\ (forall cmd, cand cmd = None -> resolve cmd = cmd)
  /\ (forall cmd c, cand cmd = Some c -> is_file (with_extension c (lit "shim")) = false -> resolve cmd = c)
  /\ (forall cmd c target eol, cand cmd = Some c -> is_file (with_extension c (lit "shim")) = true ->
        target <> [] -> 10 ∉ target -> QUOTE ∉ target -> is_file target = true -> eol_ok eol ->
        read_to_string (with_extension c (lit "shim")) = Some (scoop_line target ++ eol) ->
        resolve cmd = target).
Proof.
  split_and!; unfold resolve_through_shim.
  - intros cmd. destruct (cand cmd) as [c |] eqn:E; [| by left]. apply candidate_file in E.
    destruct (is_file (with_extension c _)); [| exact E].
    destruct (read_to_string _) as [content |]; [| exact E].
    destruct (first_target is_file (lines content)) as [t |] eqn:Et; cbn [default from_option id];
      [right; by eapply first_target_usable | exact E].
  - by intros cmd ->.
  - by intros cmd c -> ->.
  - intros cmd c target eol -> -> Hne H10 Hq Hf Heol ->.
    replace (scoop_line target) with ((lit "path = " ++ QUOTE :: target) ++ [QUOTE])
      by (unfold scoop_line; by rewrite <- app_assoc).
    rewrite lines_one by (try done; cbn; set_solver).
    replace ((lit "path = " ++ QUOTE :: target) ++ [QUOTE]) with (scoop_line target)
      by (unfold scoop_line; by rewrite <- app_assoc).
    cbn [first_target]. rewrite shim_line_scoop by done. unfold usable. destruct target; [done |].
    by rewrite Hf.
Qed.
End ShimTheorems.

(** The comment in [shutdown] that dropping the listener unblocks a waiting
    [accept] does not hold: the mutex the wait holds is the one to drop it. *)
Lemma shutdown_cannot_unblock_accept {D} `{!Adb D} timer t w (d : Device D) :
  accept_begin t = Some (Ok w) -> shutdown timer w d = None.
Proof. unfold accept_begin. destruct (listener_held t), (listener t); try done. by intros [= <-]. Qed.

(** * Witnesses *)

Definition demo_target : Str := lit "C:\apps\adb.exe".

Definition demo_is_file (p : Str) : bool :=
  bool_decide (p = lit "C:\shims\adb.exe") || bool_decide (p = lit "C:\shims\adb.shim")
  || bool_decide (p = demo_target).

Definition demo_read (p : Str) : option Str := Some (scoop_line demo_target ++ [13; 10]).

Lemma shim_resolution_witness :
  resolve_through_shim (Some [lit "C:\none"; lit "C:\shims"]) demo_is_file demo_read (lit "adb") = demo_target.
Proof.
  destruct (shim_resolution (Some [lit "C:\none"; lit "C:\shims"]) demo_is_file demo_read) as (_ & _ & _ & H).
  apply (H (lit "adb") (lit "C:\shims\adb.exe") demo_target [13; 10]); try reflexivity.
  - done.
  - apply (bool_decide_unpack _). vm_compute. exact I.
  - apply (bool_decide_unpack _). vm_compute. exact I.
  - by right.
Defined.

(** A stale rule, and an adb that is slow when the tunnel is closed. *)
Definition stale_device : Device Table :=
  {| dev := {| table := {[ "penflow"%string := 1 ]}; runs := 0 |}; calls := []; pending := [] |}.

Lemma reverse_rule_lifecycle_witness :
  let '(r, d) := @bind_with_adb _ (table_adb all_well false) (Some 40000) "penflow" stale_device in
  table (dev d) !! "penflow"%string = Some 40000
  /\ exists t, r = Some (Ok t)
     /\ @closed_by _ (table_adb all_well false) (table_laws all_well false) CallerFires "penflow" d
          (@close_transport _ (table_adb all_well false) CallerFires t d).
Proof.
  pose proof (@reverse_rule_lifecycle _ (table_adb all_well false) (table_laws all_well false) (Some 40000) "penflow" stale_device) as H.
  destruct (@bind_with_adb _ (table_adb all_well false) (Some 40000) "penflow" stale_device) as [r d] eqn:E.
  assert (exists t, r = Some (Ok t)) as (t & ->) by (injection E as <- _; by eexists).
  destruct H as (_ & Hr & _ & Ht & _ & Hc & _). assert (bound_port t = 40000) as Hp by congruence.
  split; [by rewrite <- Hp |]. exists t. split; [done | apply Hc].
Defined.
