(* ===== verification/CommandLine.v ===== *)
(** Command lines for elevated processes: [serialize_args] of
    [src/apps/penflow-gui/src-tauri/src/os.rs], against the documented rules by
    which a Windows program splits its command line. *)
From stdpp Require Import list strings.
From S2P Require Import Prelude Text.

Definition BACKSLASH : Z := 92.

Definition QUOTE : Z := 34.

Definition SPACE : Z := 32.

(** [str::replace] of one character. *)
Definition replace_char (c : Z) (by_ : Str) (s : Str) : Str :=
  concat (List.map (fun d => if d =? c then by_ else [d]) s).

Definition needs_quote (a : Str) : bool :=
  bool_decide (a = []) || existsb (fun c => is_whitespace c || (c =? QUOTE)) a.

Definition escaped (a : Str) : Str :=
  replace_char QUOTE [BACKSLASH; QUOTE] (replace_char BACKSLASH [BACKSLASH; BACKSLASH] a).

Definition serialize_arg (a : Str) : Str :=
  if needs_quote a then [QUOTE] ++ escaped a ++ [QUOTE] else a.

Definition serialize_args (args : list Str) : Str := join SPACE (List.map serialize_arg args).

(** * How a command line is split *)

(** The documented rules of [CommandLineToArgvW]: blanks outside quotes end an
    argument; before a quote, two backslashes stand for one, and a quote behind
    an odd number of them is a character of the argument; other backslashes
    stand for themselves.  [bs] backslashes were just read, and [cur] is the
    argument so far, if one has begun. *)
Definition finish (bs : nat) (cur : option Str) : list Str :=
  match cur, bs with
  | None, O => []
  | _, _ => [default [] cur ++ repeat BACKSLASH bs]
  end.

Fixpoint split_command_line (quoted : bool) (bs : nat) (cur : option Str) (s : Str) : list Str :=
  match s with
  | [] => finish bs cur
  | c :: s' =>
      if c =? BACKSLASH then split_command_line quoted (S bs) cur s'
      else if c =? QUOTE then
        let cur' := default [] cur ++ repeat BACKSLASH (Nat.div2 bs) in
        if Nat.even bs then split_command_line (negb quoted) 0 (Some cur') s'
        else split_command_line quoted 0 (Some (cur' ++ [QUOTE])) s'
      else if negb quoted && ((c =? SPACE) || (c =? 9)) then
        finish bs cur ++ split_command_line false 0 None s'
      else split_command_line quoted 0 (Some (default [] cur ++ repeat BACKSLASH bs ++ [c])) s'
  end.

Definition argv (line : Str) : list Str := split_command_line false 0 None line.

(** * What arrives *)

(** Backslashes that are not in front of a quote, or at the end, arrive twice:
    they are escaped although they need not be. *)
Fixpoint widened (bs : nat) (s : Str) : Str :=
  match s with
  | [] => repeat BACKSLASH bs
  | c :: s' =>
      if c =? BACKSLASH then widened (S bs) s'
      else repeat BACKSLASH (if c =? QUOTE then bs else 2 * bs) ++ c :: widened 0 s'
  end.

Definition received (a : Str) : Str := if needs_quote a then widened 0 a else a.

Lemma escaped_cons c s : escaped (c :: s)
  = (if c =? BACKSLASH then [BACKSLASH; BACKSLASH] else if c =? QUOTE then [BACKSLASH; QUOTE] else [c]) ++ escaped s.
Proof.
  unfold escaped, replace_char. cbn [List.map concat]. destruct (Z.eqb_spec c BACKSLASH) as [->|Hb]; [done |].
  cbn [app List.map concat]. by destruct (c =? QUOTE).
Qed.

Lemma div2_double n : Nat.div2 (n + n) = n.
Proof. replace (n + n)%nat with (2 * n)%nat by lia. apply Nat.div2_double. Qed.

Lemma even_double n : Nat.even (n + n) = true.
Proof. replace (n + n)%nat with (2 * n)%nat by lia. apply Nat.even_mul. Qed.

(** Inside quotes the rest of an argument is read up to its closing quote. *)
Lemma split_quoted s rest bs cur :
  split_command_line true (bs + bs) (Some cur) (escaped s ++ QUOTE :: rest)
  = split_command_line false 0 (Some (cur ++ widened bs s)) rest.
Proof.
  revert bs cur. induction s as [|c s IH]; intros bs cur.
  - cbn [escaped app widened]. change (escaped []) with ([] : Str). cbn [app split_command_line].
    change (QUOTE =? BACKSLASH) with false. change (QUOTE =? QUOTE) with true. cbv iota.
    by rewrite even_double, div2_double.
  - rewrite escaped_cons. cbn [widened]. destruct (Z.eqb_spec c BACKSLASH) as [->|Hb].
    + cbn [app split_command_line]. change (BACKSLASH =? BACKSLASH) with true. cbv iota.
      replace (S (S (bs + bs))) with (S bs + S bs)%nat by lia. apply IH.
    + destruct (Z.eqb_spec c QUOTE) as [->|Hq]; cbn [app split_command_line].
      * change (BACKSLASH =? BACKSLASH) with true. change (QUOTE =? BACKSLASH) with false.
        change (QUOTE =? QUOTE) with true. cbv iota.
        replace (Nat.even (S (bs + bs))) with false
          by (rewrite Nat.even_succ, <- Nat.negb_even, even_double; done).
        replace (Nat.div2 (S (bs + bs))) with bs by (rewrite <- (div2_double bs) at 1;
          replace (S (bs + bs)) with (1 + 2 * bs)%nat by lia; rewrite div2_double; symmetry; apply (Nat.div2_succ_double bs)).
        rewrite (IH 0%nat). cbn [default]. by rewrite <- !app_assoc.
      * destruct (Z.eqb_spec c BACKSLASH); [done |]. destruct (Z.eqb_spec c QUOTE); [done |]. cbn [negb andb].
        rewrite (IH 0%nat). cbn [default]. replace (2 * bs)%nat with (bs + bs)%nat by lia. by rewrite <- !app_assoc.
Qed.

(** The rest of a command line behind an argument. *)
Definition after (rest : Str) (more : list Str) : Prop :=
  rest = [] /\ more = [] \/ exists rest', rest = SPACE :: rest' /\ more = argv rest'.

Definition plain (c : Z) : bool := negb (is_whitespace c || (c =? QUOTE)).

Lemma plain_no_blank c : plain c = true -> (c =? QUOTE) = false /\ ((c =? SPACE) || (c =? 9)) = false.
Proof.
  unfold plain. rewrite negb_true_iff, orb_false_iff. intros (Hw & ->). split; [done |].
  destruct (Z.eqb_spec c SPACE) as [->|]; [done |]. by destruct (Z.eqb_spec c 9) as [->|].
Qed.

Lemma split_plain s bs cur rest more : Forall (fun c => plain c = true) s -> after rest more ->
  s <> [] \/ bs <> 0%nat \/ is_Some cur ->
  split_command_line false bs cur (s ++ rest) = (default [] cur ++ repeat BACKSLASH bs ++ s) :: more.
Proof.
  intros Hs Hr. revert bs cur. induction Hs as [|c s Hc _ IH]; intros bs cur Hb; cbn [app].
  - assert (Hf : finish bs cur = [default [] cur ++ repeat BACKSLASH bs]).
    { destruct cur, bs; try done. destruct Hb as [? | [? | [? ?]]]; done. }
    rewrite app_nil_r. destruct Hr as [(-> & ->) | (rest' & -> & ->)]; cbn [split_command_line]; [done |].
    change (SPACE =? BACKSLASH) with false. change (SPACE =? QUOTE) with false. change (SPACE =? SPACE) with true.
    cbn [negb andb orb]. by rewrite Hf.
  - apply plain_no_blank in Hc as (Hq & Hw). cbn [split_command_line].
    destruct (Z.eqb_spec c BACKSLASH) as [->|Hne].
    + rewrite IH by auto. f_equal. f_equal. cbn [repeat]. change (BACKSLASH :: repeat BACKSLASH bs ++ s) with ((BACKSLASH :: repeat BACKSLASH bs) ++ s). by rewrite repeat_cons, <- app_assoc.
    + rewrite Hq, Hw. cbn [negb andb]. rewrite IH by eauto. cbn [default from_option id]. change (repeat BACKSLASH 0) with ([] : Str).
      cbn [app]. by rewrite <- !app_assoc.
Qed.

Lemma serialized_arg a rest more : after rest more ->
  argv (serialize_arg a ++ rest) = received a :: more.
Proof.
  intros Hr. unfold argv, serialize_arg, received. destruct (needs_quote a) eqn:E.
  - rewrite <- !app_assoc. cbn [app split_command_line].
    change (QUOTE =? BACKSLASH) with false. change (QUOTE =? QUOTE) with true. cbv iota. cbn [Nat.even negb default].
    rewrite (split_quoted a rest 0). cbn [Nat.div2 repeat app].
    pose proof (split_plain [] 0 (Some (widened 0 a)) rest more (List.Forall_nil _) Hr) as H.
    cbn [app default from_option id repeat] in H. rewrite app_nil_r in H. apply H. eauto.
  - unfold needs_quote in E. apply orb_false_iff in E as (Hne & Hc). apply bool_decide_eq_false in Hne.
    rewrite (split_plain a 0 None rest more); [done | | done | by left].
    apply List.Forall_forall. intros c Hin. unfold plain. apply negb_true_iff.
    destruct (is_whitespace c || (c =? QUOTE)) eqn:Ec; [| done].
    rewrite <- Hc. symmetry. apply existsb_exists. by exists c.
Qed.

(** The elevated process gets the arguments it is meant to get, as many
    and in their order, whatever blanks and quotes they contain; but in an
    argument that had to be quoted, backslashes that are not followed by a
    quote or by the end arrive doubled. *)
Theorem arguments_received args : argv (serialize_args args) = List.map received args.
Proof.
  unfold serialize_args. induction args as [|a args IH]; [done |]. cbn [List.map]. destruct args as [|b args].
  - cbn [List.map join]. rewrite <- (app_nil_r (serialize_arg a)). apply serialized_arg. by left.
  - cbn [List.map join] in *.
    rewrite (serialized_arg a _ (List.map received (b :: args))); [done |]. right. eexists. split; [done |].
    symmetry. apply IH.
Qed.

Lemma widened_plain s : Forall (fun c => c <> BACKSLASH) s -> forall bs, bs = 0%nat -> widened bs s = s.
Proof.
  induction 1 as [|c s Hc _ IH]; intros bs ->; [done |]. cbn [widened]. destruct (Z.eqb_spec c BACKSLASH); [done |].
  rewrite IH by done. by destruct (c =? QUOTE).
Qed.

(** Without backslashes, or without blanks and quotes, an argument arrives as
    it is. *)
Lemma received_same a : needs_quote a = false \/ Forall (fun c => c <> BACKSLASH) a -> received a = a.
Proof. unfold received. destruct (needs_quote a); [intros [? | H]; [done | by apply widened_plain] | done]. Qed.

(** The program that [create_admin_task] registers: its path has backslashes
    and is quoted, so it is registered with every backslash doubled. *)
Lemma task_path_doubled :
  argv (serialize_args [lit "/TR"; [QUOTE] ++ lit "C:\Penflow\penflow-gui.exe" ++ [QUOTE]; lit "/F"])
  = [lit "/TR"; [QUOTE] ++ lit "C:\\Penflow\\penflow-gui.exe" ++ [QUOTE]; lit "/F"].
Proof. reflexivity. Qed.
