(* ===== verification/RunSession.v ===== *)
(** The headless session runner
    [crates/penflow-server/examples/run_session.rs]: its arguments, the choice
    of the monitor, one session over a fresh ADB tunnel that ends by itself or
    by Ctrl-C, and the probe of the virtual display. *)
From stdpp Require Import list gmap strings.
From S2P Require Import Prelude Engine Text Coords Inject InjectSpec Vdd ReadLoop Session SessionRun Adb CommandLine Helper.

(** * Arguments *)

Record Args := {
  monitor_index : Z; bitrate_bps : Z; fps : Z; no_vdd : bool; vdd_probe : bool; h264 : bool
}.

#[export] Instance Args_eq_dec : EqDecision Args.
Proof. solve_decision. Defined.

Definition default_args : Args :=
  {| monitor_index := 0; bitrate_bps := 50000000; fps := 120; no_vdd := false; vdd_probe := false; h264 := false |}.

Definition set_monitor_index (n : Z) (a : Args) : Args :=
  {| monitor_index := n; bitrate_bps := bitrate_bps a; fps := fps a; no_vdd := no_vdd a; vdd_probe := vdd_probe a;
     h264 := h264 a |}.

Definition set_bitrate_bps (n : Z) (a : Args) : Args :=
  {| monitor_index := monitor_index a; bitrate_bps := n; fps := fps a; no_vdd := no_vdd a; vdd_probe := vdd_probe a;
     h264 := h264 a |}.

Definition set_fps (n : Z) (a : Args) : Args :=
  {| monitor_index := monitor_index a; bitrate_bps := bitrate_bps a; fps := n; no_vdd := no_vdd a;
     vdd_probe := vdd_probe a; h264 := h264 a |}.

Definition set_no_vdd (a : Args) : Args :=
  {| monitor_index := monitor_index a; bitrate_bps := bitrate_bps a; fps := fps a; no_vdd := true;
     vdd_probe := vdd_probe a; h264 := h264 a |}.

Definition set_vdd_probe (a : Args) : Args :=
  {| monitor_index := monitor_index a; bitrate_bps := bitrate_bps a; fps := fps a; no_vdd := no_vdd a;
     vdd_probe := true; h264 := h264 a |}.

Definition set_h264 (a : Args) : Args :=
  {| monitor_index := monitor_index a; bitrate_bps := bitrate_bps a; fps := fps a; no_vdd := no_vdd a;
     vdd_probe := vdd_probe a; h264 := true |}.

(** A value that does not parse, or is missing, leaves the field as it is. *)
Definition set_parsed (v : option Z) (set : Z -> Args -> Args) (a : Args) : Args :=
  match v with Some n => set n a | None => a end.

(** The loop of [parse_args]; the word after an option is its value, whatever
    it is. *)
Fixpoint parse_loop (argv : list Str) (a : Args) : Args :=
  match argv with
  | [] => a
  | w :: rest =>
      if bool_decide (w = lit "--monitor") then
        match rest with v :: rest' => parse_loop rest' (set_parsed (parse_usize v) set_monitor_index a) | [] => a end
      else if bool_decide (w = lit "--bitrate") then
        match rest with v :: rest' => parse_loop rest' (set_parsed (parse_u32 v) set_bitrate_bps a) | [] => a end
      else if bool_decide (w = lit "--fps") then
        match rest with v :: rest' => parse_loop rest' (set_parsed (parse_u32 v) set_fps a) | [] => a end
      else if bool_decide (w = lit "--no-vdd") then parse_loop rest (set_no_vdd a)
      else if bool_decide (w = lit "--vdd-probe") then parse_loop rest (set_vdd_probe a)
      else if bool_decide (w = lit "--h264") then parse_loop rest (set_h264 a)
      else parse_loop rest a
  end.

(** [argv] is without the program's name. *)
Definition parse_args (argv : list Str) : Args := parse_loop argv default_args.

(** ** What the arguments mean

    The words with their values, independently of any state: each field is the
    last valid value given, each flag whether it occurs as an option. *)

Inductive Word := WMonitor (v : option Z) | WBitrate (v : option Z) | WFps (v : option Z) | WNoVdd | WProbe | WH264 | WOther.

Fixpoint words (argv : list Str) : list Word :=
  match argv with
  | [] => []
  | w :: rest =>
      if bool_decide (w = lit "--monitor") then
        match rest with v :: rest' => WMonitor (parse_usize v) :: words rest' | [] => [WMonitor None] end
      else if bool_decide (w = lit "--bitrate") then
        match rest with v :: rest' => WBitrate (parse_u32 v) :: words rest' | [] => [WBitrate None] end
      else if bool_decide (w = lit "--fps") then
        match rest with v :: rest' => WFps (parse_u32 v) :: words rest' | [] => [WFps None] end
      else if bool_decide (w = lit "--no-vdd") then WNoVdd :: words rest
      else if bool_decide (w = lit "--vdd-probe") then WProbe :: words rest
      else if bool_decide (w = lit "--h264") then WH264 :: words rest
      else WOther :: words rest
  end.

Definition last_value (f : Word -> option Z) (d : Z) (ws : list Word) : Z := default d (list.last (omap f ws)).

Definition meaning (ws : list Word) (a : Args) : Args :=
  {| monitor_index := last_value (fun w => match w with WMonitor v => v | _ => None end) (monitor_index a) ws;
     bitrate_bps := last_value (fun w => match w with WBitrate v => v | _ => None end) (bitrate_bps a) ws;
     fps := last_value (fun w => match w with WFps v => v | _ => None end) (fps a) ws;
     no_vdd := no_vdd a || existsb (fun w => match w with WNoVdd => true | _ => false end) ws;
     vdd_probe := vdd_probe a || existsb (fun w => match w with WProbe => true | _ => false end) ws;
     h264 := h264 a || existsb (fun w => match w with WH264 => true | _ => false end) ws |}.

Lemma last_value_cons f d w ws : last_value f d (w :: ws) = last_value f (default d (f w)) ws.
Proof.
  unfold last_value. cbn [omap list_omap]. destruct (f w) as [n|]; [| done]. fold (omap f ws).
  rewrite last_cons. by destruct (list.last (omap f ws)).
Qed.

Definition apply_word (w : Word) (a : Args) : Args :=
  match w with
  | WMonitor v => set_parsed v set_monitor_index a
  | WBitrate v => set_parsed v set_bitrate_bps a
  | WFps v => set_parsed v set_fps a
  | WNoVdd => set_no_vdd a
  | WProbe => set_vdd_probe a
  | WH264 => set_h264 a
  | WOther => a
  end.

Lemma meaning_nil a : meaning [] a = a.
Proof. destruct a. unfold meaning. cbn. by rewrite !orb_false_r. Qed.

Lemma meaning_cons w ws a : meaning (w :: ws) a = meaning ws (apply_word w a).
Proof.
  unfold meaning. rewrite !last_value_cons. cbn [existsb].
  destruct w as [[]|[]|[]| | | |]; cbn; try done; by rewrite !orb_true_r.
Qed.

(** One step of the loop at a time. *)
Lemma parse_words n : forall argv a, (length argv <= n)%nat -> parse_loop argv a = meaning (words argv) a.
Proof.
  induction n as [|n IH]; intros argv a Hn.
  { destruct argv; [| cbn in Hn; lia]. by rewrite meaning_nil. }
  destruct argv as [|w rest]; [by rewrite meaning_nil |]. cbn [length] in Hn. cbn [parse_loop words].
  repeat match goal with |- context [if bool_decide (w = ?l) then _ else _] => destruct (bool_decide (w = l)) end.
  1-3: destruct rest as [|v rest']; cbn [length] in Hn; [by rewrite meaning_cons, meaning_nil |].
  all: rewrite meaning_cons; apply IH; lia.
Qed.

(** ** Printing arguments *)

Definition flag (b : bool) (s : string) : list Str := if b then [lit s] else [].

Definition print_args (a : Args) : list Str :=
  [lit "--monitor"; decimal_fuel 20 (monitor_index a); lit "--bitrate"; decimal (bitrate_bps a); lit "--fps";
   decimal (fps a)] ++ flag (no_vdd a) "--no-vdd" ++ flag (vdd_probe a) "--vdd-probe" ++ flag (h264 a) "--h264".

Lemma print_words a : 0 <= monitor_index a < 2 ^ 64 -> u32 (bitrate_bps a) -> u32 (fps a) ->
  words (print_args a)
  = [WMonitor (Some (monitor_index a)); WBitrate (Some (bitrate_bps a)); WFps (Some (fps a))]
    ++ (if no_vdd a then [WNoVdd] else []) ++ (if vdd_probe a then [WProbe] else [])
    ++ (if h264 a then [WH264] else []).
Proof.
  unfold unsigned. intros Hm Hb Hf. unfold print_args. cbn [app].
  assert (Em : parse_usize (decimal_fuel 20 (monitor_index a)) = Some (monitor_index a))
    by (apply parse_decimal; [lia | cbn; lia]).
  cbn [words lit]. rewrite !bool_decide_eq_true_2, !bool_decide_eq_false_2 by done.
  rewrite Em, !parse_decimal_u32 by done.
  by destruct (no_vdd a), (vdd_probe a), (h264 a).
Qed.

(** The command line of the runner.  Every command line is accepted, and
    what it means does not depend on an order of evaluation: each number is
    the last one given that is in range for its type, else the default, and
    each switch is on when it occurs where an option is expected; the word
    after a numeric option is always its value, even one that looks like a
    switch.  Every configuration can be written as a command line that is read
    back as it is. *)
Theorem parse_args_exact argv a :
  0 <= monitor_index a < 2 ^ 64 -> u32 (bitrate_bps a) -> u32 (fps a) ->
  parse_args argv = meaning (words argv) default_args /\ parse_args (print_args a) = a.
Proof.
  intros Hm Hb Hf. unfold parse_args. rewrite !(parse_words (length _)) by done. split; [done |].
  rewrite print_words by done. destruct a as [m b f nv p h]. cbn in *. by destruct nv, p, h.
Qed.

Definition demo_argv : list Str :=
  [lit "--fps"; lit "60"; lit "--monitor"; lit "--h264"; lit "--what"; lit "--fps"; lit "4294967296"; lit "--bitrate"].

Lemma parse_args_exact_witness :
  let a := {| monitor_index := 2 ^ 64 - 1; bitrate_bps := 5; fps := 144; no_vdd := true; vdd_probe := false; h264 := true |} in
  parse_args demo_argv = meaning (words demo_argv) default_args /\ parse_args (print_args a) = a
  /\ fps (parse_args demo_argv) = 60 /\ h264 (parse_args demo_argv) = false.
Proof.
  intros a. destruct (parse_args_exact demo_argv a) as (H1 & H2); [split; [vm_compute; discriminate | vm_compute; reflexivity] | by split | by split |].
  split_and!; [exact H1 | exact H2 | vm_compute; reflexivity | vm_compute; reflexivity].
Defined.

(** * The session *)

(** When Ctrl-C ends the wait: before the session enabled the display, or
    after.  Enabling blocks, so nothing interrupts it. *)
Inductive CtrlC := BeforeEnable | AfterEnable.

(** How the session phase ends; [NotEnabled]: the interrupted session was one
    that could not enable its display. *)
Inductive SessionEnd := Ran (o : Outcome) | Interrupted (enabled : bool) | NotEnabled (e : VddError).

(** The errors that [main] prints. *)
Inductive RunError := RsEngine (e : EngineError) | RsAdb (e : AdbError) | RsVdd (e : VddError) | RsNoVdd.

Inductive Ending :=
| Probed (m : MonitorInfo)
| SessionDone (s : SessionEnd)
| Failed (e : RunError)
| Exited (code : Z)
| Panicked
| HelperMode (args : list Str).

Record Surroundings := {
  su_runtime : bool;
  su_detect : result VddError (option VddController);
  su_monitors : EngineResult (list MonitorInfo);
  su_snapshot : result VddError (list MonitorInfo);
  su_samples : list (option (list MonitorInfo));
  su_ctrl_c : option CtrlC;
}.

Section Runner.
Context (os : Os) (elapsed_ns : nat -> Z) (profile : PenButtonProfile) (venv : VddEnv).
Context {D : Type} `{!Adb D, !AdbLaws D} (tcp_bind : option Z) (timer : Timer).
Context (env : RunEnv) (off_env : ScreenOffEnv) (su : Surroundings).

Definition is_attached (m : MonitorInfo) : bool := attached_to_desktop m && negb (adapter_is_software m).

(** [monitors[0]] and the choice among the attached ones; [None]: the index
    panics. *)
Definition fallback_monitor (index : Z) (monitors : list MonitorInfo) : option MonitorInfo :=
  match List.filter is_attached monitors with
  | [] => head monitors
  | m :: more => Some (default m ((m :: more) !! Z.to_nat index))
  end.

Definition runner_config (a : Args) (m : MonitorInfo) (vdd : option VddController) : SessionConfig :=
  {| sc_monitor := m; sc_codec := if h264 a then H264 else Hevc; sc_bitrate_bps := bitrate_bps a; sc_fps := fps a;
     sc_idr_interval := None; sc_motion_idr_threshold_bytes := None; sc_motion_idr_min_interval := 250;
     sc_vdd := vdd; sc_vdd_target_resolution := None; sc_hud_enabled := true; sc_screen_off := false;
     sc_disable_touch := false; sc_pen_profile := profile |}.

(** The race between the session and Ctrl-C.  The loser is dropped, with the
    controller it owns. *)
Definition interrupted (cfg : SessionConfig) (c : CtrlC) : V SessionEnd :=
  match sc_vdd cfg, c with
  | Some v, AfterEnable =>
      r ← v_try (enable venv v);
      match r with
      | Ok v' => drop_controller venv v';; mret (Interrupted true)
      | Err e => drop_controller venv v;; mret (NotEnabled e)
      end
  | v, _ => drop_display venv v;; mret (Interrupted false)
  end.

(** [None]: the session does not end. *)
Definition session_phase (cfg : SessionConfig) : V (option SessionEnd) :=
  match su_ctrl_c su with
  | Some c => s ← interrupted cfg c; mret (Some s)
  | None => o ← SessionRun.run os elapsed_ns profile venv cfg env off_env; mret (Ran <$> o)
  end.

Definition detected_vdd (a : Args) : option VddController :=
  if no_vdd a then None else match su_detect su with Ok v => v | Err _ => None end.

(** [vdd_probe_main]; the controller is dropped at the end. *)
Definition vdd_probe_main : V Ending :=
  match su_detect su with
  | Err e => mret (Failed (RsVdd e))
  | Ok None => mret (Failed RsNoVdd)
  | Ok (Some vdd) =>
      match su_snapshot su with
      | Err e => drop_controller venv vdd;; mret (Failed (RsVdd e))
      | Ok before =>
          r ← v_try (enable venv vdd);
          match r with
          | Err e => drop_controller venv vdd;; mret (Failed (RsVdd e))
          | Ok vdd =>
              let result := wait_for_virtual_monitor 15000 (Some (snapshot_attached_monitor_keys before)) (su_samples su) in
              p ← disable venv vdd;
              drop_controller venv p.1;;
              mret match result with Ok virt => Probed virt | Err e => Failed (RsVdd e) end
          end
      end
  end.

(** The end of a session with its tunnel, if the removal of the rule ends. *)
Definition close_session (s : SessionEnd) (t : AdbLocalAbstractTransport) (d : Device D) : option Ending * Device D :=
  match close_transport timer t d with
  | Some d' => (Some (SessionDone s), d')
  | None => (None, d)
  end.

(** [run_session_main], with the device of the tunnel; [None]: a run of adb or
    the session does not end. *)
Definition run_session_main (a : Args) (d : Device D) : V (option Ending * Device D) :=
  if vdd_probe a then e ← vdd_probe_main; mret (Some e, d)
  else
    let vdd := detected_vdd a in
    match su_monitors su with
    | Err e => drop_display venv vdd;; mret (Some (Failed (RsEngine e)), d)
    | Ok monitors =>
        if bool_decide (List.filter is_attached monitors = []) && negb (bool_decide (is_Some vdd)) then
          mret (Some (Exited 2), d)
        else
          match fallback_monitor (monitor_index a) monitors with
          | None => drop_display venv vdd;; mret (Some Panicked, d)
          | Some m =>
              match bind_with_adb tcp_bind "penflow" d with
              | (None, d) => mret (None, d)
              | (Some (Err e), d) => drop_display venv vdd;; mret (Some (Failed (RsAdb e)), d)
              | (Some (Ok t), d) =>
                  s ← session_phase (runner_config a m vdd);
                  mret match s with Some s => close_session s t d | None => (None, d) end
              end
          end
    end.

(** [main]; [argv] has the program's name in front. *)
Definition runner_main (argv : list Str) (d : Device D) : V (option Ending * Device D) :=
  if bool_decide (argv !! 1%nat = Some (lit "--vdd-helper")) then mret (Some (HelperMode (tail argv)), d)
  else if su_runtime su then run_session_main (parse_args (tail argv)) d
  else mret (Some (Exited 2), d).

(** The exit code; a helper's own is that of [Helper.helper_process], and a
    panic's is that of the language's runtime. *)
Definition exit_code (e : Ending) : option Z :=
  match e with
  | Probed _ | SessionDone _ => Some 0
  | Failed _ => Some 1
  | Exited code => Some code
  | Panicked => Some 101
  | HelperMode _ => None
  end.

(** * What is left behind *)

(** Enabling failed, after [tr], with [ext]. *)
Definition refused (tr : Trace) (e : VddError) (ext : Trace) : Prop :=
  enable venv VddController_new tr = (Err e, tr ++ ext).

(** The last thing done to the device is the disable of an enabled
    controller. *)
Definition released (tr ext : Trace) : Prop :=
  exists pre post c, ext = pre ++ post /\ enabled c = true
    /\ (disable venv c (tr ++ pre)).2 = tr ++ ext /\ disabled_by venv c (disable venv c (tr ++ pre)).1 post.

(** What became of the display of a runner that has ended. *)
Definition display_after (vdd : option VddController) (tr : Trace) (e : option Ending) (ext : Trace) : Prop :=
  match e with
  | None => True
  | Some (Probed _) | Some (SessionDone (Interrupted true)) => released tr ext
  | Some (SessionDone (Ran o)) => if vdd is Some _ then display_left venv env tr (Some o) ext else ext = []
  | Some (SessionDone (NotEnabled err)) => refused tr err ext
  | Some (Failed (RsVdd err)) => released tr ext \/ refused tr err ext \/ ext = []
  | _ => ext = []
  end.

(** Enabling a fresh controller, with what follows in either case. *)
Lemma enable_then {A} (ok : VddController -> V A) (err : VddError -> A) (P : Trace -> A -> Trace -> Prop) :
  (forall c tr pre, enabled c = true -> helper_ok c -> exists a ext,
    ok c (tr ++ pre) = (Ok a, (tr ++ pre) ++ ext) /\ P tr a (pre ++ ext)) ->
  (forall tr e ext, refused tr e ext -> P tr (err e) ext) ->
  gives (r ← v_try (enable venv VddController_new);
        match r with Ok c => ok c | Err e => drop_controller venv VddController_new;; mret (err e) end) P.
Proof.
  intros Hok Herr tr. destruct (enable_yields venv tr) as (ext & E & H).
  rewrite v_try_bind. destruct (enable venv VddController_new tr) as [[c|e] tr1] eqn:Ee; cbn [fst snd] in *; subst tr1.
  - destruct H as (He & Hh). destruct (Hok c tr ext He Hh) as (a & ext' & E' & HP).
    exists a, (ext ++ ext'). by rewrite E', app_assoc.
  - exists (err e), ext. split; [done |]. by apply Herr.
Qed.

(** Dropping an enabled controller releases it. *)
Lemma drop_releases {A} c (a : A) tr pre : enabled c = true -> helper_ok c -> exists ext,
  (drop_controller venv c;; mret a) (tr ++ pre) = (Ok a, (tr ++ pre) ++ ext) /\ released tr (pre ++ ext).
Proof.
  intros He Hh. destruct (drop_enabled venv c (tr ++ pre) He Hh) as (post & E1 & E2 & Hd). exists post. split.
  - pose proof (drop_total venv c (tr ++ pre)) as Ht. unfold mbind, V_bind.
    destruct (drop_controller venv c (tr ++ pre)) as [[[]|] tr2]; [| done]. cbn in E2. by subst.
  - exists pre, post, c. by rewrite E1, app_assoc.
Qed.

(** Disabling it and then dropping it does, too: a disable that fails is tried
    again by the drop. *)
Lemma disable_releases {A} c (a : A) tr pre : enabled c = true -> helper_ok c -> exists ext,
  (p ← disable venv c; drop_controller venv p.1;; mret a) (tr ++ pre) = (Ok a, (tr ++ pre) ++ ext)
  /\ released tr (pre ++ ext).
Proof.
  intros He Hh. destruct (disable_does venv c Hh (tr ++ pre)) as (post & E & Hd).
  pose proof Hd as (_ & _ & c' & res & Ec & Hr & Hok & Herr). rewrite (v_bind_ok _ _ _ _ Ec), E. cbn [fst].
  destruct (is_ok res) eqn:Er.
  - destruct (Hok eq_refl) as (Hf & _). exists post. unfold drop_controller. rewrite Hf.
    unfold mbind, V_bind. cbn. rewrite Hr. cbn. split; [done |]. exists pre, post, c. by rewrite E, app_assoc.
  - destruct (drop_releases c' a tr (pre ++ post)) as (ext' & E' & H); [by rewrite Herr | intros code; by rewrite Hr |].
    exists (post ++ ext'). rewrite (app_assoc tr) in E'. rewrite E'. by rewrite !app_assoc.
Qed.

Lemma drop_idle_ret {A} vdd (a : A) tr : (forall c, vdd = Some c -> c = VddController_new) ->
  (drop_display venv vdd;; mret a) tr = (Ok a, tr).
Proof. intros Hv. destruct vdd as [c|]; [by rewrite (Hv c eq_refl) | done]. Qed.

Lemma gives_idle {A} vdd (a : A) (P : Trace -> A -> Trace -> Prop) : (forall c, vdd = Some c -> c = VddController_new) ->
  (forall tr, P tr a []) -> gives (drop_display venv vdd;; mret a) P.
Proof. intros Hv HP tr. exists a, []. by rewrite drop_idle_ret, app_nil_r. Qed.

Lemma interrupted_gives cfg c : (forall v, sc_vdd cfg = Some v -> v = VddController_new) ->
  gives (interrupted cfg c) (fun tr s ext => display_after (sc_vdd cfg) tr (Some (SessionDone s)) ext).
Proof.
  intros Hv. unfold interrupted.
  assert (Hidle : gives (drop_display venv (sc_vdd cfg);; mret (Interrupted false))
    (fun tr s ext => display_after (sc_vdd cfg) tr (Some (SessionDone s)) ext)) by by apply gives_idle.
  destruct (sc_vdd cfg) as [v|] eqn:Ev; [| done]. destruct c; [done |]. rewrite (Hv v eq_refl). clear Hidle.
  apply (enable_then (fun v' => drop_controller venv v';; mret (Interrupted true)) NotEnabled); [| done].
  intros c tr pre He Hh. destruct (drop_releases c (Interrupted true) tr pre He Hh) as (ext & E & H). eauto.
Qed.

(** Without a display a session does nothing to one. *)
Lemma run_without_display cfg tr : sc_screen_off cfg = false -> sc_vdd cfg = None -> exists res,
  SessionRun.run os elapsed_ns profile venv cfg env off_env tr = (Ok res, tr).
Proof.
  intros Hs Hv. unfold SessionRun.run, run_streaming, capture_monitor. rewrite Hs, Hv.
  destruct (re_accept env) as [[[reader writer] peer]|]; [| by eexists].
  destruct (read_hello reader) as [[android r']|e]; [| by eexists].
  unfold mbind, V_bind. cbn [mret V_ret fst snd]. destruct (open_stream os elapsed_ns profile cfg env writer peer android (Ok (sc_monitor cfg))) as [o|]; by eexists.
Qed.

Lemma session_phase_gives cfg : sc_screen_off cfg = false -> (forall v, sc_vdd cfg = Some v -> v = VddController_new) ->
  gives (session_phase cfg) (fun tr s ext => display_after (sc_vdd cfg) tr (SessionDone <$> s) ext).
Proof.
  intros Hs Hv. unfold session_phase. destruct (su_ctrl_c su) as [c|].
  - eapply gives_map; [by apply interrupted_gives | done].
  - destruct (sc_vdd cfg) as [v|] eqn:Ev.
    + eapply gives_map; [apply run_releases; [exact Hs | by rewrite Ev, (Hv v eq_refl)] |].
      intros tr [o|] ext H; [exact H | done].
    + intros tr. destruct (run_without_display cfg tr Hs Ev) as (res & E). exists (Ran <$> res), [].
      unfold mbind, V_bind. rewrite E, app_nil_r. by destruct res.
Qed.

Hypothesis detects_fresh : forall v, su_detect su = Ok (Some v) -> v = VddController_new.

Lemma detected_fresh a v : detected_vdd a = Some v -> v = VddController_new.
Proof.
  unfold detected_vdd. destruct (no_vdd a); [done |]. destruct (su_detect su) as [[c|]|] eqn:E; [| done..].
  intros [= <-]. by apply detects_fresh.
Qed.

(** The monitor that a probe reports is the one the wait found. *)
Definition probe_ending (e : Ending) : Prop :=
  match e with
  | Probed m => exists before, su_snapshot su = Ok before
      /\ wait_for_virtual_monitor 15000 (Some (snapshot_attached_monitor_keys before)) (su_samples su) = Ok m
  | Failed (RsVdd _ | RsNoVdd) => True
  | _ => False
  end.

Lemma probe_gives vdd : gives vdd_probe_main (fun tr e ext => display_after vdd tr (Some e) ext /\ probe_ending e).
Proof.
  unfold vdd_probe_main. destruct (su_detect su) as [[c|]|e] eqn:Ed.
  2-3: apply gives_ret; intros tr; split; [cbn; auto | done].
  rewrite (detects_fresh c eq_refl). destruct (su_snapshot su) as [before|e] eqn:Es.
  2: { apply (gives_idle (Some VddController_new)); [by intros c' [= <-] |]. intros tr. split; [cbn; auto | done]. }
  set (result := wait_for_virtual_monitor _ _ _).
  set (e := match result with Ok virt => Probed virt | Err e => Failed (RsVdd e) end).
  apply (enable_then (fun c => p ← disable venv c; drop_controller venv p.1;; mret e) (fun e => Failed (RsVdd e))).
  - intros c' tr pre He Hh. destruct (disable_releases c' e tr pre He Hh) as (ext & E & H). exists e, ext.
    split; [done |]. subst e. destruct result as [m|err] eqn:Em; cbn; eauto.
  - intros tr err ext Hr. cbn. auto.
Qed.

(** What became of the tunnel. *)
Definition tunnel_after (d : Device D) (e : option Ending) (d' : Device D) : Prop :=
  others_same "penflow" d d'
  /\ match e with
     | Some (SessionDone _) => exists t d1, bind_with_adb tcp_bind "penflow" d = (Some (Ok t), d1)
         /\ closed_by timer "penflow" d1 (Some d')
     | Some (Failed (RsAdb err)) => bind_with_adb tcp_bind "penflow" d = (Some (Err err), d')
     | Some _ => d' = d
     | None => exists r, bind_with_adb tcp_bind "penflow" d = (r, d')
         /\ match r with Some (Err _) => False | _ => True end
     end.

Lemma close_session_after d t d1 s : bind_with_adb tcp_bind "penflow" d = (Some (Ok t), d1) ->
  let '(e, d') := close_session s t d1 in tunnel_after d e d' /\ (e = Some (SessionDone s) \/ e = None).
Proof.
  intros E. pose proof (bind_rules tcp_bind "penflow" d) as H. rewrite E in H.
  destruct H as (Hn & Hr & Hl & Ha & Hrev & Hh & _).
  pose proof (close_active timer t d1 Hh Hrev) as Hc. rewrite Ha in Hc. unfold close_session.
  destruct (close_transport timer t d1) as [d'|].
  - split; [| by left]. split; [| by exists t, d1].
    intros n Hne. by rewrite (closed_others timer "penflow" d1 d' Hc n Hne), Hn.
  - split; [| by right]. split; [done |]. by exists (Some (Ok t)).
Qed.

(** Why it ended as it did. *)
Definition ending_reason (argv : list Str) (e : option Ending) : Prop :=
  let vdd := detected_vdd (parse_args (tail argv)) in
  match e with
  | Some (Probed m) => probe_ending (Probed m)
  | Some (HelperMode args) => args = tail argv /\ head args = Some (lit "--vdd-helper")
  | Some (Exited code) => code = 2 /\ (su_runtime su = false
      \/ exists monitors, su_monitors su = Ok monitors /\ List.filter is_attached monitors = [] /\ vdd = None)
  | Some Panicked => su_monitors su = Ok [] /\ is_Some vdd
  | Some (Failed (RsEngine err)) => su_monitors su = Err err
  | _ => True
  end.

Definition runner_ok (argv : list Str) (d : Device D) (tr : Trace) (r : option Ending * Device D) (ext : Trace) : Prop :=
  display_after (detected_vdd (parse_args (tail argv))) tr r.1 ext /\ tunnel_after d r.1 r.2 /\ ending_reason argv r.1.

(** The session over a tunnel that stands. *)
Lemma session_over_tunnel argv a m d t d1 : bind_with_adb tcp_bind "penflow" d = (Some (Ok t), d1) ->
  a = parse_args (tail argv) ->
  gives (s ← session_phase (runner_config a m (detected_vdd a));
         mret match s with Some s => close_session s t d1 | None => (None, d1) end) (runner_ok argv d).
Proof.
  intros Eb ->. eapply gives_map; [apply (session_phase_gives (runner_config _ m _) eq_refl), detected_fresh |].
  intros tr s ext H. cbn [runner_config sc_vdd] in H. unfold runner_ok. destruct s as [s|]; cbn [fmap option_fmap option_map] in H.
  - pose proof (close_session_after d t d1 s Eb) as Hc. destruct (close_session s t d1) as [e d'].
    destruct Hc as (Ht & [-> | ->]); by split.
  - split; [exact H |]. split; [| done]. pose proof (bind_rules tcp_bind "penflow" d) as Hb. rewrite Eb in Hb.
    split; [apply Hb |]. by exists (Some (Ok t)).
Qed.

Lemma runner_gives argv d : gives (runner_main argv d) (runner_ok argv d).
Proof.
  unfold runner_main. destruct (bool_decide_reflect (argv !! 1%nat = Some (lit "--vdd-helper"))) as [Eh|Eh].
  { apply gives_ret. intros tr. split_and!; try done. cbn [fst]. split; [done |]. by destruct argv as [|? []]. }
  destruct (su_runtime su) eqn:Er.
  2: { apply gives_ret. intros tr. split_and!; try done. cbn [fst]. split; [done | by left]. }
  set (a := parse_args (tail argv)). unfold run_session_main.
  assert (Hdrop : forall e d', ending_reason argv (Some e) -> tunnel_after d (Some e) d' ->
    (forall tr, display_after (detected_vdd a) tr (Some e) []) ->
    gives (drop_display venv (detected_vdd a);; mret (Some e, d')) (runner_ok argv d)).
  { intros e d' H1 H2 H3. apply gives_idle; [apply detected_fresh |]. intros tr. by split; [| split]. }
  destruct (vdd_probe a).
  { eapply gives_map; [apply (probe_gives (detected_vdd a)) |]. intros tr e ext (H & Hp).
    split; [exact H |]. split; [split; [done |] |]; by destruct e as [| |[]| | |]. }
  destruct (su_monitors su) as [monitors|e] eqn:Em; [| by apply Hdrop].
  destruct (bool_decide_reflect (List.filter is_attached monitors = [])) as [Ef|Ef];
    destruct (bool_decide_reflect (is_Some (detected_vdd a))) as [Ev|Ev]; cbn [negb andb].
  2: { apply gives_ret. intros tr. split_and!; try done. cbn [fst]. split; [done |]. right. exists monitors.
       split_and!; try done. by apply eq_None_not_Some. }
  all: destruct (fallback_monitor (monitor_index a) monitors) as [m|] eqn:Efb.
  2, 4, 6: unfold fallback_monitor in Efb; destruct (List.filter is_attached monitors); [| done].
  2: { destruct monitors; [| done]. by apply Hdrop. }
  2-3: done.
  all: destruct (bind_with_adb tcp_bind "penflow" d) as [[[t|e]|] d1] eqn:Eb;
    [by apply session_over_tunnel | |]; pose proof (bind_rules tcp_bind "penflow" d) as Hb; rewrite Eb in Hb.
  1, 3, 5: apply Hdrop; [done | split; [apply Hb | exact Eb] | done].
  all: apply gives_ret; intros tr; split; [done | split; [split; [apply Hb | by exists None] | done]].
Qed.

(** The runner cleans up after itself.  Whatever it is asked to do and
    whatever fails, it ends, unless a run of adb that it awaits or the session
    does not; the last thing it did to a display it enabled, in a session, in
    one that Ctrl-C cut short or in a probe, is a disable, and otherwise it did
    nothing to the device, unless an enable failed; the removal of the
    tunnel's rule is run at the end of a session, a second time if the
    runner's timer cut the first, and other rules are untouched; a probe
    reports the monitor that came up; and it gives up only for the reasons it
    states. *)
Theorem runner_cleans_up argv d tr : exists r ext, runner_main argv d tr = (Ok r, tr ++ ext)
  /\ display_after (detected_vdd (parse_args (tail argv))) tr r.1 ext /\ tunnel_after d r.1 r.2 /\ ending_reason argv r.1.
Proof. apply runner_gives. Qed.
End Runner.

(** * Witnesses *)

Definition demo_surroundings : Surroundings :=
  {| su_runtime := true; su_detect := Ok (Some VddController_new); su_monitors := Ok [demo_monitor];
     su_snapshot := Ok [demo_monitor]; su_samples := [None; Some [demo_monitor; virtual_display]];
     su_ctrl_c := Some AfterEnable |}.

Definition good_adb : Adb Table := table_adb all_well false.

Definition demo_runner (su : Surroundings) (argv : list Str) : V (option Ending * Device Table) :=
  @runner_main friendly_os demo_clock demo_profile demo_env_vdd Table good_adb (Some 5555) NoneFires demo_run_env
    Session.demo_env su argv no_rules.

Lemma runner_cleans_up_witness : exists r ext, demo_runner demo_surroundings [lit "run_session"] [] = (Ok r, [] ++ ext)
  /\ display_after demo_env_vdd demo_run_env (detected_vdd demo_surroundings (parse_args [])) [] r.1 ext
  /\ @tunnel_after _ good_adb (table_laws all_well false) (Some 5555) NoneFires no_rules r.1 r.2
  /\ ending_reason demo_surroundings [lit "run_session"] r.1.
Proof.
  apply (@runner_cleans_up friendly_os demo_clock demo_profile demo_env_vdd _ good_adb (table_laws all_well false)
    (Some 5555) NoneFires demo_run_env Session.demo_env demo_surroundings). by intros v [= <-].
Defined.

(** Ctrl-C while streaming: one enable, one disable, and no rule is left. *)
Example ctrl_c_ends : exists d, (demo_runner demo_surroundings [lit "run_session"] []).1
  = Ok (Some (SessionDone (Interrupted true)), d) /\ table (dev d) = ∅ /\ length (calls d) = 4%nat.
Proof. eexists. split; [vm_compute; reflexivity |]. by split. Qed.

Example probe_reports : (demo_runner demo_surroundings [lit "run_session"; lit "--vdd-probe"] []).1
  = Ok (Some (Probed virtual_display), no_rules).
Proof. vm_compute. reflexivity. Qed.

(** With a display driver and no monitor at all, the stub for the unused
    fallback is the first of an empty list: the runner panics instead of
    bringing up the virtual monitor. *)
Lemma headless_start_panics su a : vdd_probe a = false -> su_monitors su = Ok [] -> is_Some (detected_vdd su a) ->
  forall os elapsed profile venv D (adb : Adb D) tcp_bind timer env off (d : Device D) tr,
  (run_session_main os elapsed profile venv tcp_bind timer env off su a d tr).1 = Ok (Some Panicked, d).
Proof.
  intros Hp Hm Hv os elapsed profile venv D adb tcp_bind timer env off d tr.
  unfold run_session_main. rewrite Hp, Hm. cbn [List.filter]. rewrite !bool_decide_eq_true_2 by done. cbn [negb andb].
  apply drop_then.
Qed.
