(* ===== verification/MfProbe.v ===== *)
(** The probe for key frames on demand,
    [crates/penflow-core/examples/mf_idr_probe.rs]: it finds a transform that
    really binds to the device, feeds it thirty black frames, asks for a key
    frame before one of them, and judges the output at that place.

    Windows is an answer to each call that may depend on all earlier calls;
    the transform's events are a list.  Errors carry their HRESULT. *)
From stdpp Require Import list strings.
From S2P Require Import Prelude Bytes Engine Text AnnexB Calls Encoder EncoderSetup.

Definition WIDTH : Z := 1280.
Definition HEIGHT : Z := 720.
Definition FPS : Z := 60.
Definition BITRATE : Z := 5000000.
Definition TOTAL_FRAMES : nat := 30.
Definition FORCE_IDR_FRAME : nat := 10.

Definition E_FAIL : Z := 0x80004005.

(** * The units of a packet *)

(** The loop of [parse_hevc_nal_types] on the bytes from [i] on. *)
Fixpoint parse_nal_types_loop (fuel : nat) (l : list Z) : list Z :=
  match fuel with
  | O => []
  | S fuel' =>
      if Nat.ltb 3 (length l) then
        match start_code_len l with
        | Some n =>
            if Nat.leb (length l) n then []
            else hevc_nal_type (get l n) :: parse_nal_types_loop fuel' (drop (n + 2) l)
        | None => parse_nal_types_loop fuel' (drop 1 l)
        end
      else []
  end.

Definition parse_hevc_nal_types (bytes : list Z) : list Z := parse_nal_types_loop (length bytes) bytes.

Definition nal_name (t : Z) : string :=
  if t =? 0 then "TRAIL_N" else if t =? 1 then "TRAIL_R" else if t =? 19 then "IDR_W_RADL"
  else if t =? 20 then "IDR_N_LP" else if t =? 21 then "CRA" else if t =? 32 then "VPS" else if t =? 33 then "SPS"
  else if t =? 34 then "PPS" else if t =? 35 then "AUD" else if t =? 36 then "EOS" else if t =? 37 then "EOB"
  else if t =? 38 then "FD" else if (t =? 39) || (t =? 40) then "PREFIX_SEI" else "?".

Definition describe_nal_types (nals : list Z) : string :=
  String.append "(" (String.append (String.concat ", " (map nal_name nals)) ")").

Lemma parse_nal_types_fuel f1 f2 l : (length l <= f1)%nat -> (length l <= f2)%nat ->
  parse_nal_types_loop f1 l = parse_nal_types_loop f2 l.
Proof.
  revert f2 l. induction f1 as [|f1 IH]; intros f2 l H1 H2.
  - destruct l; [| cbn in H1; lia]. by destruct f2.
  - destruct f2 as [|f2]; [by destruct l; [| cbn in H2; lia] |]. cbn [parse_nal_types_loop].
    destruct (Nat.ltb_spec 3 (length l)) as [H3|]; [| done]. destruct (start_code_len l) as [n|].
    + destruct (Nat.leb _ _); [done |]. f_equal. apply IH; rewrite length_drop; lia.
    + apply IH; rewrite length_drop; lia.
Qed.

(** Inside a unit there is nothing to find. *)
Lemma parse_nal_types_body body rest : sc_free body -> body = [] \/ last_nz body -> stops rest ->
  parse_hevc_nal_types (body ++ rest) = parse_hevc_nal_types rest.
Proof.
  intros Hf Hl Hs. induction body as [|b body IH]; [done |].
  destruct Hl as [|Hl]; [done |]. pose proof (clean_no_start b body rest Hf Hl) as Hn.
  apply last_nz_cons in Hl. rewrite <- IH by (try (by eapply sc_free_cons); tauto).
  unfold parse_hevc_nal_types at 1. cbn [app length parse_nal_types_loop] in *. rewrite Hn.
  destruct (Nat.ltb_spec 3 (S (length (body ++ rest)))) as [H3|H3]; [done |].
  unfold parse_hevc_nal_types. destruct (body ++ rest) as [|x r]; [done |]. cbn [length] in *.
  cbn [parse_nal_types_loop]. by rewrite (proj2 (Nat.ltb_ge _ _)) by (cbn [length]; lia).
Qed.

(** The parser finds the type of every unit of a stream, in order. *)
Lemma parse_nal_types_units ns : Forall (unit_ok Hevc) ns ->
  parse_hevc_nal_types (annex_b_of ns) = map (nal_type Hevc) ns.
Proof.
  induction 1 as [|n ns [Hok Hh] _ IH]; [done |]. cbn in Hh. destruct Hok as [Hf Hl].
  unfold annex_b_of; cbn [map concat]. fold (annex_b_of ns). unfold nal_bytes. rewrite <- app_assoc.
  assert (3 <= length (start_code n))%nat as H3 by (unfold start_code; destruct (sc_long n); cbn; lia).
  unfold parse_hevc_nal_types.
  rewrite (parse_nal_types_fuel _ (S (length (start_code n ++ nal_body n ++ annex_b_of ns)))) by lia.
  cbn [parse_nal_types_loop]. rewrite (proj2 (Nat.ltb_lt _ _)) by (rewrite !length_app; lia).
  rewrite start_code_len_code, (proj2 (Nat.leb_gt _ _)) by (rewrite !length_app; lia).
  rewrite get_start_code, drop_app_add. f_equal.
  - unfold nal_type. destruct (nal_body n); [cbn in Hh; lia | done].
  - rewrite <- IH, <- (parse_nal_types_body (drop 2 (nal_body n)));
      auto using sc_free_drop, last_nz_drop, stops_annex_b.
    rewrite <- drop_app_le by lia. apply parse_nal_types_fuel; [| done].
    rewrite length_drop, !length_app. lia.
Qed.

(** * The calls *)

Inductive ProbeCall :=
| PcCoInitialize | PcMfStartup | PcMfShutdown | PcCoUninitialize
| PcFactory | PcHighPerformance | PcDesc | PcDevice | PcMultithread | PcProtect | PcManager | PcResetManager
| PcEnum
| PcMft (id : nat) (c : SetupCall)
| PcForceKeyFrame
| PcCreateBuffer (len : Z) | PcLock | PcSetLength (len : Z) | PcUnlock | PcCreateSample | PcAddBuffer
| PcSampleTime (t : Z) | PcSampleDuration (t : Z)
| PcProcessInput | PcEndOfStream | PcDrain
| PcGetEvent | PcGetType
| PcStreamInfo | PcProcessOutput | PcContiguous.

Section Probe.
Context (answer : CallLog ProbeCall -> ProbeCall -> EngineResult unit).

Definition must (c : ProbeCall) : Calls ProbeCall unit := call answer c.
Definition may (c : ProbeCall) : Calls ProbeCall unit := _ ← attempt answer c; mret tt.

(** [create_d3d11_device_on_high_perf_adapter]; a device that is missing after
    a success counts as a failure of the call. *)
Definition create_device : Calls ProbeCall unit :=
  must PcFactory;; must PcHighPerformance;; must PcDesc;; must PcDevice;; must PcMultithread;; may PcProtect.

Definition create_dxgi_device_manager : Calls ProbeCall unit := must PcManager;; must PcResetManager.

(** ** The choice of the transform *)

Definition configure_transform (id : nat) : Calls ProbeCall unit :=
  let t c := must (PcMft id c) in
  let o a := must (PcMft id (SetAttribute OutType a)) in
  let i a := must (PcMft id (SetAttribute InType a)) in
  let try_i a := may (PcMft id (SetAttribute InType a)) in
  t GetAttributes;; may (PcMft id SetAsyncUnlock);; may (PcMft id SetLowLatency);;
  t SetD3dManager;;
  t (CreateMediaType OutType);;
  o MajorTypeVideo;; o (Subtype MFVideoFormat_HEVC);; o (AvgBitrate BITRATE);; o (FrameSize (pack_2u32 WIDTH HEIGHT));;
  o (FrameRate (pack_2u32 FPS 1));; o (PixelAspectRatio (pack_2u32 1 1));; o InterlaceProgressive;;
  o (Mpeg2Profile Main_420_8);;
  t SetOutputType;;
  t (CreateMediaType InType);;
  i MajorTypeVideo;; i (Subtype MFVideoFormat_NV12);; i (FrameSize (pack_2u32 WIDTH HEIGHT));;
  i (FrameRate (pack_2u32 FPS 1));; i (PixelAspectRatio (pack_2u32 1 1));; i InterlaceProgressive;;
  try_i NominalRange_0_255;; try_i Primaries_BT709;; try_i TransFunc_709;; try_i YuvMatrix_BT709;;
  t (SetInputType InType).

Definition activate_and_configure (id : nat) : Calls ProbeCall unit :=
  must (PcMft id (ActivateObject id));; configure_transform id.

Definition try_activate_and_configure (a : Mft) : Calls ProbeCall (option Mft) :=
  r ← calls_try (activate_and_configure (mft_id a));
  mret (match r with Ok _ => Some a | Err _ => None end).

(** The loop of either pass. *)
Fixpoint first_bound (l : list Mft) : Calls ProbeCall (option Mft) :=
  match l with
  | [] => mret None
  | a :: l' =>
      o ← try_activate_and_configure a;
      match o with Some t => mret (Some t) | None => first_bound l' end
  end.

(** [slots]: what [MFTEnumEx] fills when it goes_well. *)
Definition pick_compatible_hevc_hardware_mft (adapter_vendor_id : Z) (slots : list (option Mft)) : Calls ProbeCall Mft :=
  must PcEnum;;
  if Nat.eqb (length slots) 0 then calls_lift (Err (Win32 E_FAIL))
  else
    let activates := omap id slots in
    o ← first_bound (List.filter (has_vendor (target_tag adapter_vendor_id)) activates);
    match o with
    | Some t => mret t
    | None =>
        o ← first_bound activates;
        match o with Some t => mret t | None => calls_lift (Err (Win32 E_FAIL)) end
    end.

Definition apply_codec_settings (id : nat) : Calls ProbeCall unit :=
  must (PcMft id (SetCodecProperty RateControlMode_CBR));;
  must (PcMft id (SetCodecProperty (MeanBitRate BITRATE)));;
  may (PcMft id (SetCodecProperty LowLatencyMode));;
  may (PcMft id (SetCodecProperty (DefaultBPictureCount 0)));;
  may (PcMft id (SetCodecProperty (MPVGOPSize 600))).

(** ** What the choice amounts to *)

(** The failures the probe survives. *)
Definition survives (c : ProbeCall) (e : EngineError) : bool :=
  match c with
  | PcProtect | PcMfShutdown => true
  | PcMft _ (SetAsyncUnlock | SetLowLatency) => true
  | PcMft _ (SetAttribute InType (NominalRange_0_255 | Primaries_BT709 | TransFunc_709 | YuvMatrix_BT709)) => true
  | PcMft _ (SetCodecProperty (LowLatencyMode | DefaultBPictureCount _ | MPVGOPSize _)) => true
  | _ => false
  end.

Definition output_plan : list Attribute :=
  [MajorTypeVideo; Subtype MFVideoFormat_HEVC; AvgBitrate BITRATE; FrameSize (pack_2u32 WIDTH HEIGHT);
   FrameRate (pack_2u32 FPS 1); PixelAspectRatio (pack_2u32 1 1); InterlaceProgressive; Mpeg2Profile Main_420_8].

Definition input_plan : list Attribute :=
  [MajorTypeVideo; Subtype MFVideoFormat_NV12; FrameSize (pack_2u32 WIDTH HEIGHT); FrameRate (pack_2u32 FPS 1);
   PixelAspectRatio (pack_2u32 1 1); InterlaceProgressive; NominalRange_0_255; Primaries_BT709; TransFunc_709;
   YuvMatrix_BT709].

(** The calls that bind a transform: it is unlocked before anything else, and
    its output type is set before its input type. *)
Definition binding_calls (id : nat) : list ProbeCall :=
  PcMft id <$> [ActivateObject id; GetAttributes; SetAsyncUnlock; SetLowLatency; SetD3dManager]
    ++ build OutType output_plan ++ [SetOutputType] ++ build InType input_plan ++ [SetInputType InType].

Lemma activate_and_configure_runs id : runs survives (activate_and_configure id) (binding_calls id).
Proof. eapply runs_conv; [unfold activate_and_configure, configure_transform, must, may; cbv zeta; runs | done]. Qed.

(** Transforms that were tried and did not bind, each up to its own failure. *)
Inductive attempts : list Mft -> CallLog ProbeCall -> Prop :=
| attempts_nil : attempts [] []
| attempts_cons a l e ext exts : stops_at survives e ext -> ext.*1 `prefix_of` binding_calls (mft_id a) ->
    attempts l exts -> attempts (a :: l) (ext ++ exts).

Definition bound (a : Mft) (ext : CallLog ProbeCall) : Prop :=
  ext.*1 = binding_calls (mft_id a) /\ Forall (fine survives) ext.

(** The first transform that binds, of a list of candidates. *)
Definition first_of (l : list Mft) (o : option Mft) (ext : CallLog ProbeCall) : Prop :=
  match o with
  | Some a => exists tried rest e1 e2, l = tried ++ a :: rest /\ ext = e1 ++ e2 /\ attempts tried e1 /\ bound a e2
  | None => attempts l ext
  end.

Lemma attempts_app l k e1 e2 : attempts l e1 -> attempts k e2 -> attempts (l ++ k) (e1 ++ e2).
Proof.
  intros H Hk. induction H as [|a l e ext exts H1 H2 _ IH]; [done |]. rewrite <- app_assoc. by econstructor.
Qed.

Lemma first_bound_spec l : forall log, exists o ext, first_bound l log = (Ok o, log ++ ext) /\ first_of l o ext.
Proof.
  induction l as [|a l IH]; intros log.
  { exists None, []. rewrite app_nil_r. split; [done | constructor]. }
  destruct (activate_and_configure_runs (mft_id a) log) as (ext & El & Ho).
  cbn [first_bound]. unfold try_activate_and_configure, calls_try.
  destruct (activate_and_configure (mft_id a) log) as [[[]|e] log1] eqn:E; cbn [fst snd] in El, Ho; subst log1;
    destruct Ho as (H1 & H2).
  - exists (Some a), ext. unfold mbind, Calls_bind. rewrite E. split; [done |]. by exists [], l, [], ext; split_and!; [| | constructor |].
  - destruct (IH (log ++ ext)) as (o & exts & E2 & Hf). exists o, (ext ++ exts). unfold mbind at 1 2, Calls_bind at 1 2. rewrite E. cbn.
    rewrite E2, <- app_assoc. split; [done |]. destruct o as [b|].
    + destruct Hf as (tried & rest & e1 & e2 & -> & -> & Ht & Hb). exists (a :: tried), rest, (ext ++ e1), e2.
      split_and!; [done | by rewrite app_assoc | by econstructor | done].
    + by econstructor.
Qed.

Lemma first_of_seq l k e1 o e2 : attempts l e1 -> first_of k o e2 -> first_of (l ++ k) o (e1 ++ e2).
Proof.
  intros H Hk. destruct o as [a|]; [| by apply attempts_app].
  destruct Hk as (tried & rest & e3 & e4 & -> & -> & Ht & Hb). exists (l ++ tried), rest, (e1 ++ e3), e4.
  split_and!; [by rewrite <- app_assoc | by rewrite app_assoc | by apply attempts_app | done].
Qed.

(** The transform is found by trying: it is the first that accepts the whole
    binding, of the adapter's vendor first and then of all (a vendor's that was
    refused is tried again); without one, all of them were tried and refused. *)
Theorem pick_by_trying vendor slots log :
  let activates := omap id slots in
  let candidates := List.filter (has_vendor (target_tag vendor)) activates ++ activates in
  answer log PcEnum = Ok tt -> slots <> [] ->
  exists ext, (pick_compatible_hevc_hardware_mft vendor slots log).2 = log ++ (PcEnum, Ok tt) :: ext
  /\ match (pick_compatible_hevc_hardware_mft vendor slots log).1 with
     | Ok a => exists tried rest e1 e2, candidates = tried ++ a :: rest /\ ext = e1 ++ e2
         /\ attempts tried e1 /\ bound a e2
     | Err e => e = Win32 E_FAIL /\ attempts candidates ext
     end.
Proof.
  intros activates candidates Ha Hn. unfold pick_compatible_hevc_hardware_mft, must.
  rewrite (calls_bind_ok _ _ log tt (log ++ [(PcEnum, Ok tt)])) by (unfold call; by rewrite Ha).
  destruct slots as [|s slots]; [done |]. cbn [length Nat.eqb]. fold activates.
  destruct (first_bound_spec (List.filter (has_vendor (target_tag vendor)) activates) (log ++ [(PcEnum, Ok tt)]))
    as (o & e1 & E1 & H1).
  rewrite (calls_bind_ok _ _ _ _ _ E1). destruct o as [a|].
  { exists e1. unfold mret, Calls_ret. cbn [fst snd]. split; [by rewrite <- app_assoc |].
    destruct H1 as (tried & rest & e2 & e3 & Ef & -> & Ht & Hb). exists tried, (rest ++ activates), e2, e3.
    split_and!; [| done..]. unfold candidates. by rewrite Ef, <- app_assoc. }
  destruct (first_bound_spec activates ((log ++ [(PcEnum, Ok tt)]) ++ e1)) as (o & e2 & E2 & H2).
  rewrite (calls_bind_ok _ _ _ _ _ E2). pose proof (first_of_seq _ _ _ _ _ H1 H2) as H. fold candidates in H.
  exists (e1 ++ e2). destruct o as [a|]; unfold mret, Calls_ret, calls_lift; cbn [fst snd]; (split; [by rewrite <- !app_assoc |]); [exact H | by split].
Qed.

(** ** The stream *)

(** An event by its type, an output with what [GetOutputStreamInfo] and
    [ProcessOutput] give for it. *)
Inductive ProbeEvent :=
| EvNeedInput
| EvHaveOutput (provides : bool) (cb_size : Z) (sample : option (list Z))
| EvDrainComplete
| EvOther.

Record ProbeState := {
  frames_in : nat; frames_out : nat; nal_per_frame : list (list Z); drained_eos : bool; total_bytes : Z }.

Definition make_black_nv12 (w h : Z) : list Z :=
  let y_size := Z.to_nat (uwrap 32 (w * h)) in
  let uv_size := Nat.div y_size 2 in
  repeat 0 y_size ++ repeat 128 uv_size.

Definition nv12_len : Z := Z.of_nat (length (make_black_nv12 WIDTH HEIGHT)).

Definition pts_100ns (frame_index : nat) : Z := Z.quot (Z.of_nat frame_index * 10000000) FPS.

Definition dur_100ns : Z := Z.quot 10000000 FPS.

Definition make_nv12_sample (frame_index : nat) : Calls ProbeCall unit :=
  must (PcCreateBuffer nv12_len);; must PcLock;; must (PcSetLength nv12_len);; must PcUnlock;;
  must PcCreateSample;; must PcAddBuffer;; must (PcSampleTime (pts_100ns frame_index));;
  must (PcSampleDuration dur_100ns).

Definition force_key_frame (i : nat) : Calls ProbeCall unit :=
  if Nat.eqb i FORCE_IDR_FRAME then must PcForceKeyFrame else mret tt.

Definition end_of_stream : Calls ProbeCall unit := must PcEndOfStream;; must PcDrain.

Definition need_input (s : ProbeState) : Calls ProbeCall ProbeState :=
  if Nat.ltb (frames_in s) TOTAL_FRAMES then
    force_key_frame (frames_in s);;
    make_nv12_sample (frames_in s);;
    must PcProcessInput;;
    let n := S (frames_in s) in
    if Nat.eqb n TOTAL_FRAMES && negb (drained_eos s) then
      end_of_stream;;
      mret {| frames_in := n; frames_out := frames_out s; nal_per_frame := nal_per_frame s; drained_eos := true;
              total_bytes := total_bytes s |}
    else
      mret {| frames_in := n; frames_out := frames_out s; nal_per_frame := nal_per_frame s;
              drained_eos := drained_eos s; total_bytes := total_bytes s |}
  else mret s.

Definition fetch_output (provides : bool) (cb_size : Z) : Calls ProbeCall unit :=
  must PcStreamInfo;;
  (if provides then mret tt
   else must PcCreateSample;; must (PcCreateBuffer (Z.max cb_size (uwrap 32 (uwrap 32 (WIDTH * HEIGHT) * 2))));;
        must PcAddBuffer);;
  must PcProcessOutput.

Definition read_sample_bytes : Calls ProbeCall unit := must PcContiguous;; must PcLock;; must PcUnlock.

Definition have_output (provides : bool) (cb_size : Z) (sample : option (list Z)) (s : ProbeState)
  : Calls ProbeCall ProbeState :=
  fetch_output provides cb_size;;
  match sample with
  | None => calls_lift (Err (Win32 E_FAIL))
  | Some bytes =>
      read_sample_bytes;;
      mret {| frames_in := frames_in s; frames_out := S (frames_out s);
              nal_per_frame := nal_per_frame s ++ [parse_hevc_nal_types bytes]; drained_eos := drained_eos s;
              total_bytes := total_bytes s + Z.of_nat (length bytes) |}
  end.

Definition probe_event (ev : ProbeEvent) (s : ProbeState) : Calls ProbeCall ProbeState :=
  match ev with
  | EvNeedInput => need_input s
  | EvHaveOutput provides cb_size sample => have_output provides cb_size sample s
  | EvDrainComplete | EvOther => mret s
  end.

(** [None]: [GetEvent] waits for ever. *)
Fixpoint probe_loop (events : list ProbeEvent) (s : ProbeState) : Calls ProbeCall (option ProbeState) :=
  if Nat.ltb (frames_out s) TOTAL_FRAMES then
    match events with
    | [] => mret None
    | ev :: events' =>
        must PcGetEvent;;
        must PcGetType;;
        s ← probe_event ev s;
        probe_loop events' s
    end
  else mret (Some s).

Definition probe_start : ProbeState :=
  {| frames_in := 0; frames_out := 0; nal_per_frame := []; drained_eos := false; total_bytes := 0 |}.

Definition is_idr_type (t : Z) : bool := (t =? 19) || (t =? 20).

(** What [run_probe] does before the first event. *)
Definition start_stream (id : nat) : Calls ProbeCall unit :=
  must (PcMft id CastCodecApi);; apply_codec_settings id;; must (PcMft id CommandFlush);;
  must (PcMft id NotifyBeginStreaming);; must (PcMft id NotifyStartOfStream);; must (PcMft id CastEventGenerator).

(** The end of [run_probe]. *)
Definition judge_probe (id : nat) (s : ProbeState) : Calls ProbeCall bool :=
  must (PcMft id NotifyEndStreaming);;
  match nal_per_frame s !! FORCE_IDR_FRAME with
  | None => calls_lift (Err (Win32 E_FAIL))
  | Some nals => mret (existsb is_idr_type nals)
  end.

Definition run_probe (adapter_vendor_id : Z) (slots : list (option Mft)) (events : list ProbeEvent)
  : Calls ProbeCall (option bool) :=
  (create_device;; create_dxgi_device_manager);;
  t ← pick_compatible_hevc_hardware_mft adapter_vendor_id slots;
  let id := mft_id t in
  start_stream id;;
  o ← probe_loop events probe_start;
  match o with
  | None => mret None
  | Some s => b ← judge_probe id s; mret (Some b)
  end.

(** [main]: the exit code; [None]: it never ends. *)
Definition probe_main (adapter_vendor_id : Z) (slots : list (option Mft)) (events : list ProbeEvent)
  : Calls ProbeCall (option Z) :=
  r ← calls_try (must PcCoInitialize);
  match r with
  | Err _ => mret (Some 2)
  | Ok _ =>
      r ← calls_try (must PcMfStartup);
      match r with
      | Err _ => act PcCoUninitialize;; mret (Some 2)
      | Ok _ =>
          r ← calls_try (run_probe adapter_vendor_id slots events);
          match r with
          | Ok None => mret None
          | Ok (Some true) => may PcMfShutdown;; act PcCoUninitialize;; mret (Some 0)
          | Ok (Some false) => may PcMfShutdown;; act PcCoUninitialize;; mret (Some 1)
          | Err _ => may PcMfShutdown;; act PcCoUninitialize;; mret (Some 2)
          end
      end
  end.

(** ** What the stream amounts to *)

(** The calls that feed the transform, and those of the first [n] frames. *)
Definition is_input (c : ProbeCall) : bool :=
  match c with PcForceKeyFrame | PcSampleTime _ | PcProcessInput | PcEndOfStream | PcDrain => true | _ => false end.

Definition frame_calls (i : nat) : list ProbeCall :=
  (if Nat.eqb i FORCE_IDR_FRAME then [PcForceKeyFrame] else []) ++ [PcSampleTime (pts_100ns i); PcProcessInput].

Definition input_calls (n : nat) : list ProbeCall :=
  concat (map frame_calls (seq 0 n)) ++ (if Nat.eqb n TOTAL_FRAMES then [PcEndOfStream; PcDrain] else []).

Definition fed (ext : CallLog ProbeCall) : list ProbeCall := List.filter is_input ext.*1.

Definition outputs (events : list ProbeEvent) : list (list Z) :=
  omap (fun ev => match ev with EvHaveOutput _ _ sample => sample | _ => None end) events.

Record state_ok (s : ProbeState) : Prop := {
  so_in : (frames_in s <= TOTAL_FRAMES)%nat;
  so_eos : drained_eos s = Nat.eqb (frames_in s) TOTAL_FRAMES;
  so_out : length (nal_per_frame s) = frames_out s;
  so_total : (frames_out s <= TOTAL_FRAMES)%nat;
}.

Lemma fed_app e1 e2 : fed (e1 ++ e2) = fed e1 ++ fed e2.
Proof. unfold fed. by rewrite fmap_app, List.filter_app. Qed.

Lemma input_calls_S n : (n < TOTAL_FRAMES)%nat ->
  input_calls (S n) = input_calls n ++ frame_calls n ++ (if Nat.eqb (S n) TOTAL_FRAMES then [PcEndOfStream; PcDrain] else []).
Proof.
  intros Hn. unfold input_calls. rewrite seq_S, map_app, concat_app, (proj2 (Nat.eqb_neq n _)) by lia.
  cbn [map concat]. by rewrite !app_nil_r, <- app_assoc.
Qed.

Lemma force_runs i : runs survives (force_key_frame i) (if Nat.eqb i FORCE_IDR_FRAME then [PcForceKeyFrame] else []).
Proof. unfold force_key_frame, must. destruct (Nat.eqb i FORCE_IDR_FRAME); runs. Qed.

Lemma sample_runs i : runs survives (make_nv12_sample i)
  [PcCreateBuffer nv12_len; PcLock; PcSetLength nv12_len; PcUnlock; PcCreateSample; PcAddBuffer;
   PcSampleTime (pts_100ns i); PcSampleDuration dur_100ns].
Proof. eapply runs_conv; [unfold make_nv12_sample, must; runs | done]. Qed.

Lemma end_of_stream_runs : runs survives end_of_stream [PcEndOfStream; PcDrain].
Proof. eapply runs_conv; [unfold end_of_stream, must; runs | done]. Qed.

Lemma fetch_runs provides cb_size : runs survives (fetch_output provides cb_size)
  ([PcStreamInfo] ++ (if provides then [] else
     [PcCreateSample; PcCreateBuffer (Z.max cb_size (uwrap 32 (uwrap 32 (WIDTH * HEIGHT) * 2))); PcAddBuffer])
   ++ [PcProcessOutput]).
Proof. unfold fetch_output, must. destruct provides; (eapply runs_conv; [runs | done]). Qed.

Lemma read_runs : runs survives read_sample_bytes [PcContiguous; PcLock; PcUnlock].
Proof. eapply runs_conv; [unfold read_sample_bytes, must; runs | done]. Qed.

Lemma must_runs c : (forall e, survives c e = false) -> runs survives (must c) [c].
Proof. apply runs_call. Qed.

(** The part of a run that fed the transform. *)
Definition feeds {A} (m : Calls ProbeCall A) (cs : list ProbeCall) : Prop :=
  forall log a log', m log = (Ok a, log') -> exists ext, log' = log ++ ext /\ fed ext = cs.

Lemma runs_feeds {A} (m : Calls ProbeCall A) cs : runs survives m cs -> feeds m (List.filter is_input cs).
Proof. intros H log a log' E. destruct (runs_ok _ _ _ _ _ _ H E) as (ext & -> & <-). by exists ext. Qed.

Lemma feeds_seq {A B} (m : Calls ProbeCall A) (k : Calls ProbeCall B) cs ds :
  feeds m cs -> feeds k ds -> feeds (m;; k) (cs ++ ds).
Proof.
  intros Hm Hk log b log' E. apply calls_bind_inv in E as (a & log1 & E1 & E2).
  destruct (Hm _ _ _ E1) as (e1 & -> & <-). destruct (Hk _ _ _ E2) as (e2 & -> & <-).
  exists (e1 ++ e2). by rewrite app_assoc, fed_app.
Qed.

Lemma feeds_ret {A} (a : A) : feeds (mret a) [].
Proof. intros log b log' [= <- <-]. exists []. by rewrite app_nil_r. Qed.

Lemma send_feeds i : feeds (force_key_frame i;; make_nv12_sample i;; must PcProcessInput) (frame_calls i).
Proof.
  pose proof (feeds_seq _ _ _ _ (runs_feeds _ _ (force_runs i)) (feeds_seq _ _ _ _ (runs_feeds _ _ (sample_runs i))
    (runs_feeds _ _ (must_runs PcProcessInput (fun _ => eq_refl))))) as H.
  unfold frame_calls. by destruct (Nat.eqb i FORCE_IDR_FRAME).
Qed.

Lemma bind3_assoc {A B C D} (m : Calls ProbeCall A) (k : Calls ProbeCall B) (j : Calls ProbeCall C) (f : Calls ProbeCall D) log :
  (m;; k;; j;; f) log = ((m;; k;; j);; f) log.
Proof.
  unfold mbind, Calls_bind. destruct (m log) as [[]?]; [| done]. destruct (k _) as [[]?]; [| done]. by destruct (j _) as [[]?].
Qed.

(** An event that was dealt with. *)
Definition dealt (ev : ProbeEvent) (s s' : ProbeState) (ext : CallLog ProbeCall) : Prop :=
  state_ok s' /\ nal_per_frame s' = nal_per_frame s ++ map parse_hevc_nal_types (outputs [ev])
  /\ input_calls (frames_in s) ++ fed ext = input_calls (frames_in s').

Lemma need_input_spec s log s' log' : state_ok s -> need_input s log = (Ok s', log') ->
  exists ext, log' = log ++ ext /\ dealt EvNeedInput s s' ext.
Proof.
  intros [Hi He Ho Ht] E. unfold need_input in E. destruct (Nat.ltb_spec (frames_in s) TOTAL_FRAMES) as [Hlt|Hge].
  2: { injection E as <- <-. exists []. rewrite app_nil_r. split; [done |]. unfold dealt. cbn. by rewrite !app_nil_r. }
  rewrite bind3_assoc in E. apply calls_bind_inv in E as (u & log1 & E1 & E2).
  destruct (send_feeds _ _ _ _ E1) as (e1 & -> & Hf). rewrite He, (proj2 (Nat.eqb_neq (frames_in s) TOTAL_FRAMES)), andb_true_r in E2 by lia.
  pose proof (input_calls_S _ Hlt) as Hs. destruct (Nat.eqb (S (frames_in s)) TOTAL_FRAMES) eqn:En.
  - apply calls_bind_inv in E2 as (u' & log2 & E2 & [= <- <-]).
    destruct (runs_feeds _ _ end_of_stream_runs _ _ _ E2) as (e2 & -> & Hf2).
    exists (e1 ++ e2). split; [by rewrite app_assoc |]. unfold dealt. cbn [frames_in nal_per_frame outputs omap list_omap map].
    rewrite fed_app, Hf, Hf2, Hs, app_nil_r. split_and!; [| done | done]. constructor; cbn [frames_in drained_eos nal_per_frame frames_out]; [lia | by rewrite En | done | done].
  - injection E2 as <- <-. exists e1. split; [done |]. unfold dealt. cbn [frames_in nal_per_frame outputs omap list_omap map].
    rewrite Hf, Hs, !app_nil_r. split_and!; [| done | done]. constructor; cbn [frames_in drained_eos nal_per_frame frames_out]; [lia | by rewrite En | done | done].
Qed.

Lemma have_output_spec provides cb_size sample s log s' log' : state_ok s -> (frames_out s < TOTAL_FRAMES)%nat ->
  have_output provides cb_size sample s log = (Ok s', log') ->
  exists ext, log' = log ++ ext /\ dealt (EvHaveOutput provides cb_size sample) s s' ext.
Proof.
  intros [Hi He Ho Ht] Hlt E. unfold have_output in E. apply calls_bind_inv in E as (u & log1 & E1 & E2).
  destruct (runs_feeds _ _ (fetch_runs provides cb_size) _ _ _ E1) as (e1 & -> & Hf1).
  destruct sample as [bytes|]; [| done]. apply calls_bind_inv in E2 as (u' & log2 & E2 & [= <- <-]).
  destruct (runs_feeds _ _ read_runs _ _ _ E2) as (e2 & -> & Hf2).
  exists (e1 ++ e2). split; [by rewrite app_assoc |]. unfold dealt. cbn [frames_in nal_per_frame outputs omap list_omap map].
  rewrite fed_app, Hf1, Hf2. split_and!; [| done | by destruct provides; cbn; rewrite app_nil_r].
  constructor; cbn; [done | done | rewrite length_app; cbn; lia | lia].
Qed.

Lemma event_spec ev s log s' log' : state_ok s -> (frames_out s < TOTAL_FRAMES)%nat ->
  probe_event ev s log = (Ok s', log') -> exists ext, log' = log ++ ext /\ dealt ev s s' ext.
Proof.
  intros Hs Hlt E. destruct ev as [|provides cb_size sample| |]; cbn [probe_event] in E.
  - by apply need_input_spec.
  - by apply have_output_spec.
  - injection E as <- <-. exists []. unfold dealt. cbn. rewrite !app_nil_r. by split_and!.
  - injection E as <- <-. exists []. unfold dealt. cbn. rewrite !app_nil_r. by split_and!.
Qed.

Lemma get_event_feeds {A} (k : Calls ProbeCall A) log b log' : (must PcGetEvent;; must PcGetType;; k) log = (Ok b, log') ->
  exists ext, fed ext = [] /\ k (log ++ ext) = (Ok b, log').
Proof.
  intros E. apply calls_bind_inv in E as (u & log1 & E1 & E). apply calls_bind_inv in E as (u' & log2 & E2 & E).
  destruct (runs_feeds _ _ (must_runs PcGetEvent (fun _ => eq_refl)) _ _ _ E1) as (e1 & -> & H1).
  destruct (runs_feeds _ _ (must_runs PcGetType (fun _ => eq_refl)) _ _ _ E2) as (e2 & -> & H2).
  exists (e1 ++ e2). rewrite fed_app, H1, H2, app_assoc. by split.
Qed.

Lemma outputs_cons ev events : outputs (ev :: events) = outputs [ev] ++ outputs events.
Proof. change (ev :: events) with ([ev] ++ events). apply omap_app. Qed.

(** The loop ends with thirty outputs, the first thirty that came. *)
Lemma probe_loop_spec events : forall s log s' log', state_ok s -> probe_loop events s log = (Ok (Some s'), log') ->
  exists ext used rest, log' = log ++ ext /\ events = used ++ rest
  /\ state_ok s' /\ frames_out s' = TOTAL_FRAMES
  /\ nal_per_frame s' = nal_per_frame s ++ map parse_hevc_nal_types (outputs used)
  /\ input_calls (frames_in s) ++ fed ext = input_calls (frames_in s').
Proof.
  induction events as [|ev events IH]; intros s log s' log' Hs E; cbn [probe_loop] in E;
    destruct (Nat.ltb_spec (frames_out s) TOTAL_FRAMES) as [Hlt|Hge]; try done.
  1, 3: injection E as <- <-; eexists [], [], _; cbn [app outputs omap list_omap map]; rewrite !app_nil_r;
    split_and!; try done; destruct Hs; lia.
  apply get_event_feeds in E as (e0 & H0 & E). apply calls_bind_inv in E as (s1 & log1 & E1 & E).
  destruct (event_spec ev s _ _ _ Hs Hlt E1) as (e1 & -> & Hs1 & Hn1 & Hf1).
  destruct (IH _ _ _ _ Hs1 E) as (e2 & used & rest & -> & -> & Hs' & Ho & Hn & Hf).
  exists (e0 ++ e1 ++ e2), (ev :: used), rest. split_and!; try done.
  - by rewrite !app_assoc.
  - rewrite Hn, Hn1, (outputs_cons ev used), map_app. by rewrite app_assoc.
  - by rewrite !fed_app, H0, <- Hf, <- Hf1, <- app_assoc.
Qed.

(** ** The whole probe *)

Lemma feeds_bind {A B} (m : Calls ProbeCall A) (f : A -> Calls ProbeCall B) cs ds :
  feeds m cs -> (forall a, feeds (f a) ds) -> feeds (m ≫= f) (cs ++ ds).
Proof.
  intros Hm Hf log b log' E. apply calls_bind_inv in E as (a & log1 & E1 & E2).
  destruct (Hm _ _ _ E1) as (e1 & -> & <-). destruct (Hf a _ _ _ E2) as (e2 & -> & <-).
  exists (e1 ++ e2). by rewrite app_assoc, fed_app.
Qed.

Lemma feeds_fail {A} e cs : feeds (calls_lift (Err e) : Calls ProbeCall A) cs.
Proof. by intros log a log'. Qed.

Lemma filter_none {A} (f : A -> bool) l : Forall (fun x => f x = false) l -> List.filter f l = [].
Proof. induction 1 as [|x l Hx _ IH]; [done |]. cbn. by rewrite Hx. Qed.

(** A part that may fail, and does not feed. *)
Lemma feeds_try {A} (m : Calls ProbeCall A) cs : runs survives m cs -> Forall (fun c => is_input c = false) cs ->
  feeds (calls_try m) [].
Proof.
  intros H Hc log r log' E. unfold calls_try in E. destruct (H log) as (ext & El & Ho).
  destruct (m log) as [r0 log1]. injection E as _ <-. exists ext. cbn in El. split; [done |].
  apply filter_none, list.Forall_forall. intros c Hin. apply list_elem_of_fmap in Hin as (x & -> & Hx).
  rewrite list.Forall_forall in Hc. by eapply Hc, outcome_calls.
Qed.

Lemma binding_quiet id : Forall (fun c => is_input c = false) (binding_calls id).
Proof. unfold binding_calls, output_plan, input_plan, build. cbn. repeat constructor. Qed.

Lemma first_bound_quiet l : feeds (first_bound l) [].
Proof.
  induction l as [|a l IH]; cbn [first_bound]; [apply feeds_ret |]. apply (feeds_bind _ _ [] []).
  - unfold try_activate_and_configure. apply (feeds_bind _ _ [] []); [| intros r; apply feeds_ret].
    apply (feeds_try _ (binding_calls (mft_id a))); [apply activate_and_configure_runs | apply binding_quiet].
  - intros [t|]; [apply feeds_ret | exact IH].
Qed.

Lemma pick_quiet vendor slots : feeds (pick_compatible_hevc_hardware_mft vendor slots) [].
Proof.
  unfold pick_compatible_hevc_hardware_mft. apply (feeds_bind _ _ [] []); [by apply (runs_feeds _ _ (must_runs PcEnum (fun _ => eq_refl))) |].
  intros _. destruct (Nat.eqb _ _); [apply feeds_fail |].
  apply (feeds_bind _ _ [] []); [apply first_bound_quiet | intros [t|]; [apply feeds_ret |]].
  apply (feeds_bind _ _ [] []); [apply first_bound_quiet | intros [t|]; [apply feeds_ret | apply feeds_fail]].
Qed.

Definition device_calls : list ProbeCall :=
  [PcFactory; PcHighPerformance; PcDesc; PcDevice; PcMultithread; PcProtect; PcManager; PcResetManager].

Lemma device_runs : runs survives (create_device;; create_dxgi_device_manager) device_calls.
Proof. eapply runs_conv; [unfold create_device, create_dxgi_device_manager, must, may; runs | done]. Qed.

Definition stream_start_calls (id : nat) : list ProbeCall :=
  PcMft id <$> CastCodecApi :: (SetCodecProperty <$> [RateControlMode_CBR; MeanBitRate BITRATE; LowLatencyMode;
    DefaultBPictureCount 0; MPVGOPSize 600]) ++ [CommandFlush; NotifyBeginStreaming; NotifyStartOfStream; CastEventGenerator].

Lemma start_stream_runs id : runs survives (start_stream id) (stream_start_calls id).
Proof. eapply runs_conv; [unfold start_stream, apply_codec_settings, must, may; runs | done]. Qed.

Lemma judge_probe_spec id s log b log' : state_ok s -> frames_out s = TOTAL_FRAMES -> judge_probe id s log = (Ok b, log') ->
  exists ext nals, log' = log ++ ext /\ fed ext = [] /\ nal_per_frame s !! FORCE_IDR_FRAME = Some nals
  /\ b = existsb is_idr_type nals.
Proof.
  intros Hs Ho E. unfold judge_probe in E. apply calls_bind_inv in E as (u & log1 & E1 & E2).
  destruct (runs_feeds _ _ (must_runs (PcMft id NotifyEndStreaming) (fun _ => eq_refl)) _ _ _ E1) as (ext & -> & Hf).
  destruct (nal_per_frame s !! FORCE_IDR_FRAME) as [nals|] eqn:En; [| done].
  injection E2 as <- <-. by exists ext, nals.
Qed.

(** What a verdict rests on. *)
Definition judged (events : list ProbeEvent) (b : bool) (ext : CallLog ProbeCall) : Prop :=
  exists used rest packet n, events = used ++ rest /\ length (outputs used) = TOTAL_FRAMES
  /\ outputs used !! FORCE_IDR_FRAME = Some packet /\ b = existsb is_idr_type (parse_hevc_nal_types packet)
  /\ (n <= TOTAL_FRAMES)%nat /\ fed ext = input_calls n.

Lemma start_ok : state_ok probe_start.
Proof. constructor; cbn; unfold TOTAL_FRAMES; try done; lia. Qed.

Lemma run_probe_spec vendor slots events log b log' : run_probe vendor slots events log = (Ok (Some b), log') ->
  exists ext, log' = log ++ ext /\ judged events b ext.
Proof.
  intros E. unfold run_probe in E. apply calls_bind_inv in E as (u & log1 & E1 & E).
  apply calls_bind_inv in E as (t & log2 & E2 & E). apply calls_bind_inv in E as (u' & log3 & E3 & E).
  apply calls_bind_inv in E as ([s|] & log4 & E4 & E); [| done].
  apply calls_bind_inv in E as (b' & log5 & E5 & [= <- <-]).
  destruct (runs_feeds _ _ device_runs _ _ _ E1) as (e1 & -> & H1). destruct (pick_quiet _ _ _ _ _ E2) as (e2 & -> & H2).
  destruct (runs_feeds _ _ (start_stream_runs _) _ _ _ E3) as (e3 & -> & H3).
  destruct (probe_loop_spec _ _ _ _ _ start_ok E4) as (e4 & used & rest & -> & Eev & Hs & Ho & Hn & H4).
  destruct (judge_probe_spec _ _ _ _ _ Hs Ho E5) as (e5 & nals & -> & H5 & En & Hb).
  cbn [nal_per_frame probe_start app] in Hn. rewrite Hn in En. apply list_lookup_fmap_Some in En as (packet & -> & Ep).
  exists (e1 ++ e2 ++ e3 ++ e4 ++ e5). rewrite <- !app_assoc. split; [done |]. exists used, rest, packet, (frames_in s).
  split_and!; try done; [| apply Hs |].
  - rewrite <- Ho, <- (so_out s Hs), Hn. by rewrite length_map.
  - rewrite !fed_app, H1, H2, H3, H5, app_nil_r, <- H4. by destruct (mft_id t).
Qed.

(** *** When everything works *)

Section AllWell.
Hypothesis all_well : forall log c, answer log c = Ok tt.

Definition goes_well {A} (m : Calls ProbeCall A) : Prop := forall log, exists a log', m log = (Ok a, log').

Lemma goes_well_bind {A B} (m : Calls ProbeCall A) (f : A -> Calls ProbeCall B) :
  goes_well m -> (forall a, goes_well (f a)) -> goes_well (m ≫= f).
Proof.
  intros Hm Hf log. destruct (Hm log) as (a & log1 & E). rewrite (calls_bind_ok _ _ _ _ _ E). apply Hf.
Qed.

Lemma goes_well_must c : goes_well (must c).
Proof. intros log. exists tt. unfold must, call. rewrite all_well. eauto. Qed.

Lemma goes_well_may c : goes_well (may c).
Proof. intros log. exists tt. unfold may, attempt, mbind, Calls_bind. eauto. Qed.

Lemma goes_well_ret {A} (a : A) : goes_well (mret a).
Proof. intros log. by exists a, log. Qed.

Ltac succeed :=
  repeat first [ apply goes_well_must | apply goes_well_may | apply goes_well_ret | apply goes_well_bind; [| intros ?]
    | match goal with |- goes_well (if ?x then _ else _) => destruct x end ].

Definition has_sample (ev : ProbeEvent) : bool := match ev with EvHaveOutput _ _ None => false | _ => true end.

Lemma need_input_succeeds s log : exists s' log', need_input s log = (Ok s', log') /\ frames_out s' = frames_out s.
Proof.
  unfold need_input. destruct (Nat.ltb _ _); [| by exists s, log]. rewrite bind3_assoc.
  assert (H : goes_well (force_key_frame (frames_in s);; make_nv12_sample (frames_in s);; must PcProcessInput))
    by (unfold force_key_frame, make_nv12_sample; succeed).
  destruct (H log) as (u & log1 & E). rewrite (calls_bind_ok _ _ _ _ _ E). destruct (Nat.eqb _ _ && _); [| by do 2 eexists].
  assert (H2 : goes_well end_of_stream) by (unfold end_of_stream; succeed).
  destruct (H2 log1) as (u' & log2 & E2). rewrite (calls_bind_ok _ _ _ _ _ E2). by do 2 eexists.
Qed.

Lemma event_succeeds ev s log : has_sample ev = true -> exists s' log', probe_event ev s log = (Ok s', log')
  /\ frames_out s' = (frames_out s + length (outputs [ev]))%nat.
Proof.
  intros Hh. destruct ev as [|provides cb_size [bytes|]| |]; try done; cbn [probe_event].
  - destruct (need_input_succeeds s log) as (s' & log' & E & Ho). exists s', log'. rewrite Ho. cbn. by rewrite Nat.add_0_r.
  - unfold have_output.
    assert (H1 : goes_well (fetch_output provides cb_size)) by (unfold fetch_output; succeed).
    assert (H2 : goes_well read_sample_bytes) by (unfold read_sample_bytes; succeed).
    destruct (H1 log) as (u & log1 & E1). rewrite (calls_bind_ok _ _ _ _ _ E1).
    destruct (H2 log1) as (u' & log2 & E2). rewrite (calls_bind_ok _ _ _ _ _ E2). do 2 eexists. split; [done |]. cbn. lia.
  - exists s, log. cbn. by rewrite Nat.add_0_r.
  - exists s, log. cbn. by rewrite Nat.add_0_r.
Qed.

(** The loop ends when thirty outputs come, and only then. *)
Lemma probe_loop_ends events : forall s log, forallb has_sample events = true ->
  exists o log', probe_loop events s log = (Ok o, log')
  /\ (is_Some o <-> (TOTAL_FRAMES <= frames_out s + length (outputs events))%nat).
Proof.
  induction events as [|ev events IH]; intros s log Hh; cbn [probe_loop];
    destruct (Nat.ltb_spec (frames_out s) TOTAL_FRAMES) as [Hlt|Hge].
  - exists None, log. split; [done |]. cbn. split; [by intros [? ?] | lia].
  - exists (Some s), log. split; [done |]. split; [lia | by eexists].
  - cbn [forallb] in Hh. apply andb_true_iff in Hh as (H1 & H2).
    destruct (goes_well_must PcGetEvent log) as (u & log1 & E1). rewrite (calls_bind_ok _ _ _ _ _ E1).
    destruct (goes_well_must PcGetType log1) as (u' & log2 & E2). rewrite (calls_bind_ok _ _ _ _ _ E2).
    destruct (event_succeeds ev s log2 H1) as (s' & log3 & E3 & Ho). rewrite (calls_bind_ok _ _ _ _ _ E3).
    destruct (IH s' log3 H2) as (o & log' & E & Hi). exists o, log'. split; [done |].
    rewrite Hi, Ho, (outputs_cons ev events), length_app. lia.
  - exists (Some s), log. split; [done |]. split; [lia | by eexists].
Qed.

Lemma first_bound_succeeds l log : exists log', first_bound l log = (Ok (head l), log').
Proof.
  destruct l as [|a l]; [by exists log |]. cbn [first_bound head]. unfold try_activate_and_configure, calls_try.
  assert (H : goes_well (activate_and_configure (mft_id a)))
    by (unfold activate_and_configure, configure_transform; cbv zeta; succeed).
  destruct (H log) as (u & log1 & E). exists log1. unfold mbind, Calls_bind. by rewrite E.
Qed.

Lemma pick_succeeds vendor slots log : omap id slots <> [] ->
  exists t log', pick_compatible_hevc_hardware_mft vendor slots log = (Ok t, log').
Proof.
  intros Hn. unfold pick_compatible_hevc_hardware_mft.
  destruct (goes_well_must PcEnum log) as (u & log1 & E1). rewrite (calls_bind_ok _ _ _ _ _ E1).
  destruct slots as [|o slots]; [done |]. cbn [length Nat.eqb].
  destruct (first_bound_succeeds (List.filter (has_vendor (target_tag vendor)) (omap id (o :: slots))) log1) as (log2 & E2).
  rewrite (calls_bind_ok _ _ _ _ _ E2). destruct (head _) as [t|]; [by exists t, log2 |].
  destruct (first_bound_succeeds (omap id (o :: slots)) log2) as (log3 & E3). rewrite (calls_bind_ok _ _ _ _ _ E3).
  destruct (omap id (o :: slots)) as [|t l]; [done |]. by exists t, log3.
Qed.

Lemma run_probe_ends vendor slots events log : omap id slots <> [] -> forallb has_sample events = true ->
  exists o log', run_probe vendor slots events log = (Ok o, log') /\ (is_Some o <-> (TOTAL_FRAMES <= length (outputs events))%nat).
Proof.
  intros Hn Hh. unfold run_probe.
  assert (H1 : goes_well (create_device;; create_dxgi_device_manager))
    by (unfold create_device, create_dxgi_device_manager; succeed).
  destruct (H1 log) as (u & log1 & E1). rewrite (calls_bind_ok _ _ _ _ _ E1).
  destruct (pick_succeeds vendor slots log1 Hn) as (t & log2 & E2). rewrite (calls_bind_ok _ _ _ _ _ E2).
  assert (H3 : goes_well (start_stream (mft_id t))) by (unfold start_stream, apply_codec_settings; succeed).
  destruct (H3 log2) as (u' & log3 & E3). rewrite (calls_bind_ok _ _ _ _ _ E3).
  destruct (probe_loop_ends events probe_start log3 Hh) as ([s|] & log4 & E4 & Hi); rewrite (calls_bind_ok _ _ _ _ _ E4).
  2: { exists None, log4. split; [done |]. rewrite <- Hi. split; by intros []. }
  destruct (probe_loop_spec _ _ _ _ _ start_ok E4) as (e4 & used & rest & _ & _ & Hs & Ho & Hnal & _).
  assert (Hl : (FORCE_IDR_FRAME < length (nal_per_frame s))%nat) by (rewrite (so_out s Hs), Ho; unfold TOTAL_FRAMES, FORCE_IDR_FRAME; lia).
  apply lookup_lt_is_Some_2 in Hl as (nals & El).
  destruct (goes_well_must (PcMft (mft_id t) NotifyEndStreaming) log4) as (u2 & log5 & E5).
  exists (Some (existsb is_idr_type nals)), log5. split.
  - unfold judge_probe. rewrite (calls_bind_ok _ _ log4 (existsb is_idr_type nals) log5); [done |].
    rewrite (calls_bind_ok _ _ _ _ _ E5), El. done.
  - rewrite <- Hi. split; by eexists.
Qed.

(** A transform that drains with fewer than thirty outputs is waited for: the
    end of the drain, which the loop sees, does not end it. *)
Lemma short_drain_hangs vendor slots events : omap id slots <> [] -> forallb has_sample events = true ->
  (length (outputs events) < TOTAL_FRAMES)%nat ->
  exists log, run_probe vendor slots (events ++ [EvDrainComplete]) [] = (Ok None, log).
Proof.
  intros Hn Hh Hl. destruct (run_probe_ends vendor slots (events ++ [EvDrainComplete]) [] Hn) as (o & log & E & Hi).
  { by rewrite forallb_app, Hh. }
  exists log. rewrite E. destruct o as [b|]; [| done]. exfalso.
  destruct Hi as [Hi _]. specialize (Hi ltac:(by eexists)). unfold outputs in *. rewrite omap_app, length_app in Hi. cbn in Hi. lia.
Qed.
End AllWell.

(** The probe's verdict.  Whatever Windows answers, a verdict is given on
    thirty outputs and is that of the eleventh: exit code 0 when one of its
    units is an IDR picture and 1 when none is (for a packet of well-formed
    units these are the units' own types), and up to then the transform was fed
    a number of frames in order, with one request for a key frame, immediately
    before the eleventh, and the end of the stream after the thirtieth.  COM is
    uninitialized last, and only if it was initialized.  When nothing fails and
    there is a transform, the probe ends exactly if thirty outputs come. *)
Theorem probe_verdict vendor slots events :
  (forall code log, probe_main vendor slots events [] = (Ok (Some code), log) ->
    (code = 2 \/ exists b ext, judged events b ext /\ code = (if b : bool then 0 else 1)
       /\ log = [(PcCoInitialize, Ok tt); (PcMfStartup, Ok tt)] ++ ext
                 ++ [(PcMfShutdown, answer ([(PcCoInitialize, Ok tt); (PcMfStartup, Ok tt)] ++ ext) PcMfShutdown);
                     (PcCoUninitialize, Ok tt)])
    /\ (answer [] PcCoInitialize = Ok tt -> list.last log = Some (PcCoUninitialize, Ok tt)))
  /\ (forall packet ns, packet = annex_b_of ns -> Forall (unit_ok Hevc) ns ->
        existsb is_idr_type (parse_hevc_nal_types packet) = existsb (fun n => is_idr_type (nal_type Hevc n)) ns)
  /\ ((forall log c, answer log c = Ok tt) -> omap id slots <> [] -> forallb has_sample events = true ->
      exists o log, probe_main vendor slots events [] = (Ok o, log)
      /\ (is_Some o <-> (TOTAL_FRAMES <= length (outputs events))%nat)).
Proof.
  split_and!.
  - intros code log E. unfold probe_main in E.
    apply calls_bind_inv in E as (r & log1 & E1 & E). unfold must, calls_try, call in E1. cbn in E1. injection E1 as <- <-.
    destruct (answer [] PcCoInitialize) as [[]|e] eqn:Ec; [| by injection E as <- <-; split; [left |]].
    apply calls_bind_inv in E as (r & log2 & E2 & E). unfold must, calls_try, call in E2. cbn in E2. injection E2 as <- <-.
    destruct (answer _ PcMfStartup) as [[]|e] eqn:Es; [| by injection E as <- <-; split; [left |]].
    apply calls_bind_inv in E as (r & log3 & E3 & E). unfold calls_try in E3.
    destruct (run_probe vendor slots events _) as [r0 log0] eqn:Er. injection E3 as <- <-.
    assert (Hlast : forall k a, list.last ((k ++ [a]) ++ [(PcCoUninitialize, Ok tt : EngineResult unit)]) = Some (PcCoUninitialize, Ok tt))
      by (intros; apply last_snoc).
    destruct r0 as [[[]|]|e]; try done; injection E as <- <-; (split; [| intros _; apply Hlast]); try (by left); right.
    all: destruct (run_probe_spec _ _ _ _ _ _ Er) as (ext & -> & Hj); eexists _, ext; split_and!; [exact Hj | done |].
    all: by rewrite <- !app_assoc.
  - intros packet ns -> Hns. rewrite parse_nal_types_units by done. induction ns as [|n ns IH]; [done |]. cbn.
    inversion Hns; subst. by rewrite IH.
  - intros Hw Hn Hh. destruct (run_probe_ends Hw vendor slots events
      [(PcCoInitialize, Ok tt); (PcMfStartup, Ok tt)] Hn Hh) as (o & log & E & Hi).
    unfold probe_main, must, calls_try, call. unfold mbind, Calls_bind. cbn [app]. rewrite !Hw. cbn [app] in *. rewrite E.
    destruct o as [[]|]; eexists _, _; (split; [reflexivity |]); rewrite <- Hi; split; try done; intros []; done.
Qed.
End Probe.

(** A machine where all is well, except that one transform cannot be bound. *)
Definition demo_answer (refused : nat) (log : CallLog ProbeCall) (c : ProbeCall) : EngineResult unit :=
  match c with
  | PcMft i SetD3dManager => if Nat.eqb i refused then Err (Win32 E_FAIL) else Ok tt
  | _ => Ok tt
  end.

Definition demo_mft (i : nat) (vendor : string) : option Mft := Some {| mft_id := i; read_mft_vendor_id := Some vendor |}.

(** A packet of one unit, whose type is [t]. *)
Definition demo_output (t : Z) : ProbeEvent := EvHaveOutput true 0 (Some [0; 0; 0; 1; 2 * t; 1; 175; 128]).

Definition demo_events (idr_at : nat) : list ProbeEvent :=
  concat (map (fun i => [EvNeedInput; demo_output (if Nat.eqb i idr_at then 19 else 1)]) (seq 0 TOTAL_FRAMES)).

Example probe_demo_pass : (probe_main (demo_answer 0) 4318
  [demo_mft 0 "VEN_10DE"; None; demo_mft 1 "VEN_1002"] (demo_events 10) []).1 = Ok (Some 0).
Proof. vm_compute. reflexivity. Qed.

Example probe_demo_fail : (probe_main (demo_answer 0) 4318 [demo_mft 1 "ven_10de"] (demo_events 11) []).1 = Ok (Some 1).
Proof. vm_compute. reflexivity. Qed.

Example probe_demo_none : (probe_main (demo_answer 0) 4318 [demo_mft 0 "VEN_10DE"] (demo_events 10) []).1 = Ok (Some 2).
Proof. vm_compute. reflexivity. Qed.
