(* ===== verification/Topology.v ===== *)
(** The topology probe, [crates/penflow-core/examples/adapter_topology.rs]: it
    lists adapters and outputs, tries to duplicate every output on a device of
    its own adapter, and judges whether the high-performance adapter has
    outputs.  DXGI is a parameter; what the probe prints is left out. *)
From stdpp Require Import list strings.
From S2P Require Import Prelude Engine Text Monitors Capture.

(** * Data *)

(** The text of a failed duplication, by its parts. *)
Inductive Output5Error := Output5Call (hr : Z) | NoOutput5.

Inductive DupError :=
| FirstError (o5 : Output5Error)
| BothErrors (o5 : option Output5Error) (hr : Z)
| NoOutput1.

Record DuplicateProbeResult := { method : string; success : bool; err : option DupError }.

Record OutputInfo := {
  oi_index : Z; oi_device_name : string; attached : bool; coords : Z * Z * Z * Z; oi_rotation : Z;
  duplicate_ok : option DuplicateProbeResult }.

Record AdapterInfo := {
  ai_index : Z; ai_name : string; vendor_id : Z; device_id : Z; luid : Z; dedicated_vram_mb : Z;
  is_software : bool; outputs : list OutputInfo }.

Definition set_duplicate (r : DuplicateProbeResult) (o : OutputInfo) : OutputInfo :=
  {| oi_index := oi_index o; oi_device_name := oi_device_name o; attached := attached o; coords := coords o;
     oi_rotation := oi_rotation o; duplicate_ok := Some r |}.

Definition set_outputs (l : list OutputInfo) (a : AdapterInfo) : AdapterInfo :=
  {| ai_index := ai_index a; ai_name := ai_name a; vendor_id := vendor_id a; device_id := device_id a;
     luid := luid a; dedicated_vram_mb := dedicated_vram_mb a; is_software := is_software a; outputs := l |}.

(** * The probe *)

Definition looks_like_vdd (name : string) : bool :=
  let n := to_lowercase name in
  existsb (fun needle => contains needle n)
    ["virtual display"%string; "virtual monitor"%string; "iddcx"%string; "iddsample"%string;
     "iddsampledriver"%string; "vdd"%string; "mttvdd"%string; "amyuni"%string; "spacedesk"%string;
     "superdisplay"%string].

(** The casts to the two interfaces, each with the answer of its call. *)
Definition probe_duplicate (output5 output1 : result Z (result Z unit)) : DuplicateProbeResult :=
  let fallback o5_err :=
    match output1 with
    | Ok (Ok _) => {| method := "IDXGIOutput1::DuplicateOutput (Output5 failed first)"; success := true; err := FirstError <$> o5_err |}
    | Ok (Err e) =>
        {| method := "IDXGIOutput1::DuplicateOutput"; success := false; err := Some (BothErrors o5_err e) |}
    | Err _ => {| method := "IDXGIOutput1::DuplicateOutput"; success := false; err := Some NoOutput1 |}
    end in
  match output5 with
  | Ok (Ok _) => {| method := "IDXGIOutput5::DuplicateOutput1"; success := true; err := None |}
  | Ok (Err e) => fallback (Some (Output5Call e))
  | Err _ => fallback (Some NoOutput5)
  end.

Section Probe.
Context (DXGI_ERROR_NOT_FOUND : Z).
(** The field of an adapter's description that [AdapterDesc] leaves out. *)
Context (DedicatedVideoMemory : AdapterDesc -> Z).

Definition output_info (oidx : Z) (o : OutputDesc) : OutputInfo :=
  {| oi_index := oidx; oi_device_name := trim_nul (od_device_name o); attached := od_attached o;
     coords := (od_left o, od_top o, od_right o, od_bottom o); oi_rotation := uwrap 32 (od_rotation o);
     duplicate_ok := None |}.

Definition adapter_info (idx : Z) (d : AdapterDesc) (outs : list OutputInfo) : AdapterInfo :=
  {| ai_index := idx; ai_name := trim_nul (ad_description d); vendor_id := ad_vendor_id d;
     device_id := ad_device_id d; luid := luid_of d;
     dedicated_vram_mb := DedicatedVideoMemory d / (1024 * 1024);
     is_software := negb (Z.land (ad_flags d) 2 =? 0); outputs := outs |}.

(** Fuel counts the calls that find something. *)
Fixpoint output_infos (fuel : nat) (outs : Z -> result Z Output) (oidx : Z) : option (EngineResult (list OutputInfo)) :=
  match outs oidx with
  | Err hr => Some (if hr =? DXGI_ERROR_NOT_FOUND then Ok [] else Err (Win32 hr))
  | Ok output =>
      match fuel with
      | O => None
      | S fuel' =>
          match out_desc output with
          | Err hr => Some (Err (Win32 hr))
          | Ok odesc =>
              rest ← output_infos fuel' outs (uwrap 32 (oidx + 1));
              Some (rest ← rest; Ok (output_info oidx odesc :: rest))
          end
      end
  end.

Fixpoint adapter_infos (fuel fuel_outputs : nat) (factory : Factory) (idx : Z)
  : option (EngineResult (list AdapterInfo)) :=
  match factory idx with
  | Err hr => Some (if hr =? DXGI_ERROR_NOT_FOUND then Ok [] else Err (Win32 hr))
  | Ok adapter =>
      match fuel with
      | O => None
      | S fuel' =>
          match adp_desc adapter with
          | Err hr => Some (Err (Win32 hr))
          | Ok desc =>
              match output_infos fuel_outputs (adp_outputs adapter) 0 with
              | None => None
              | Some (Err e) => Some (Err e)
              | Some (Ok outs) =>
                  rest ← adapter_infos fuel' fuel_outputs factory (uwrap 32 (idx + 1));
                  Some (rest ← rest; Ok (adapter_info idx desc outs :: rest))
              end
          end
      end
  end.

Definition enumerate_adapters_and_outputs (fuel : nat) (factory : Factory) : option (EngineResult (list AdapterInfo)) :=
  adapter_infos fuel fuel factory 0.

(** What the probe meets after the enumeration: the adapters again, a device on
    each, its interfaces for each output, and the preferred adapter. *)
Record TopologyEnv := {
  factory : result Z unit;
  adapters_now : Factory;
  adapters_later : Factory;
  device_on : Z -> result Z unit;
  duplicates : Z -> Z -> result Z (result Z unit) * result Z (result Z unit);
  preferred : result Z (result Z AdapterDesc);
}.

Context (env : TopologyEnv).

Fixpoint probe_outputs (idx : Z) (adapter : Adapter) (l : list OutputInfo) : EngineResult (list OutputInfo) :=
  match l with
  | [] => Ok []
  | o :: l' =>
      _ ← win (adp_outputs adapter (oi_index o));
      let d := duplicates env idx (oi_index o) in
      rest ← probe_outputs idx adapter l';
      Ok (set_duplicate (probe_duplicate d.1 d.2) o :: rest)
  end.

Definition probe_adapter (a : AdapterInfo) : EngineResult AdapterInfo :=
  if is_software a || Nat.eqb (length (outputs a)) 0 then Ok a
  else
    adapter ← win (adapters_later env (ai_index a));
    match device_on env (ai_index a) with
    | Err _ => Ok a
    | Ok _ => outs ← probe_outputs (ai_index a) adapter (outputs a); Ok (set_outputs outs a)
    end.

Fixpoint probe_adapters (l : list AdapterInfo) : EngineResult (list AdapterInfo) :=
  match l with
  | [] => Ok []
  | a :: l' => a ← probe_adapter a; rest ← probe_adapters l'; Ok (a :: rest)
  end.

Definition hits_of (a : AdapterInfo) : list (Z * Z * string) :=
  omap (fun o => if looks_like_vdd (ai_name a) || looks_like_vdd (oi_device_name o)
                 then Some (ai_index a, oi_index o, String.append (ai_name a) (String.append " / " (oi_device_name o)))
                 else None) (outputs a).

Definition vdd_hits (l : list AdapterInfo) : list (Z * Z * string) := l ≫= hits_of.

Definition find_adapter (f : AdapterInfo -> bool) (l : list AdapterInfo) : option AdapterInfo := List.find f l.

Definition vdd_on_hp (hp_luid : Z) (l : list AdapterInfo) : bool :=
  existsb (fun h => if find_adapter (fun a => ai_index a =? h.1.1) l is Some a then luid a =? hp_luid else false)
    (vdd_hits l).

(** What the probe finds out. *)
Record Report := {
  topology : list AdapterInfo; hp_luid : Z; hp_match : option AdapterInfo; hits : list (Z * Z * string);
  hit_on_hp : bool; hp_has_outputs : bool }.

Definition report (l : list AdapterInfo) (hp : Z) : Report :=
  let found := find_adapter (fun a => luid a =? hp) l in
  {| topology := l; hp_luid := hp; hp_match := found; hits := vdd_hits l; hit_on_hp := vdd_on_hp hp l;
     hp_has_outputs := if found is Some a then negb (Nat.eqb (length (outputs a)) 0) else false |}.

Definition run_probe (fuel : nat) : option (EngineResult Report) :=
  match factory env with
  | Err hr => Some (Err (Win32 hr))
  | Ok _ =>
      adapters ← enumerate_adapters_and_outputs fuel (adapters_now env);
      Some (adapters ← adapters;
            adapters ← probe_adapters adapters;
            hp ← win (preferred env);
            hp_desc ← win hp;
            Ok (report adapters (luid_of hp_desc)))
  end.

(** [main]: the exit code. *)
Definition topology_main (fuel : nat) : option Z :=
  r ← run_probe fuel;
  Some (match r with Ok r => if hp_has_outputs r then 0 else 1 | Err _ => 2 end).

(** * The same topology as the engine's *)

(** The monitor that an entry stands for. *)
Definition monitor_of_info (a : AdapterInfo) (o : OutputInfo) : MonitorInfo :=
  let '(l, t, r, b) := coords o in
  {| adapter_index := ai_index a; adapter_luid := luid a; adapter_name := ai_name a;
     adapter_vendor_id := vendor_id a; adapter_device_id := device_id a; adapter_is_software := is_software a;
     output_index_within_adapter := oi_index o; device_name := oi_device_name o;
     mon_width := Z.max (swrap 32 (r - l)) 0; mon_height := Z.max (swrap 32 (b - t)) 0;
     desktop_coords := coords o; rotation := oi_rotation o; attached_to_desktop := attached o;
     looks_virtual := looks_like_vdd (ai_name a) || looks_like_vdd (oi_device_name o) |}.

Definition monitors (l : list AdapterInfo) : list MonitorInfo := l ≫= (fun a => monitor_of_info a <$> outputs a).

Lemma output_infos_same fuel idx d : forall outs oidx k,
  (enum_outputs DXGI_ERROR_NOT_FOUND fuel idx d outs oidx : option (EngineResult (list MonitorInfo)))
  = option_map (fmap (M := result EngineError) (fmap (monitor_of_info (adapter_info idx d k)))) (output_infos fuel outs oidx).
Proof.
  induction fuel as [|fuel IH]; intros outs oidx k; cbn [enum_outputs output_infos];
    destruct (outs oidx) as [o|hr]; try (by destruct (hr =? _)); [done |].
  destruct (out_desc o) as [od|hr]; [| done]. rewrite (IH _ _ k). by destruct (output_infos fuel outs _) as [[l|e]|].
Qed.

(** The probe sees the monitors that the engine enumerates, and fails where it fails. *)
Lemma adapter_infos_same fuel fo : forall fac idx,
  (enum_adapters DXGI_ERROR_NOT_FOUND fuel fo fac idx : option (EngineResult (list MonitorInfo)))
  = option_map (fmap (M := result EngineError) monitors) (adapter_infos fuel fo fac idx).
Proof.
  induction fuel as [|fuel IH]; intros fac idx; cbn [enum_adapters adapter_infos];
    destruct (fac idx) as [a|hr]; try (by destruct (hr =? _)); [done |].
  destruct (adp_desc a) as [d|hr]; [| done]. rewrite (output_infos_same fo idx d (adp_outputs a) 0 []).
  destruct (output_infos fo (adp_outputs a) 0) as [[l|e]|]; cbn [option_map]; try done. cbn [mbind result_bind].
  rewrite IH. by destruct (adapter_infos fuel fo fac _) as [[k|e]|].
Qed.

(** * The probe on what DXGI presents *)

Definition presented_outputs (outs : list OutputDesc) : list OutputInfo :=
  imap (fun j o => output_info (Z.of_nat j) o) outs.

Definition presented (l : list (AdapterDesc * list OutputDesc)) : list AdapterInfo :=
  imap (fun i a => adapter_info (Z.of_nat i) a.1 (presented_outputs a.2)) l.

Lemma output_infos_ok outs l : presents_outputs DXGI_ERROR_NOT_FOUND outs l -> fits_u32 l ->
  forall fuel j, (length l - j <= fuel)%nat -> (j <= length l)%nat ->
  output_infos fuel outs (Z.of_nat j) = Some (Ok (imap (fun k o => output_info (Z.of_nat (j + k)) o) (drop j l))).
Proof.
  intros (Ho & Hn) Hu. induction fuel as [|fuel IH]; intros j Hf Hj.
  - replace j with (length l) by lia. rewrite drop_all. cbn [output_infos]. by rewrite Hn, Z.eqb_refl.
  - destruct (decide (j = length l)) as [-> | Hne].
    { rewrite drop_all. cbn [output_infos]. by rewrite Hn, Z.eqb_refl. }
    destruct (lookup_lt_is_Some_2 l j) as (o & Eo); [lia |]. cbn [output_infos].
    rewrite (Ho j o Eo), (drop_S _ _ _ Eo). cbn [out_desc].
    rewrite (next_index l j), IH by (done || lia). cbn. rewrite Nat.add_0_r.
    do 3 f_equal. apply imap_ext. intros k x _. cbn. by rewrite Nat.add_succ_r.
Qed.

Lemma adapter_infos_ok fac l fo : presents DXGI_ERROR_NOT_FOUND fac l -> fits_u32 l ->
  Forall (fun a => fits_u32 a.2 /\ (length a.2 <= fo)%nat) l ->
  forall fuel i, (length l - i <= fuel)%nat -> (i <= length l)%nat ->
  adapter_infos fuel fo fac (Z.of_nat i)
  = Some (Ok (imap (fun k a => adapter_info (Z.of_nat (i + k)) a.1 (presented_outputs a.2)) (drop i l))).
Proof.
  intros (Ha & Hn) Hu Hout. induction fuel as [|fuel IH]; intros i Hf Hi.
  - replace i with (length l) by lia. rewrite drop_all. cbn [adapter_infos]. by rewrite Hn, Z.eqb_refl.
  - destruct (decide (i = length l)) as [-> | Hne].
    { rewrite drop_all. cbn [adapter_infos]. by rewrite Hn, Z.eqb_refl. }
    destruct (lookup_lt_is_Some_2 l i) as ([d os] & Ei); [lia |]. cbn [adapter_infos].
    destruct (Ha i d os Ei) as (outs & -> & Hp). cbn [adp_desc adp_outputs].
    destruct (Forall_lookup_1 _ _ _ _ Hout Ei) as (Hu' & Hl). cbn in Hu', Hl.
    pose proof (output_infos_ok outs os Hp Hu' fo 0) as Eo. rewrite drop_0 in Eo. cbn [Nat.add] in Eo.
    change (Z.of_nat 0) with 0 in Eo. rewrite Eo by lia.
    rewrite (drop_S _ _ _ Ei), (next_index l i), IH by (done || lia). cbn. rewrite Nat.add_0_r.
    do 3 f_equal. apply imap_ext. intros k x _. cbn. by rewrite Nat.add_succ_r.
Qed.

(** An adapter after the probe: each of its outputs was tried, if it is no
    software adapter and a device could be created. *)
Definition probed (a : AdapterInfo) : AdapterInfo :=
  if is_software a || negb (is_ok (device_on env (ai_index a))) then a
  else set_outputs ((fun o => let d := duplicates env (ai_index a) (oi_index o) in
                              set_duplicate (probe_duplicate d.1 d.2) o) <$> outputs a) a.

Lemma probe_outputs_ok idx adapter l :
  (forall o, o ∈ l -> is_ok (adp_outputs adapter (oi_index o)) = true) ->
  probe_outputs idx adapter l
  = Ok ((fun o => let d := duplicates env idx (oi_index o) in set_duplicate (probe_duplicate d.1 d.2) o) <$> l).
Proof.
  induction l as [|o l IH]; intros H; [done |]. cbn [probe_outputs].
  specialize (H o (list_elem_of_here _ _)) as Ho. destruct (adp_outputs adapter (oi_index o)); [| done].
  cbn [win mbind result_bind]. rewrite IH by (intros; apply H; by constructor). done.
Qed.

(** The adapter's handle can be had again, and those of its outputs. *)
Definition still_there (a : AdapterInfo) : Prop :=
  exists adapter, adapters_later env (ai_index a) = Ok adapter
  /\ forall o, o ∈ outputs a -> is_ok (adp_outputs adapter (oi_index o)) = true.

Lemma probe_adapter_ok a : still_there a -> probe_adapter a = Ok (probed a).
Proof.
  intros (adapter & E & Ho). unfold probe_adapter, probed. rewrite E. destruct (is_software a); [done |].
  cbn [orb]. destruct (Nat.eqb_spec (length (outputs a)) 0) as [H0|_].
  - destruct (is_ok _); [| done]. cbn. destruct a as [? ? ? ? ? ? ? [|]]; done.
  - cbn [win mbind result_bind]. destruct (device_on env (ai_index a)); [| done]. by rewrite probe_outputs_ok.
Qed.

Lemma probe_adapters_ok l : Forall still_there l -> probe_adapters l = Ok (probed <$> l).
Proof.
  induction 1 as [|a l Ha _ IH]; [done |]. cbn [probe_adapters]. rewrite (probe_adapter_ok a Ha).
  cbn [mbind result_bind]. by rewrite IH.
Qed.

Lemma presented_still_there l : presents DXGI_ERROR_NOT_FOUND (adapters_later env) l -> Forall still_there (presented l).
Proof.
  intros (Ha & _). apply Forall_lookup_2. intros i a Ei. unfold presented in Ei. rewrite list_lookup_imap in Ei.
  destruct (l !! i) as [[d os]|] eqn:El; [| done]. injection Ei as <-. destruct (Ha i d os El) as (outs & E & Ho & _).
  exists {| adp_desc := Ok d; adp_outputs := outs |}. split; [exact E |]. cbn [outputs adapter_info adp_outputs].
  intros o Hin. apply list_elem_of_lookup in Hin as (j & Ej). unfold presented_outputs in Ej. rewrite list_lookup_imap in Ej.
  cbn in Ej. destruct (os !! j) as [od|] eqn:Eo; [| done]. injection Ej as <-. cbn. by rewrite (Ho j od Eo).
Qed.

(** Probing changes nothing that the engine would see. *)
Lemma monitors_probed l : monitors (probed <$> l) = monitors l.
Proof.
  unfold monitors. induction l as [|a l IH]; [done |]. cbn. rewrite IH. f_equal.
  unfold probed. destruct (is_software a || _); [done |]. cbn [outputs set_outputs]. rewrite <- list_fmap_compose.
  by apply list_fmap_ext.
Qed.

Lemma monitors_presented l : monitors (presented l) = all_monitors l.
Proof.
  unfold monitors, presented, all_monitors.
  enough (H : forall i, imap (fun k a => adapter_info (Z.of_nat (i + k)) a.1 (presented_outputs a.2)) l
      ≫= (fun a => monitor_of_info a <$> outputs a)
    = concat (imap (fun k a => monitors_of (Z.of_nat (i + k)) a.1 a.2) l)) by apply (H 0%nat).
  induction l as [|[d os] l IH]; intros i; [done |]. cbn. f_equal.
  - unfold monitors_of, presented_outputs. rewrite fmap_imap. by apply imap_ext.
  - specialize (IH (S i)). cbn in IH. etransitivity; [| etransitivity; [exact IH |]].
    + f_equal. apply imap_ext. intros k x _. cbn. by rewrite Nat.add_succ_r.
    + f_equal. apply imap_ext. intros k x _. cbn. by rewrite Nat.add_succ_r.
Qed.

Lemma luid_probed a : luid (probed a) = luid a.
Proof. unfold probed. by destruct (is_software a || _). Qed.

Lemma outputs_probed a : length (outputs (probed a)) = length (outputs a).
Proof. unfold probed. destruct (is_software a || _); [done |]. cbn. by rewrite length_fmap. Qed.

Lemma find_adapter_probed f l : (forall a, f (probed a) = f a) -> find_adapter f (probed <$> l) = probed <$> find_adapter f l.
Proof.
  intros H. unfold find_adapter. induction l as [|a l IH]; [done |]. cbn. rewrite H, IH. by destruct (f a).
Qed.

(** The first adapter with a LUID, where LUIDs are distinct. *)
Lemma find_luid l x : NoDup (luid <$> l) ->
  (exists a, find_adapter (fun a => luid a =? x) l = Some a /\ outputs a <> [])
  <-> exists m, m ∈ monitors l /\ adapter_luid m = x.
Proof.
  unfold monitors. intros Hd. split.
  - intros (a & E & Ho). apply List.find_some in E as (Hin & Hl). apply Z.eqb_eq in Hl.
    destruct (outputs a) as [|o os] eqn:Eo; [done |]. exists (monitor_of_info a o). split.
    + apply list_elem_of_bind. exists a. rewrite Eo. split; [apply list_elem_of_here | by apply list_elem_of_In].
    + rewrite <- Hl. unfold monitor_of_info. by destruct (coords o) as [[[] ?] ?].
  - intros (m & Hm & Hl). apply list_elem_of_bind in Hm as (a & Hm & Ha). apply list_elem_of_fmap in Hm as (o & -> & Ho).
    assert (El : luid a = x) by (rewrite <- Hl; unfold monitor_of_info; by destruct (coords o) as [[[] ?] ?]). clear Hl.
    exists a. split; [| intros E; rewrite E in Ho; by apply elem_of_nil in Ho].
    induction l as [|b l IH]; [by apply elem_of_nil in Ha |]. cbn in *. apply list.NoDup_cons in Hd as (Hb & Hd).
    apply elem_of_cons in Ha as [-> | Ha]; [by rewrite El, Z.eqb_refl |].
    destruct (Z.eqb_spec (luid b) x) as [E|_]; [| by apply IH].
    exfalso. apply Hb. rewrite E, <- El. by apply list_elem_of_fmap_2.
Qed.

(** The probe's verdict on the topology.  On what DXGI presents, with distinct
    LUIDs, the exit code is 0 exactly if the list of monitors that the engine
    enumerates has one of the high-performance adapter, and 1 otherwise; the
    report lists exactly these monitors, and each output of a hardware adapter
    with a device was tried, with success exactly if the engine's capturer
    could duplicate it. *)
Theorem topology_verdict fuel l hp :
  factory env = Ok tt -> presents DXGI_ERROR_NOT_FOUND (adapters_now env) l ->
  presents DXGI_ERROR_NOT_FOUND (adapters_later env) l -> preferred env = Ok (Ok hp) ->
  fits_u32 l -> (length l <= fuel)%nat -> Forall (fun a => fits_u32 a.2 /\ (length a.2 <= fuel)%nat) l ->
  NoDup ((fun a => luid_of a.1) <$> l) ->
  exists r, run_probe fuel = Some (Ok r) /\ monitors (topology r) = all_monitors l
  /\ topology r = probed <$> presented l
  /\ (topology_main fuel = Some 0 \/ topology_main fuel = Some 1)
  /\ (topology_main fuel = Some 0 <-> exists m, m ∈ all_monitors l /\ adapter_luid m = luid_of hp)
  /\ (forall o5 o1, success (probe_duplicate o5 o1) = is_ok (create_duplication o5 o1)).
Proof.
  intros Hf Hn Hl Hp Hu Hlen Hout Hd.
  assert (E : run_probe fuel = Some (Ok (report (probed <$> presented l) (luid_of hp)))).
  { unfold run_probe, enumerate_adapters_and_outputs. rewrite Hf.
    pose proof (adapter_infos_ok _ l fuel Hn Hu Hout fuel 0) as En. rewrite drop_0 in En. cbn [Nat.add] in En.
    change (Z.of_nat 0) with 0 in En. rewrite En by lia. change (imap _ l) with (presented l).
    cbn [mbind option_bind result_bind]. rewrite probe_adapters_ok by (by apply presented_still_there).
    cbn [mbind result_bind]. by rewrite Hp. }
  assert (Hm : monitors (probed <$> presented l) = all_monitors l) by (by rewrite monitors_probed, monitors_presented).
  eexists. split; [exact E |]. unfold topology_main. rewrite E. cbn [topology report mbind option_bind]. split_and!; [done | done | | |].
  - destruct (hp_has_outputs _); [by left | by right].
  - rewrite <- Hm, <- find_luid.
    + cbn [hp_has_outputs report]. destruct (find_adapter _ _) as [a|]; [| split; [done | by intros (? & ? & ?)]].
      split.
      * intros H. exists a. split; [done |]. intros Ho. by rewrite Ho in H.
      * intros (a' & [= <-] & Ho). by destruct (outputs a).
    + replace (luid <$> (probed <$> presented l)) with ((fun a => luid_of a.1) <$> l); [done |].
      rewrite <- list_fmap_compose. unfold presented. rewrite fmap_imap. rewrite <- imap_const. apply imap_ext.
      intros i a _. cbn. by rewrite luid_probed.
  - intros [[]|] [[]|]; done.
Qed.
End Probe.

(** * Witness *)

Definition demo_env (answer : result Z (result Z unit)) : TopologyEnv :=
  {| factory := Ok tt; adapters_now := demo_factory; adapters_later := demo_factory; device_on := fun _ => Ok tt;
     duplicates := fun _ _ => (answer, answer); preferred := Ok (Ok demo_adapter) |}.

Definition demo_vram (d : AdapterDesc) : Z := 8 * 2 ^ 30.

Definition demo_report (answer : result Z (result Z unit)) : Report :=
  {| topology := probed (demo_env answer) <$> presented demo_vram demo_presented; hp_luid := luid_of demo_adapter;
     hp_match := head (probed (demo_env answer) <$> presented demo_vram demo_presented);
     hits := [(0, 1, "NVIDIA GeForce / MttVDD"%string)]; hit_on_hp := true; hp_has_outputs := true |}.

Lemma topology_verdict_witness :
  run_probe 2 demo_vram (demo_env (Ok (Ok tt))) 4 = Some (Ok (demo_report (Ok (Ok tt))))
  /\ topology_main 2 demo_vram (demo_env (Ok (Ok tt))) 4 = Some 0.
Proof.
  destruct (topology_verdict 2 demo_vram (demo_env (Ok (Ok tt))) 4 demo_presented demo_adapter) as (r & E & _ & _ & _ & H & _);
    [done | apply demo_presents | apply demo_presents | done | done | cbn; lia | repeat constructor; cbn; lia
    | repeat constructor; by intros ?%elem_of_nil |].
  split; [vm_compute; reflexivity |]. apply H. eexists. split; [by left | done].
Defined.

(** The passing verdict says that every duplication succeeded; the exit code
    does not depend on them. *)
Lemma pass_without_duplication :
  topology_main 2 demo_vram (demo_env (Ok (Err 5))) 4 = Some 0
  /\ Forall (fun o => success <$> duplicate_ok o = Some false) (topology (demo_report (Ok (Err 5))) ≫= outputs).
Proof. split; [reflexivity | repeat constructor]. Qed.
