(* ===== verification/DesktopProbes.v ===== *)
(** Two probes of the desktop, [crates/penflow-core/examples]: the stroke of
    [inject_probe.rs], and the cursor log of [cursor_probe.rs].  Windows is an
    answer to each call, the clock and the acquired frames are inputs; what is
    printed besides the cursor log is left out. *)
From stdpp Require Import list strings sorting.
From S2P Require Import Prelude Engine Text F32 Inject InjectSpec Calls Monitors Capture.

(** * The stroke *)

Module Stroke.

Inductive StrokeCall :=
| SetDpiAwareness | CreateDevice | InjectPen (info : PenInfo) | Sleep (ms : Z) | DestroyDevice.

Definition mid_x : Z := 1920.
Definition mid_y : Z := 1080.
Definition stroke_len : Z := 80.
Definition steps : Z := 16.

Definition half : f32 := f32_div (f32_of_Z 1) (f32_of_Z 2).
Definition four_tenths : f32 := f32_div (f32_of_Z 4) (f32_of_Z 10).

Definition inject_info (x y : Z) (pressure : f32) (flags : PointerFlags) : PenInfo :=
  {| pi_flags := flags; pi_x := x; pi_y := y; pi_inverted := false;
     pi_pressure := f32_round_u32 (f32_mul (f32_clamp f32_zero (f32_of_Z 1) pressure) (f32_of_Z 1024));
     pi_tilt_x := 0; pi_tilt_y := 0 |}.

Definition arrival_flags : PointerFlags :=
  {| f_new := true; f_inrange := true; f_incontact := false; f_firstbutton := false; f_primary := false;
     f_down := false; f_update := true; f_up := false |}.

Definition step_flags (i : Z) : PointerFlags :=
  {| f_new := false; f_inrange := true; f_incontact := true; f_firstbutton := true; f_primary := false;
     f_down := i =? 0; f_update := negb (i =? 0); f_up := false |}.

Definition up_flags : PointerFlags :=
  {| f_new := false; f_inrange := false; f_incontact := false; f_firstbutton := false; f_primary := false;
     f_down := false; f_update := false; f_up := true |}.

Definition step_x (i : Z) : Z := mid_x + Z.quot (i * stroke_len) steps.

Definition step_pressure (i : Z) : f32 :=
  f32_add half (f32_mul four_tenths (f32_div (f32_of_Z i) (f32_of_Z steps))).

Definition arrival : PenInfo := inject_info mid_x mid_y f32_zero arrival_flags.

Definition contact (i : Z) : PenInfo := inject_info (step_x i) mid_y (step_pressure i) (step_flags i).

Definition departure : PenInfo := inject_info (mid_x + stroke_len) mid_y f32_zero up_flags.

Section Probe.
Context (answer : CallLog StrokeCall -> StrokeCall -> EngineResult unit).

Definition inject_call (info : PenInfo) : Calls StrokeCall unit := call answer (InjectPen info).

(** The loop over the steps. *)
Fixpoint contacts (l : list Z) : Calls StrokeCall unit :=
  match l with
  | [] => mret tt
  | i :: l' => inject_call (contact i);; act (Sleep 8);; contacts l'
  end.

(** [0..=steps]. *)
Definition step_indices : list Z := Z.of_nat <$> seq 0 (S (Z.to_nat steps)).

Definition stroke_probe : Calls StrokeCall unit :=
  call answer CreateDevice;;
  inject_call arrival;; act (Sleep 8);;
  contacts step_indices;;
  inject_call departure;;
  act DestroyDevice.

(** [main]: the exit code. *)
Definition stroke_main : Calls StrokeCall Z :=
  (_ ← attempt answer SetDpiAwareness; mret tt);;
  r ← calls_try stroke_probe;
  mret (match r with Ok _ => 0 | Err _ => 1 end).

(** ** What it amounts to *)

Definition survives (c : StrokeCall) (e : EngineError) : bool :=
  match c with SetDpiAwareness | Sleep _ | DestroyDevice => true | _ => false end.

Definition contact_calls (l : list Z) : list StrokeCall := l ≫= (fun i => [InjectPen (contact i); Sleep 8]).

Definition stroke_calls : list StrokeCall :=
  [CreateDevice; InjectPen arrival; Sleep 8] ++ contact_calls step_indices ++ [InjectPen departure; DestroyDevice].

Lemma contacts_runs l : runs survives (contacts l) (contact_calls l).
Proof. induction l as [|i l IH]; cbn [contacts]; [apply runs_ret |]. eapply runs_conv; [unfold inject_call; eapply runs_seq; [runs | eapply runs_seq; [runs | exact IH]] | done]. Qed.

Lemma stroke_runs : runs survives stroke_probe stroke_calls.
Proof.
  unfold stroke_probe, inject_call. eapply runs_conv.
  - eapply runs_seq; [runs | eapply runs_seq; [runs | eapply runs_seq; [runs |
      eapply runs_seq; [apply contacts_runs | runs]]]].
  - done.
Qed.

(** The pen frames of a log, as the injector's specification reads them. *)
Definition pen_frames (log : CallLog StrokeCall) : Log :=
  omap (fun x => match x.1 with InjectPen info => Some (CallPen info, is_ok x.2) | _ => None end) log.

Definition infos (cs : list StrokeCall) : list PenInfo :=
  omap (fun c => match c with InjectPen info => Some info | _ => None end) cs.

Definition all_accepted (l : list PenInfo) : Log := (fun info => (CallPen info, true)) <$> l.

Lemma pen_frames_fine log : Forall (fine survives) log -> pen_frames log = all_accepted (infos log.*1).
Proof.
  induction 1 as [|[c r] log Hf _ IH]; [done |]. unfold pen_frames, infos in *. cbn.
  destruct c; cbn in Hf |- *; try exact IH. rewrite IH. by destruct r.
Qed.

Lemma legal_prefix l k : legal_pen (false, false) (all_accepted k) -> l `prefix_of` k ->
  legal_pen (false, false) (all_accepted l).
Proof. intros H (r & ->). unfold all_accepted in H. rewrite fmap_app, legal_pen_app in H. apply H. Qed.

Lemma stroke_legal : legal_pen (false, false) (all_accepted (infos stroke_calls)).
Proof. cbn. unfold legal_pen_frame. cbn. repeat split; done. Qed.

Lemma infos_prefix l k : l `prefix_of` k -> infos l `prefix_of` infos k.
Proof. intros (r & ->). unfold infos. rewrite omap_app. by eexists. Qed.

(** The frames of any run of the plan are legal, a refused last one included. *)
Lemma outcome_legal (r : EngineResult unit) ext : outcome survives stroke_calls r ext ->
  legal_pen (false, false) (pen_frames ext).
Proof.
  destruct r as [[]|e]; intros (H1 & H2).
  - rewrite pen_frames_fine, H1 by done. apply stroke_legal.
  - destruct H1 as (pre & c & -> & Hc & Hf). rewrite fmap_app in H2.
    pose proof (legal_prefix _ _ stroke_legal (infos_prefix _ _ H2)) as H.
    unfold pen_frames. rewrite omap_app. fold (pen_frames pre). rewrite pen_frames_fine by done.
    unfold infos in H. rewrite omap_app in H. fold (infos pre.*1) in H. unfold all_accepted in H |- *. rewrite fmap_app in H.
    destruct c; cbn in H |- *; rewrite ?app_nil_r in *; try exact H. rewrite legal_pen_snoc in H |- *. exact H.
Qed.

(** The last element of a list, met in a prefix, makes it the whole list. *)
Lemma prefix_with_last {A} (l body : list A) x : l `prefix_of` body ++ [x] -> x ∉ body -> x ∈ l -> l = body ++ [x].
Proof.
  intros (r & E) Hn Hx. destruct r as [|y r _] using rev_ind; [by rewrite app_nil_r in E |].
  rewrite app_assoc in E. apply List.app_inj_tail in E as (-> & _). exfalso. apply Hn, elem_of_app. by left.
Qed.
Definition before_destroy : list StrokeCall :=
  [CreateDevice; InjectPen arrival; Sleep 8] ++ contact_calls step_indices ++ [InjectPen departure].

Lemma no_early_destroy : DestroyDevice ∉ before_destroy.
Proof.
  intros H. assert (Hf : forallb (fun c => match c with DestroyDevice => false | _ => true end) before_destroy = true) by done.
  rewrite List.forallb_forall in Hf. by apply list_elem_of_In, Hf in H.
Qed.

(** The stroke probe.  Whatever Windows answers, the exit code is 0 or 1; it is
    0 exactly if the device was created and the whole stroke went through,
    which is also the only case in which the device is destroyed; and every
    frame ever sent is a legal step of the pen protocol, which a whole stroke
    leaves with the pen gone. *)
Theorem stroke_sound :
  exists code ext, stroke_main [] = (Ok code, (SetDpiAwareness, answer [] SetDpiAwareness) :: ext)
  /\ (code = 0 \/ code = 1) /\ legal_pen (false, false) (pen_frames ext)
  /\ (code = 0 -> ext.*1 = stroke_calls /\ pen_view (pen_frames ext) = (false, false))
  /\ (code = 1 -> exists e, stops_at survives e ext /\ ext.*1 `prefix_of` stroke_calls)
  /\ (DestroyDevice ∈ ext.*1 <-> code = 0).
Proof.
  destruct (stroke_runs [(SetDpiAwareness, answer [] SetDpiAwareness)]) as (ext & El & Ho).
  assert (E : stroke_main [] = (let '(r, log) := stroke_probe [(SetDpiAwareness, answer [] SetDpiAwareness)] in
    (Ok (match r with Ok _ => 0 | Err _ => 1 end), log))).
  { unfold stroke_main, calls_try. unfold mbind, Calls_bind at 1. unfold attempt. unfold mbind, Calls_bind at 1. unfold mret, Calls_ret at 1. cbn [app]. unfold Calls_bind. unfold mret, Calls_ret. by destruct (stroke_probe _). }
  rewrite E. clear E.
  destruct (stroke_probe [(SetDpiAwareness, answer [] SetDpiAwareness)]) as [r log]. cbn [fst snd] in El, Ho. subst log.
  pose proof (outcome_legal _ _ Ho) as Hl. destruct r as [[]|e]; eexists _, ext; (split; [reflexivity |]).
  - destruct Ho as (H1 & H2). split_and!; [by left | exact Hl | | done |].
    + intros _. split; [exact H1 |]. rewrite pen_frames_fine, H1 by done. done.
    + rewrite H1. split; [done |]. intros _. rewrite (eq_refl : stroke_calls = before_destroy ++ [DestroyDevice]). apply elem_of_app. right. apply elem_of_cons; by left.
  - split_and!; [by right | exact Hl | done | intros _; by exists e |]. split; [| done]. intros Hin. exfalso.
    destruct Ho as ((pre & c & -> & Hc & _) & Hp). pose proof (prefix_with_last _ before_destroy DestroyDevice Hp no_early_destroy Hin) as E.
    rewrite fmap_app in E. apply List.app_inj_tail in E as (_ & Ec). cbn in Ec. by subst c.
Qed.
End Probe.
End Stroke.

(** A run in which all is well. *)
Example stroke_all_well : (Stroke.stroke_main (fun _ _ => Ok tt) []).1 = Ok 0
  /\ pi_pressure <$> Stroke.infos Stroke.stroke_calls
     = [0; 512; 538; 563; 589; 614; 640; 666; 691; 717; 742; 768; 794; 819; 845; 870; 896; 922; 0].
Proof. split; vm_compute; reflexivity. Qed.

(** A refused frame ends the probe without a destroyed device, and a device
    that cannot be created gives the exit code of a refused frame. *)
Lemma aborted_stroke_leaks : exists log,
  Stroke.stroke_main (fun _ c => match c with Stroke.InjectPen _ => Err (Win32 5) | _ => Ok tt end) [] = (Ok 1, log)
  /\ (Stroke.CreateDevice, Ok tt) ∈ log /\ Forall (fun x => x.1 <> Stroke.DestroyDevice) log.
Proof.
  eexists. split; [reflexivity |]. split; [by right; left | by repeat constructor].
Qed.

Lemma failed_setup_exits_one :
  (Stroke.stroke_main (fun _ c => match c with Stroke.CreateDevice => Err (Win32 5) | _ => Ok tt end) []).1 = Ok 1.
Proof. reflexivity. Qed.

(** * The cursor log *)

Module CursorLog.

(** What the loop remembers; instants are in nanoseconds. *)
Record Seen := {
  prev_visible : option bool; prev_pos : option (Z * Z); last_shape_log : option Z;
  frames_seen : Z; frames_with_shape : Z; last_summary : Z }.

(** A printed line; a position also carries the instant noted with it. *)
Inductive Line :=
| Visible (before : option bool) (now : bool) (pos : Z * Z)
| Moved (noted : Z) (pos : Z * Z)
| ShapeSize (size : nat)
| Summary (frames shapes : Z).

(** A turn of the loop: the acquisition, and the clock where it is read. *)
Record WatchTurn := {
  tu_acquired : EngineResult (option FrameInfo);
  tu_checked : Z; tu_noted : Z; tu_summed : Z; tu_reset : Z }.

Definition elapsed (since now : Z) : Z := Z.max 0 (now - since).

Definition POSITION_GAP : Z := 100 * 1000000.
Definition SUMMARY_GAP : Z := 5 * 1000000000.

Definition see_pointer (t : WatchTurn) (visible : bool) (pos : Z * Z) (s : Seen) : list Line * Seen :=
  if negb (bool_decide (Some visible = prev_visible s)) then
    ([Visible (prev_visible s) visible pos],
     {| prev_visible := Some visible; prev_pos := prev_pos s; last_shape_log := last_shape_log s;
        frames_seen := frames_seen s; frames_with_shape := frames_with_shape s; last_summary := last_summary s |})
  else if visible && negb (bool_decide (Some pos = prev_pos s)) then
    if (if last_shape_log s is Some at_ then POSITION_GAP <? elapsed at_ (tu_checked t) else true) then
      ([Moved (tu_noted t) pos],
       {| prev_visible := prev_visible s; prev_pos := Some pos; last_shape_log := Some (tu_noted t);
          frames_seen := frames_seen s; frames_with_shape := frames_with_shape s; last_summary := last_summary s |})
    else ([], s)
  else ([], s).

Definition see_shape (size : nat) (s : Seen) : list Line * Seen :=
  if Nat.ltb 0 size then
    ([ShapeSize size],
     {| prev_visible := prev_visible s; prev_pos := prev_pos s; last_shape_log := last_shape_log s;
        frames_seen := frames_seen s; frames_with_shape := frames_with_shape s + 1; last_summary := last_summary s |})
  else ([], s).

Definition count_frame (s : Seen) : Seen :=
  {| prev_visible := prev_visible s; prev_pos := prev_pos s; last_shape_log := last_shape_log s;
     frames_seen := frames_seen s + 1; frames_with_shape := frames_with_shape s; last_summary := last_summary s |}.

Definition see_frame (t : WatchTurn) (fi : FrameInfo) (s : Seen) : list Line * Seen :=
  let s := count_frame s in
  let '(l1, s) := see_pointer t (fi_pointer_visible fi) (fi_pointer_x fi, fi_pointer_y fi) s in
  let '(l2, s) := see_shape (fi_pointer_shape_buffer_size fi) s in
  (l1 ++ l2, s).

Definition summarise (t : WatchTurn) (s : Seen) : list Line * Seen :=
  if SUMMARY_GAP <? elapsed (last_summary s) (tu_summed t) then
    ([Summary (frames_seen s) (frames_with_shape s)],
     {| prev_visible := prev_visible s; prev_pos := prev_pos s; last_shape_log := last_shape_log s;
        frames_seen := frames_seen s; frames_with_shape := frames_with_shape s; last_summary := tu_reset t |})
  else ([], s).

(** The loop: what it printed, its state, and whether it ended with an exit code. *)
Fixpoint watch (turns : list WatchTurn) (s : Seen) : list Line * Seen * option Z :=
  match turns with
  | [] => ([], s, None)
  | t :: turns' =>
      match tu_acquired t with
      | Err _ => ([], s, Some 2)
      | Ok acquired =>
          let '(l1, s) := match acquired with Some fi => see_frame t fi s | None => ([], s) end in
          let '(l2, s) := summarise t s in
          let '(l3, s, code) := watch turns' s in
          (l1 ++ l2 ++ l3, s, code)
      end
  end.

Definition start_watch (start : Z) : Seen :=
  {| prev_visible := None; prev_pos := None; last_shape_log := None; frames_seen := 0; frames_with_shape := 0;
     last_summary := start |}.

(** How the opening calls end: the factory, the monitors, and for the chosen
    monitor the adapter, the device and the capturer. *)
Record Opening := {
  op_factory : EngineResult unit; op_monitors : EngineResult (list MonitorInfo);
  op_adapter : MonitorInfo -> EngineResult unit; op_device : MonitorInfo -> EngineResult unit;
  op_capturer : MonitorInfo -> EngineResult unit }.

(** [main]: the lines of the log, and the exit code if it ends. *)
Definition cursor_main (env : Opening) (args : list Str) (start : Z) (turns : list WatchTurn) : list Line * option Z :=
  match op_factory env, op_monitors env with
  | Ok _, Ok mons =>
      let attached := List.filter attached_to_desktop mons in
      if Nat.eqb (length attached) 0 then ([], Some 2)
      else
        match args !! 1%nat ≫= parse_usize with
        | None => ([], Some 0)
        | Some idx =>
            match attached !! Z.to_nat idx with
            | None => ([], Some 2)
            | Some mon =>
                match op_adapter env mon, op_device env mon, op_capturer env mon with
                | Ok _, Ok _, Ok _ => let '(l, _, code) := watch turns (start_watch start) in (l, code)
                | _, _, _ => ([], Some 2)
                end
            end
        end
  | _, _ => ([], Some 2)
  end.

(** ** What is printed *)

Definition moves (l : list Line) : list (Z * (Z * Z)) :=
  omap (fun x => match x with Moved at_ pos => Some (at_, pos) | _ => None end) l.

Definition visibles (l : list Line) : list bool :=
  omap (fun x => match x with Visible _ b _ => Some b | _ => None end) l.

Definition shapes (l : list Line) : list nat :=
  omap (fun x => match x with ShapeSize n => Some n | _ => None end) l.

Definition seen_frames (turns : list WatchTurn) : list FrameInfo :=
  omap (fun t => match tu_acquired t with Ok (Some fi) => Some fi | _ => None end) turns.

Definition acquires (turns : list WatchTurn) : Prop := Forall (fun t => is_ok (tu_acquired t) = true) turns.

Definition apart (a b : Z * (Z * Z)) : Prop := a.1 + POSITION_GAP < b.1 /\ a.2 <> b.2.

(** What the state remembers of the lines printed so far. *)
Record remembers (l : list Line) (s : Seen) : Prop := {
  rm_moves : Sorted apart (moves l);
  rm_last : list.last (moves l) = match last_shape_log s, prev_pos s with Some a, Some p => Some (a, p) | _, _ => None end;
  rm_both : is_Some (last_shape_log s) <-> is_Some (prev_pos s);
  rm_visibles : Sorted (fun a b => a <> b) (visibles l);
  rm_visible : list.last (visibles l) = prev_visible s;
  rm_shapes : frames_with_shape s = Z.of_nat (length (shapes l));
}.

Lemma Sorted_snoc {A} (R : A -> A -> Prop) l x : Sorted R l -> (forall y, list.last l = Some y -> R y x) -> Sorted R (l ++ [x]).
Proof.
  induction 1 as [|a l Hs IH Hd]; intros H; [by repeat constructor |]. cbn. constructor.
  - apply IH. intros y Hy. apply H. rewrite last_cons. by rewrite Hy.
  - destruct l as [|b l]; cbn; constructor; [by apply H | by inversion Hd].
Qed.

Lemma moves_app l k : moves (l ++ k) = moves l ++ moves k. Proof. apply omap_app. Qed.
Lemma visibles_app l k : visibles (l ++ k) = visibles l ++ visibles k. Proof. apply omap_app. Qed.
Lemma shapes_app l k : shapes (l ++ k) = shapes l ++ shapes k. Proof. apply omap_app. Qed.

(** A line that the state need not remember. *)
Lemma remembers_more l k s s' : remembers l s -> moves k = [] -> visibles k = [] ->
  last_shape_log s' = last_shape_log s -> prev_pos s' = prev_pos s -> prev_visible s' = prev_visible s ->
  frames_with_shape s' = frames_with_shape s + Z.of_nat (length (shapes k)) -> remembers (l ++ k) s'.
Proof.
  intros [] Hm Hv E1 E2 E3 E4. constructor;
    rewrite ?moves_app, ?visibles_app, ?shapes_app, ?Hm, ?Hv, ?app_nil_r, ?E1, ?E2, ?E3, ?E4; try done.
  rewrite length_app, rm_shapes0. lia.
Qed.

Lemma see_pointer_remembers l t visible pos s : remembers l s -> tu_checked t <= tu_noted t ->
  remembers (l ++ (see_pointer t visible pos s).1) (see_pointer t visible pos s).2
  /\ frames_seen (see_pointer t visible pos s).2 = frames_seen s.
Proof.
  intros H Ht. unfold see_pointer. destruct (bool_decide_reflect (Some visible = prev_visible s)) as [_|Hv]; cbn [negb].
  2: { split; [| done]. destruct H. constructor; cbn [fst snd last_shape_log prev_pos prev_visible frames_with_shape];
      rewrite ?moves_app, ?visibles_app, ?shapes_app; cbn [moves visibles shapes omap list_omap]; rewrite ?app_nil_r; try done.
    - apply Sorted_snoc; [done |]. intros y Hy ->. by rewrite <- rm_visible0, Hy in Hv.
    - apply last_snoc. }
  destruct (visible && _) eqn:Ep; [| cbn; by rewrite app_nil_r].
  apply andb_true_iff in Ep as (_ & Ep). apply negb_true_iff, bool_decide_eq_false in Ep.
  destruct (match last_shape_log s with Some _ => _ | None => _ end) eqn:Eg; [| cbn; by rewrite app_nil_r].
  split; [| done]. destruct H. constructor; cbn [fst snd last_shape_log prev_pos prev_visible frames_with_shape];
    rewrite ?moves_app, ?visibles_app, ?shapes_app; cbn [moves visibles shapes omap list_omap]; rewrite ?app_nil_r; try done.
  - apply Sorted_snoc; [done |]. intros y Hy. rewrite Hy in rm_last0.
    destruct (last_shape_log s) as [a|], (prev_pos s) as [p|]; try done. injection rm_last0 as ->.
    apply Z.ltb_lt in Eg. split; cbn; [unfold elapsed, POSITION_GAP in *; lia | congruence].
  - apply last_snoc.
Qed.

Lemma see_frame_remembers l t fi s : remembers l s -> tu_checked t <= tu_noted t ->
  remembers (l ++ (see_frame t fi s).1) (see_frame t fi s).2 /\ frames_seen (see_frame t fi s).2 = frames_seen s + 1.
Proof.
  intros H Ht. unfold see_frame.
  assert (Hc : remembers l (count_frame s)).
  { rewrite <- (app_nil_r l). apply (remembers_more l [] s); try done. cbn. lia. }
  destruct (see_pointer_remembers l t (fi_pointer_visible fi) (fi_pointer_x fi, fi_pointer_y fi) (count_frame s) Hc Ht) as (H1 & H2).
  destruct (see_pointer _ _ _ _) as [l1 s1]. cbn [fst snd] in H1, H2. unfold see_shape.
  destruct (Nat.ltb _ _); cbn [fst snd]; rewrite app_assoc.
  - split; [| done]. by apply (remembers_more _ _ s1).
  - split; [by rewrite app_nil_r | done].
Qed.

Lemma summarise_remembers l t s : remembers l s ->
  remembers (l ++ (summarise t s).1) (summarise t s).2 /\ frames_seen (summarise t s).2 = frames_seen s.
Proof.
  intros H. unfold summarise. destruct (_ <? _); cbn; [| by rewrite app_nil_r].
  split; [| done]. apply (remembers_more _ _ s); try done. cbn. lia.
Qed.

Lemma watch_remembers turns : forall l s, remembers l s -> Forall (fun t => tu_checked t <= tu_noted t) turns ->
  remembers (l ++ (watch turns s).1.1) (watch turns s).1.2
  /\ (acquires turns -> (watch turns s).2 = None
      /\ frames_seen (watch turns s).1.2 = frames_seen s + Z.of_nat (length (seen_frames turns)))
  /\ (~ acquires turns -> (watch turns s).2 = Some 2).
Proof.
  induction turns as [|t turns IH]; intros l s H Hc.
  { cbn. rewrite app_nil_r. split_and!; [done | intros _; split; [done | lia] | intros Hn; exfalso; apply Hn; constructor]. }
  apply Forall_cons_1 in Hc as (Ht & Hc). cbn [watch].
  destruct (tu_acquired t) as [acquired|e] eqn:Ea.
  2: { cbn. rewrite app_nil_r. split_and!; [done | | done]. intros Hq. apply Forall_cons_1 in Hq as (Hq & _). by rewrite Ea in Hq. }
  assert (Hq : acquires (t :: turns) <-> acquires turns).
  { unfold acquires. rewrite list.Forall_cons, Ea. cbn. tauto. }
  assert (Hs : exists n, (n = length (seen_frames [t]))
    /\ remembers (l ++ (match acquired with Some fi => see_frame t fi s | None => ([], s) end).1)
         (match acquired with Some fi => see_frame t fi s | None => ([], s) end).2
    /\ frames_seen (match acquired with Some fi => see_frame t fi s | None => ([], s) end).2 = frames_seen s + Z.of_nat n).
  { unfold seen_frames. cbn. rewrite Ea. destruct acquired as [fi|].
    - exists 1%nat. destruct (see_frame_remembers l t fi s H Ht). by split_and!.
    - exists 0%nat. cbn. rewrite app_nil_r. split_and!; try done. lia. }
  destruct Hs as (n & Hn & H1 & Hf1). destruct (match acquired with Some _ => _ | None => _ end) as [l1 s1]. cbn [fst snd] in H1, Hf1.
  destruct (summarise_remembers _ t _ H1) as (H2 & Hf2). destruct (summarise t s1) as [l2 s2]. cbn [fst snd] in H2, Hf2.
  destruct (IH _ _ H2 Hc) as (H3 & Hy & Hno). destruct (watch turns s2) as [[l3 s3] code]. cbn [fst snd] in H3, Hy, Hno |- *.
  rewrite <- !app_assoc in H3. split_and!; [done | |].
  - rewrite Hq. intros Ha. destruct (Hy Ha) as (-> & Hf). split; [done |].
    rewrite Hf, Hf2, Hf1, Hn. change (t :: turns) with ([t] ++ turns). unfold seen_frames.
    rewrite (omap_app _ [t] turns), length_app. lia.
  - by rewrite Hq.
Qed.

(** The cursor log.  Positions are printed more than a tenth of a second apart
    and each differs from the one printed before; printed visibilities
    alternate; the lines about shapes are counted; the probe ends only with a
    failed acquisition, with exit code 2, and until then counts every frame. *)
Theorem cursor_log_exact turns start : Forall (fun t => tu_checked t <= tu_noted t) turns ->
  let '(l, s, code) := watch turns (start_watch start) in
  Sorted apart (moves l) /\ Sorted (fun a b => a <> b) (visibles l)
  /\ frames_with_shape s = Z.of_nat (length (shapes l))
  /\ (acquires turns -> code = None /\ frames_seen s = Z.of_nat (length (seen_frames turns)))
  /\ (~ acquires turns -> code = Some 2).
Proof.
  intros Hc. destruct (watch_remembers turns [] (start_watch start)) as (H & Hy & Hn).
  { constructor; cbn; try constructor; done. }
  { done. }
  destruct (watch turns (start_watch start)) as [[l s] code]. cbn in H, Hy, Hn. destruct H. by split_and!.
Qed.
End CursorLog.

Definition demo_pointer (visible : bool) (x : Z) (shape : nat) : FrameInfo :=
  {| fi_last_present_time := 0; fi_last_mouse_update_time := 1; fi_pointer_x := x; fi_pointer_y := 0;
     fi_pointer_visible := visible; fi_pointer_shape_buffer_size := shape |}.

(** A turn at [ms] milliseconds. *)
Definition demo_turn (ms : Z) (a : EngineResult (option FrameInfo)) : CursorLog.WatchTurn :=
  {| CursorLog.tu_acquired := a; CursorLog.tu_checked := ms * 1000000; CursorLog.tu_noted := ms * 1000000 + 1;
     CursorLog.tu_summed := ms * 1000000 + 2; CursorLog.tu_reset := ms * 1000000 + 3 |}.

Definition demo_turns : list CursorLog.WatchTurn :=
  [demo_turn 10 (Ok (Some (demo_pointer true 1 64))); demo_turn 20 (Ok (Some (demo_pointer true 2 0)));
   demo_turn 30 (Ok (Some (demo_pointer true 3 0))); demo_turn 130 (Ok None);
   demo_turn 140 (Ok (Some (demo_pointer true 4 0))); demo_turn 5100 (Ok (Some (demo_pointer false 4 0)));
   demo_turn 5200 (Err (Win32 5))].

Lemma cursor_log_exact_witness :
  CursorLog.watch demo_turns (CursorLog.start_watch 0)
  = ([CursorLog.Visible None true (1, 0); CursorLog.ShapeSize 64; CursorLog.Moved 20000001 (2, 0);
      CursorLog.Moved 140000001 (4, 0); CursorLog.Visible (Some true) false (4, 0); CursorLog.Summary 5 1],
     {| CursorLog.prev_visible := Some false; CursorLog.prev_pos := Some (4, 0);
        CursorLog.last_shape_log := Some 140000001; CursorLog.frames_seen := 5;
        CursorLog.frames_with_shape := 1; CursorLog.last_summary := 5100000003 |}, Some 2)
  /\ CursorLog.apart (20000001, (2, 0)) (140000001, (4, 0)).
Proof.
  pose proof (CursorLog.cursor_log_exact demo_turns 0) as H. specialize (H ltac:(repeat constructor; cbn; lia)).
  split; [vm_compute; reflexivity |].
  destruct (CursorLog.watch demo_turns (CursorLog.start_watch 0)) as [[l s] code] eqn:E.
  vm_compute in E. injection E as <- <- <-. destruct H as (H & _). cbn in H.
  inversion H as [|? ? ? Hd]; subst. by inversion Hd.
Defined.

Definition demo_opening : CursorLog.Opening :=
  {| CursorLog.op_factory := Ok tt; CursorLog.op_monitors := Ok (all_monitors demo_presented);
     CursorLog.op_adapter := fun _ => Ok tt; CursorLog.op_device := fun _ => Ok tt;
     CursorLog.op_capturer := fun _ => Ok tt |}.

Example cursor_main_exits :
  (CursorLog.cursor_main demo_opening [lit "probe"] 0 demo_turns).2 = Some 0
  /\ (CursorLog.cursor_main demo_opening [lit "probe"; lit "2"] 0 demo_turns).2 = Some 2
  /\ (CursorLog.cursor_main demo_opening [lit "probe"; lit "1"] 0 []).2 = None.
Proof. vm_compute. by split_and!. Qed.
