(* ===== verification/EncoderProbes.v ===== *)
(** The probes that drive the engine's own encoder,
    [crates/penflow-core/examples]: [intel_qsv_probe.rs] over a matrix of
    configurations on the adapter of a vendor, [encoder_texture_probe.rs] at
    one size, and [capture_to_file.rs] with the whole engine.

    The adapters, the devices, the transform and the clock are inputs.  The
    encoder session is that of [Encoder]; what is printed is left out. *)
From stdpp Require Import list strings.
From S2P Require Import Prelude Engine Text Monitors Encoder EncodedPipeline.

(** * The loop both encoder probes share *)

(** How a run over one configuration fails. *)
Inductive ProbeError :=
| Setup (e : EngineError) | MakeSession (e : EngineError) | NewConverter (e : EngineError) | KeepaliveTex (e : EngineError)
| ClearTex (e : EngineError) | Convert (e : EngineError) | SubmitFrame (i : nat) (e : EngineError)
| TryPacket (i : nat) (e : EngineError) | TryPacketDrain (e : EngineError).

(** What one configuration meets.  The [k]th poll after frame [i] finds
    [arrived i k] events, the one in round [i] of the drain [drained i k]. *)
Record ProbeEnv := {
  pe_session : EngineResult (list Got);
  pe_converter : EngineResult unit;
  pe_keepalive : EngineResult unit;
  pe_clear : EngineResult unit;
  pe_convert : nat -> EngineResult unit;
  pe_submit : nat -> SubmitEnv;
  pe_arrived : nat -> nat -> nat;
  pe_drained : nat -> nat -> nat;
  pe_elapsed_ms : nat -> Z;
}.

Section Client.
Context (mf : MfConstants) (cfg : SessionConfig) (env : ProbeEnv).
(** The stamp of a frame, and whether it asks for a key frame. *)
Context (pts : nat -> Z) (force : nat -> bool).

(** The loop over the frames, with the packets it gets; [None]: it hangs. *)
Fixpoint feed (frames : list nat) (e : Enc) : option (result ProbeError unit) * list EncodedPacket * Enc :=
  match frames with
  | [] => (Some (Ok tt), [], e)
  | i :: frames' =>
      match pe_convert env i with
      | Err err => (Some (Err (Convert err)), [], e)
      | Ok _ =>
          match submit_frame mf cfg (pe_submit env i) (pts i) (force i) e with
          | (None, e) => (None, [], e)
          | (Some (Err err), e) => (Some (Err (SubmitFrame i err)), [], e)
          | (Some (Ok _), e) =>
              match drain_packets mf cfg (drain_fuel e) 0 (pe_arrived env i) e with
              | (Err err, ps, e) => (Some (Err (TryPacket i err)), ps, e)
              | (Ok _, ps, e) => let '(r, qs, e) := feed frames' e in (r, ps ++ qs, e)
              end
          end
      end
  end.

Fixpoint drain (rounds : list nat) (e : Enc) : result ProbeError unit * list EncodedPacket * Enc :=
  match rounds with
  | [] => (Ok tt, [], e)
  | i :: rounds' =>
      match drain_packets mf cfg (drain_fuel e) 0 (pe_drained env i) e with
      | (Err err, ps, e) => (Err (TryPacketDrain err), ps, e)
      | (Ok _, ps, e) => let '(r, qs, e) := drain rounds' e in (r, ps ++ qs, e)
      end
  end.

Definition FRAMES : list nat := seq 0 30.

(** Both loops of a probe. *)
Definition pump (e : Enc) : option (result ProbeError unit) * list EncodedPacket * Enc :=
  match feed FRAMES e with
  | (Some (Ok _), ps, e) => let '(r, qs, e) := drain FRAMES e in (Some r, ps ++ qs, e)
  | r => r
  end.

(** ** What the loops do *)

Definition frame_calls (i : nat) : list MftCall :=
  (if force i then [ForceKeyFrame] else []) ++ [ProcessInput (sample_time (pts i)) (dur_100ns cfg)].

Lemma feed_spec frames : forall acc handed e, Forall (fun i => i64 (pts i)) frames ->
  session_inv cfg acc handed (e_session e) -> (feed frames e).1.1 = Some (Ok tt) ->
  session_inv cfg (acc ++ (pts <$> frames)) (handed ++ (feed frames e).1.2) (e_session (feed frames e).2)
  /\ e_calls (feed frames e).2 = e_calls e ++ (frames ≫= frame_calls).
Proof.
  induction frames as [|i frames IH]; intros acc handed e Hp H Hr; [by cbn; rewrite !app_nil_r |].
  apply Forall_cons_1 in Hp as (Hi & Hp). cbn [feed] in *. destruct (pe_convert env i); [| done].
  pose proof (submit_frame_inv mf cfg acc handed (pe_submit env i) (pts i) (force i) e Hi H) as Hs.
  pose proof (submit_frame_calls mf cfg (pe_submit env i) (pts i) (force i) e) as Hc.
  destruct (submit_frame mf cfg _ _ _ e) as [[[[]|]|] e1]; [| done..]. cbn [fst snd] in Hs, Hc.
  destruct Hs as [Hs | (_ & Hx)]; [| done]. specialize (Hc eq_refl).
  pose proof (drain_packets_inv mf cfg (drain_fuel e1) _ _ 0 (pe_arrived env i) e1 Hs) as Hd.
  pose proof (drain_packets_calls mf cfg (drain_fuel e1) 0 (pe_arrived env i) e1) as Hdc.
  destruct (drain_packets mf cfg (drain_fuel e1) 0 (pe_arrived env i) e1) as [[[[]|] ps] e2]; [| done].
  cbn [fst snd] in Hd, Hdc. specialize (IH _ _ e2 Hp Hd). destruct (feed frames e2) as [[r qs] e3].
  cbn [fst snd] in IH, Hr |- *. destruct (IH Hr) as (H1 & H2). split.
  - cbn [fmap list_fmap]. by rewrite app_assoc, (cons_middle (pts i)), app_assoc.
  - rewrite H2, Hdc, Hc. change ((i :: frames) ≫= frame_calls) with (frame_calls i ++ (frames ≫= frame_calls)). by rewrite <- app_assoc.
Qed.

Lemma drain_spec rounds : forall acc handed e, session_inv cfg acc handed (e_session e) ->
  session_inv cfg acc (handed ++ (drain rounds e).1.2) (e_session (drain rounds e).2)
  /\ e_calls (drain rounds e).2 = e_calls e.
Proof.
  induction rounds as [|i rounds IH]; intros acc handed e H; [by split; cbn; rewrite ?app_nil_r |]. cbn [drain].
  pose proof (drain_packets_inv mf cfg (drain_fuel e) _ _ 0 (pe_drained env i) e H) as Hd.
  pose proof (drain_packets_calls mf cfg (drain_fuel e) 0 (pe_drained env i) e) as Hdc.
  destruct (drain_packets mf cfg (drain_fuel e) 0 (pe_drained env i) e) as [[[[]|] ps] e1]; cbn [fst snd] in Hd, Hdc |- *; [| done].
  destruct (IH _ _ e1 Hd) as (H1 & H2). destruct (drain rounds e1) as [[r qs] e2]. cbn [fst snd] in *.
  rewrite app_assoc. by rewrite H2.
Qed.

Lemma pump_spec e : Forall (fun i => i64 (pts i)) FRAMES -> session_inv cfg [] [] (e_session e) ->
  (pump e).1.1 = Some (Ok tt) ->
  session_inv cfg (pts <$> FRAMES) (pump e).1.2 (e_session (pump e).2)
  /\ e_calls (pump e).2 = e_calls e ++ (FRAMES ≫= frame_calls).
Proof.
  intros Hp H Hr. unfold pump in *. pose proof (feed_spec FRAMES [] [] e Hp H) as Hf.
  destruct (feed FRAMES e) as [[[[[]|]|] ps] e1]; [| done..]. destruct (Hf eq_refl) as (H1 & H2). cbn [fst snd] in H1, H2.
  destruct (drain_spec FRAMES _ _ e1 H1) as (H3 & H4). destruct (drain FRAMES e1) as [[r qs] e2]. cbn [fst snd] in *.
  rewrite H4, H2. by split.
Qed.

(** No call waits for ever, if the transform asks for input at first and after
    every input. *)
Lemma feed_returns frames : forall e, ready mf e ->
  Forall (fun i => answers_inputs mf (OSubmit (pe_submit env i) (pts i) (force i))) frames ->
  (feed frames e).1.1 <> None.
Proof.
  induction frames as [|i frames IH]; intros e He Ha; [done |].
  apply Forall_cons_1 in Ha as (Hi & Ha). cbn [feed]. destruct (pe_convert env i); [| done].
  destruct (submit_frame_returns mf cfg _ _ _ e Hi He) as (Hn & Hc).
  destruct (submit_frame mf cfg _ _ _ e) as [[[[]|]|] e1]; cbn [fst snd] in Hn, Hc; [| done..]. specialize (Hc eq_refl).
  pose proof (drain_packets_keeps_credit mf cfg (drain_fuel e1) 0 (pe_arrived env i) e1) as Hk.
  destruct (drain_packets mf cfg (drain_fuel e1) 0 (pe_arrived env i) e1) as [[[[]|] ps] e2]; cbn [fst snd] in Hk; [| done].
  assert (Hr : ready mf e2) by (unfold ready; by rewrite Hk, Hc).
  specialize (IH e2 Hr Ha). by destruct (feed frames e2) as [[r qs] e3].
Qed.

Lemma pump_returns e : ready mf e ->
  (forall i, answers_inputs mf (OSubmit (pe_submit env i) (pts i) (force i))) -> (pump e).1.1 <> None.
Proof.
  intros He Ha. pose proof (feed_returns FRAMES e He (list.Forall_true _ _ Ha)) as H. unfold pump.
  destruct (feed FRAMES e) as [[[[[]|]|] ps] e1]; try done. by destruct (drain FRAMES e1) as [[r qs] e2].
Qed.
End Client.

(** The counters of a probe. *)
Record Tally := { packets : Z; keyframes : Z; first_kf_ms : Z; encode_us_sum : Z; encode_us_n : Z }.

Definition no_packets : Tally :=
  {| packets := 0; keyframes := 0; first_kf_ms := 0; encode_us_sum := 0; encode_us_n := 0 |}.

Definition count (elapsed_ms : Z) (p : EncodedPacket) (t : Tally) : Tally :=
  {| packets := packets t + 1;
     keyframes := if pkt_is_keyframe p then keyframes t + 1 else keyframes t;
     first_kf_ms := if pkt_is_keyframe p && (keyframes t =? 0) then elapsed_ms else first_kf_ms t;
     encode_us_sum := if pkt_encode_us p is Some us then encode_us_sum t + us else encode_us_sum t;
     encode_us_n := if pkt_encode_us p is Some _ then encode_us_n t + 1 else encode_us_n t |}.

(** The clock is read at the packet's own place. *)
Fixpoint tally (clock : nat -> Z) (k : nat) (ps : list EncodedPacket) (t : Tally) : Tally :=
  match ps with [] => t | p :: ps' => tally clock (S k) ps' (count (clock k) p t) end.

(** [checked_div], then the cast. *)
Definition avg_us (t : Tally) : Z :=
  uwrap 32 (if encode_us_n t =? 0 then 0 else encode_us_sum t / encode_us_n t).

(** What the counters are. *)
Definition timed (ps : list EncodedPacket) : list Z := omap pkt_encode_us ps.

Lemma tally_spec clock ps : forall k t,
  let r := tally clock k ps t in
  packets r = packets t + Z.of_nat (length ps)
  /\ keyframes r = keyframes t + Z.of_nat (length (List.filter pkt_is_keyframe ps))
  /\ encode_us_sum r = encode_us_sum t + foldr Z.add 0 (timed ps)
  /\ encode_us_n r = encode_us_n t + Z.of_nat (length (timed ps)).
Proof.
  induction ps as [|p ps IH]; intros k t; cbn [tally].
  { cbn. lia. }
  destruct (IH (S k) (count (clock k) p t)) as (H1 & H2 & H3 & H4). cbv zeta. rewrite H1, H2, H3, H4.
  unfold timed, count. cbn. destruct (pkt_is_keyframe p), (pkt_encode_us p); cbn; lia.
Qed.

Lemma sum_bound l : Forall u32 l -> 0 <= foldr Z.add 0 l <= Z.of_nat (length l) * (2 ^ 32 - 1).
Proof. induction 1 as [|x l Hx _ IH]; cbn [foldr length]; [lia |]. unfold u32 in Hx. lia. Qed.

(** The average is a number of 32 bits. *)
Lemma avg_us_exact clock ps : Forall u32 (timed ps) ->
  avg_us (tally clock 0 ps no_packets)
  = if Nat.eqb (length (timed ps)) 0 then 0 else foldr Z.add 0 (timed ps) / Z.of_nat (length (timed ps)).
Proof.
  intros H. destruct (tally_spec clock ps 0 no_packets) as (_ & _ & H3 & H4). unfold avg_us. rewrite H3, H4. cbn [encode_us_sum encode_us_n no_packets].
  pose proof (sum_bound _ H) as Hb. destruct (Nat.eqb_spec (length (timed ps)) 0) as [E|E].
  - rewrite E. done.
  - rewrite (proj2 (Z.eqb_neq _ 0)) by lia. rewrite !Z.add_0_l. apply uwrap_small.
    assert (0 <= foldr Z.add 0 (timed ps) / Z.of_nat (length (timed ps)) <= 2 ^ 32 - 1).
    { split; [apply Z.div_pos; lia | apply Z.div_le_upper_bound; lia]. }
    urange.
Qed.

Lemma timed_u32 cfg acc ps s : session_inv cfg acc ps s -> Forall u32 (timed ps).
Proof.
  intros [_ _ H _]. apply list.Forall_app in H as (H & _). unfold timed. induction H as [|p ps (_ & _ & Hu) _ IH]; [done |]. cbn.
  destruct (pkt_encode_us p) as [us|]; [| done]. constructor; [by apply Hu | done].
Qed.

(** * The matrix on the adapter of a vendor *)

Record Combo := { label : string; c_codec : Codec; c_width : Z; c_height : Z; c_fps : Z; c_bitrate_bps : Z }.

Definition combos : list Combo :=
  [ {| label := "HEVC 2880x1800@120 50Mbps (GUI default)"; c_codec := Hevc; c_width := 2880; c_height := 1800;
       c_fps := 120; c_bitrate_bps := 50000000 |};
    {| label := "HEVC 2880x1800@60 50Mbps"; c_codec := Hevc; c_width := 2880; c_height := 1800;
       c_fps := 60; c_bitrate_bps := 50000000 |};
    {| label := "HEVC 1920x1200@60 30Mbps"; c_codec := Hevc; c_width := 1920; c_height := 1200;
       c_fps := 60; c_bitrate_bps := 30000000 |};
    {| label := "H264 2880x1800@120 50Mbps"; c_codec := H264; c_width := 2880; c_height := 1800;
       c_fps := 120; c_bitrate_bps := 50000000 |};
    {| label := "H264 1920x1200@60 30Mbps"; c_codec := H264; c_width := 1920; c_height := 1200;
       c_fps := 60; c_bitrate_bps := 30000000 |} ].

Definition combo_config (c : Combo) : SessionConfig :=
  {| enc_width := c_width c; enc_height := c_height c; enc_fps := c_fps c; enc_bitrate_bps := c_bitrate_bps c;
     enc_codec := c_codec c; enc_input_format := Nv12 |}.

Definition combo_pts (c : Combo) (i : nat) : Z := Z.of_nat i * Z.quot 1000000000 (c_fps c).

Definition third (i : nat) : bool := Nat.eqb i 2.

(** Packets, key frames, time to the first of these, and the average. *)
Definition run_one (mf : MfConstants) (c : Combo) (env : ProbeEnv) : option (result ProbeError (Z * Z * Z * Z)) :=
  match pe_session env, pe_converter env, pe_keepalive env with
  | Err e, _, _ => Some (Err (MakeSession e))
  | _, Err e, _ => Some (Err (NewConverter e))
  | _, _, Err e => Some (Err (KeepaliveTex e))
  | Ok evs, Ok _, Ok _ =>
      match pump mf (combo_config c) env (combo_pts c) third (new_enc evs) with
      | (None, _, _) => None
      | (Some (Err e), _, _) => Some (Err e)
      | (Some (Ok _), ps, _) =>
          let t := tally (pe_elapsed_ms env) 0 ps no_packets in
          Some (Ok (packets t, keyframes t, first_kf_ms t, avg_us t))
      end
  end.

(** [trim_start_matches]: the prefix is removed as often as it is there. *)
Fixpoint trim_matches (fuel : nat) (pat s : Str) : Str :=
  match fuel with
  | O => s
  | S fuel' => if bool_decide (take (length pat) s = pat) then trim_matches fuel' pat (drop (length pat) s) else s
  end.

Definition trim_start_matches (pat s : Str) : Str := trim_matches (length s) pat s.

Definition to_digit16 (c : Z) : option Z :=
  if is_ascii_digit c then Some (c - 48)
  else if (97 <=? c) && (c <=? 102) then Some (c - 87)
  else if (65 <=? c) && (c <=? 70) then Some (c - 55) else None.

Fixpoint hex_upto (max acc : Z) (s : Str) : option Z :=
  match s with
  | [] => Some acc
  | c :: s' => d ← to_digit16 c; let acc := acc * 16 + d in if max <? acc then None else hex_upto max acc s'
  end.

(** [u32::from_str_radix] with radix 16. *)
Definition from_str_radix16 (s : Str) : option Z :=
  match s with
  | [] => None
  | c :: s' => if c =? 43 then match s' with [] => None | _ => hex_upto (2 ^ 32 - 1) 0 s' end
               else hex_upto (2 ^ 32 - 1) 0 s
  end.

Definition target_vendor (args : list Str) : Z :=
  default 0x8086 (args !! 1%nat ≫= fun s => from_str_radix16 (trim_start_matches (lit "0X") (trim_start_matches (lit "0x") s))).

(** The walk over the adapters; any error of [EnumAdapters1] ends it, one of
    [GetDesc1] is a panic.  Fuel counts the adapters. *)
Fixpoint find_vendor (fuel : nat) (factory : Factory) (target idx : Z) (chosen : option Adapter)
  : option (result unit (option Adapter)) :=
  match factory idx with
  | Err _ => Some (Ok chosen)
  | Ok adapter =>
      match fuel with
      | O => None
      | S fuel' =>
          match adp_desc adapter with
          | Err _ => Some (Err tt)
          | Ok desc =>
              let chosen :=
                if (ad_vendor_id desc =? target) && bool_decide (chosen = None) then Some adapter else chosen in
              find_vendor fuel' factory target (uwrap 32 (idx + 1)) chosen
          end
      end
  end.

Inductive Exit := Code (n : Z) | Panicked.

Definition passed (r : result ProbeError (Z * Z * Z * Z)) : bool :=
  match r with Ok (_, keyframes, _, _) => 0 <? keyframes | Err _ => false end.

(** The loop over the matrix: whether any combination failed. *)
Fixpoint run_combos (mf : MfConstants) (envs : nat -> ProbeEnv) (k : nat) (l : list Combo) (any_fail : bool)
  : option bool :=
  match l with
  | [] => Some any_fail
  | c :: l' => r ← run_one mf c (envs k); run_combos mf envs (S k) l' (any_fail || negb (passed r))
  end.

(** [main] of the Intel probe; [None]: it never ends. *)
Definition qsv_main (mf : MfConstants) (fuel : nat) (args : list Str) (factory : EngineResult Factory)
    (device : Adapter -> EngineResult unit) (backend : EngineResult unit) (envs : nat -> ProbeEnv) : option Exit :=
  match factory with
  | Err _ => Some Panicked
  | Ok factory =>
      found ← find_vendor fuel factory (target_vendor args) 0 None;
      match found with
      | Err _ => Some Panicked
      | Ok None => Some (Code 2)
      | Ok (Some adapter) =>
          match device adapter, backend with
          | Ok _, Ok _ =>
              any_fail ← run_combos mf envs 0 combos false;
              Some (Code (if any_fail : bool then 1 else 0))
          | _, _ => Some (Code 2)
          end
      end
  end.

(** ** What the probe amounts to *)

(** A combination that ran to its end: the encoder was fed thirty frames with
    one request for a key frame, before the third; the packets handed out
    answer them in order; and the numbers are those of these packets. *)
Definition measured (mf : MfConstants) (c : Combo) (env : ProbeEnv) (p k a : Z) : Prop :=
  exists evs ps e, pe_session env = Ok evs
  /\ pump mf (combo_config c) env (combo_pts c) third (new_enc evs) = (Some (Ok tt), ps, e)
  /\ session_inv (combo_config c) (combo_pts c <$> FRAMES) ps (e_session e)
  /\ e_calls e = FRAMES ≫= frame_calls (combo_config c) (combo_pts c) third
  /\ p = Z.of_nat (length ps) /\ k = Z.of_nat (length (List.filter pkt_is_keyframe ps))
  /\ a = if Nat.eqb (length (timed ps)) 0 then 0 else foldr Z.add 0 (timed ps) / Z.of_nat (length (timed ps)).

Lemma combo_pts_i64 c : 0 < c_fps c -> Forall (fun i => i64 (combo_pts c i)) FRAMES.
Proof.
  intros H. apply list.Forall_forall. intros i Hi. unfold FRAMES in Hi. apply elem_of_seq in Hi.
  unfold combo_pts. rewrite Z.quot_div_nonneg by lia.
  assert (1000000000 / c_fps c <= 1000000000) by (apply Z.div_le_upper_bound; lia).
  assert (0 <= 1000000000 / c_fps c) by (apply Z.div_pos; lia).
  assert (0 <= Z.of_nat i * (1000000000 / c_fps c) <= 30 * 1000000000) by nia. urange.
Qed.

Lemma run_one_exact mf c env p k f a : 0 < c_fps c -> run_one mf c env = Some (Ok (p, k, f, a)) -> measured mf c env p k a.
Proof.
  intros Hf. unfold run_one. destruct (pe_session env) as [evs|] eqn:Es; [| done].
  destruct (pe_converter env); [| done]. destruct (pe_keepalive env); [| done].
  pose proof (pump_spec mf (combo_config c) env (combo_pts c) third (new_enc evs) (combo_pts_i64 c Hf) (new_session_inv _)) as H.
  destruct (pump mf (combo_config c) env (combo_pts c) third (new_enc evs)) as [[[[[]|]|] ps] e] eqn:Ep; [| done..].
  destruct (H eq_refl) as (H1 & H2). cbn [fst snd] in H1, H2. intros E. cbv zeta in E.
  destruct (tally_spec (pe_elapsed_ms env) ps 0 no_packets) as (T1 & T2 & _).
  rewrite (avg_us_exact _ _ (timed_u32 _ _ _ _ H1)), T1, T2 in E. injection E as <- <- _ <-.
  exists evs, ps, e. by split_and!.
Qed.

Definition transforms_answer (mf : MfConstants) (env : ProbeEnv) : Prop :=
  (forall evs, pe_session env = Ok evs -> input_wanted mf evs = true)
  /\ forall i pts force, answers_inputs mf (OSubmit (pe_submit env i) pts force).

Lemma run_one_returns mf c env : transforms_answer mf env -> run_one mf c env <> None.
Proof.
  intros (H1 & H2). unfold run_one. destruct (pe_session env) as [evs|] eqn:Es; [| done].
  destruct (pe_converter env); [| done]. destruct (pe_keepalive env); [| done].
  pose proof (pump_returns mf (combo_config c) env (combo_pts c) third (new_enc evs)) as H.
  assert (Hr : ready mf (new_enc evs)) by (apply orb_true_iff; right; by apply H1).
  specialize (H Hr (fun i => H2 i _ _)).
  by destruct (pump mf (combo_config c) env (combo_pts c) third (new_enc evs)) as [[[[[]|]|] ps] e].
Qed.

(** All combinations passed, if nothing failed. *)
Lemma run_combos_spec mf envs l : forall k b, run_combos mf envs k l b = Some false ->
  b = false /\ forall i c, l !! i = Some c -> exists r, run_one mf c (envs (k + i)%nat) = Some r /\ passed r = true.
Proof.
  induction l as [|c l IH]; intros k b E; cbn [run_combos] in E; [by injection E as -> |].
  destruct (run_one mf c (envs k)) as [r|] eqn:Er; [| done]. cbn [mbind option_bind] in E.
  apply IH in E as (Eb & H). apply orb_false_iff in Eb as (-> & Hp). apply negb_false_iff in Hp. split; [done |].
  intros [|i] c' Ei; cbn in Ei.
  - injection Ei as <-. exists r. by rewrite Nat.add_0_r.
  - destruct (H i c' Ei) as (r' & H1 & H2). exists r'. by rewrite <- Nat.add_succ_comm.
Qed.

Lemma run_combos_all mf envs l : forall k b,
  (forall i c, l !! i = Some c -> exists r, run_one mf c (envs (k + i)%nat) = Some r /\ passed r = true) ->
  run_combos mf envs k l b = Some b.
Proof.
  induction l as [|c l IH]; intros k b H; [done |]. cbn [run_combos].
  destruct (H 0%nat c eq_refl) as (r & E & Hp). rewrite Nat.add_0_r in E. rewrite E. cbn [mbind option_bind].
  rewrite Hp, orb_false_r. apply IH. intros i c' Ei. destruct (H (S i) c' Ei) as (r' & H1 & H2). exists r'. by rewrite Nat.add_succ_comm.
Qed.

Lemma run_combos_returns mf envs l : (forall i, transforms_answer mf (envs i)) -> forall k b, run_combos mf envs k l b <> None.
Proof.
  intros H. induction l as [|c l IH]; intros k b; [done |]. cbn [run_combos].
  pose proof (run_one_returns mf c (envs k) (H k)) as Hr. destruct (run_one mf c (envs k)) as [r|]; [| done]. apply IH.
Qed.

(** The adapter is the first of the vendor. *)
Lemma find_vendor_ok nf factory l target : presents nf factory l -> fits_u32 l ->
  forall fuel i chosen, (length l - i <= fuel)%nat -> (i <= length l)%nat ->
  exists a, find_vendor fuel factory target (Z.of_nat i) chosen = Some (Ok a)
  /\ match chosen with
     | Some _ => a = chosen
     | None => adp_desc <$> a = Ok <$> List.find (fun d => ad_vendor_id d =? target) (drop i l.*1)
     end.
Proof.
  intros (Ha & Hn) Hu. induction fuel as [|fuel IH]; intros i chosen Hf Hi.
  - replace i with (length l) by lia. exists chosen. cbn [find_vendor]. rewrite Hn. split; [done |].
    destruct chosen; [done |]. by rewrite drop_ge by (rewrite length_fmap; lia).
  - destruct (decide (i = length l)) as [-> | Hne].
    { exists chosen. cbn [find_vendor]. rewrite Hn. split; [done |].
      destruct chosen; [done |]. by rewrite drop_ge by (rewrite length_fmap; lia). }
    destruct (lookup_lt_is_Some_2 l i) as ([d os] & Ei); [lia |]. cbn [find_vendor].
    destruct (Ha i d os Ei) as (outs & -> & _). cbn [adp_desc].
    assert (Ed : drop i l.*1 = d :: drop (S i) l.*1) by (apply drop_S; by rewrite list_lookup_fmap, Ei).
    rewrite (next_index l i) by (done || lia).
    destruct chosen as [a0|].
    + rewrite andb_comm. cbn [bool_decide andb]. destruct (IH (S i) (Some a0)) as (a & E & Hx); [lia.. |].
      exists a. split; [| exact Hx]. rewrite bool_decide_false by done. exact E.
    + rewrite Ed. cbn [List.find]. rewrite bool_decide_true, andb_true_r by done.
      destruct (ad_vendor_id d =? target).
      * destruct (IH (S i) (Some {| adp_desc := Ok d; adp_outputs := outs |})) as (a & E & ->); [lia.. |]. by eexists.
      * destruct (IH (S i) None) as (a & E & Hx); [lia.. |]. by exists a.
Qed.

(** The Intel probe.  The adapter is the first of the vendor asked for.  The
    exit code is 0 exactly if every combination of the matrix handed out a key
    frame; each of these then was fed its thirty frames, and its numbers are
    those of the packets handed out.  The probe ends, if the transforms ask for
    input at first and after every input. *)
Theorem qsv_verdict mf nf fuel l args factory device envs :
  presents nf factory l -> fits_u32 l -> (length l <= fuel)%nat -> (forall a, device a = Ok tt) ->
  Exists (fun d => ad_vendor_id d = target_vendor args) l.*1 ->
  let exit := qsv_main mf fuel args (Ok factory) device (Ok tt) envs in
  (exit = Some (Code 0) <-> forall i c, combos !! i = Some c -> exists p k f a,
      run_one mf c (envs i) = Some (Ok (p, k, f, a)) /\ 0 < k /\ measured mf c (envs i) p k a)
  /\ ((forall i, transforms_answer mf (envs i)) -> exit = Some (Code 0) \/ exit = Some (Code 1)).
Proof.
  intros Hp Hu Hl Hd Hv exit.
  assert (E : exit = any_fail ← run_combos mf envs 0 combos false; Some (Code (if any_fail : bool then 1 else 0))).
  { subst exit. unfold qsv_main. destruct (find_vendor_ok nf factory l (target_vendor args) Hp Hu fuel 0 None) as (a & E & Ha); [lia.. |].
    change (Z.of_nat 0) with 0 in E. rewrite E. cbn [mbind option_bind]. rewrite drop_0 in Ha.
    destruct a as [a|]; [by rewrite Hd |]. exfalso. symmetry in Ha. apply fmap_None in Ha.
    apply Exists_exists in Hv as (d & Hin & Hd').
    apply (List.find_none _ _ Ha) in Hin. apply Z.eqb_neq in Hin. done. }
  split.
  - rewrite E. split.
    + intros Ex. destruct (run_combos mf envs 0 combos false) as [[]|] eqn:Er; try done.
      apply run_combos_spec in Er as (_ & H). intros i c Ei. destruct (H i c Ei) as (r & Er & Hk).
      destruct r as [[[[p k] f] a]|]; [| done]. cbn in Er. apply Z.ltb_lt in Hk. exists p, k, f, a. split_and!; [done | done |].
      eapply run_one_exact; [| exact Er].
      assert (Hc : Forall (fun c => 0 < c_fps c) combos) by (repeat constructor; done).
      by eapply Forall_lookup_1 in Ei; [| exact Hc].
    + intros H. rewrite run_combos_all; [done |]. intros i c Ei. destruct (H i c Ei) as (p & k & f & a & Er & Hk & _).
      eexists. split; [exact Er |]. by apply Z.ltb_lt.
  - intros Ht. rewrite E. pose proof (run_combos_returns mf envs combos Ht 0 false) as Hr.
    destruct (run_combos mf envs 0 combos false) as [[]|]; [by right | by left | done].
Qed.

(** * One size *)

Definition texture_config (args : list Str) : SessionConfig :=
  {| enc_width := default 1280 (args !! 1%nat ≫= parse_u32); enc_height := default 720 (args !! 2%nat ≫= parse_u32);
     enc_fps := 60; enc_bitrate_bps := 5000000; enc_codec := Hevc; enc_input_format := Nv12 |}.

Definition texture_pts (i : nat) : Z := Z.of_nat i * 16666667.

Lemma texture_pts_i64 : Forall (fun i => i64 (texture_pts i)) FRAMES.
Proof.
  apply list.Forall_forall. intros i Hi. unfold FRAMES in Hi. apply elem_of_seq in Hi.
  unfold texture_pts. urange.
Qed.

Definition first (i : nat) : bool := Nat.eqb i 0.

(** [main] of the texture probe: packets and key frames, or the error that it
    returns; [device] and [backend] are the two calls before the session. *)
Definition texture_main (mf : MfConstants) (args : list Str) (device backend : EngineResult unit) (env : ProbeEnv)
  : option (result ProbeError (Z * Z)) :=
  match device, backend, pe_session env, pe_converter env, pe_keepalive env, pe_clear env with
  | Err e, _, _, _, _, _ | _, Err e, _, _, _, _ => Some (Err (Setup e))
  | _, _, Err e, _, _, _ => Some (Err (MakeSession e))
  | _, _, _, Err e, _, _ => Some (Err (NewConverter e))
  | _, _, _, _, Err e, _ => Some (Err (KeepaliveTex e))
  | _, _, _, _, _, Err e => Some (Err (ClearTex e))
  | Ok _, Ok _, Ok evs, Ok _, Ok _, Ok _ =>
      match pump mf (texture_config args) env texture_pts first (new_enc evs) with
      | (None, _, _) => None
      | (Some (Err e), _, _) => Some (Err e)
      | (Some (Ok _), ps, _) =>
          let t := tally (pe_elapsed_ms env) 0 ps no_packets in Some (Ok (packets t, keyframes t))
      end
  end.

(** The texture probe: it ends, if the transform asks for input at first and
    after every input; and the numbers it prints are those of the packets that
    answer its thirty frames, of which the first asks for a key frame. *)
Theorem texture_probe_sound mf args device backend env : transforms_answer mf env ->
  exists r, texture_main mf args device backend env = Some r
  /\ forall p k, r = Ok (p, k) -> exists ps e,
      session_inv (texture_config args) (texture_pts <$> FRAMES) ps (e_session e)
      /\ e_calls e = FRAMES ≫= frame_calls (texture_config args) texture_pts first
      /\ p = Z.of_nat (length ps) /\ k = Z.of_nat (length (List.filter pkt_is_keyframe ps)).
Proof.
  intros (H1 & H2). unfold texture_main.
  destruct device; [| by eexists]. destruct backend; [| by eexists].
  destruct (pe_session env) as [evs|] eqn:Es; [| by eexists]. destruct (pe_converter env); [| by eexists].
  destruct (pe_keepalive env); [| by eexists]. destruct (pe_clear env); [| by eexists].
  assert (Hr : ready mf (new_enc evs)) by (apply orb_true_iff; right; by apply H1).
  pose proof (pump_returns mf (texture_config args) env texture_pts first (new_enc evs) Hr (fun i => H2 i _ _)) as Hn.
  pose proof (pump_spec mf (texture_config args) env texture_pts first (new_enc evs) texture_pts_i64 (new_session_inv _)) as H.
  destruct (pump mf _ env _ _ _) as [[[[[]|]|] ps] e]; [| by eexists | done].
  destruct (H eq_refl) as (H3 & H4). cbn [fst snd] in H3, H4. eexists. split; [done |]. intros p k E. injection E as <- <-.
  exists ps, e. destruct (tally_spec (pe_elapsed_ms env) ps 0 no_packets) as (-> & -> & _). by split_and!.
Qed.

(** * Capture to a file *)

(** A turn of the loop: the clock at its head, what the queue gives, and
    whether the write goes through. *)
Record FileTurn := { ft_now : Z; ft_popped : option EncodedPacket; ft_written : bool }.

Record Written := { wr_file : list Z; wr_total_bytes : Z; wr_packets : Z; wr_keyframes : Z }.

Definition write_packet (p : EncodedPacket) (w : Written) : Written :=
  {| wr_file := wr_file w ++ pkt_bytes p; wr_total_bytes := wr_total_bytes w + Z.of_nat (length (pkt_bytes p));
     wr_packets := wr_packets w + 1;
     wr_keyframes := if pkt_is_keyframe p then wr_keyframes w + 1 else wr_keyframes w |}.

(** The loop up to the deadline: [Ok] when it ends, [Err] when a write panics,
    [None] when the turns run out before. *)
Fixpoint write_loop (deadline : Z) (turns : list FileTurn) (w : Written) : option (result Written Written) :=
  match turns with
  | [] => None
  | t :: turns' =>
      if ft_now t <? deadline then
        match ft_popped t with
        | None => write_loop deadline turns' w
        | Some p => if ft_written t then write_loop deadline turns' (write_packet p w) else Some (Err w)
        end
      else Some (Ok w)
  end.

Definition is_screen (m : MonitorInfo) : bool := attached_to_desktop m && negb (adapter_is_software m).

(** The monitor asked for, or the first. *)
Definition pick_monitor (mon_idx : Z) (attached : list MonitorInfo) : option MonitorInfo :=
  match attached !! Z.to_nat mon_idx with Some m => Some m | None => attached !! 0%nat end.

Definition file_args (args : list Str) : Z * Z * Str :=
  (default 0 (args !! 1%nat ≫= parse_usize),
   default 5 (args !! 2%nat ≫= parse_unsigned (2 ^ 64 - 1)), default (lit "capture.h265") (args !! 3%nat)).

Definition empty_file : Written := {| wr_file := []; wr_total_bytes := 0; wr_packets := 0; wr_keyframes := 0 |}.

(** [main] of the capture: how it exits, with what it wrote.  [start_engine],
    [create] and [stop] are the calls whose failure is a panic. *)
Definition file_main (args : list Str) (monitors : EngineResult (list MonitorInfo))
    (start_engine : MonitorInfo -> EngineResult unit) (create : Str -> bool) (start : Z) (turns : list FileTurn)
    (stop : EngineResult unit) : option (Exit * Written) :=
  let '(mon_idx, duration_s, out_path) := file_args args in
  match monitors with
  | Err _ => Some (Panicked, empty_file)
  | Ok monitors =>
      match pick_monitor mon_idx (List.filter is_screen monitors) with
      | None => Some (Code 2, empty_file)
      | Some monitor =>
          match start_engine monitor, create out_path with
          | Ok _, true =>
              r ← write_loop (start + duration_s * 1000000000) turns empty_file;
              Some (match r with
                    | Err w => (Panicked, w)
                    | Ok w => (if is_ok stop then Code 0 else Panicked, w)
                    end)
          | _, _ => Some (Panicked, empty_file)
          end
      end
  end.

Definition popped (turns : list FileTurn) : list EncodedPacket := omap ft_popped turns.

Lemma write_loop_spec deadline turns : forall w w', write_loop deadline turns w = Some (Ok w') ->
  exists used t rest, turns = used ++ t :: rest /\ Forall (fun t => ft_now t < deadline) used /\ deadline <= ft_now t
  /\ wr_file w' = wr_file w ++ (popped used ≫= pkt_bytes)
  /\ wr_total_bytes w' = wr_total_bytes w + Z.of_nat (length (popped used ≫= pkt_bytes))
  /\ wr_packets w' = wr_packets w + Z.of_nat (length (popped used))
  /\ wr_keyframes w' = wr_keyframes w + Z.of_nat (length (List.filter pkt_is_keyframe (popped used))).
Proof.
  induction turns as [|t turns IH]; intros w w' E; cbn [write_loop] in E; [done |].
  destruct (Z.ltb_spec (ft_now t) deadline) as [Hlt|Hge].
  2: { injection E as <-. exists [], t, turns. cbn. rewrite app_nil_r. split_and!; try done; lia. }
  destruct (ft_popped t) as [p|] eqn:Ep.
  - destruct (ft_written t); [| done]. destruct (IH _ _ E) as (used & t' & rest & -> & Hu & Ht & H1 & H2 & H3 & H4).
    exists (t :: used), t', rest. rewrite H1, H2, H3, H4. unfold popped. cbn. rewrite Ep. cbn. rewrite length_app.
    split_and!; try done; [by constructor | by rewrite app_assoc | lia | lia |]. destruct (pkt_is_keyframe p); cbn; lia.
  - destruct (IH _ _ E) as (used & t' & rest & -> & Hu & Ht & H1 & H2 & H3 & H4).
    exists (t :: used), t', rest. rewrite H1, H2, H3, H4. unfold popped. cbn. rewrite Ep. split_and!; try done. by constructor.
Qed.

(** The capture: a run that exits well wrote exactly the packets it popped up
    to the deadline, in their order, to the file, and counted them. *)
Theorem capture_file_exact args monitors start_engine create start turns stop w :
  file_main args monitors start_engine create start turns stop = Some (Code 0, w) ->
  let deadline := start + (file_args args).1.2 * 1000000000 in
  exists used t rest, turns = used ++ t :: rest /\ Forall (fun t => ft_now t < deadline) used /\ deadline <= ft_now t
  /\ wr_file w = popped used ≫= pkt_bytes /\ wr_total_bytes w = Z.of_nat (length (wr_file w))
  /\ wr_packets w = Z.of_nat (length (popped used))
  /\ wr_keyframes w = Z.of_nat (length (List.filter pkt_is_keyframe (popped used))).
Proof.
  unfold file_main. destruct (file_args args) as [[mon_idx duration_s] out_path]. destruct monitors as [monitors|]; [| done].
  destruct (pick_monitor _ _) as [m|]; [| done]. destruct (start_engine m); [| done]. destruct (create out_path); [| done].
  destruct (write_loop _ turns empty_file) as [[w'|]|] eqn:E; try done. cbn [mbind option_bind]. destruct (is_ok stop); [| done].
  intros [= <-]. destruct (write_loop_spec _ _ _ _ E) as (used & t & rest & Et & Hu & Ht & H1 & H2 & H3 & H4).
  exists used, t, rest. cbn in H1, H2, H3, H4. rewrite H2, H1. by split_and!.
Qed.

(** * Witnesses *)

Definition demo_hevc_idr : list Z := [0; 0; 1; 0x26; 1; 0x80].

Definition demo_probe_env (bytes : list Z) : ProbeEnv :=
  {| pe_session := Ok [input_event demo_mf; input_event demo_mf]; pe_converter := Ok tt; pe_keepalive := Ok tt;
     pe_clear := Ok tt; pe_convert := fun _ => Ok tt; pe_submit := fun i => demo_submit (Z.of_nat i) bytes;
     pe_arrived := fun _ _ => 1%nat; pe_drained := fun _ _ => 1%nat; pe_elapsed_ms := fun k => 5 + Z.of_nat k |}.

Definition demo_envs (k : nat) : ProbeEnv := demo_probe_env (if Nat.ltb k 3 then demo_hevc_idr else demo_idr).

Lemma demo_answers bytes : transforms_answer demo_mf (demo_probe_env bytes).
Proof.
  split; [by intros evs [= <-] |]. intros i pts force _ evs. apply input_wanted_snoc.
Qed.

Lemma qsv_verdict_witness :
  let exit := qsv_main demo_mf 4 [lit "probe"; lit "0x10dE"] (Ok demo_factory) (fun _ => Ok tt) (Ok tt) demo_envs in
  exit = Some (Code 0)
  /\ exists c p k f a, combos !! 0%nat = Some c /\ run_one demo_mf c (demo_envs 0) = Some (Ok (p, k, f, a)) /\ 0 < k.
Proof.
  destruct (qsv_verdict demo_mf 2 4 demo_presented [lit "probe"; lit "0x10dE"] demo_factory (fun _ => Ok tt) demo_envs)
    as (H & Ht); [apply demo_presents | done | cbn; lia | done | by left |].
  assert (E : qsv_main demo_mf 4 [lit "probe"; lit "0x10dE"] (Ok demo_factory) (fun _ => Ok tt) (Ok tt) demo_envs = Some (Code 0)).
  { destruct Ht as [E | E]; [intros i; apply demo_answers | exact E |]. vm_compute in E. discriminate E. }
  split; [exact E |]. destruct (proj1 H E 0%nat _ eq_refl) as (p & k & f & a & Er & Hk & _). eexists _, p, k, f, a. split; [reflexivity |]. exact (conj Er Hk).
Defined.

Example vendor_arguments :
  target_vendor [lit "probe"] = 0x8086 /\ target_vendor [lit "probe"; lit "0x0X0x"] = 0x8086
  /\ target_vendor [lit "probe"; lit "0x0x1002"] = 0x1002 /\ target_vendor [lit "probe"; lit "123456789"] = 0x8086.
Proof. by vm_compute. Qed.

(** The probe at one size does not read the transform's time. *)
Lemma texture_probe_sound_witness : exists p k,
  texture_main demo_mf [lit "probe"; lit "64"; lit "48"] (Ok tt) (Ok tt) (demo_envs 0) = Some (Ok (p, k)) /\ p = 30.
Proof.
  destruct (texture_probe_sound demo_mf [lit "probe"; lit "64"; lit "48"] (Ok tt) (Ok tt) (demo_envs 0) (demo_answers _)) as (r & E & _).
  destruct r as [[p k]|err]; [| vm_compute in E; discriminate E]. exists p, k. split; [exact E |]. vm_compute in E. congruence.
Defined.

Definition demo_file_turn (now : Z) (bytes : list Z) : FileTurn :=
  {| ft_now := now;
     ft_popped := match bytes with [] => None | _ =>
       Some {| pkt_bytes := bytes; pkt_pts_ns := 0; pkt_is_keyframe := false; pkt_encode_us := None |} end;
     ft_written := true |}.

Definition demo_capture : option (Exit * Written) :=
  file_main [lit "capture"; lit "7"; lit "1"] (Ok (all_monitors demo_presented)) (fun _ => Ok tt) (fun _ => true) 0
    [demo_file_turn 10 [1; 2]; demo_file_turn 20 []; demo_file_turn 999999999 [3]; demo_file_turn 1000000000 [4]] (Ok tt).

Lemma capture_file_exact_witness : exists w, demo_capture = Some (Code 0, w) /\ wr_file w = [1; 2; 3] /\ wr_total_bytes w = 3.
Proof.
  eexists. split; [vm_compute; reflexivity |].
  destruct (capture_file_exact [lit "capture"; lit "7"; lit "1"] (Ok (all_monitors demo_presented)) (fun _ => Ok tt)
    (fun _ => true) 0 [demo_file_turn 10 [1; 2]; demo_file_turn 20 []; demo_file_turn 999999999 [3];
    demo_file_turn 1000000000 [4]] (Ok tt) {| wr_file := [1; 2; 3]; wr_total_bytes := 3; wr_packets := 2; wr_keyframes := 0 |})
    as (_ & _ & _ & _ & _ & _ & _ & H & _); [vm_compute; reflexivity |].
  split; [reflexivity | exact H].
Defined.
