(* ===== verification/Keys.v ===== *)
(** User settings and key names: [apps/penflow-gui/src-tauri/src/settings.rs]
    (the data and its validation) and the key names and pen profile of
    [service.rs].

    The virtual-key codes are constants of the Windows headers, hence a
    parameter. *)
From stdpp Require Import list gmap strings.
From S2P Require Import Prelude Text Engine F32 Inject.

(** * Settings *)

Inductive TopologyMode := Extend | Duplicate.

#[export] Instance TopologyMode_eq_dec : EqDecision TopologyMode.
Proof. solve_decision. Defined.

Definition DEFAULT_VDD_WIDTH : Z := 2880.
Definition DEFAULT_VDD_HEIGHT : Z := 1800.
Definition MIN_VDD_WIDTH : Z := 640.
Definition MIN_VDD_HEIGHT : Z := 480.
Definition MAX_VDD_WIDTH : Z := 7680.
Definition MAX_VDD_HEIGHT : Z := 4320.

Record DisplayResolution := { dr_width : Z; dr_height : Z }.

Inductive ResolutionError := WidthOutOfRange | HeightOutOfRange | OddDimension.

Definition in_range (lo hi x : Z) : bool := (lo <=? x) && (x <=? hi).

Definition validate (r : DisplayResolution) : result ResolutionError unit :=
  if negb (in_range MIN_VDD_WIDTH MAX_VDD_WIDTH (dr_width r)) then Err WidthOutOfRange
  else if negb (in_range MIN_VDD_HEIGHT MAX_VDD_HEIGHT (dr_height r)) then Err HeightOutOfRange
  else if negb (dr_width r mod 2 =? 0) || negb (dr_height r mod 2 =? 0) then Err OddDimension
  else Ok tt.

Inductive SettingsBinding :=
| SbNone
| SbKeyTap (key : Str)
| SbKeyHold (key : Str)
| SbKeyChord (keys : list Str)
| SbMouseButton (button : MouseButtonKind)
| SbEraserToggle.

Record PenBindings := { button_0 : SettingsBinding; button_1 : SettingsBinding; button_2 : SettingsBinding }.

Definition default_bindings : PenBindings :=
  {| button_0 := SbKeyHold (lit "Ctrl"); button_1 := SbKeyHold (lit "Shift"); button_2 := SbKeyTap (lit "E") |}.

Record Settings := {
  vdd_resolution : DisplayResolution;
  bitrate_bps : Z;
  fps : Z;
  codec : Codec;
  bindings : PenBindings;
  autostart : bool;
  run_as_admin : bool;
  hud : bool;
  topology : TopologyMode;
  screen_off_wanted : bool;
  disable_touch_wanted : bool;
}.

Definition default_settings : Settings :=
  {| vdd_resolution := {| dr_width := DEFAULT_VDD_WIDTH; dr_height := DEFAULT_VDD_HEIGHT |};
     bitrate_bps := 50000000; fps := 120; codec := Hevc; bindings := default_bindings;
     autostart := false; run_as_admin := false; hud := true;
     topology := Extend; screen_off_wanted := false; disable_touch_wanted := false |}.

(** * Key names *)

Record VkTable := {
  VK_CONTROL : Z; VK_SHIFT : Z; VK_MENU : Z; VK_LWIN : Z; VK_SPACE : Z; VK_TAB : Z; VK_RETURN : Z;
  VK_ESCAPE : Z; VK_BACK : Z; VK_DELETE : Z; VK_INSERT : Z; VK_HOME : Z; VK_END : Z; VK_PRIOR : Z;
  VK_NEXT : Z; VK_UP : Z; VK_DOWN : Z; VK_LEFT : Z; VK_RIGHT : Z;
}.

(** The fixed names, each with its code. *)
Definition named_keys (vk : VkTable) : list (string * Z) :=
  [ ("CTRL", VK_CONTROL vk); ("CONTROL", VK_CONTROL vk); ("SHIFT", VK_SHIFT vk);
    ("ALT", VK_MENU vk); ("MENU", VK_MENU vk); ("OPTION", VK_MENU vk);
    ("WIN", VK_LWIN vk); ("META", VK_LWIN vk); ("LWIN", VK_LWIN vk); ("CMD", VK_LWIN vk);
    ("COMMAND", VK_LWIN vk); ("SUPER", VK_LWIN vk);
    ("SPACE", VK_SPACE vk); (" ", VK_SPACE vk); ("TAB", VK_TAB vk);
    ("ENTER", VK_RETURN vk); ("RETURN", VK_RETURN vk); ("ESC", VK_ESCAPE vk); ("ESCAPE", VK_ESCAPE vk);
    ("BACKSPACE", VK_BACK vk); ("BACK", VK_BACK vk); ("DEL", VK_DELETE vk); ("DELETE", VK_DELETE vk);
    ("INS", VK_INSERT vk); ("INSERT", VK_INSERT vk); ("HOME", VK_HOME vk); ("END", VK_END vk);
    ("PAGEUP", VK_PRIOR vk); ("PRIOR", VK_PRIOR vk); ("PAGEDOWN", VK_NEXT vk); ("NEXT", VK_NEXT vk);
    ("UP", VK_UP vk); ("ARROWUP", VK_UP vk); ("DOWN", VK_DOWN vk); ("ARROWDOWN", VK_DOWN vk);
    ("LEFT", VK_LEFT vk); ("ARROWLEFT", VK_LEFT vk); ("RIGHT", VK_RIGHT vk); ("ARROWRIGHT", VK_RIGHT vk) ]%string.

Section KeyNames.
Context (vk : VkTable).

Definition function_key (rest : Str) : option Z :=
  n ← parse_u16 rest; if in_range 1 24 n then Some (0x6F + n) else None.

Definition named_key (s : Str) : option Z :=
  match List.find (fun e => bool_decide (s = lit e.1)) (named_keys vk) with
  | Some e => Some e.2
  | None => None
  end.

Definition parse_key_token (name : Str) : option Z :=
  let s := to_ascii_uppercase name in
  match named_key s with
  | Some v => Some v
  | None =>
      match s with
      | [] => None
      | c :: rest =>
          if (c =? 70) && (str_len s <=? 3) then function_key rest
          else if (str_len s =? 1) && forallb is_ascii_alphabetic s then Some c
          else if (str_len s =? 1) && forallb is_ascii_digit s then Some c
          else None
      end
  end.

Fixpoint combo_loop (toks : list Str) (out : list Z) : option (list Z) :=
  match toks with
  | [] => Some out
  | tok :: toks' =>
      let t := trim tok in
      match t with
      | [] => combo_loop toks' out
      | _ => v ← parse_key_token t; combo_loop toks' (out ++ [v])
      end
  end.

Definition parse_key_combo (spec : Str) : option (list Z) :=
  let trimmed := trim spec in
  match trimmed with
  | [] => Some []
  | _ => combo_loop (split 43 trimmed) []
  end.

Definition convert_binding (b : SettingsBinding) : Binding :=
  match b with
  | SbNone => BNone
  | SbEraserToggle => EraserToggle
  | SbMouseButton button => MouseButton button
  | SbKeyTap key =>
      match parse_key_combo key with
      | Some [k] => KeyTap k
      | Some (k :: k' :: ks) => KeyChord (k :: k' :: ks)
      | _ => BNone
      end
  | SbKeyHold key =>
      match parse_key_combo key with
      | Some (k :: ks) => KeyHold (k :: ks)
      | _ => BNone
      end
  | SbKeyChord keys =>
      match omap parse_key_token keys with
      | [] => BNone
      | out => KeyChord out
      end
  end.

Definition build_pen_profile (b : PenBindings) : PenButtonProfile :=
  {| barrel_1 := convert_binding (button_0 b); barrel_2 := convert_binding (button_1 b);
     tertiary := convert_binding (button_2 b); tip_threshold := S754_zero false |}.
End KeyNames.

(** * Key names: what is accepted, and as which code *)

Section Theorems.
Context (vk : VkTable).

Abbreviation parse := (parse_key_token vk).

Definition nonempty (s : Str) : bool := match s with [] => false | _ => true end.

Definition keep_nonempty (l : list Str) : list Str := List.filter nonempty l.

Lemma combo_loop_spec toks out :
  combo_loop vk toks out = app out <$> mapM parse (keep_nonempty (trim <$> toks)).
Proof.
  revert out. induction toks as [| t toks IH]; intros out; cbn; [by rewrite app_nil_r |].
  destruct (trim t) as [| c t'] eqn:E; cbn; [by rewrite IH |].
  destruct (parse (c :: t')) as [v |]; cbn; [| done]. rewrite IH.
  destruct (mapM _ _); cbn; [| done]. by rewrite <- app_assoc.
Qed.

Lemma parse_key_combo_mapM spec :
  parse_key_combo vk spec = mapM parse (keep_nonempty (trim <$> split 43 spec)).
Proof.
  rewrite <- (split_trim 43 spec) by done. unfold parse_key_combo.
  destruct (trim spec) as [| c s]; [done |]. rewrite combo_loop_spec.
  by destruct (mapM _ _).
Qed.

(** The codes a key name can stand for. *)
Definition known_code (v : Z) : Prop :=
  v ∈ (named_keys vk).*2 \/ 0x30 <= v <= 0x39 \/ 0x41 <= v <= 0x5A \/ 0x70 <= v <= 0x87.

Lemma upper_not_lower c : (97 <=? ascii_upper c) && (ascii_upper c <=? 122) = false.
Proof. unfold ascii_upper. destruct ((97 <=? c) && (c <=? 122)) eqn:E; lia. Qed.

Lemma parse_known s v : parse s = Some v -> known_code v.
Proof.
  intros H. revert H. unfold parse_key_token, named_key. destruct (List.find _ _) as [e |] eqn:E; intros H.
  - injection H as <-. left. apply List.find_some in E as [E _]. apply list_elem_of_fmap.
    exists e. split; [done |]. by apply list_elem_of_In.
  - right. destruct s as [| c s]; [done |]. revert H.
    cbn [to_ascii_uppercase List.map]. clear E. pose proof (upper_not_lower c) as Hc. revert Hc.
    generalize (ascii_upper c).
    clear c. intros c Hc. destruct ((c =? 70) && _); [| destruct ((_ =? 1) && _) eqn:E].
    + unfold function_key. destruct (parse_u16 _) as [n |]; [| done]. cbn.
      unfold in_range. destruct ((1 <=? n) && (n <=? 24)) eqn:E; [| done]. intros [= <-]. lia.
    + intros [= <-]. apply andb_true_iff in E as [_ E]. cbn in E.
      apply andb_true_iff in E as [E _]. unfold is_ascii_alphabetic in E. lia.
    + destruct (_ && forallb is_ascii_digit _) eqn:E'; [| congruence]. intros [= <-].
      apply andb_true_iff in E' as [_ E']. cbn in E'.
      apply andb_true_iff in E' as [E' _]. unfold is_ascii_digit in E'. lia.
Qed.

Definition decimal2 (n : Z) : Str := if n <? 10 then [48 + n] else [48 + n / 10; 48 + n mod 10].

(** What a key name means: every fixed name has its code, a digit and a
    letter stand for themselves, F1 to F24 for the function keys, letter case
    never matters, and no other code can come out.  The one letter without a
    code is F: the function-key case takes it first. *)
Theorem key_token_exact :
  Forall (fun e => parse (lit e.1) = Some e.2) (named_keys vk)
  /\ (forall c, 65 <= c <= 90 -> parse [c] = if c =? 70 then None else Some c)
  /\ (forall c, 48 <= c <= 57 -> parse [c] = Some c)
  /\ (forall n, 1 <= n <= 24 -> parse (70 :: decimal2 n) = Some (0x6F + n))
  /\ (forall s, parse (to_ascii_uppercase s) = parse s)
  /\ (forall s v, parse s = Some v -> known_code v).
Proof.
  split_and!.
  - repeat (constructor; [reflexivity |]). constructor.
  - intros c Hc. apply (forall_range (fun c => parse [c] = if c =? 70 then None else Some c) 65 26); [| lia].
    repeat (constructor; [reflexivity |]). constructor.
  - intros c Hc. apply (forall_range (fun c => parse [c] = Some c) 48 10); [| lia].
    repeat (constructor; [reflexivity |]). constructor.
  - intros n Hn. apply (forall_range (fun n => parse (70 :: decimal2 n) = Some (0x6F + n)) 1 24); [| lia].
    repeat (constructor; [reflexivity |]). constructor.
  - intros s. unfold parse_key_token. by rewrite upper_idem.
  - apply parse_known.
Qed.

(** A key combination is read piece by piece: white space around the
    whole and around every piece is dropped, empty pieces are skipped, and
    the combination has a meaning, in the order written, just when every
    remaining piece has one.  So pieces joined by plus signs read back. *)
Theorem key_combo_exact :
  (forall spec, parse_key_combo vk spec = mapM parse (keep_nonempty (trim <$> split 43 spec)))
  /\ (forall toks, toks <> [] -> Forall (fun t => 43 ∉ t) toks ->
        parse_key_combo vk (join 43 toks) = mapM parse (keep_nonempty (trim <$> toks))).
Proof.
  split; [apply parse_key_combo_mapM |]. intros toks Hn H.
  rewrite parse_key_combo_mapM. by rewrite split_join.
Qed.

Definition binding_codes (b : Binding) : list Z :=
  match b with KeyTap k => [k] | KeyHold ks | KeyChord ks => ks | _ => [] end.

(** A binding the injector can act on: it has something to press. *)
Definition well_formed (b : Binding) : Prop :=
  Forall known_code (binding_codes b)
  /\ match b with KeyHold [] | KeyChord [] => False | _ => True end.

Lemma combo_known spec ks : parse_key_combo vk spec = Some ks -> Forall known_code ks.
Proof.
  rewrite parse_key_combo_mapM. intros H. apply mapM_Some in H.
  induction H; constructor; eauto using parse_known.
Qed.

Lemma omap_known names : Forall known_code (omap parse names).
Proof.
  apply list.Forall_forall. intros v Hv. apply list_elem_of_omap in Hv as (s & _ & H).
  eauto using parse_known.
Qed.

Lemma convert_well_formed b : well_formed (convert_binding vk b).
Proof.
  unfold well_formed. destruct b as [| key | key | keys | button |]; cbn;
    try by (split; [constructor |]).
  - destruct (parse_key_combo vk key) as [[| k [| k' ks]] |] eqn:E;
      try apply combo_known in E; split; first [exact E | done | constructor].
  - destruct (parse_key_combo vk key) as [[| k ks] |] eqn:E;
      try apply combo_known in E; split; first [exact E | done | constructor].
  - pose proof (omap_known keys) as H. destruct (omap parse keys);
      split; first [exact H | done | constructor].
Qed.

(** Whatever the user typed, the profile handed to a session presses only
    keys a name stands for and never an empty combination; a held combination
    keeps all its keys in order; a text with an unknown piece binds nothing;
    and the default settings are the engine's default profile. *)
Theorem pen_profile_sound :
  (forall b, let p := build_pen_profile vk b in
     well_formed (barrel_1 p) /\ well_formed (barrel_2 p) /\ well_formed (tertiary p))
  /\ (forall spec k ks, parse_key_combo vk spec = Some (k :: ks) ->
        convert_binding vk (SbKeyHold spec) = KeyHold (k :: ks)
        /\ binding_codes (convert_binding vk (SbKeyTap spec)) = k :: ks)
  /\ (forall spec, parse_key_combo vk spec = None ->
        convert_binding vk (SbKeyHold spec) = BNone /\ convert_binding vk (SbKeyTap spec) = BNone)
  /\ build_pen_profile vk default_bindings = default_profile (VK_CONTROL vk) (VK_SHIFT vk) 0x45.
Proof.
  split_and!.
  - intros b p. split_and!; apply convert_well_formed.
  - intros spec k ks H. cbn. rewrite H. by destruct ks.
  - intros spec H. cbn. by rewrite H.
  - reflexivity.
Qed.
End Theorems.

(** * Witnesses *)

Definition demo_vk : VkTable :=
  {| VK_CONTROL := 0x11; VK_SHIFT := 0x10; VK_MENU := 0x12; VK_LWIN := 0x5B; VK_SPACE := 0x20; VK_TAB := 9;
     VK_RETURN := 13; VK_ESCAPE := 0x1B; VK_BACK := 8; VK_DELETE := 0x2E; VK_INSERT := 0x2D;
     VK_HOME := 0x24; VK_END := 0x23; VK_PRIOR := 0x21; VK_NEXT := 0x22; VK_UP := 0x26;
     VK_DOWN := 0x28; VK_LEFT := 0x25; VK_RIGHT := 0x27 |}.

Lemma key_token_exact_witness :
  parse_key_token demo_vk (lit "e") = Some 0x45 /\ parse_key_token demo_vk (lit "F24") = Some 0x87
  /\ parse_key_token demo_vk (lit "F25") = None /\ parse_key_token demo_vk [70] = None.
Proof.
  destruct (key_token_exact demo_vk) as (_ & Hl & _ & Hf & Hc & _).
  split_and!.
  - rewrite <- (Hc (lit "e")). apply (Hl 69). lia.
  - apply (Hf 24). lia.
  - reflexivity.
  - apply (Hl 70). lia.
Defined.

Lemma key_combo_exact_witness :
  parse_key_combo demo_vk (lit " Ctrl + Shift+E ") = Some [0x11; 0x10; 0x45]
  /\ parse_key_combo demo_vk (join 43 [lit "Ctrl"; []; lit "5"]) = Some [0x11; 0x35].
Proof.
  destruct (key_combo_exact demo_vk) as [H1 H2]. split.
  - rewrite H1. reflexivity.
  - rewrite H2; [reflexivity | done | by repeat constructor; intros H; repeat (apply elem_of_cons in H as [[=] | H]); inversion H].
Defined.

Lemma pen_profile_sound_witness :
  convert_binding demo_vk (SbKeyHold (lit "Ctrl+Shift")) = KeyHold [0x11; 0x10]
  /\ convert_binding demo_vk (SbKeyTap (lit "Ctrl+Nope")) = BNone.
Proof.
  destruct (pen_profile_sound demo_vk) as (_ & H1 & H2 & _). split.
  - by apply (H1 (lit "Ctrl+Shift") 0x11 [0x10]).
  - by apply (H2 (lit "Ctrl+Nope")).
Defined.
