(* ===== verification/Store.v ===== *)
(** Keeping the settings: [load], [save] and the driver's settings file of
    [apps/penflow-gui/src-tauri/src/settings.rs], the [save_settings] command
    and the start-up steps of [main.rs], and the two launchers of [os.rs].

    Files are a finite map from paths (lists of components) to contents.  Each
    call of the standard library may fail; a write that fails, or that the
    process does not survive, leaves any prefix of its data.  The registry
    value and the scheduled task are what the calls of [os.rs] change; a run of
    schtasks may fail to start, fail, or end with an exit code that cannot be
    read.  [serde_json] is a parameter. *)
From Stdlib Require Import Ascii.
From stdpp Require Import list gmap strings.
From S2P Require Import Prelude Text Keys.

(** * Files *)

Abbreviation Path := (list string).

Abbreviation Fs := (gmap Path (list Z)).

Inductive FsOp :=
| CreateDirAll (p : Path)
| CreateFile (p : Path)
| WriteAll (p : Path) (data : list Z)
| SyncAll (p : Path)
| Rename (from to : Path)
| InvalidData.

Definition fs_done (op : FsOp) (fs : Fs) : Fs :=
  match op with
  | CreateFile p => <[p := []]> fs
  | WriteAll p data => <[p := default [] (fs !! p) ++ data]> fs
  | Rename p q => match fs !! p with Some data => <[q := data]> (delete p fs) | None => fs end
  | CreateDirAll _ | SyncAll _ | InvalidData => fs
  end.

(** A call that fails: only a write can have done part of its work. *)
Definition fs_failed (op : FsOp) (n : nat) (fs : Fs) : Fs :=
  match op with
  | WriteAll p data => <[p := default [] (fs !! p) ++ take n data]> fs
  | _ => fs
  end.

(** [faults i = Some n]: the [i]-th call fails after [n] bytes. *)
Definition Faults : Type := nat -> option nat.

Definition op_faults (faults : Faults) (i : nat) (op : FsOp) : option nat :=
  match op with InvalidData => Some 0%nat | _ => faults i end.

(** Calls in sequence, each followed by the question mark operator. *)
Fixpoint fs_run (faults : Faults) (i : nat) (ops : list FsOp) (fs : Fs) : result unit unit * Fs :=
  match ops with
  | [] => (Ok tt, fs)
  | op :: ops' =>
      match op_faults faults i op with
      | Some n => (Err tt, fs_failed op n fs)
      | None => fs_run faults (S i) ops' (fs_done op fs)
      end
  end.

(** [Path::with_extension]: what follows the last dot of the file name, unless
    the dot is its first character, gives way to the extension. *)
Fixpoint file_stem (first : bool) (s : string) : option string :=
  match s with
  | EmptyString => None
  | String c s' =>
      match file_stem false s' with
      | Some stem => Some (String c stem)
      | None => if Ascii.eqb c "."%char && negb first then Some EmptyString else None
      end
  end.

Definition with_extension (p : Path) (ext : string) : Path :=
  match reverse p with
  | name :: parents =>
      reverse parents ++ [String.app (default name (file_stem true name)) (String "." ext)]
  | [] => []
  end.

Definition parent (p : Path) : option Path :=
  match reverse p with _ :: parents => Some (reverse parents) | [] => None end.

(** * Settings file *)

Section Persistence.
(** The value of [APPDATA], and [serde_json] on settings. *)
Context (appdata : option Path) (to_vec_pretty : Settings -> option (list Z))
  (from_slice : list Z -> option Settings).

Definition settings_path : Path := default ["."%string] appdata ++ ["Penflow"; "settings.json"]%string.

(** [readable]: no error other than a missing file. *)
Definition load (readable : bool) (fs : Fs) : Settings :=
  match (if readable then fs !! settings_path else None) with
  | None => default_settings
  | Some bytes =>
      match from_slice bytes with
      | Some s => s
      | None => default_settings
      end
  end.

Definition save_ops (s : Settings) : list FsOp :=
  let path := settings_path in
  let tmp := with_extension path "json.tmp" in
  match parent path with Some p => [CreateDirAll p] | None => [] end
  ++ [CreateFile tmp]
  ++ match to_vec_pretty s with
     | Some json => [WriteAll tmp json; SyncAll tmp; Rename tmp path]
     | None => [InvalidData]
     end.

Definition save (faults : Faults) (s : Settings) (fs : Fs) : result unit unit * Fs :=
  fs_run faults 0 (save_ops s) fs.
End Persistence.

(** * Driver settings file *)

(** The text around the two numbers, as the bytes of the source's literal. *)
Definition xml_before : string :=
"<?xml version='1.0' encoding='utf-8'?>
<!--
  Penflow VDD configuration.

  This installed copy is generated from the GUI's virtual-display
  resolution setting. The checked-in template defaults to 2880x1800 for
  the MovinkPad Pro 14, but users can choose another even width/height
  and the next VDD enable cycle will publish that mode.
-->
<vdd_settings>
    <monitors>
        <count>1</count>
    </monitors>
    <gpu>
        <friendlyname>default</friendlyname>
    </gpu>
    <global>
        <g_refresh_rate>60</g_refresh_rate>
        <g_refresh_rate>120</g_refresh_rate>
    </global>
    <resolutions>
        <resolution>
            <width>".

Definition xml_between : string :=
"</width>
            <height>".

Definition xml_after : string :=
"</height>
            <refresh_rate>120</refresh_rate>
        </resolution>
    </resolutions>
    <options>
        <CustomEdid>false</CustomEdid>
        <PreventSpoof>false</PreventSpoof>
        <EdidCeaOverride>false</EdidCeaOverride>
        <!-- HardwareCursor=true: the OS does NOT paint the cursor into the
             VDD framebuffer (no DWM software-cursor compose step on this
             monitor). The capture pipeline composites the cursor itself
             via penflow-core::cursor_blit just before NV12 conversion,
             using the position+shape DDA reports through
             DXGI_OUTDUPL_FRAME_INFO. Saves the one-frame DWM-compose
             latency the false setting paid for; cost is ~10-30 µs/frame
             of GPU blit. -->
        <HardwareCursor>true</HardwareCursor>
        <SDR10bit>false</SDR10bit>
        <HDRPlus>false</HDRPlus>
        <logging>false</logging>
        <debuglogging>false</debuglogging>
    </options>
</vdd_settings>
".

Definition render_vdd_settings_xml (r : DisplayResolution) : list Z :=
  lit xml_before ++ decimal (dr_width r) ++ lit xml_between ++ decimal (dr_height r) ++ lit xml_after.

Definition driver_ops (path : Path) (create_parent : bool) (xml : list Z) : list FsOp :=
  (if create_parent then match parent path with Some p => [CreateDirAll p] | None => [] end else [])
  ++ [CreateFile path; WriteAll path xml].

Definition write_vdd_settings_file (path : Path) (s : Settings) (create_parent : bool)
    (faults : Faults) (fs : Fs) : result unit unit * Fs :=
  match validate (vdd_resolution s) with
  | Err _ => (Err tt, fs)
  | Ok _ =>
      fs_run faults 0 (driver_ops path create_parent (render_vdd_settings_xml (vdd_resolution s))) fs
  end.

(** * Launchers

    [Run]: the autostart value of the registry; [task]: the scheduled task,
    with whether a logon triggers it. *)

Record Launchers := { run_entry : bool; task : option bool }.

(** How a run of schtasks ends: it reports success and has done its work; it
    reports a failure, or could not be started, and may have done it or not; or
    it ran behind a prompt and its exit code could not be read. *)
Inductive TaskRun := Succeeds | Fails (did : bool) | Unread (did : bool).

(** An unread exit code is the 0 that its variable was set to. *)
Definition run_schtasks (r : TaskRun) : result unit unit :=
  match r with Succeeds | Unread _ => Ok tt | Fails _ => Err tt end.

Definition did (r : TaskRun) : bool := match r with Succeeds => true | Fails d | Unread d => d end.

(** Whether the registry call succeeds and schtasks can be asked, and how its
    runs end. *)
Record OsResults := { set_ok : bool; query_ok : bool; create_run : TaskRun; delete_run : TaskRun }.

Section LauncherCalls.
Context (os : OsResults).

Definition set_autostart (enabled : bool) (l : Launchers) : result unit unit * Launchers :=
  if set_ok os then (Ok tt, {| run_entry := enabled; task := task l |}) else (Err tt, l).

(** A query that cannot be made answers no. *)
Definition has_admin_task (l : Launchers) : bool :=
  query_ok os && match task l with Some _ => true | None => false end.

Definition create_admin_task (with_logon_trigger : bool) (l : Launchers) : result unit unit * Launchers :=
  (run_schtasks (create_run os),
   {| run_entry := run_entry l; task := if did (create_run os) then Some with_logon_trigger else task l |}).

Definition delete_admin_task (l : Launchers) : result unit unit * Launchers :=
  if negb (has_admin_task l) then (Ok tt, l)
  else (run_schtasks (delete_run os),
        {| run_entry := run_entry l; task := if did (delete_run os) then None else task l |}).

Definition apply_launchers (new : Settings) (l : Launchers) : result unit unit * Launchers :=
  if run_as_admin new then
    match set_autostart false l with
    | (Ok _, l) => create_admin_task (autostart new) l
    | r => r
    end
  else
    match delete_admin_task l with
    | (Ok _, l) => set_autostart (autostart new) l
    | r => r
    end.

(** [main]: the registry entry is synchronised with the saved setting. *)
Definition startup_launchers (initial : Settings) (l : Launchers) : Launchers :=
  (set_autostart (autostart initial) l).2.
End LauncherCalls.

(** * The save command *)

(** The settings in memory are those the service reads. *)
Record App := { files : Fs; launchers : Launchers; shared : Settings }.

Inductive SaveError := Rejected | SaveFailed | LauncherFailed | DriverFileFailed.

Section SaveCommand.
Context (appdata : option Path) (to_vec_pretty : Settings -> option (list Z))
  (from_slice : list Z -> option Settings).
Context (os : OsResults) (vdd_detected : bool).

Definition installed_vdd_settings_path : Path :=
  ["C:"; "VirtualDisplayDriver"; "vdd_settings.xml"]%string.

Definition write_installed_vdd_settings (faults : Faults) (s : Settings) (fs : Fs) : result unit unit * Fs :=
  write_vdd_settings_file installed_vdd_settings_path s true faults fs.

(** [f1], [f2]: the faults of the two files written. *)
Definition save_settings (f1 f2 : Faults) (new : Settings) (a : App) : result SaveError unit * App :=
  match validate (vdd_resolution new) with
  | Err _ => (Err Rejected, a)
  | Ok _ =>
      match save appdata to_vec_pretty f1 new (files a) with
      | (Err _, fs) => (Err SaveFailed, {| files := fs; launchers := launchers a; shared := shared a |})
      | (Ok _, fs) =>
          match apply_launchers os new (launchers a) with
          | (Err _, l) => (Err LauncherFailed, {| files := fs; launchers := l; shared := new |})
          | (Ok _, l) =>
              if vdd_detected then
                match write_installed_vdd_settings f2 new fs with
                | (Ok _, fs) => (Ok tt, {| files := fs; launchers := l; shared := new |})
                | (Err _, fs) => (Err DriverFileFailed, {| files := fs; launchers := l; shared := new |})
                end
              else (Ok tt, {| files := fs; launchers := l; shared := new |})
          end
      end
  end.
End SaveCommand.

(** * Lemmas *)

Lemma with_extension_settings base :
  with_extension (base ++ ["Penflow"; "settings.json"]%string) "json.tmp"
  = base ++ ["Penflow"; "settings.json.tmp"]%string.
Proof.
  unfold with_extension. rewrite reverse_app.
  change (reverse ["Penflow"; "settings.json"]%string) with (["settings.json"; "Penflow"]%string).
  cbn [app]. rewrite reverse_cons, reverse_involutive, <- app_assoc. reflexivity.
Qed.

Lemma tmp_ne_path appdata : with_extension (settings_path appdata) "json.tmp" <> settings_path appdata.
Proof. unfold settings_path. rewrite with_extension_settings. intros H. simplify_list_eq. Qed.

(** What a sequence of calls leaves alone. *)
Definition touches (op : FsOp) : list Path :=
  match op with
  | CreateFile p | WriteAll p _ => [p]
  | Rename p q => [p; q]
  | _ => []
  end.

Lemma fs_done_frame op fs p : p ∉ touches op -> fs_done op fs !! p = fs !! p.
Proof.
  destruct op as [q | q | q data | q | q r |]; cbn; try done; rewrite ?not_elem_of_cons; intros H;
    destruct_and?; rewrite ?lookup_insert_ne by congruence; try done.
  destruct (fs !! q); [| done]. by rewrite lookup_insert_ne, lookup_delete_ne by congruence.
Qed.

Lemma fs_run_frame faults p ops i fs :
  Forall (fun op => p ∉ touches op) ops -> (fs_run faults i ops fs).2 !! p = fs !! p.
Proof.
  intros H. revert i fs. induction H as [| op ops Hop H IH]; intros i fs; [done |].
  cbn [fs_run]. destruct (op_faults faults i op) as [n |]; cbn [snd].
  - destruct op; cbn in *; try done. apply lookup_insert_ne. set_solver.
  - rewrite IH. by apply fs_done_frame.
Qed.

Section SaveLemmas.
Context (appdata : option Path) (to_vec_pretty : Settings -> option (list Z))
  (from_slice : list Z -> option Settings).

Abbreviation path := (settings_path appdata).
Abbreviation tmp := (with_extension (settings_path appdata) "json.tmp").

(** Only the last call of a save touches the settings file, and by then the
    temporary file holds all of the new contents. *)
Lemma save_file faults s fs :
  match save appdata to_vec_pretty faults s fs with
  | (Ok _, fs') => exists json, to_vec_pretty s = Some json /\ fs' !! path = Some json
  | (Err _, fs') => fs' !! path = fs !! path
  end.
Proof.
  pose proof (tmp_ne_path appdata) as Hne. unfold save, save_ops.
  assert (exists d, parent path = Some d) as [d ->]
    by (unfold parent, settings_path; rewrite reverse_app; by eexists).
  assert (fs_done (CreateDirAll d) fs = fs) as Hd by done.
  cbn [app fs_run op_faults]. destruct (faults 0%nat); [done |]. rewrite Hd. clear Hd d.
  destruct (faults 1%nat); [done |]. cbn [fs_done].
  destruct (to_vec_pretty s) as [json |]; cbn [fs_run op_faults];
    [| cbn [fs_failed]; by apply lookup_insert_ne].
  destruct (faults 2%nat); cbn [fs_failed fs_done]; [by rewrite !lookup_insert_ne |].
  destruct (faults 3%nat); cbn [fs_failed fs_done]; [by rewrite !lookup_insert_ne |].
  destruct (faults 4%nat); cbn [fs_failed fs_done]; [by rewrite !lookup_insert_ne |].
  exists json. split; [done |]. by rewrite !lookup_insert_eq.
Qed.

Lemma save_frame faults s fs p : p <> path -> p <> tmp ->
  (save appdata to_vec_pretty faults s fs).2 !! p = fs !! p.
Proof.
  intros H1 H2. apply fs_run_frame. unfold save_ops.
  assert (p ∉ [tmp]) by set_solver. assert (p ∉ [tmp; path]) by set_solver.
  assert (p ∉ []) by set_solver.
  destruct (parent _), (to_vec_pretty s); by repeat constructor.
Qed.
End SaveLemmas.

(** Saving settings is all or nothing.  Wherever a call fails or the process
    dies, a later start reads the settings it would have read before; when the
    save reports success, it reads the new ones; and no file other than the
    settings and their temporary copy changes. *)
Theorem save_all_or_nothing appdata to_vec_pretty from_slice faults s fs :
  (forall json, to_vec_pretty s = Some json -> from_slice json = Some s) ->
  let '(r, fs') := save appdata to_vec_pretty faults s fs in
  load appdata from_slice true fs' = (if is_ok r then s else load appdata from_slice true fs)
  /\ forall p, p <> settings_path appdata -> p <> with_extension (settings_path appdata) "json.tmp" ->
       fs' !! p = fs !! p.
Proof.
  intros Hserde. pose proof (save_file appdata to_vec_pretty faults s fs) as Hf.
  pose proof (save_frame appdata to_vec_pretty faults s fs) as Hp.
  destruct (save _ _ _ _ _) as [[u | u] fs']; cbn [snd is_ok] in *; (split; [| done]); unfold load.
  - destruct Hf as (json & Hj & ->). by rewrite (Hserde json Hj).
  - by rewrite Hf.
Qed.

(** * Reading the driver's file back *)

(** The text after the first occurrence of [pat]. *)
Fixpoint find_after (pat s : list Z) : option (list Z) :=
  if starts_with pat s then Some (drop (length pat) s)
  else match s with [] => None | _ :: s' => find_after pat s' end.

Fixpoint leading_digits (s : list Z) : list Z :=
  match s with c :: s' => if is_ascii_digit c then c :: leading_digits s' else [] | [] => [] end.

Definition read_tag (tag s : list Z) : option Z := rest ← find_after tag s; digits_upto 65535 0 (leading_digits rest).

Lemma decimal_spec n : 0 <= n <= MAX_VDD_WIDTH ->
  digits_upto 65535 0 (decimal n) = Some n /\ Forall (fun c => is_ascii_digit c = true) (decimal n).
Proof. unfold MAX_VDD_WIDTH. intros Hn. apply decimal_fuel_spec; [lia | cbn; lia]. Qed.

Lemma leading_digits_app d s : Forall (fun c => is_ascii_digit c = true) d ->
  leading_digits s = [] -> leading_digits (d ++ s) = d.
Proof. intros Hd Hs. induction Hd as [| c d Hc _ IH]; cbn; [done |]. by rewrite Hc, IH. Qed.

Lemma find_after_skip c pat d s : is_ascii_digit c = false ->
  Forall (fun c => is_ascii_digit c = true) d -> find_after (c :: pat) (d ++ s) = find_after (c :: pat) s.
Proof.
  intros Hc Hd. induction Hd as [| x d Hx _ IH]; [done |]. cbn [app find_after starts_with].
  destruct (Z.eqb_spec c x); [congruence | done].
Qed.

Lemma validate_ok r : is_ok (validate r) = true <->
  MIN_VDD_WIDTH <= dr_width r <= MAX_VDD_WIDTH /\ MIN_VDD_HEIGHT <= dr_height r <= MAX_VDD_HEIGHT
  /\ (2 | dr_width r) /\ (2 | dr_height r).
Proof.
  rewrite <- !Z.mod_divide by done. unfold validate, in_range.
  repeat (case_match; [split; [done | lia] |]). split; [lia | done].
Qed.

Lemma before_width x : find_after (lit "<width>") (lit xml_before ++ x) = Some x.
Proof. lazy. reflexivity. Qed.

Lemma between_height x : find_after (lit "<height>") (lit xml_between ++ x) = Some x.
Proof. lazy. reflexivity. Qed.

Lemma before_height x :
  find_after (lit "<height>") (lit xml_before ++ x) = find_after (lit "<height>") x.
Proof. lazy. reflexivity. Qed.

Lemma read_number n x : 0 <= n <= MAX_VDD_WIDTH -> leading_digits x = [] ->
  digits_upto 65535 0 (leading_digits (decimal n ++ x)) = Some n.
Proof. intros Hn Hx. destruct (decimal_spec n Hn) as [Hv Hd]. by rewrite leading_digits_app. Qed.

Lemma rendered_dimensions r : 0 <= dr_width r <= MAX_VDD_WIDTH -> 0 <= dr_height r <= MAX_VDD_HEIGHT ->
  read_tag (lit "<width>") (render_vdd_settings_xml r) = Some (dr_width r)
  /\ read_tag (lit "<height>") (render_vdd_settings_xml r) = Some (dr_height r).
Proof.
  intros Hw Hh. unfold read_tag, render_vdd_settings_xml. rewrite before_width, before_height.
  rewrite (find_after_skip 60 (lit "height>")) by (try done; by apply decimal_spec).
  rewrite between_height. cbn [mbind option_bind]. split; apply read_number; try done.
  unfold MAX_VDD_HEIGHT, MAX_VDD_WIDTH in *. lia.
Qed.

Lemma driver_ops_frame path create_parent xml faults i fs p : p <> path ->
  (fs_run faults i (driver_ops path create_parent xml) fs).2 !! p = fs !! p.
Proof.
  intros Hp. apply fs_run_frame. assert (p ∉ [path]) by set_solver. assert (p ∉ []) by set_solver.
  unfold driver_ops. destruct create_parent, (parent path); by repeat constructor.
Qed.

Lemma create_write_run path xml faults i fs :
  let '(r, fs') := fs_run faults i [CreateFile path; WriteAll path xml] fs in
  is_ok r = true -> fs' !! path = Some xml.
Proof.
  cbn [fs_run op_faults]. destruct (faults i); [done |]. destruct (faults (S i)); [done |].
  intros _. cbn [fs_done]. by rewrite !lookup_insert_eq.
Qed.

Lemma driver_ops_run path create_parent xml faults i fs :
  let '(r, fs') := fs_run faults i (driver_ops path create_parent xml) fs in
  is_ok r = true -> fs' !! path = Some xml.
Proof.
  unfold driver_ops. destruct create_parent; [| apply create_write_run].
  destruct (parent path) as [d |]; [| apply create_write_run].
  cbn [app]. cbn [fs_run]. destruct (op_faults faults i (CreateDirAll d)); [done |].
  apply create_write_run.
Qed.

(** The driver's settings file.  A resolution out of bounds or odd is refused
    and no file changes; a valid one is written so that the width and the height
    read back from the file are the chosen numbers, as long as no call fails. *)
Theorem driver_file_exact path s create_parent faults fs :
  let '(r, fs') := write_vdd_settings_file path s create_parent faults fs in
  (forall p, p <> path -> fs' !! p = fs !! p)
  /\ (is_ok r = true -> exists xml, fs' !! path = Some xml
        /\ read_tag (lit "<width>") xml = Some (dr_width (vdd_resolution s))
        /\ read_tag (lit "<height>") xml = Some (dr_height (vdd_resolution s)))
  /\ (~ (MIN_VDD_WIDTH <= dr_width (vdd_resolution s) <= MAX_VDD_WIDTH
          /\ MIN_VDD_HEIGHT <= dr_height (vdd_resolution s) <= MAX_VDD_HEIGHT
          /\ (2 | dr_width (vdd_resolution s)) /\ (2 | dr_height (vdd_resolution s))) ->
      r = Err tt /\ fs' = fs).
Proof.
  unfold write_vdd_settings_file. pose proof (validate_ok (vdd_resolution s)) as Hok.
  destruct (validate (vdd_resolution s)) as [u | e] eqn:Hv; cbn [is_ok] in *.
  - destruct (proj1 Hok eq_refl) as (Hw & Hh & _). unfold MIN_VDD_WIDTH, MIN_VDD_HEIGHT in *.
    destruct (rendered_dimensions (vdd_resolution s)) as [Rw Rh]; [lia | lia |].
    generalize dependent (render_vdd_settings_xml (vdd_resolution s)). intros xml Rw Rh.
    pose proof (driver_ops_run path create_parent xml faults 0 fs) as Hr.
    pose proof (driver_ops_frame path create_parent xml faults 0 fs) as Hp.
    destruct (fs_run _ _ _ _) as [r fs']. cbn [snd] in Hp. split_and!; [done | | tauto].
    intros E. exists xml. by rewrite (Hr E).
  - split_and!; [done | done |]. by intros _.
Qed.

(** * The save command keeps its promises *)

Definition one_launcher (l : Launchers) : Prop := run_entry l = true -> task l = None.

Definition launcher_matrix (s : Settings) : Launchers :=
  if run_as_admin s then {| run_entry := false; task := Some (autostart s) |}
  else {| run_entry := autostart s; task := None |}.

(** Whether the run of schtasks that the new settings need, if they need one,
    is told truly: a creation that reports success, or a deletion after a query
    that could be made, did its work. *)
Definition told_truly (os : OsResults) (new : Settings) (l : Launchers) : bool :=
  if run_as_admin new then match create_run os with Unread d => d | _ => true end
  else match task l with
       | Some _ => query_ok os && match delete_run os with Unread d => d | _ => true end
       | None => true
       end.

Lemma apply_launchers_spec os new l :
  let '(r, l') := apply_launchers os new l in
  (is_ok r = true -> run_entry l' = negb (run_as_admin new) && autostart new)
  /\ (is_ok r = true -> told_truly os new l = true -> l' = launcher_matrix new)
  /\ (one_launcher l -> run_as_admin new = true \/ told_truly os new l = true -> one_launcher l').
Proof.
  unfold one_launcher. destruct os as [[] [] [|[]|[]] [|[]|[]]], l as [[] [t |]], new as [? ? ? ? ? auto [] ? ? ? ?];
    cbn; split_and!; try done; intros H; intros; naive_solver.
Qed.

Lemma settings_not_driver appdata : settings_path appdata <> installed_vdd_settings_path.
Proof.
  unfold settings_path, installed_vdd_settings_path. intros H.
  apply (f_equal reverse) in H. rewrite reverse_app in H. discriminate H.
Qed.

Section SaveCommandTheorems.
Context (appdata : option Path) (to_vec_pretty : Settings -> option (list Z))
  (from_slice : list Z -> option Settings) (os : OsResults) (vdd_detected : bool).

Abbreviation reload fs := (load appdata from_slice true fs).

(** The file and the memory agree. *)
Definition in_step (a : App) : Prop := reload (files a) = shared a.

Lemma reload_same fs fs' : fs' !! settings_path appdata = fs !! settings_path appdata -> reload fs' = reload fs.
Proof. intros H. unfold load. by rewrite H. Qed.

Lemma save_reload faults s fs : (forall json, to_vec_pretty s = Some json -> from_slice json = Some s) ->
  let '(r, fs') := save appdata to_vec_pretty faults s fs in
  reload fs' = if is_ok r then s else reload fs.
Proof.
  intros Hserde. pose proof (save_file appdata to_vec_pretty faults s fs) as Hf.
  destruct (save _ _ _ _ _) as [[u | u] fs']; cbn [is_ok].
  - unfold load. destruct Hf as (json & Hj & ->). by rewrite (Hserde json Hj).
  - by apply reload_same.
Qed.

(** The driver's file is another file. *)
Lemma driver_reload faults s fs : reload (write_installed_vdd_settings faults s fs).2 = reload fs.
Proof.
  apply reload_same. unfold write_installed_vdd_settings, write_vdd_settings_file.
  destruct (validate _); [| done]. apply driver_ops_frame, settings_not_driver.
Qed.

(** C34. The save command.  Whatever fails, and wherever: the settings in memory
    stay the ones a restart would read; a refused resolution changes nothing
    at all; and when the command succeeds, memory and file hold the new settings
    and the registry entry is there exactly for autostart without administrator
    rights.  If schtasks is told truly besides, that is, if the query for the
    task could be made and no exit code went unread of a run that did not do its
    work, then a second launcher is never added, and after success the
    launchers are the ones the two options ask for; with administrator rights
    asked for a second launcher is not added in any case. *)
Theorem save_settings_spec f1 f2 new a :
  (forall json, to_vec_pretty new = Some json -> from_slice json = Some new) ->
  let '(r, a') := save_settings appdata to_vec_pretty os vdd_detected f1 f2 new a in
  (in_step a -> in_step a')
  /\ (one_launcher (launchers a) -> run_as_admin new = true \/ told_truly os new (launchers a) = true ->
      one_launcher (launchers a'))
  /\ (is_ok (validate (vdd_resolution new)) = false -> r = Err Rejected /\ a' = a)
  /\ (r = Ok tt -> shared a' = new /\ reload (files a') = new
      /\ run_entry (launchers a') = negb (run_as_admin new) && autostart new
      /\ (told_truly os new (launchers a) = true -> launchers a' = launcher_matrix new)).
Proof.
  intros Hserde. unfold save_settings, in_step.
  destruct (validate (vdd_resolution new)) as [u | e]; cbn [is_ok]; [| by split_and!].
  pose proof (save_reload f1 new (files a) Hserde) as Hs.
  destruct (save _ _ _ _ _) as [[u1 | u1] fs]; cbn [is_ok] in Hs; cbn [files shared launchers];
    [| rewrite Hs; by split_and!].
  pose proof (apply_launchers_spec os new (launchers a)) as Hl.
  destruct (apply_launchers _ _ _) as [[u2 | u2] l]; destruct Hl as (Hl0 & Hl1 & Hl2); cbn [is_ok] in *;
    cbn [files shared launchers]; [| by split_and!].
  destruct vdd_detected; [| cbn [files shared launchers]; split_and!; auto; done].
  pose proof (driver_reload f2 new fs) as Hd.
  destruct (write_installed_vdd_settings f2 new fs) as [[u3 | u3] fs']; cbn [snd] in Hd;
    cbn [files shared launchers]; rewrite Hd; split_and!; auto; done.
Qed.
End SaveCommandTheorems.

(** The start-up step sets the registry entry from [autostart] alone, so an
    administrator's logon task gains a second launcher beside it: the state the
    save command avoids comes back at every launch. *)
Lemma startup_adds_launcher :
  let s := {| vdd_resolution := vdd_resolution default_settings; bitrate_bps := 50000000; fps := 120;
              codec := codec default_settings; bindings := default_bindings; autostart := true;
              run_as_admin := true; hud := true; topology := Extend; screen_off_wanted := false;
              disable_touch_wanted := false |} in
  let os := {| set_ok := true; query_ok := true; create_run := Succeeds; delete_run := Succeeds |} in
  one_launcher (launcher_matrix s)
  /\ ~ one_launcher (startup_launchers os s (launcher_matrix s)).
Proof. split; [done |]. intros H. by specialize (H eq_refl). Qed.

(** When schtasks cannot be asked, its task counts as absent: the command that
    turns administrator rights off and autostart on succeeds, and adds the
    registry entry to a task that is still there. *)
Lemma unanswered_query_adds_launcher :
  let os := {| set_ok := true; query_ok := false; create_run := Succeeds; delete_run := Succeeds |} in
  let s := {| vdd_resolution := vdd_resolution default_settings; bitrate_bps := 50000000; fps := 120;
              codec := codec default_settings; bindings := default_bindings; autostart := true;
              run_as_admin := false; hud := true; topology := Extend; screen_off_wanted := false;
              disable_touch_wanted := false |} in
  let l := {| run_entry := false; task := Some true |} in
  one_launcher l /\ apply_launchers os s l = (Ok tt, {| run_entry := true; task := Some true |}).
Proof. by split. Qed.

(** * Witnesses *)

Definition well : OsResults := {| set_ok := true; query_ok := true; create_run := Succeeds; delete_run := Succeeds |}.

Definition demo_files : Fs := {[ ["C:"; "Penflow"; "settings.json"]%string := [1; 2] ]}.

Definition demo_to (s : Settings) : option (list Z) := Some [bitrate_bps s].

Definition demo_from (b : list Z) : option Settings :=
  match b with [50000000] => Some default_settings | _ => None end.

Lemma save_all_or_nothing_witness :
  (save (Some ["C:"%string]) demo_to (fun _ => None) default_settings demo_files).1 = Ok tt
  /\ load (Some ["C:"%string]) demo_from true
       (save (Some ["C:"%string]) demo_to (fun _ => None) default_settings demo_files).2 = default_settings.
Proof.
  split; [reflexivity |].
  destruct (save_all_or_nothing (Some ["C:"%string]) demo_to demo_from (fun _ => None) default_settings demo_files)
    as [H _]; [| exact H].
  intros json [= <-]. reflexivity.
Defined.

Lemma driver_file_exact_witness :
  exists xml,
    (write_vdd_settings_file ["vdd.xml"%string] default_settings true (fun _ => None) ∅).2 !! ["vdd.xml"%string] = Some xml
    /\ read_tag (lit "<width>") xml = Some 2880.
Proof.
  destruct (driver_file_exact ["vdd.xml"%string] default_settings true (fun _ => None) ∅) as (_ & H & _).
  destruct H as (xml & Hx & Hw & _); [reflexivity |]. exists xml. split; [exact Hx | exact Hw].
Defined.

Definition demo_app : App :=
  {| files := ∅; launchers := {| run_entry := true; task := None |}; shared := default_settings |}.

Lemma save_settings_spec_witness :
  let '(r, a') := save_settings (Some ["C:"%string]) demo_to well true (fun _ => None) (fun _ => None)
    default_settings demo_app in
  r = Ok tt /\ launchers a' = {| run_entry := false; task := None |}.
Proof.
  pose proof (save_settings_spec (Some ["C:"%string]) demo_to demo_from
    well true (fun _ => None) (fun _ => None) default_settings demo_app) as H.
  destruct (save_settings _ _ _ _ _ _ _ _) as [r a'] eqn:E.
  assert (r = Ok tt) as Hr by (vm_compute in E; by injection E as <- _).
  split; [exact Hr |].
  destruct H as (_ & _ & _ & H); [intros json [= <-]; reflexivity |]. by apply H.
Defined.
