(* ===== verification/Startup.v ===== *)
(** Start-up and shutdown of the GUI process
    ([src/apps/penflow-gui/src-tauri/src/main.rs], with the calls of [os.rs]):
    helper mode, the hand-over to an elevated copy, the recovery from a crash,
    the tray, and the end. *)
From stdpp Require Import list strings.
From S2P Require Import Prelude Engine Text Keys Vdd CommandLine Helper Store.

(** * Calls of os.rs *)

(** A process is started: [schtasks] with arguments, or, behind a prompt,
    [schtasks] with a command line or the program itself. *)
Inductive OsCall :=
| Schtasks (args : list Str)
| RunasSchtasks (params : Str)
| RunasSelf.

(** How a started process ends: [None] when it could not be started or the
    prompt was declined; its exit code, if it has one. *)
Record OsEnv := {
  os_elevated : bool;
  os_process : OsCall -> option (option Z);
  (** The path of the program, as text, if it is known. *)
  os_current_exe : option Str;
}.

Definition ADMIN_TASK_NAME : Str := lit "Penflow".

Definition quoted_path (exe : Str) : Str := [QUOTE] ++ exe ++ [QUOTE].

Definition create_task_args (exe : Str) (with_logon_trigger : bool) : list Str :=
  let tr := quoted_path exe in
  if with_logon_trigger then
    [lit "/Create"; lit "/TN"; ADMIN_TASK_NAME; lit "/TR"; tr; lit "/SC"; lit "ONLOGON"; lit "/RL";
     lit "HIGHEST"; lit "/F"]
  else
    [lit "/Create"; lit "/TN"; ADMIN_TASK_NAME; lit "/TR"; tr; lit "/SC"; lit "ONCE"; lit "/ST"; lit "00:00";
     lit "/SD"; lit "01/01/2099"; lit "/RL"; lit "HIGHEST"; lit "/F"].

Section Os.
Context (os : OsEnv).

(** Calls with the log of the processes they start. *)
Definition Logged (A : Type) : Type := A * list OsCall.

Definition succeeds (c : OsCall) : bool := bool_decide (os_process os c = Some (Some 0)).

Definition query_admin_task : Logged bool :=
  let c := Schtasks [lit "/Query"; lit "/TN"; ADMIN_TASK_NAME] in (succeeds c, [c]).

Definition run_admin_task : Logged bool :=
  let c := Schtasks [lit "/Run"; lit "/TN"; ADMIN_TASK_NAME] in (succeeds c, [c]).

(** Elevated, the process is started as it is; otherwise behind a prompt, and
    an exit code that cannot be read counts as 0. *)
Definition run_schtasks (args : list Str) : Logged bool :=
  if os_elevated os then let c := Schtasks args in (succeeds c, [c])
  else
    let c := RunasSchtasks (serialize_args args) in
    (match os_process os c with Some code => default 0 code =? 0 | None => false end, [c]).

Definition create_task (with_logon_trigger : bool) : Logged bool :=
  match os_current_exe os with
  | Some exe => run_schtasks (create_task_args exe with_logon_trigger)
  | None => (false, [])
  end.

Definition delete_task : Logged bool :=
  let '(exists_, log) := query_admin_task in
  if exists_ then
    let '(ok, log') := run_schtasks [lit "/Delete"; lit "/TN"; ADMIN_TASK_NAME; lit "/F"] in (ok, log ++ log')
  else (true, log).

(** Behind a prompt; it is enough that the copy starts. *)
Definition relaunch_elevated : Logged bool :=
  match os_current_exe os with
  | Some _ => (bool_decide (is_Some (os_process os RunasSelf)), [RunasSelf])
  | None => (false, [])
  end.

(** The task when there is one, the prompt when there is none or it fails. *)
Definition hand_off : Logged bool :=
  let '(exists_, log) := query_admin_task in
  let '(ran, log) :=
    if exists_ then let '(ok, log') := run_admin_task in (ok, log ++ log') else (false, log) in
  if ran then (true, log) else let '(ok, log') := relaunch_elevated in (ok, log ++ log').

(** The [relaunch_as_admin] command; when it succeeds the process exits. *)
Definition relaunch_as_admin : Logged bool := hand_off.

(** * Start-up *)

Definition vdd_currently_attached (monitors : result EngineError (list MonitorInfo)) : bool :=
  match monitors with
  | Ok ms => existsb (fun m => attached_to_desktop m && looks_virtual m) ms
  | Err _ => false
  end.

Inductive StartOutcome := HelperMode (args : list Str) | HandedOff | Running.

Section Main.
Context (venv : VddEnv).

(** A display that a dead process left on is disabled; the controller is
    dropped at the end in any case. *)
Definition recover_display (detected : result VddError (option VddController))
    (monitors : result EngineError (list MonitorInfo)) : V unit :=
  match detected with
  | Ok (Some ctrl) =>
      if vdd_currently_attached monitors then p ← disable venv ctrl; drop_controller venv p.1
      else drop_controller venv ctrl
  | _ => mret tt
  end.

(** [main] as the GUI, up to the event loop: the outcome, the launchers, the
    processes started.  [sync]: the outcome of the registry call. *)
Definition start_gui (initial : Settings) (sync : OsResults)
    (detected : result VddError (option VddController)) (monitors : result EngineError (list MonitorInfo))
    (l : Launchers) : V (StartOutcome * Launchers * list OsCall) :=
  let l := startup_launchers sync initial l in
  let '(handed_off, log) :=
    if run_as_admin initial && negb (os_elevated os) then hand_off else (false, []) in
  if handed_off then mret (HandedOff, l, log)
  else recover_display detected monitors;; mret (Running, l, log).

(** [main]; [argv] has the program's name in front. *)
Definition main (argv : list Str) (initial : Settings) (sync : OsResults)
    (detected : result VddError (option VddController)) (monitors : result EngineError (list MonitorInfo))
    (l : Launchers) : V (StartOutcome * Launchers * list OsCall) :=
  match argv with
  | _ :: args =>
      if bool_decide (head args = Some (lit "--vdd-helper")) then mret (HelperMode args, l, [])
      else start_gui initial sync detected monitors l
  | [] => start_gui initial sync detected monitors l
  end.

(** * What start-up does *)

Definition detects (detected : result VddError (option VddController)) : bool :=
  match detected with Ok (Some _) => true | _ => false end.

(** What the command line and the rights of the process ask for: the word after
    the program's name makes it a helper. *)
Definition asked_for (argv : list Str) (initial : Settings) : StartOutcome :=
  if bool_decide (argv !! 1%nat = Some (lit "--vdd-helper")) then HelperMode (tail argv)
  else if run_as_admin initial && negb (os_elevated os) && hand_off.1 then HandedOff
  else Running.

(** How a start went, with what it did to the display. *)
Definition started_as (argv : list Str) (initial : Settings) (sync : OsResults)
    (monitors : result EngineError (list MonitorInfo)) (detected : result VddError (option VddController))
    (l : Launchers) (r : result VddError (StartOutcome * Launchers * list OsCall)) (ext : Trace) : Prop :=
  exists l' log, r = Ok (asked_for argv initial, l', log)
  /\ match asked_for argv initial with
     | HelperMode _ => ext = [] /\ log = [] /\ l' = l
     | HandedOff => ext = [] /\ l' = startup_launchers sync initial l /\ log = hand_off.2
     | Running => l' = startup_launchers sync initial l
         /\ log = (if run_as_admin initial && negb (os_elevated os) then hand_off.2 else [])
         /\ (if vdd_currently_attached monitors && detects detected
             then exists rd, disabled_by venv VddController_new rd ext else ext = [])
     end.

(** A fresh controller is disabled, and its drop adds nothing. *)
Lemma recover_does detected monitors :
  (forall c, detected = Ok (Some c) -> c = VddController_new) ->
  does (recover_display detected monitors) (fun r ext => r = Ok tt
    /\ if vdd_currently_attached monitors && detects detected
       then exists rd, disabled_by venv VddController_new rd ext else ext = []).
Proof.
  intros Hd. unfold recover_display. destruct detected as [[c|]|e].
  - rewrite (Hd c eq_refl). cbn [detects]. rewrite andb_true_r.
    destruct (vdd_currently_attached monitors); [| by apply does_ret].
    intros tr. destruct (disable_does venv VddController_new (fun code H => ltac:(done)) tr) as (ext & E & Hb).
    exists ext. unfold mbind, V_bind. destruct (disable venv VddController_new tr) as [r tr1]. cbn [fst snd] in E, Hb.
    subst tr1. pose proof Hb as (_ & _ & c' & res & -> & Hr & Hok & Herr). cbn [fst].
    assert (He : enabled c' = false) by (destruct res; [by apply Hok | by rewrite Herr]).
    unfold drop_controller. rewrite He. unfold mbind, V_bind. cbn. rewrite Hr. cbn. split; [done |]. split; [done |]. by eexists.
  - cbn [detects]. rewrite andb_false_r. by apply does_ret.
  - cbn [detects]. rewrite andb_false_r. by apply does_ret.
Qed.

(** C21. Starting the program.  The word "--vdd-helper" after the program's name,
    and nothing else, makes the process a helper, with the arguments that follow
    the name, and it touches nothing of the program's own.  Without it, a
    process that should be elevated, is not, and can hand over to an elevated
    copy leaves without touching the display; and any other becomes the GUI, and
    by then a virtual display that a dead process left attached was disabled,
    with at most one prompt, and if that is reported as success, a query
    confirmed it, or the exit code of the elevated process that was to do it
    could not be read; when none was left over, nothing is done to the device. *)
Theorem startup_recovers argv initial sync detected monitors l :
  (forall c, detected = Ok (Some c) -> c = VddController_new) ->
  does (main argv initial sync detected monitors l) (started_as argv initial sync monitors detected l).
Proof.
  intros Hd. assert (Hg : argv !! 1%nat <> Some (lit "--vdd-helper") ->
    does (start_gui initial sync detected monitors l) (started_as argv initial sync monitors detected l)).
  { intros Hn. unfold start_gui, started_as, asked_for. rewrite bool_decide_eq_false_2 by done.
    destruct (run_as_admin initial && negb (os_elevated os)) eqn:Ew; cbn [andb].
    - destruct hand_off as [[] log] eqn:Eh; [apply does_ret; eexists _, _; split; [done |]; by split_and! |].
      eapply (does_bind _ _ _ (fun _ r ext => r = Ok (Running, startup_launchers sync initial l, log) /\ ext = []));
        [by apply recover_does | intros []; by apply does_ret | by intros e ext (? & _) |].
      intros [] r e1 e2 (_ & H) (-> & ->). rewrite app_nil_r. eexists _, _. split; [done |]. by split_and!.
    - eapply (does_bind _ _ _ (fun _ r ext => r = Ok (Running, startup_launchers sync initial l, []) /\ ext = []));
        [by apply recover_does | intros []; by apply does_ret | by intros e ext (? & _) |].
      intros [] r e1 e2 (_ & H) (-> & ->). rewrite app_nil_r. eexists _, _. split; [done |]. by split_and!. }
  unfold main. destruct argv as [|prog args]; [by apply Hg |].
  case_bool_decide as Eh; [| by apply Hg; destruct args].
  apply does_ret. unfold started_as, asked_for. rewrite bool_decide_eq_true_2 by (by destruct args).
  eexists _, _. split; [done |]. by split_and!.
Qed.
End Main.

(** The task makes the hand-over silent: when it is there and runs, no prompt
    is shown. *)
Lemma hand_off_silent log : query_admin_task.1 = true -> run_admin_task.1 = true ->
  hand_off = (true, log) -> RunasSelf ∉ log.
Proof.
  intros Hq Hr. unfold hand_off. unfold query_admin_task, run_admin_task in *. cbn [fst] in *. rewrite Hq, Hr.
  intros [= <-]. rewrite !list.not_elem_of_cons. split_and!; [done | done | apply list.not_elem_of_nil].
Qed.
End Os.

(** * Installing drivers *)

(** The command line for devcon, with the VMulti package's hardware id. *)
Definition vmulti_params (inf : Str) : Str :=
  lit "install " ++ [QUOTE] ++ inf ++ [QUOTE] ++ lit " pentablet\hid".

Inductive InstallError := FilesMissing | NotStarted | DevconExited (code : Z) | SettingsNotWritten.

(** [found]: devcon and the package are bundled; [run]: how devcon ends with a
    command line, if it starts. *)
Definition install_vmulti (found : bool) (run : Str -> option Z) (inf : Str) : result InstallError unit :=
  if negb found then Err FilesMissing
  else
    match run (vmulti_params inf) with
    | None => Err NotStarted
    | Some code => if code =? 0 then Ok tt else Err (DevconExited code)
    end.

(** [install_driver] is a prompt for the helper; its exit code is 0 when it
    cannot be read.  The settings are written only over an installed driver. *)
Definition install_vdd (found : bool) (run_helper : Str -> option Z) (inf : Str) (faults : Faults) (s : Settings)
    (fs : Fs) : result InstallError unit * Fs :=
  if negb found then (Err FilesMissing, fs)
  else
    match run_helper (helper_params (lit "install") inf) with
    | None => (Err NotStarted, fs)
    | Some code =>
        if code =? 0 then
          match write_installed_vdd_settings faults s fs with
          | (Ok _, fs) => (Ok tt, fs)
          | (Err _, fs) => (Err SettingsNotWritten, fs)
          end
        else (Err (DevconExited code), fs)
    end.

Lemma vmulti_params_exact inf : quotable inf -> argv (vmulti_params inf) = [lit "install"; inf; lit "pentablet\hid"].
Proof.
  intros Hi. unfold vmulti_params. change (lit "install " ++ ?x) with (lit "install" ++ SPACE :: x).
  apply argv_plain; [by repeat constructor | done |]. right. eexists. split; [done |]. symmetry.
  apply argv_quoted; [done |]. right. exists (lit "pentablet\hid"). split; [done |]. reflexivity.
Qed.

(** Nothing is written unless the installation succeeded; then the driver's
    file is. *)
Lemma install_vdd_writes found run_helper inf faults s fs :
  (install_vdd found run_helper inf faults s fs).2 <> fs ->
  found = true /\ run_helper (helper_params (lit "install") inf) = Some 0
  /\ (install_vdd found run_helper inf faults s fs).2 = (write_installed_vdd_settings faults s fs).2.
Proof.
  unfold install_vdd. destruct found; [| done]. cbn [negb].
  destruct (run_helper _) as [code|]; [| done]. destruct (Z.eqb_spec code 0) as [->|]; [| done].
  by destruct (write_installed_vdd_settings faults s fs) as [[[]|[]] fs'].
Qed.

(** * The window and the end *)

(** Events of the window, the tray and the event loop. *)
Inductive GuiEvent := CloseRequested | TrayShow | TrayQuit | TrayLeftClick | ExitRequested | Exit.

(** [stopped]: how often the service was stopped. *)
Record Gui := { visible : bool; exit_asked : bool; stopped : nat }.

Definition gui_event (g : Gui) (e : GuiEvent) : Gui :=
  match e with
  | CloseRequested => {| visible := false; exit_asked := exit_asked g; stopped := stopped g |}
  | TrayShow => {| visible := true; exit_asked := exit_asked g; stopped := stopped g |}
  | TrayQuit => {| visible := visible g; exit_asked := true; stopped := stopped g |}
  | TrayLeftClick => {| visible := negb (visible g); exit_asked := exit_asked g; stopped := stopped g |}
  | ExitRequested | Exit => {| visible := visible g; exit_asked := exit_asked g; stopped := S (stopped g) |}
  end.

Definition is_exit (e : GuiEvent) : bool := match e with ExitRequested | Exit => true | _ => false end.

(** Closing, showing and hiding the window never stop the service, and the end
    of the event loop always does. *)
Lemma close_keeps_service es g :
  stopped (foldl gui_event g es) = (stopped g + length (List.filter is_exit es))%nat
  /\ exit_asked (foldl gui_event g es) = exit_asked g || existsb (fun e => match e with TrayQuit => true | _ => false end) es.
Proof.
  revert g. induction es as [|e es IH]; intros g; [by rewrite Nat.add_0_r, orb_false_r |].
  cbn [foldl]. destruct (IH (gui_event g e)) as (-> & ->). destruct e; cbn; rewrite ?orb_true_r, ?orb_false_r; split; try done; lia.
Qed.

(** * Witnesses *)

Definition demo_os_env : OsEnv :=
  {| os_elevated := false;
     os_process := fun c => match c with RunasSelf => None | _ => Some (Some 1) end;
     os_current_exe := Some (lit "C:\penflow-gui.exe") |}.

Definition demo_admin : Settings :=
  {| vdd_resolution := vdd_resolution default_settings; bitrate_bps := 50000000; fps := 120;
     codec := codec default_settings; bindings := default_bindings; autostart := true;
     run_as_admin := true; hud := true; topology := Extend; screen_off_wanted := false;
     disable_touch_wanted := false |}.

Definition demo_elevated_vdd : VddEnv :=
  {| is_process_elevated := true; DN_HAS_PROBLEM := 0x400; CM_PROB_DISABLED := 22;
     env_devcon := fun _ _ => Some {| do_code := Some 0; do_transcript := "1 device(s) disabled" |};
     env_status := fun _ => Ok (0x400, 22); env_polls := fun _ => 20%nat;
     env_started := fun _ => true; env_in_time := fun _ => true; env_exit_code := fun _ => true |}.

Definition demo_left_on : MonitorInfo :=
  {| adapter_index := 1; adapter_luid := 9; adapter_name := "gpu"; adapter_vendor_id := 0x10de;
     adapter_device_id := 1; adapter_is_software := false; output_index_within_adapter := 0;
     device_name := "DISPLAY9"; mon_width := 1280; mon_height := 800;
     desktop_coords := (1920, 0, 3200, 800); rotation := 1; attached_to_desktop := true;
     looks_virtual := true |}.

(** The prompt is declined, and the leftover is disabled without elevation of
    the GUI. *)
Lemma startup_recovers_witness :
  does (main demo_os_env demo_elevated_vdd [lit "penflow"] demo_admin well
          (Ok (Some VddController_new)) (Ok [demo_left_on]) {| run_entry := false; task := None |})
    (started_as demo_os_env demo_elevated_vdd [lit "penflow"] demo_admin well
       (Ok [demo_left_on]) (Ok (Some VddController_new)) {| run_entry := false; task := None |})
  /\ asked_for demo_os_env [lit "penflow"] demo_admin = Running
  /\ asked_for demo_os_env [lit "penflow"; lit "--vdd-helper"; lit "enable"] demo_admin
     = HelperMode [lit "--vdd-helper"; lit "enable"].
Proof.
  split_and!; [apply startup_recovers; by intros c [= <-] | vm_compute; reflexivity | vm_compute; reflexivity].
Defined.
