(* ===== verification/Service.v ===== *)
(** The background service: [apps/penflow-gui/src-tauri/src/service.rs].

    Module [Config]: the configuration a session starts with, from the saved
    settings, the monitors and the virtual display.  Module [Loop]: the accept
    loop with its event pump, [start], [stop] and [emit], as a step relation in
    which every await is a state and the steps of the tasks interleave. *)
From stdpp Require Import list gmap strings.
From S2P Require Import Prelude Engine F32 Inject Vdd ReadLoop Session Text Keys Store.

Module Config.

Definition stub_monitor : MonitorInfo :=
  {| adapter_index := 0; adapter_luid := 0; adapter_name := ""; adapter_vendor_id := 0;
     adapter_device_id := 0; adapter_is_software := false; output_index_within_adapter := 0;
     device_name := ""; mon_width := 0; mon_height := 0; desktop_coords := (0, 0, 0, 0);
     rotation := 1; attached_to_desktop := false; looks_virtual := false |}.

Definition is_duplicate (s : Settings) : bool := bool_decide (topology s = Duplicate).

Definition selectable (duplicate : bool) (m : MonitorInfo) : bool :=
  attached_to_desktop m && negb (adapter_is_software m) && (negb duplicate || negb (looks_virtual m)).

Definition select_monitor (duplicate : bool) (monitors : list MonitorInfo) : MonitorInfo :=
  match List.find (selectable duplicate) monitors with
  | Some m => m
  | None => default stub_monitor (head monitors)
  end.

Section Build.
Context (vk : VkTable) (env : VddEnv).

(** Duplicate mode: a virtual display still attached is disabled first. *)
Definition disable_leftover (first_list : EngineResult (list MonitorInfo))
    (detected : result VddError (option VddController)) : V unit :=
  let leftover :=
    match first_list with
    | Ok ms => existsb (fun m => attached_to_desktop m && looks_virtual m) ms
    | Err _ => false
    end in
  if leftover then
    match detected with
    | Ok (Some ctrl) => '(ctrl, _) ← disable env ctrl; drop_controller env ctrl
    | _ => mret tt
    end
  else mret tt.

Definition session_config (s : Settings) (monitor : MonitorInfo) (vdd : option VddController) : SessionConfig :=
  {| sc_monitor := monitor; sc_codec := codec s; sc_bitrate_bps := bitrate_bps s; sc_fps := fps s;
     sc_idr_interval := None; sc_motion_idr_threshold_bytes := None; sc_motion_idr_min_interval := 250;
     sc_vdd := vdd;
     sc_vdd_target_resolution :=
       (fun _ => (dr_width (vdd_resolution s), dr_height (vdd_resolution s))) <$> vdd;
     sc_hud_enabled := hud s;
     sc_screen_off := screen_off_wanted s && is_duplicate s;
     sc_disable_touch := disable_touch_wanted s && is_duplicate s;
     sc_pen_profile := build_pen_profile vk (bindings s) |}.

(** [list1], [list2]: the two enumerations of the monitors; [det1], [det2]:
    the two detections; [faults]: the driver's file. *)
Definition build_session_config (s : Settings) (list1 list2 : EngineResult (list MonitorInfo))
    (det1 det2 : result VddError (option VddController)) (faults : Faults) (fs : Fs) : V (SessionConfig * Fs) :=
  (if is_duplicate s then disable_leftover list1 det1 else mret tt);;
  let monitors := match list2 with Ok ms => ms | Err _ => [] end in
  let attached := select_monitor (is_duplicate s) monitors in
  let vdd := if is_duplicate s then None else match det2 with Ok opt => opt | Err _ => None end in
  let fs := match vdd with Some _ => (write_installed_vdd_settings faults s fs).2 | None => fs end in
  mret (session_config s attached vdd, fs).
End Build.

Lemma find_first {A} (f : A -> bool) l :
  match List.find f l with
  | Some x => exists l1 l2, l = l1 ++ x :: l2 /\ f x = true /\ Forall (fun y => f y = false) l1
  | None => Forall (fun y => f y = false) l
  end.
Proof.
  induction l as [| y l IH]; cbn; [constructor |]. destruct (f y) eqn:E; [by exists [], l; repeat constructor |].
  destruct (List.find f l) as [x |]; [| by constructor].
  destruct IH as (l1 & l2 & -> & Hx & H). exists (y :: l1), l2. by repeat constructor.
Qed.

(** The first monitor that may be shown, and only without one the head of the
    list, whatever it is. *)
Definition chosen (duplicate : bool) (monitors : list MonitorInfo) (m : MonitorInfo) : Prop :=
  (exists l1 l2, monitors = l1 ++ m :: l2 /\ selectable duplicate m = true
                /\ Forall (fun x => selectable duplicate x = false) l1)
  \/ (Forall (fun x => selectable duplicate x = false) monitors
      /\ m = match monitors with [] => stub_monitor | x :: _ => x end).

Lemma select_monitor_spec duplicate monitors : chosen duplicate monitors (select_monitor duplicate monitors).
Proof.
  unfold select_monitor. pose proof (find_first (selectable duplicate) monitors) as H.
  destruct (List.find _ _) as [m |]; [by left | right]. split; [done |]. by destruct monitors.
Qed.

(** What the leftover display costs: one disable by a controller that holds
    nothing, whose failure is only logged. *)
Definition leftover_trace (env : VddEnv) (list1 : EngineResult (list MonitorInfo))
    (det1 : result VddError (option VddController)) (tr : Trace) : Trace :=
  match list1, det1 with
  | Ok ms, Ok (Some _) =>
      if existsb (fun m => attached_to_desktop m && looks_virtual m) ms then (direct_disable env true tr).2 else tr
  | _, _ => tr
  end.

Lemma disable_leftover_run env list1 det1 tr :
  (forall c, det1 = Ok (Some c) -> c = VddController_new) ->
  disable_leftover env list1 det1 tr = (Ok tt, leftover_trace env list1 det1 tr).
Proof.
  intros Hfresh. unfold disable_leftover, leftover_trace.
  destruct list1 as [ms | e]; [| by destruct det1]. destruct (existsb _ ms); [| by destruct det1 as [[c |] |]].
  destruct det1 as [[c |] | e]; [| done | done]. rewrite (Hfresh c eq_refl).
  unfold disable, stop_resident, drop_controller, v_try, mbind, V_bind. cbn -[direct_disable].
  by destruct (direct_disable env true tr) as [[u | e] tr'].
Qed.

(** C35. The configuration a session starts with.  Building it never fails, and
    the codec, the bitrate, the frame rate, the HUD and the pen's buttons are
    the user's.  In Extend mode nothing is disabled, a detected virtual display
    is carried with exactly the resolution of the settings and its driver's
    file is written for them, and neither screen-off nor touch suppression is
    on; without one there is no resolution to force.  In Duplicate mode a leftover virtual display is disabled first, the session
    gets none, the driver's file is left alone and the two options are the
    user's.  The monitor is the first one attached to a real adapter, in
    Duplicate mode not a virtual one, with the list's head only when there is
    none such. *)
Theorem session_config_spec vk env s list1 list2 det1 det2 faults fs tr :
  (forall c, det1 = Ok (Some c) -> c = VddController_new) ->
  exists cfg fs',
    build_session_config vk env s list1 list2 det1 det2 faults fs tr
      = (Ok (cfg, fs'), match topology s with Extend => tr | Duplicate => leftover_trace env list1 det1 tr end)
    /\ chosen (is_duplicate s) (match list2 with Ok ms => ms | Err _ => [] end) (sc_monitor cfg)
    /\ sc_pen_profile cfg = build_pen_profile vk (bindings s)
    /\ sc_codec cfg = codec s /\ sc_bitrate_bps cfg = bitrate_bps s /\ sc_fps cfg = fps s /\ sc_hud_enabled cfg = hud s
    /\ sc_vdd_target_resolution cfg
       = match sc_vdd cfg with
         | Some _ => Some (dr_width (vdd_resolution s), dr_height (vdd_resolution s))
         | None => None
         end
    /\ match topology s with
       | Extend =>
           sc_vdd cfg = match det2 with Ok opt => opt | Err _ => None end
           /\ sc_screen_off cfg = false /\ sc_disable_touch cfg = false
           /\ fs' = match sc_vdd cfg with Some _ => (write_installed_vdd_settings faults s fs).2 | None => fs end
           /\ (forall p, p <> installed_vdd_settings_path -> fs' !! p = fs !! p)
       | Duplicate =>
           sc_vdd cfg = None /\ fs' = fs
           /\ sc_screen_off cfg = screen_off_wanted s /\ sc_disable_touch cfg = disable_touch_wanted s
       end.
Proof.
  intros Hfresh. unfold build_session_config, mbind, V_bind, is_duplicate.
  destruct (topology s) eqn:Et; cbn [bool_decide decide].
  - change (bool_decide (Extend = Duplicate)) with false. cbn match. cbn [mret V_ret].
    set (vdd := match det2 with Ok opt => opt | Err _ => None end).
    eexists _, _. split; [reflexivity |]. cbn. unfold is_duplicate. rewrite Et.
    split_and!; try done; try apply select_monitor_spec; try by rewrite andb_false_r.
    + intros p Hp. destruct vdd; [| done]. unfold write_installed_vdd_settings, write_vdd_settings_file.
      destruct (validate _); [| done]. by apply driver_ops_frame.
  - change (bool_decide (Duplicate = Duplicate)) with true. cbn match.
    rewrite disable_leftover_run by done. eexists _, _. split; [reflexivity |]. cbn. unfold is_duplicate.
    rewrite Et. split_and!; try done; try apply select_monitor_spec; by rewrite andb_true_r.
Qed.
End Config.

Module Loop.

Inductive ServiceState :=
| Stopped
| Preparing
| Listening
| Connecting (peer : string)
| Connected (peer : string) (device_width device_height : Z)
| Disconnected
| Error (message : string).

#[export] Instance ServiceState_eq_dec : EqDecision ServiceState.
Proof. solve_decision. Defined.

Section Loop.
(** How a session's error reads. *)
Context (to_string : SessionError -> string).

Definition translate_event (ev : SessionEvent) : ServiceState :=
  match ev with
  | Session.Connecting peer => Connecting peer
  | Session.Connected peer w h => Connected peer w h
  | Session.Disconnected => Disconnected
  | Errored e => Error (to_string e)
  end.

(** ** The states of the tasks

    Where an accept loop waits.  [Emit] is the wait for the lock in [emit],
    [Send] the moment between giving the lock back and the broadcast. *)
Inductive Pc :=
| Top
| Emit (s : ServiceState) (next : Pc)
| Send (s : ServiceState) (next : Pc)
| Bind
| Backoff
| Launch
| Running (pump : nat)
| Finishing (pump : nat)
| Draining (pump : nat)
| Teardown (pump : nat)
| Cooloff
| Exited.

Record Acceptor := { pc : Pc; cancelled : bool }.

Inductive PumpPhase := PIdle | PWait (s : ServiceState) | PSend (s : ServiceState).

Record Pump := { queue : list SessionEvent; phase : PumpPhase; aborted : bool }.

(** [Service] with its tasks.  [holder]: the loop a [stop] waits for with the
    lock held; all other holders of the lock give it back before they wait. *)
Record Service := {
  last_state : ServiceState;
  broadcast : list ServiceState;
  task : option nat;
  cancel : option nat;
  holder : option nat;
  loops : list Acceptor;
  pumps : list Pump;
}.

Definition new : Service :=
  {| last_state := Stopped; broadcast := []; task := None; cancel := None; holder := None;
     loops := []; pumps := [] |}.

Definition set_pc (i : nat) (l : Acceptor) (p : Pc) (s : Service) : Service :=
  {| last_state := last_state s; broadcast := broadcast s; task := task s; cancel := cancel s;
     holder := holder s; loops := <[i := {| pc := p; cancelled := cancelled l |}]> (loops s);
     pumps := pumps s |}.

Definition set_pumps (ps : list Pump) (s : Service) : Service :=
  {| last_state := last_state s; broadcast := broadcast s; task := task s; cancel := cancel s;
     holder := holder s; loops := loops s; pumps := ps |}.

Definition set_last (st : ServiceState) (s : Service) : Service :=
  {| last_state := st; broadcast := broadcast s; task := task s; cancel := cancel s;
     holder := holder s; loops := loops s; pumps := pumps s |}.

Definition send (st : ServiceState) (s : Service) : Service :=
  {| last_state := last_state s; broadcast := broadcast s ++ [st]; task := task s; cancel := cancel s;
     holder := holder s; loops := loops s; pumps := pumps s |}.

Definition abort (p : nat) (s : Service) : Service :=
  set_pumps (alter (fun q => {| queue := queue q; phase := phase q; aborted := true |}) p (pumps s)) s.

Definition start (s : Service) : Service :=
  match task s with
  | Some _ => s
  | None =>
      {| last_state := last_state s; broadcast := broadcast s; task := Some (length (loops s));
         cancel := Some (length (loops s)); holder := holder s;
         loops := loops s ++ [{| pc := Top; cancelled := false |}]; pumps := pumps s |}
  end.

(** [stop] up to the wait for the task: the cancel message goes out and the
    lock stays held. *)
Definition stop_begin (s : Service) : Service :=
  let loops' :=
    match cancel s with
    | Some i => alter (fun l => {| pc := pc l; cancelled := true |}) i (loops s)
    | None => loops s
    end in
  {| last_state := last_state s; broadcast := broadcast s; task := None; cancel := None;
     holder := task s; loops := loops'; pumps := pumps s |}.

(** The rest of [stop]. *)
Definition stop_end (s : Service) : Service :=
  {| last_state := Stopped; broadcast := broadcast s ++ [Stopped]; task := task s; cancel := cancel s;
     holder := None; loops := loops s; pumps := pumps s |}.

(** ** Steps *)

(** One step of the accept loop where it needs no lock: from, to, and whether
    it took the cancel message. *)
Inductive loop_move : Pc -> Pc -> bool -> Prop :=
| LmTopExit : loop_move Top Exited true
| LmTop : loop_move Top (Emit Preparing Bind) false
| LmBindOk : loop_move Bind (Emit Listening Launch) false
| LmBindErr message : loop_move Bind (Emit (Error message) Backoff) false
| LmBackoffEnd : loop_move Backoff Top false
| LmBackoffCancel : loop_move Backoff Exited true
| LmSessionOk p : loop_move (Running p) (Emit Disconnected (Teardown p)) false
| LmSessionErr p message : loop_move (Running p) (Emit (Error message) (Teardown p)) false
| LmCancel p : loop_move (Running p) (Finishing p) true
| LmFinished p : loop_move (Finishing p) (Draining p) false
| LmCooloffEnd : loop_move Cooloff Top false
| LmCooloffCancel : loop_move Cooloff Exited true.

(** What the poll at the top of the loop can do: it exits just when the
    message is there. *)
Definition poll_ok (l : Acceptor) (p' : Pc) : Prop :=
  match pc l, p' with
  | Top, Exited => cancelled l = true
  | Top, _ => cancelled l = false
  | _, _ => True
  end.

Definition session_polled (p : Pc) (k : nat) : Prop := p = Running k \/ p = Finishing k.

Inductive step : Service -> Service -> Prop :=
| StStart s : holder s = None -> step s (start s)
| StStop s : holder s = None -> task s <> None -> step s (stop_begin s)
| StStopIdle s : holder s = None -> task s = None -> step s (stop_end (stop_begin s))
| StStopJoin s i l : holder s = Some i -> loops s !! i = Some l -> pc l = Exited -> step s (stop_end s)
| StMove s i l p' (took : bool) :
    loops s !! i = Some l -> loop_move (pc l) p' took -> (took = true -> cancelled l = true) ->
    poll_ok l p' -> step s (set_pc i l p' s)
| StEmit s i l st k :
    loops s !! i = Some l -> pc l = Emit st k -> holder s = None ->
    step s (set_last st (set_pc i l (Send st k) s))
| StSend s i l st k :
    loops s !! i = Some l -> pc l = Send st k -> step s (send st (set_pc i l k s))
| StLaunch s i l :
    loops s !! i = Some l -> pc l = Launch ->
    step s (set_pumps (pumps s ++ [{| queue := []; phase := PIdle; aborted := false |}])
              (set_pc i l (Running (length (pumps s))) s))
| StDrained s i l p :
    loops s !! i = Some l -> pc l = Draining p -> step s (abort p (set_pc i l Exited s))
| StTeardown s i l p :
    loops s !! i = Some l -> pc l = Teardown p -> step s (abort p (set_pc i l Cooloff s))
| StSessionEvent s i l p q ev :
    loops s !! i = Some l -> session_polled (pc l) p -> pumps s !! p = Some q ->
    (length (queue q) < 8)%nat ->
    step s (set_pumps (<[p := {| queue := queue q ++ [ev]; phase := phase q; aborted := aborted q |}]> (pumps s)) s)
| StPumpTake s p q ev evs :
    pumps s !! p = Some q -> queue q = ev :: evs -> phase q = PIdle -> aborted q = false ->
    step s (set_pumps (<[p := {| queue := evs; phase := PWait (translate_event ev); aborted := false |}]> (pumps s)) s)
| StPumpEmit s p q st :
    pumps s !! p = Some q -> phase q = PWait st -> aborted q = false -> holder s = None ->
    step s (set_last st (set_pumps (<[p := {| queue := queue q; phase := PSend st; aborted := false |}]> (pumps s)) s))
| StPumpSend s p q st :
    pumps s !! p = Some q -> phase q = PSend st ->
    step s (send st (set_pumps (<[p := {| queue := queue q; phase := PIdle; aborted := aborted q |}]> (pumps s)) s)).

(** The ten seconds of [stop] are over. *)
Inductive timeout_step : Service -> Service -> Prop :=
| StTimeout s i : holder s = Some i -> timeout_step s (stop_end s).

(** Runs in which every [stop] sees its task finish, and all runs. *)
Inductive reachable (timeouts : bool) : Service -> Prop :=
| RNew : reachable timeouts new
| RStep s s' : reachable timeouts s -> step s s' -> reachable timeouts s'
| RTimeout s s' : reachable timeouts s -> timeouts = true -> timeout_step s s' -> reachable timeouts s'.

(** ** The invariant *)

Fixpoint owns (c : Pc) (p : nat) : Prop :=
  match c with
  | Running q | Finishing q | Draining q | Teardown q => p = q
  | Emit _ k | Send _ k => owns k p
  | _ => False
  end.

Record Inv (s : Service) : Prop := {
  inv_live i l : loops s !! i = Some l -> pc l <> Exited -> task s = Some i \/ holder s = Some i;
  inv_pump p q : pumps s !! p = Some q -> aborted q = false ->
    exists i l, loops s !! i = Some l /\ owns (pc l) p;
  inv_last : task s = None -> holder s = None -> last_state s = Stopped;
  inv_one : task s = None \/ holder s = None;
  inv_valid i : task s = Some i -> (i < length (loops s))%nat;
  inv_cancel : cancel s = task s;
  inv_told i l : holder s = Some i -> loops s !! i = Some l -> cancelled l = true;
}.

Lemma owns_live c p : owns c p -> c <> Exited.
Proof. by destruct c. Qed.

Lemma move_owns c c' took p : loop_move c c' took -> owns c p -> owns c' p.
Proof. by destruct 1. Qed.

Lemma move_live c c' took : loop_move c c' took -> c <> Exited.
Proof. by destruct 1. Qed.

Lemma new_inv : Inv new.
Proof. by split; try done; left. Qed.

(** A live loop goes to another place and keeps the pumps that still run. *)
Lemma set_pc_inv s i l c : Inv s -> loops s !! i = Some l -> pc l <> Exited ->
  (forall p q, owns (pc l) p -> pumps s !! p = Some q -> aborted q = false -> owns c p) ->
  Inv (set_pc i l c s).
Proof.
  intros [Hlive Hpump Hlast Hone Hvalid Hc Htold] Hi Hl Howns.
  assert (i < length (loops s))%nat as Hlt by by eapply lookup_lt_Some.
  split; cbn; try done.
  - intros j l' Hj Hl'. destruct (decide (j = i)) as [-> | Hne]; [by eapply Hlive |].
    rewrite list_lookup_insert_ne in Hj by congruence. by eapply Hlive.
  - intros p q Hq Ha. destruct (Hpump p q Hq Ha) as (j & l' & Hj & Ho).
    destruct (decide (j = i)) as [-> | Hne].
    + rewrite Hi in Hj. injection Hj as <-. eexists i, _. split; [by apply list_lookup_insert_eq |]. cbn. eauto.
    + exists j, l'. by rewrite list_lookup_insert_ne by congruence.
  - rewrite length_insert. done.
  - intros j l' Hj Hj'. destruct (decide (j = i)) as [-> | Hne].
    + rewrite list_lookup_insert_eq in Hj' by done. injection Hj' as <-. cbn. by eapply Htold.
    + rewrite list_lookup_insert_ne in Hj' by congruence. by eapply Htold.
Qed.

Lemma set_last_inv s st : Inv s -> task s <> None \/ holder s <> None -> Inv (set_last st s).
Proof. intros [] H. split; cbn; try done. intros. by destruct H. Qed.

Lemma send_inv s st : Inv s -> Inv (send st s).
Proof. by intros []; split. Qed.

(** No pump starts over. *)
Lemma set_pumps_inv s ps : Inv s ->
  (forall p q', ps !! p = Some q' -> aborted q' = false -> exists q, pumps s !! p = Some q /\ aborted q = false) ->
  Inv (set_pumps ps s).
Proof.
  intros [] H. split; cbn; try done. intros p q' Hq Ha. destruct (H p q' Hq Ha) as (q & Hq' & Ha'). eauto.
Qed.

Lemma set_pump_inv s p q q' : Inv s -> pumps s !! p = Some q -> (aborted q' = false -> aborted q = false) ->
  Inv (set_pumps (<[p := q']> (pumps s)) s).
Proof.
  intros HI Hq Ha. apply set_pumps_inv; [done |]. intros j r Hj Hr.
  destruct (decide (j = p)) as [-> | Hne].
  - rewrite list_lookup_insert_eq in Hj by by eapply lookup_lt_Some. injection Hj as <-. eauto.
  - rewrite list_lookup_insert_ne in Hj by congruence. eauto.
Qed.

Lemma abort_lookup s p q : pumps (abort p s) !! p = Some q -> aborted q = true.
Proof. cbn. rewrite list_lookup_alter_eq. destruct (pumps s !! p); [| done]. by intros [= <-]. Qed.

Lemma abort_inv s p : Inv s -> Inv (abort p s).
Proof.
  intros HI. apply set_pumps_inv; [done |]. intros j r Hj Hr. destruct (decide (j = p)) as [-> | Hne].
  - pose proof (abort_lookup s p r Hj). congruence.
  - rewrite list_lookup_alter_ne in Hj by congruence. eauto.
Qed.

(** The loop ends its turn with pump [p], which is aborted with it. *)
Lemma abort_pc_inv s i l c p : Inv s -> loops s !! i = Some l -> pc l <> Exited ->
  (forall k, owns (pc l) k -> k = p) -> Inv (abort p (set_pc i l c s)).
Proof.
  intros HI Hi Hl Hp. change (Inv (set_pc i l c (abort p s))).
  apply set_pc_inv; [by apply abort_inv | done | done |].
  intros k q Hk Hq Ha. rewrite (Hp k Hk) in Hq. apply abort_lookup in Hq. congruence.
Qed.

Lemma launch_inv s i l : Inv s -> loops s !! i = Some l -> pc l = Launch ->
  Inv (set_pumps (pumps s ++ [{| queue := []; phase := PIdle; aborted := false |}])
         (set_pc i l (Running (length (pumps s))) s)).
Proof.
  intros HI Hi Hl. assert (Inv (set_pc i l (Running (length (pumps s))) s)) as [Hlive Hpump ? ? ? ? ?].
  { apply set_pc_inv; try done; rewrite Hl; done. }
  split; cbn; try done. intros p q Hq Ha. apply lookup_app_Some in Hq as [Hq | [Hge Hq]]; [by eapply Hpump |].
  apply list_lookup_singleton_Some in Hq as [Hp _]. eexists i, _.
  split; [apply list_lookup_insert_eq; by eapply lookup_lt_Some |]. cbn. lia.
Qed.

Lemma start_inv s : Inv s -> holder s = None -> Inv (start s).
Proof.
  intros [Hlive Hpump Hlast Hone Hvalid Hc Htold] Hh. unfold start. destruct (task s) eqn:E; [by split; rewrite ?E |].
  split; cbn; try done.
  - intros j l Hj Hl. apply lookup_app_Some in Hj as [Hj | [Hge Hj]].
    + destruct (Hlive j l Hj Hl); congruence.
    + apply list_lookup_singleton_Some in Hj as [Hj _]. left. f_equal. lia.
  - intros p q Hq Ha. destruct (Hpump p q Hq Ha) as (j & l & Hj & Ho). exists j, l.
    split; [| done]. by apply lookup_app_l_Some.
  - by right.
  - intros j [= <-]. rewrite length_app. cbn. lia.
  - intros j l Hj. congruence.
Qed.

Lemma stop_begin_inv s : Inv s -> holder s = None -> task s <> None -> Inv (stop_begin s).
Proof.
  intros [Hlive Hpump Hlast Hone Hvalid Hc Htold] Hh Ht. unfold stop_begin. rewrite Hc.
  destruct (task s) as [i |] eqn:E; [| done]. clear Ht.
  split; cbn; try done.
  - intros j l Hj Hl. right. destruct (decide (j = i)) as [-> | Hne]; [done |].
    rewrite list_lookup_alter_ne in Hj by congruence. destruct (Hlive j l Hj Hl); congruence.
  - intros p q Hq Ha. destruct (Hpump p q Hq Ha) as (j & l & Hj & Ho).
    destruct (decide (j = i)) as [-> | Hne].
    + eexists i, _. split; [rewrite list_lookup_alter_eq, Hj; reflexivity | done].
    + exists j, l. by rewrite list_lookup_alter_ne by congruence.
  - by left.
  - intros j l [= <-]. rewrite list_lookup_alter_eq. destruct (loops s !! i); [| done]. by intros [= <-].
Qed.

(** A stop is over when nothing of the task is left. *)
Lemma stop_end_inv s : Inv s -> task s = None ->
  (forall i l, holder s = Some i -> loops s !! i = Some l -> pc l = Exited) -> Inv (stop_end s).
Proof.
  intros [Hlive Hpump Hlast Hone Hvalid Hc Htold] Ht Hex. split; cbn; try done.
  - intros i l Hi Hl. destruct (Hlive i l Hi Hl) as [| Hh]; [congruence |]. by destruct (Hl (Hex i l Hh Hi)).
  - by right.
Qed.

Lemma step_inv s s' : Inv s -> step s s' -> Inv s'.
Proof.
  intros HI Hstep. pose proof (inv_one s HI) as Hone.
  destruct Hstep as [s Hh | s Hh Ht | s Hh Ht | s i l Hh Hi Hx | s i l p' took Hi Hm Htook Hpoll
    | s i l st k Hi Hp Hh | s i l st k Hi Hp | s i l Hi Hp | s i l p Hi Hp | s i l p Hi Hp
    | s i l p q ev Hi Hp Hq Hn | s p q ev evs Hq Hqu Hph Ha | s p q st Hq Hph Ha Hh | s p q st Hq Hph].
  - by apply start_inv.
  - by apply stop_begin_inv.
  - apply stop_end_inv; [| done | intros i l Hi; cbn in Hi; congruence].
    destruct HI as [Hl Hp Hlast Ho Hv Hc Htold]. unfold stop_begin. rewrite Hc, Ht.
    split; cbn; auto; try congruence. intros i l Hi Hx. destruct (Hl i l Hi Hx); congruence.
  - apply stop_end_inv; [done | destruct Hone; congruence |]. intros j l' Hj Hj'.
    rewrite Hh in Hj. injection Hj as <-. congruence.
  - apply set_pc_inv; [done | done | by eapply move_live |]. intros. by eapply move_owns.
  - apply set_last_inv.
    + apply set_pc_inv; try done; rewrite Hp; done.
    + left. cbn. assert (pc l <> Exited) as Hl by by rewrite Hp. destruct (inv_live s HI i l Hi Hl); congruence.
  - apply send_inv, set_pc_inv; try done; rewrite Hp; done.
  - by apply launch_inv.
  - apply abort_pc_inv; try done; by rewrite Hp.
  - apply abort_pc_inv; try done; by rewrite Hp.
  - by eapply set_pump_inv.
  - by eapply set_pump_inv.
  - apply set_last_inv; [by eapply set_pump_inv |]. left. cbn.
    destruct (inv_pump s HI p q Hq Ha) as (i & l & Hi & Ho). apply owns_live in Ho.
    destruct (inv_live s HI i l Hi Ho); congruence.
  - apply send_inv. by eapply set_pump_inv.
Qed.

Lemma reachable_inv s : reachable false s -> Inv s.
Proof. induction 1; [apply new_inv | by eapply step_inv | done]. Qed.

(** C15. As long as every stop sees its task finish: at most one accept loop is
    ever alive; and whenever the service is neither running nor being stopped,
    its state reads Stopped, every loop has returned and every event pump is
    aborted, so that nothing changes the state until the next start. *)
Theorem stop_settles s : reachable false s ->
  (forall i j l l', loops s !! i = Some l -> loops s !! j = Some l' -> pc l <> Exited -> pc l' <> Exited -> i = j)
  /\ (task s = None -> holder s = None ->
       last_state s = Stopped /\ Forall (fun l => pc l = Exited) (loops s)
       /\ Forall (fun q => aborted q = true) (pumps s)
       /\ (forall s', step s s' -> s' = start s \/ last_state s' = Stopped)).
Proof.
  intros HI%reachable_inv. split.
  - intros i j l l' Hi Hj Hl Hl'. destruct (inv_one s HI), (inv_live s HI i l Hi Hl), (inv_live s HI j l' Hj Hl'); congruence.
  - intros Ht Hh.
    assert (forall i l, loops s !! i = Some l -> pc l = Exited) as Hx.
    { intros i l Hi. destruct (pc l) eqn:E; try done;
        (assert (pc l <> Exited) as Hl by by rewrite E); destruct (inv_live s HI i l Hi Hl); congruence. }
    split_and!.
    + by apply HI.
    + by apply list.Forall_lookup.
    + apply list.Forall_lookup. intros p q Hq. destruct (aborted q) eqn:E; [done |].
      destruct (inv_pump s HI p q Hq E) as (i & l & Hi & Ho). rewrite (Hx i l Hi) in Ho. done.
    + intros s' Hstep. assert (last_state s = Stopped) as Hs by by apply HI.
      pose proof (step_inv s s' HI Hstep) as HI'.
      destruct Hstep as [s Hh' | | | | s i l p' took Hi | s i l st k Hi Hp | | | | | | | s p q st Hq Hph Ha Hh' |];
        cbn; try (by right); try (by left).
      * rewrite (Hx i l Hi) in Hp. done.
      * destruct (inv_pump s HI p q Hq Ha) as (i & l & Hi & Ho). rewrite (Hx i l Hi) in Ho. done.
Qed.

(** ** Whether a stop returns *)

(** The places from which a cancelled loop can return without the lock. *)
Fixpoint can_leave (c : Pc) : bool :=
  match c with
  | Emit _ _ | Bind => false
  | Send _ k => can_leave k
  | _ => true
  end.

Definition leaves (s : Service) (i : nat) : Prop :=
  exists s' l', rtc step s s' /\ holder s' = holder s /\ task s' = task s
           /\ loops s' !! i = Some l' /\ pc l' = Exited.

Lemma leaves_step s s1 i : step s s1 -> holder s1 = holder s -> task s1 = task s -> leaves s1 i -> leaves s i.
Proof.
  intros Hs Hh Ht (s' & l' & Hr & Hh' & Ht' & Hl & Hx). exists s', l'.
  split_and!; [by eapply rtc_l | congruence | congruence | done | done].
Qed.

(** After a step to [c], the loop waits at [c], still cancelled. *)
Lemma set_pc_lookup s i l c : loops s !! i = Some l ->
  loops (set_pc i l c s) !! i = Some {| pc := c; cancelled := cancelled l |}.
Proof. intros Hi. apply list_lookup_insert_eq. by eapply lookup_lt_Some. Qed.

Lemma leaves_exited s i l : loops s !! i = Some l -> pc l = Exited -> leaves s i.
Proof. intros. by exists s, l. Qed.

Lemma leaves_cancel s i l : loops s !! i = Some l -> cancelled l = true ->
  pc l = Top \/ pc l = Backoff \/ pc l = Cooloff -> leaves s i.
Proof.
  intros Hi Hc Hp. apply (leaves_step s (set_pc i l Exited s)); try done.
  - apply (StMove s i l Exited true); [done | | done |]; destruct Hp as [E | [E | E]]; unfold poll_ok; rewrite E;
      first [assumption | exact I | constructor].
  - eapply leaves_exited; [by apply set_pc_lookup | done].
Qed.

Lemma leaves_draining s i l p : loops s !! i = Some l -> pc l = Draining p -> leaves s i.
Proof.
  intros Hi Hp. eapply leaves_step; [by eapply StDrained | done | done |].
  eapply leaves_exited; [by apply set_pc_lookup | done].
Qed.

Lemma leaves_teardown s i l p : loops s !! i = Some l -> cancelled l = true -> pc l = Teardown p -> leaves s i.
Proof.
  intros Hi Hc Hp. eapply leaves_step; [by eapply StTeardown | done | done |].
  eapply leaves_cancel; [by apply set_pc_lookup | done | by right; right].
Qed.

Lemma leaves_finishing s i l p : loops s !! i = Some l -> pc l = Finishing p -> leaves s i.
Proof.
  intros Hi Hp. eapply leaves_step; [eapply (StMove s i l (Draining p) false Hi) | done | done |];
    [rewrite Hp; constructor | done | unfold poll_ok; by rewrite Hp |].
  eapply leaves_draining; [by apply set_pc_lookup | done].
Qed.

Lemma leaves_running s i l p : loops s !! i = Some l -> cancelled l = true -> pc l = Running p -> leaves s i.
Proof.
  intros Hi Hc Hp. eapply leaves_step; [eapply (StMove s i l (Finishing p) true Hi) | done | done |];
    [rewrite Hp; constructor | done | unfold poll_ok; by rewrite Hp |].
  eapply leaves_finishing; [by apply set_pc_lookup | done].
Qed.

Lemma leaves_launch s i l : loops s !! i = Some l -> cancelled l = true -> pc l = Launch -> leaves s i.
Proof.
  intros Hi Hc Hp. eapply leaves_step; [by eapply StLaunch | done | done |].
  eapply leaves_running; [by apply set_pc_lookup | done | done].
Qed.

Lemma can_leave_leaves c : can_leave c = true -> forall s i l,
  loops s !! i = Some l -> cancelled l = true -> pc l = c -> leaves s i.
Proof.
  induction c as [| st k IH | st k IH | | | | p | p | p | p | |]; cbn; intros Hc s i l Hi Ht Hp; try done.
  - eapply leaves_cancel; eauto.
  - eapply leaves_step; [by eapply StSend | done | done |].
    eapply IH; [done | by apply (set_pc_lookup s i l k) | done | done].
  - eapply leaves_cancel; eauto.
  - by eapply leaves_launch.
  - by eapply leaves_running.
  - by eapply leaves_finishing.
  - by eapply leaves_draining.
  - by eapply leaves_teardown.
  - eapply leaves_cancel; eauto.
  - by eapply leaves_exited.
Qed.

(** The stop keeps the lock and the loop stays where it cannot do without. *)
Definition deadlocked (i : nat) (s : Service) : Prop :=
  holder s = Some i /\ exists l, loops s !! i = Some l /\ can_leave (pc l) = false.

Lemma set_pc_deadlocked i j l c s : deadlocked i s -> loops s !! j = Some l ->
  (j = i -> can_leave c = false) -> deadlocked i (set_pc j l c s).
Proof.
  intros (Hh & li & Hi & Hc) Hj Hk. split; [done |]. destruct (decide (j = i)) as [-> | Hne].
  - eexists. split; [by apply set_pc_lookup |]. cbn. auto.
  - exists li. cbn. by rewrite list_lookup_insert_ne.
Qed.

Lemma deadlocked_step i s s' : deadlocked i s -> step s s' -> deadlocked i s'.
Proof.
  intros HD Hstep. pose proof HD as (Hh & li & Hi & Hc).
  destruct Hstep as [s Hh' | s Hh' | s Hh' | s j l Hh' Hj Hx | s j l p' took Hj Hm Htook Hpoll
    | s j l st k Hj Hp Hh' | s j l st k Hj Hp | s j l Hj Hp | s j l p Hj Hp | s j l p Hj Hp
    | | | s p q st Hq Hph Ha Hh' |]; try congruence.
  - assert (j = i) as -> by congruence. replace l with li in * by congruence. by rewrite Hx in Hc.
  - apply set_pc_deadlocked; try done. intros ->. replace l with li in * by congruence.
    destruct Hm; cbn in *; try done; congruence.
  - apply (set_pc_deadlocked i j l k) in HD; try done. intros ->. replace l with li in * by congruence.
    by rewrite Hp in Hc.
  - apply (set_pc_deadlocked i j l (Running (length (pumps s)))) in HD; try done. intros ->.
    replace l with li in * by congruence. by rewrite Hp in Hc.
  - apply (set_pc_deadlocked i j l Exited) in HD; try done. intros ->.
    replace l with li in * by congruence. by rewrite Hp in Hc.
  - apply (set_pc_deadlocked i j l Cooloff) in HD; try done. intros ->.
    replace l with li in * by congruence. by rewrite Hp in Hc.
  - by exact HD.
  - by exact HD.
  - by exact HD.
Qed.

(** C18. Whether a stop returns by itself is decided by where it catches the
    accept loop.  At the top, in a back-off, a cool-off or anywhere in a
    session, the loop can return and the stop ends with the service Stopped;
    while the transport is being prepared or a state is being emitted, the
    loop needs the lock the stop holds, and no schedule short of the timeout
    ends the wait. *)
Theorem stop_dichotomy s i l : reachable false s -> holder s = Some i -> loops s !! i = Some l ->
  if can_leave (pc l)
  then exists s', rtc step s s' /\ holder s' = None /\ task s' = None /\ last_state s' = Stopped
  else forall s', rtc step s s' -> holder s' = Some i.
Proof.
  intros HI%reachable_inv Hh Hi. destruct (can_leave (pc l)) eqn:E.
  - destruct (can_leave_leaves (pc l) E s i l Hi) as (s' & l' & Hr & Hh' & Ht & Hl & Hx);
      [by eapply inv_told | done |].
    exists (stop_end s'). split_and!; try done.
    + eapply rtc_r; [done |]. eapply StStopJoin; [by rewrite Hh' | done | done].
    + cbn. rewrite Ht. destruct (inv_one s HI); congruence.
  - intros s' Hr. assert (deadlocked i s) as HD by (split; eauto).
    clear HI Hh Hi E l. induction Hr as [s | s s1 s' Hs _ IH]; [apply HD |].
    apply IH. by eapply deadlocked_step.
Qed.

(** [forth R f]: moves the run [R] on by [f], the step being left to prove. *)
Ltac forth R f :=
  let R' := fresh in
  eassert (R' : reachable true _); [refine f | clear R; rename R' into R; unfold set_pc in R; cbn in R].

(** A stop that comes while the transport is prepared times out, and the loop
    then emits its pending state: the service is stopped and its state reads
    Listening.  A start from there adds a second live loop. *)
Lemma stop_overtaken :
  exists s, reachable true s /\ task s = None /\ holder s = None /\ last_state s = Listening
    /\ exists s' l l', step s s' /\ loops s' !! 0%nat = Some l /\ loops s' !! 1%nat = Some l'
         /\ pc l <> Exited /\ pc l' <> Exited.
Proof.
  assert (reachable true (start new)) as R by (apply (RStep true new); [constructor | by constructor]).
  forth R uconstr:(RStep true _ _ R _); [eapply (StMove _ 0); [reflexivity | apply LmTop | done | reflexivity] |].
  forth R uconstr:(RStep true _ _ R _); [by eapply (StEmit _ 0) |].
  forth R uconstr:(RStep true _ _ R _); [by eapply (StSend _ 0) |].
  forth R uconstr:(RStep true _ _ R _); [by apply StStop |].
  forth R uconstr:(RStep true _ _ R _); [eapply (StMove _ 0); [reflexivity | apply LmBindOk | done | exact I] |].
  forth R uconstr:(RTimeout true _ _ R eq_refl _); [by eapply (StTimeout _ 0) |].
  forth R uconstr:(RStep true _ _ R _); [by eapply (StEmit _ 0) |].
  eexists. split; [exact R |]. split_and!; try reflexivity.
  eexists _, _, _. split; [by apply StStart |]. split_and!; try reflexivity; done.
Qed.

End Loop.

(** * Witnesses *)

Section Witnesses.
Definition demo_string (e : SessionError) : string := "error"%string.

Definition demo_stopping : Service :=
  {| last_state := Stopped; broadcast := []; task := None; cancel := None; holder := Some 0%nat;
     loops := [{| pc := Top; cancelled := true |}]; pumps := [] |}.

Lemma demo_reachable : reachable demo_string false demo_stopping.
Proof.
  apply (RStep demo_string false (start new)); [apply (RStep demo_string false new); [constructor | by constructor] |].
  change demo_stopping with (stop_begin (start new)). by apply StStop.
Qed.

Lemma stop_settles_witness : last_state (stop_end {| last_state := Stopped; broadcast := []; task := None;
    cancel := None; holder := Some 0%nat; loops := [{| pc := Exited; cancelled := true |}]; pumps := [] |}) = Stopped.
Proof.
  apply (stop_settles demo_string); [| reflexivity | reflexivity].
  eapply (RStep demo_string false); [| eapply (StStopJoin demo_string _ 0); reflexivity].
  eapply (RStep demo_string false); [exact demo_reachable |].
  apply (StMove demo_string demo_stopping 0 _ Exited true eq_refl LmTopExit); [done | reflexivity].
Defined.

Lemma stop_dichotomy_witness :
  exists s', rtc (step demo_string) demo_stopping s' /\ holder s' = None /\ task s' = None /\ last_state s' = Stopped.
Proof.
  apply (stop_dichotomy demo_string demo_stopping 0 {| pc := Top; cancelled := true |});
    [exact demo_reachable | reflexivity | reflexivity].
Defined.
End Witnesses.
End Loop.

(** * Witness of the configuration *)

Definition demo_settings : Settings :=
  {| vdd_resolution := vdd_resolution default_settings; bitrate_bps := 50000000; fps := 120;
     codec := codec default_settings; bindings := default_bindings; autostart := false;
     run_as_admin := false; hud := true; topology := Duplicate; screen_off_wanted := true;
     disable_touch_wanted := true |}.

Definition demo_virtual : MonitorInfo :=
  {| adapter_index := 0; adapter_luid := 0; adapter_name := ""; adapter_vendor_id := 0;
     adapter_device_id := 0; adapter_is_software := false; output_index_within_adapter := 0;
     device_name := ""; mon_width := 2880; mon_height := 1800; desktop_coords := (0, 0, 2880, 1800);
     rotation := 1; attached_to_desktop := true; looks_virtual := true |}.

Lemma session_config_spec_witness :
  exists cfg fs',
    Config.build_session_config demo_vk demo_env_vdd demo_settings (Ok [demo_virtual]) (Ok [demo_virtual])
      (Ok None) (Ok (Some VddController_new)) (fun _ => None) ∅ [] = (Ok (cfg, fs'), [])
    /\ sc_vdd cfg = None /\ sc_screen_off cfg = true.
Proof.
  destruct (Config.session_config_spec demo_vk demo_env_vdd demo_settings (Ok [demo_virtual]) (Ok [demo_virtual])
    (Ok None) (Ok (Some VddController_new)) (fun _ => None) ∅ [])
    as (cfg & fs' & H & _ & _ & _ & _ & _ & _ & _ & Hv & _ & Hs & _); [done |].
  exists cfg, fs'. split; [exact H | split; [exact Hv | exact Hs]].
Defined.
