(* ===== verification/AcceptLoop.v ===== *)
(** The accept loop of [apps/penflow-gui/src-tauri/src/service.rs] with what
    it drives: [run_accept_loop] over the tunnel of [Adb], the configuration of
    [Service.Config], the session of [SessionRun] and the display of [Vdd].
    [Service.Loop] has the same loop as one task among others, with the work
    left open; the runs here are shown to be paths of it. *)
From stdpp Require Import relations list gmap strings.
From S2P Require Import Prelude Protocol Engine Text Coords Inject InjectSpec Vdd ReadLoop Session SessionRun Adb Keys Store RunSession Service.

(** * One round of the loop *)

(** How the session's part of a round goes: it ends by itself; it ends within
    three seconds of being asked to finish; or it is dropped when they are
    over, before or after it enabled its display. *)
Inductive Fate := Ends | Finishes | CutShort (c : CtrlC).

(** What surrounds a round: whether runs of adb that nobody awaits any more have
    ended by its top, and whether the cancel message is there; the settings and
    what the configuration is made from; the session's surroundings; how the
    wait for the removal of the rule ends; and whether the message ends the wait
    before the next round. *)
Record Round := {
  ro_settles : bool;
  ro_cancelled : bool;
  ro_settings : Settings;
  ro_list1 : EngineResult (list MonitorInfo);
  ro_list2 : EngineResult (list MonitorInfo);
  ro_detect1 : result VddError (option VddController);
  ro_detect2 : result VddError (option VddController);
  ro_faults : Faults;
  ro_env : RunEnv;
  ro_off_env : ScreenOffEnv;
  ro_fate : Fate;
  ro_timer : Timer;
  ro_paused : bool;
}.

(** Why a round does not end: [bind] or the drop of the transport awaits a run of
    adb that never ends, or the session streams on. *)
Inductive Stuck := BindHangs | Streaming | DropHangs.

(** What a round did: the states that the loop itself emitted, the messages of
    the diagnostic log, the wait before the next round in milliseconds, how
    the session ended if there was one, and whether there is a next round. *)
Record RoundEnd (D : Type) := {
  rd_states : list Loop.ServiceState;
  rd_log : list string;
  rd_wait : option Z;
  rd_session : option SessionEnd;
  rd_next : bool;
  rd_device : Device D;
  rd_fs : Fs;
}.
Arguments rd_states {D} _.
Arguments rd_log {D} _.
Arguments rd_wait {D} _.
Arguments rd_session {D} _.
Arguments rd_next {D} _.
Arguments rd_device {D} _.
Arguments rd_fs {D} _.

Section AcceptLoop.
Context (os : Os) (elapsed_ns : nat -> Z) (profile : PenButtonProfile) (vk : VkTable) (venv : VddEnv).
Context {D : Type} `{!Adb D, !AdbLaws D} (tcp_bind : option Z).
(** How errors read. *)
Context (adb_text : AdbError -> string) (session_text : SessionError -> string).

(** The message of an adb that could not be started ends with [Is adb on
    PATH?]; the other messages are taken not to hold it. *)
Definition missing_binary (e : AdbError) : bool := match e with NotInvoked => true | _ => false end.

Definition backoff (e : AdbError) : Z := if missing_binary e then 30000 else 5000.

(** The session up to the end of the block that owns it. *)
Definition round_session (cfg : SessionConfig) (ro : Round) : V (option SessionEnd) :=
  match ro_fate ro with
  | CutShort c => s ← interrupted venv cfg c; mret (Some s)
  | Ends | Finishes => o ← SessionRun.run os elapsed_ns profile venv cfg (ro_env ro) (ro_off_env ro); mret (Ran <$> o)
  end.

(** The state a session that ended by itself is reported with. *)
Definition end_state (s : SessionEnd) : Loop.ServiceState :=
  match s with
  | Ran o => match oc_result o with Ok _ => Loop.Disconnected | Err e => Loop.Error (session_text e) end
  | _ => Loop.Disconnected
  end.

Definition round_log (fate : Fate) (s : SessionEnd) : list string :=
  match fate, s with
  | Ends, Ran o => match oc_result o with Ok _ => [] | Err e => [session_text e] end
  | CutShort _, _ => ["[service] session finish timed out"%string]
  | _, _ => []
  end.

Definition settled (ro : Round) (d : Device D) : Device D := if ro_settles ro then settle d else d.

Definition accept_round (ro : Round) (d : Device D) (fs : Fs) : V (RoundEnd D + Stuck) :=
  let d := settled ro d in
  if ro_cancelled ro then
    mret (inl {| rd_states := []; rd_log := []; rd_wait := None; rd_session := None; rd_next := false;
                 rd_device := d; rd_fs := fs |})
  else
    match bind_with_adb tcp_bind "penflow" d with
    | (None, d) => mret (inr BindHangs)
    | (Some (Err e), d) =>
        mret (inl {| rd_states := [Loop.Preparing; Loop.Error (adb_text e)]; rd_log := [adb_text e];
                     rd_wait := Some (backoff e); rd_session := None; rd_next := negb (ro_paused ro);
                     rd_device := d; rd_fs := fs |})
    | (Some (Ok t), d) =>
        '(cfg, fs) ← Config.build_session_config vk venv (ro_settings ro) (ro_list1 ro) (ro_list2 ro)
                       (ro_detect1 ro) (ro_detect2 ro) (ro_faults ro) fs;
        s ← round_session cfg ro;
        mret match s with
             | None => inr Streaming
             | Some s =>
                 match close_transport (ro_timer ro) t d with
                 | None => inr DropHangs
                 | Some d =>
                     let ends := match ro_fate ro with Ends => true | _ => false end in
                     inl {| rd_states := [Loop.Preparing; Loop.Listening] ++ (if ends then [end_state s] else []);
                            rd_log := round_log (ro_fate ro) s;
                            rd_wait := if ends then Some 500 else None;
                            rd_session := Some s;
                            rd_next := ends && negb (ro_paused ro);
                            rd_device := d; rd_fs := fs |}
                 end
             end
    end.

(** [run_accept_loop], for as long as there are rounds: those that ended, and
    why the next one does not, if it does not. *)
Fixpoint run_accept_loop (rounds : list Round) (d : Device D) (fs : Fs) : V (list (RoundEnd D) * option Stuck) :=
  match rounds with
  | [] => mret ([], None)
  | ro :: rounds' =>
      e ← accept_round ro d fs;
      match e with
      | inr stuck => mret ([], Some stuck)
      | inl e =>
          if rd_next e then
            es ← run_accept_loop rounds' (rd_device e) (rd_fs e);
            mret (e :: es.1, es.2)
          else mret ([e], None)
      end
  end.

(** * The loop is the one of [Service.Loop] *)

(** The places an accept loop goes through, and the states it emits. *)
Inductive loop_path : Loop.Pc -> list Loop.ServiceState -> Loop.Pc -> Prop :=
| LpHere p : loop_path p [] p
| LpMove p q took ss r : Loop.loop_move p q took -> loop_path q ss r -> loop_path p ss r
| LpEmit s k ss r : loop_path k ss r -> loop_path (Loop.Emit s k) (s :: ss) r
| LpLaunch ss r : (forall k, loop_path (Loop.Running k) ss r) -> loop_path Loop.Launch ss r
| LpDrained k ss r : loop_path Loop.Exited ss r -> loop_path (Loop.Draining k) ss r
| LpTeardown k ss r : loop_path Loop.Cooloff ss r -> loop_path (Loop.Teardown k) ss r.

(** * What a round leaves behind *)

(** The display of a round, by its settings. *)
Definition round_vdd (ro : Round) : option VddController :=
  match topology (ro_settings ro) with
  | Extend => match ro_detect2 ro with Ok v => v | Err _ => None end
  | Duplicate => None
  end.

Definition detects_new (ro : Round) : Prop :=
  (forall c, ro_detect1 ro = Ok (Some c) -> c = VddController_new)
  /\ (forall c, ro_detect2 ro = Ok (Some c) -> c = VddController_new).

Lemma round_vdd_new ro c : detects_new ro -> round_vdd ro = Some c -> c = VddController_new.
Proof.
  intros [_ H] Hc. unfold round_vdd in Hc. destruct (topology (ro_settings ro)); [| done].
  destruct (ro_detect2 ro) as [[c'|]|]; try done. injection Hc as <-. by apply H.
Qed.

(** A display left over in duplicate mode is disabled; the files only change
    in the driver's. *)
Lemma round_config_does ro fs : detects_new ro ->
  does (Config.build_session_config vk venv (ro_settings ro) (ro_list1 ro) (ro_list2 ro)
          (ro_detect1 ro) (ro_detect2 ro) (ro_faults ro) fs)
    (fun r ext => exists cfg fs', r = Ok (cfg, fs')
      /\ sc_vdd cfg = round_vdd ro /\ (sc_screen_off cfg = true -> sc_vdd cfg = None)
      /\ (forall p, p <> installed_vdd_settings_path -> fs' !! p = fs !! p)
      /\ match topology (ro_settings ro) with Extend => ext = [] | Duplicate => forallb no_enable ext = true end).
Proof.
  intros [H1 _] tr. unfold Config.build_session_config, mbind, V_bind, Config.is_duplicate, round_vdd.
  destruct (topology (ro_settings ro)) eqn:Et.
  - change (bool_decide (Extend = Duplicate)) with false. cbn match. cbn [mret V_ret fst snd].
    exists []. rewrite app_nil_r. split; [done |]. eexists _, _. split; [done |]. cbn. unfold Config.is_duplicate.
    rewrite Et. split_and!; [done | by rewrite andb_false_r | | done].
    intros p Hp. destruct (ro_detect2 ro) as [[c|]|]; try done.
    unfold write_installed_vdd_settings, write_vdd_settings_file. destruct (validate _); [| done].
    by apply driver_ops_frame.
  - change (bool_decide (Duplicate = Duplicate)) with true. cbn match.
    rewrite Config.disable_leftover_run by done. cbn [mret V_ret fst snd].
    assert (exists ext, Config.leftover_trace venv (ro_list1 ro) (ro_detect1 ro) tr = tr ++ ext
      /\ forallb no_enable ext = true) as (ext & -> & He).
    { assert (exists ext, tr = tr ++ ext /\ forallb no_enable ext = true) as Hn by by exists []; rewrite app_nil_r.
      unfold Config.leftover_trace. destruct (ro_list1 ro); [| done]. destruct (ro_detect1 ro) as [[c|]|]; try done.
      destruct (existsb _ _); [| done]. destruct (direct_disable_does venv true tr) as (ext & E & H & _).
      by exists ext. }
    exists ext. split; [done |]. eexists _, _. split; [done |]. by cbn.
Qed.

Lemma run_screen_off_returns cfg off : exists o, run_screen_off os elapsed_ns profile cfg off = Some o.
Proof.
  unfold run_screen_off. destruct (so_accept off) as [[[r w] peer]|]; [| eauto].
  destruct (read_hello r) as [[android r']|e]; [| eauto]. destruct (so_injector off) as [v|e]; [| eauto]. cbv zeta.
  destruct (write_frames w _) as [[[]|e] w']; [| eauto].
  match goal with |- context [read_loop_select os elapsed_ns ?co ?vs ?dt ?n ?f ?rd ?s] =>
    destruct (read_loop_select_effects os elapsed_ns co vs dt n f rd s) as (res & s' & _ & _ & _ & _ & _ & E & _); [lia |] end.
  rewrite E. destruct (write_frame _ _ _). eauto.
Qed.

Definition fate_end (fate : Fate) (s : SessionEnd) : Prop :=
  match fate, s with
  | CutShort _, Ran _ => False
  | CutShort _, _ => True
  | _, Ran _ => True
  | _, _ => False
  end.

Lemma interrupted_fate cfg c tr s : (interrupted venv cfg c tr).1 = Ok s -> fate_end (CutShort c) s.
Proof.
  unfold interrupted. destruct (sc_vdd cfg) as [v|]; [destruct c |].
  1, 3: rewrite drop_then; by intros [= <-].
  rewrite v_try_bind. destruct (enable venv v tr) as [[v'|e] tr1]; cbn;
    [rewrite (drop_then venv (Some v')) | rewrite (drop_then venv (Some v))]; by intros [= <-].
Qed.

(** How a round leaves the display of its configuration; a session that streams
    on has a main loop that has not ended. *)
Definition round_display (vdd : option VddController) (ro : Round) (tr : Trace) (s : option SessionEnd) (ext : Trace) : Prop :=
  match s with
  | Some s => fate_end (ro_fate ro) s /\ display_after venv (ro_env ro) vdd tr (Some (SessionDone s)) ext
  | None => re_end (ro_env ro) = None
      /\ if vdd is Some _ then display_left venv (ro_env ro) tr None ext else ext = []
  end.

Lemma run_none cfg ro tr : (SessionRun.run os elapsed_ns profile venv cfg (ro_env ro) (ro_off_env ro) tr).1 = Ok None ->
  re_end (ro_env ro) = None.
Proof.
  unfold SessionRun.run. destruct (sc_screen_off cfg).
  - destruct (run_screen_off_returns cfg (ro_off_env ro)) as [o Ho]. rewrite Ho.
    fold (drop_display venv (sc_vdd cfg)). by rewrite drop_then.
  - destruct (re_accept (ro_env ro)) as [[[r w] peer]|] eqn:Ea.
    + destruct (run_streaming_lifecycle os elapsed_ns profile venv cfg (ro_env ro) r w peer tr Ea) as (res & E & H).
      rewrite E. by intros [= ->].
    + unfold run_streaming. rewrite Ea. fold (drop_display venv (sc_vdd cfg)). by rewrite drop_then.
Qed.

Lemma round_session_gives cfg ro : (sc_screen_off cfg = true -> sc_vdd cfg = None) ->
  (forall v, sc_vdd cfg = Some v -> v = VddController_new) ->
  gives (round_session cfg ro) (fun tr s ext => round_display (sc_vdd cfg) ro tr s ext
    /\ (sc_vdd cfg = None -> ext = [])).
Proof.
  intros Hoff Hv.
  assert (gives (SessionRun.run os elapsed_ns profile venv cfg (ro_env ro) (ro_off_env ro))
    (fun tr o ext => (o = None -> re_end (ro_env ro) = None)
      /\ if sc_vdd cfg is Some _ then display_left venv (ro_env ro) tr o ext else ext = [])) as Hrun.
  { intros tr. pose proof (run_none cfg ro tr) as Hn. destruct (sc_vdd cfg) as [v|] eqn:Ev.
    - destruct (sc_screen_off cfg) eqn:Es; [by specialize (Hoff eq_refl) |]. rewrite (Hv v eq_refl) in Ev.
      destruct (run_releases os elapsed_ns profile venv cfg (ro_env ro) (ro_off_env ro) Es Ev tr) as (o & ext & E & H).
      exists o, ext. rewrite E in Hn. split; [done |]. split; [| done]. intros ->. by apply Hn.
    - destruct (sc_screen_off cfg) eqn:Es.
      + destruct (run_screen_off_returns cfg (ro_off_env ro)) as [o Ho]. exists (Some o), [].
        unfold SessionRun.run. rewrite Es, Ev, app_nil_r. cbn. by rewrite Ho.
      + destruct (run_without_display os elapsed_ns profile venv (ro_env ro) (ro_off_env ro) cfg tr Es Ev) as (o & E).
        exists o, []. rewrite E in Hn |- *. rewrite app_nil_r. split; [done |]. split; [| done]. intros ->. by apply Hn. }
  unfold round_session, round_display. destruct (ro_fate ro) as [| | c].
  1-2: eapply gives_map; [exact Hrun |]; intros tr [o|] ext (Hn & H); cbn [fmap option_fmap option_map];
    split; [by split | by intros E; rewrite E in H | split; [by apply Hn | exact H] | by intros E; rewrite E in H].
  intros tr. destruct (interrupted_gives venv (ro_env ro) cfg c Hv tr) as (s & ext & E & H).
  exists (Some s), ext. unfold mbind, V_bind. rewrite E. split; [done |].
  pose proof (interrupted_fate cfg c tr s) as Hf. rewrite E in Hf. split; [by split; [apply Hf |] |].
  intros Hn. unfold interrupted in E. rewrite Hn in E. cbn in E. injection E as _ E.
  apply (app_inv_head tr). by rewrite <- E, app_nil_r.
Qed.

(** What the rule's runs were: none but the bind's, or the bind's and the
    removal. *)
Definition tunnel_closed (ro : Round) (d : Device D) (d' : Device D) : Prop :=
  exists t d1, bind_with_adb tcp_bind "penflow" (settled ro d) = (Some (Ok t), d1)
    /\ closed_by (ro_timer ro) "penflow" d1 (Some d').

(** What a round that ended did: the path it takes; when there is a next one;
    the files it leaves alone; and, if the tunnel came up, how its rule and the
    display are left. *)
Definition round_ok (ro : Round) (d : Device D) (fs : Fs) (e : RoundEnd D) (tr ext : Trace) : Prop :=
  loop_path Loop.Top (rd_states e) (if rd_next e then Loop.Top else Loop.Exited)
  /\ rd_next e = negb (ro_cancelled ro) && negb (ro_paused ro)
                 && match rd_session e, ro_fate ro with Some _, Ends => true | Some _, _ => false | None, _ => true end
  /\ (forall p, p <> installed_vdd_settings_path -> rd_fs e !! p = fs !! p)
  /\ others_same "penflow" d (rd_device e)
  /\ match rd_session e with
     | None => ext = [] /\ rd_fs e = fs
         /\ ((ro_cancelled ro = true /\ rd_device e = settled ro d)
             \/ exists err, bind_with_adb tcp_bind "penflow" (settled ro d) = (Some (Err err), rd_device e)
                  /\ rd_wait e = Some (backoff err))
     | Some s =>
         tunnel_closed ro d (rd_device e)
         /\ match topology (ro_settings ro) with
            | Extend => round_display (round_vdd ro) ro tr (Some s) ext
            | Duplicate => fate_end (ro_fate ro) s /\ forallb no_enable ext = true
            end
     end.

(** And one that does not end: the run of adb that it waits for, or the session
    that streams on; by the time the drop hangs, the display is released. *)
Definition round_stuck (ro : Round) (d : Device D) (stuck : Stuck) (tr ext : Trace) : Prop :=
  ro_cancelled ro = false /\
  let '(r, d1) := bind_with_adb tcp_bind "penflow" (settled ro d) in
  match stuck with
  | BindHangs => r = None /\ ext = []
  | Streaming =>
      (exists t, r = Some (Ok t))
      /\ match topology (ro_settings ro) with
         | Extend => round_display (round_vdd ro) ro tr None ext
         | Duplicate => re_end (ro_env ro) = None /\ forallb no_enable ext = true
         end
  | DropHangs =>
      ro_timer ro = CallerFires /\ (exists t, r = Some (Ok t)) /\ closed_by (ro_timer ro) "penflow" d1 None
      /\ match topology (ro_settings ro) with
         | Extend => exists s, round_display (round_vdd ro) ro tr (Some s) ext
         | Duplicate => forallb no_enable ext = true
         end
  end.

Lemma path_session (fate : Fate) (s : SessionEnd) :
  loop_path Loop.Top ([Loop.Preparing; Loop.Listening] ++ (if fate is Ends then [end_state s] else []))
    (if fate is Ends then Loop.Cooloff else Loop.Exited).
Proof.
  eapply LpMove; [apply Loop.LmTop |]. apply LpEmit. eapply LpMove; [apply Loop.LmBindOk |]. apply LpEmit.
  apply LpLaunch. intros k. destruct fate.
  2-3: eapply LpMove; [apply Loop.LmCancel |]; eapply LpMove; [apply Loop.LmFinished |]; apply LpDrained, LpHere.
  assert (loop_path (Loop.Emit (end_state s) (Loop.Teardown k)) [end_state s] Loop.Cooloff) as H
    by apply LpEmit, LpTeardown, LpHere.
  unfold end_state in *. destruct s as [o| |]; [destruct (oc_result o) |..];
    first [eapply LpMove; [apply Loop.LmSessionOk | exact H] | eapply LpMove; [apply Loop.LmSessionErr | exact H]].
Qed.

Lemma path_app p ss q : loop_path p ss q -> forall ts r, loop_path q ts r -> loop_path p (ss ++ ts) r.
Proof. induction 1; intros ts r' Hr; cbn [app];
  [done | eapply LpMove | apply LpEmit | apply LpLaunch | apply LpDrained | apply LpTeardown]; eauto. Qed.

(** The runs that nobody awaits are removals of the service's own rule. *)
Definition pending_ours (d : Device D) : Prop := Forall (fun c => c = ReverseRemove "penflow") (pending d).

Lemma settle_others (d : Device D) : pending_ours d -> others_same "penflow" d (settle d).
Proof.
  intros Hp n Hn. unfold settle. cbn [dev]. revert Hp. unfold pending_ours. generalize (dev d) as v.
  induction (pending d) as [|c cs IH]; intros v Hp; [done |]. apply Forall_cons_1 in Hp as (-> & Hp). cbn [foldl].
  rewrite IH by done. apply adb_frame. cbn. apply bool_decide_eq_false_2. congruence.
Qed.

Lemma settled_others ro (d : Device D) : pending_ours d -> others_same "penflow" d (settled ro d) /\ pending_ours (settled ro d).
Proof.
  intros Hp. unfold settled. destruct (ro_settles ro); [| by split; [intros n _ |]].
  split; [by apply settle_others | constructor].
Qed.

Lemma others_trans name (d1 d2 d3 : Device D) : others_same name d1 d2 -> others_same name d2 d3 -> others_same name d1 d3.
Proof. intros H1 H2 n Hn. by rewrite H2, H1. Qed.

Lemma bind_pending (d : Device D) : let '(r, d') := bind_with_adb tcp_bind "penflow" d in pending d' = pending d.
Proof.
  unfold bind_with_adb, run_adb. destruct (adb_run _ _) as [[[]|] v]; [| done..].
  destruct tcp_bind; [| done]. cbn. destruct (adb_run _ _) as [[r2|] v2]; [| done]. cbn.
  by destruct (adb_run _ _) as [[[]|] v3].
Qed.

Lemma closed_pending timer (d d' : Device D) : closed_by timer "penflow" d (Some d') -> pending_ours d -> pending_ours d'.
Proof.
  unfold pending_ours. intros (t' & d1 & (_ & _ & _ & _ & _ & H) & Hd) Hp.
  assert (Forall (fun c => c = ReverseRemove "penflow") (pending d1)) as H1.
  { destruct H as [(_ & -> & _) | (_ & -> & _)]; [| done]. apply Forall_app. split; [done | by constructor]. }
  destruct timer; [by injection Hd as -> .. |]. by destruct Hd as (_ & -> & _).
Qed.

Lemma accept_round_gives ro d fs : detects_new ro -> pending_ours d ->
  gives (accept_round ro d fs) (fun tr e ext =>
    match e with
    | inl e => round_ok ro d fs e tr ext /\ pending_ours (rd_device e)
    | inr stuck => round_stuck ro d stuck tr ext
    end).
Proof.
  intros Hnew Hpend. destruct (settled_others ro d Hpend) as (Hset & Hpend').
  unfold accept_round, round_stuck. destruct (ro_cancelled ro) eqn:Ec.
  { apply gives_ret. intros tr. split; [| done]. unfold round_ok. cbn. rewrite Ec. split_and!; try done; [| by left].
    eapply LpMove; [apply Loop.LmTopExit | apply LpHere]. }
  pose proof (bind_rules tcp_bind "penflow" (settled ro d)) as Hb.
  pose proof (bind_pending (settled ro d)) as Hbp.
  destruct (bind_with_adb tcp_bind "penflow" (settled ro d)) as [[[t|err]|] d1] eqn:Eb.
  3: { apply gives_ret. intros tr. by split_and!. }
  2: { apply gives_ret. intros tr. unfold round_ok, pending_ours. cbn. rewrite Ec, andb_true_r, Hbp.
       split_and!; try done; [| by eapply others_trans, Hb | right; by exists err].
       eapply LpMove; [apply Loop.LmTop |]. apply LpEmit. eapply LpMove; [apply (Loop.LmBindErr (adb_text err)) |].
       apply LpEmit. destruct (ro_paused ro); (eapply LpMove; [constructor | apply LpHere]). }
  intros tr. destruct (round_config_does ro fs Hnew tr) as (ext1 & E1 & cfg & fs' & Hr & Hv & Hoff & Hfs & Hd).
  destruct (round_session_gives cfg ro Hoff) with (tr := tr ++ ext1) as (s & ext2 & E2 & Hdisp & Hidle).
  { rewrite Hv. intros c. by apply round_vdd_new. }
  unfold mbind, V_bind.
  destruct (Config.build_session_config _ _ _ _ _ _ _ _ _ tr) as [r1 tr1]. cbn [fst snd] in *. subst r1 tr1.
  rewrite E2. cbn [mret V_ret]. rewrite <- app_assoc. eexists _, (ext1 ++ ext2). split; [reflexivity |].
  assert (Hround : match topology (ro_settings ro) with
    | Extend => round_display (round_vdd ro) ro tr s (ext1 ++ ext2)
    | Duplicate => match s with Some s => fate_end (ro_fate ro) s | None => re_end (ro_env ro) = None end
                   /\ forallb no_enable (ext1 ++ ext2) = true
    end).
  { rewrite Hv in *. unfold round_vdd in *. destruct (topology (ro_settings ro)).
    - subst ext1. by rewrite app_nil_r in Hdisp.
    - rewrite Hidle, app_nil_r by done. split; [| done]. destruct s as [s|]; by destruct Hdisp. }
  destruct Hb as (Hn & _ & _ & Ha & Hrev & Hh & _).
  destruct s as [s|].
  2: { split; [done |]. split; [by exists t | exact Hround]. }
  pose proof (close_active (ro_timer ro) t d1 Hh Hrev) as Hc. rewrite Ha in Hc.
  destruct (close_transport (ro_timer ro) t d1) as [d2|].
  2: { split; [done |]. split; [| split; [by exists t | split; [exact Hc |]]].
       - destruct Hc as (t' & d3 & _ & H3). by destruct (ro_timer ro).
       - destruct (topology (ro_settings ro)); [by exists s | by destruct Hround]. }
  split; [| cbn [rd_device]; eapply closed_pending; [exact Hc |]; unfold pending_ours; by rewrite Hbp].
  unfold round_ok. cbn [rd_states rd_next rd_fs rd_session rd_device].
  rewrite Ec. cbn [negb andb]. split_and!.
  - pose proof (path_session (ro_fate ro) s) as Hp. destruct (ro_fate ro); [| exact Hp..].
    rewrite <- (app_nil_r (_ ++ _)). eapply path_app; [exact Hp |]. cbn [andb].
    destruct (ro_paused ro); (eapply LpMove; [constructor | apply LpHere]).
  - by destruct (ro_fate ro), (ro_paused ro).
  - done.
  - eapply others_trans; [exact Hset |]. eapply others_trans; [exact Hn |]. by eapply closed_others.
  - by exists t, d1.
  - destruct (topology (ro_settings ro)); exact Hround.
Qed.

(** * What the loop leaves behind *)

Fixpoint rounds_ok (ros : list Round) (d : Device D) (fs : Fs) (es : list (RoundEnd D)) (stuck : option Stuck)
    (tr ext : Trace) : Prop :=
  match ros, es with
  | [], [] => ext = [] /\ stuck = None
  | ro :: _, [] => exists why, stuck = Some why /\ round_stuck ro d why tr ext
  | ro :: ros', e :: es' => exists e1 e2, ext = e1 ++ e2 /\ round_ok ro d fs e tr e1
      /\ if rd_next e then rounds_ok ros' (rd_device e) (rd_fs e) es' stuck (tr ++ e1) e2
         else es' = [] /\ e2 = [] /\ stuck = None
  | _, _ => False
  end.

Fixpoint last_device (d : Device D) (es : list (RoundEnd D)) : Device D :=
  match es with [] => d | e :: es' => last_device (rd_device e) es' end.

Fixpoint last_fs (fs : Fs) (es : list (RoundEnd D)) : Fs :=
  match es with [] => fs | e :: es' => last_fs (rd_fs e) es' end.

(** Whether the loop would go on after these rounds. *)
Fixpoint goes_on (es : list (RoundEnd D)) : bool :=
  match es with [] => true | e :: es' => rd_next e && goes_on es' end.

Lemma accept_loop_gives ros : forall d fs, Forall detects_new ros -> pending_ours d ->
  gives (run_accept_loop ros d fs) (fun tr es ext => rounds_ok ros d fs es.1 es.2 tr ext).
Proof.
  induction ros as [|ro ros IH]; intros d fs Hn Hp; cbn [run_accept_loop]; [by apply gives_ret |].
  apply Forall_cons_1 in Hn as [Hro Hn].
  eapply gives_bind; [by apply accept_round_gives |]. intros tr [e|why] e1 H.
  - destruct H as (Hok & Hp'). destruct (rd_next e) eqn:En.
    + destruct (IH (rd_device e) (rd_fs e) Hn Hp' (tr ++ e1)) as (es & e2 & E & H).
      eexists _, e2. unfold mbind, V_bind. rewrite E. split; [reflexivity |].
      exists e1, e2. by rewrite En.
    + eexists _, []. rewrite app_nil_r. split; [reflexivity |]. exists e1, []. by rewrite En.
  - eexists _, []. rewrite app_nil_r. split; [reflexivity |]. rewrite app_nil_r. by exists why.
Qed.

Lemma rounds_path ros : forall d fs es stuck tr ext, rounds_ok ros d fs es stuck tr ext ->
  loop_path Loop.Top (concat (rd_states <$> es)) (if goes_on es then Loop.Top else Loop.Exited).
Proof.
  induction ros as [|ro ros IH]; intros d fs [|e es] stuck tr ext; cbn [rounds_ok]; try done; [intros _; apply LpHere.. |].
  intros (e1 & e2 & _ & (Hp & _) & Hrest). cbn [fmap list_fmap concat goes_on].
  destruct (rd_next e); cbn [andb]; [by eapply path_app, IH |]. destruct Hrest as (-> & _). cbn [fmap list_fmap concat].
  by rewrite app_nil_r.
Qed.

(** Neither the rules of other programs nor the settings are touched. *)
Lemma rounds_frame ros : forall d fs es stuck tr ext, rounds_ok ros d fs es stuck tr ext ->
  others_same "penflow" d (last_device d es)
  /\ (forall p, p <> installed_vdd_settings_path -> last_fs fs es !! p = fs !! p).
Proof.
  induction ros as [|ro ros IH]; intros d fs [|e es] stuck tr ext; cbn [rounds_ok]; try done.
  intros (e1 & e2 & _ & (_ & _ & Hfs & Hd & _) & Hrest). cbn [last_device last_fs].
  destruct (rd_next e); [| by destruct Hrest as (-> & _)].
  destruct (IH _ _ _ _ _ _ Hrest) as [H1 H2]. split.
  - by eapply others_trans.
  - intros p Hp. by rewrite H2, Hfs.
Qed.

(** An adb that removes the rule at once whenever it is asked to, and whose
    failing runs set none. *)
Definition prompt_removal : Prop := forall v : D, exists v', adb_run (ReverseRemove "penflow") v = (Some (Ok tt), v').

Definition clean_failures : Prop := forall port (v : D) e v', adb_run (ReverseAdd "penflow" port) v = (Some (Err e), v') ->
  rule "penflow" v' = rule "penflow" v \/ rule "penflow" v' = None.

(** How a round with a tunnel ends with it. *)
Lemma tunnel_closed_gone ro (d d' : Device D) : prompt_removal -> ro_timer ro = NoneFires -> pending d = [] ->
  tunnel_closed ro d d' -> rule "penflow" (dev d') = None /\ pending d' = [].
Proof.
  intros Hprompt Ht Hp (t & d1 & Eb & t' & d2 & (_ & _ & _ & _ & _ & H) & Hc). rewrite Ht in Hc. injection Hc as ->.
  pose proof (bind_pending (settled ro d)) as Hbp. rewrite Eb in Hbp.
  assert (pending d1 = []) as Hp1 by (rewrite Hbp; unfold settled; by destruct (ro_settles ro)).
  destruct (Hprompt (dev d1)) as (v & Ev). destruct H as [(_ & _ & Hhang) | (_ & Hpend & r & E & H)].
  - rewrite Ev in Hhang. by specialize (Hhang Ht).
  - split; [| by rewrite Hpend]. apply H. congruence.
Qed.

Lemma failed_bind_rule (d : Device D) e d' : clean_failures -> bind_with_adb tcp_bind "penflow" d = (Some (Err e), d') ->
  rule "penflow" (dev d') = rule "penflow" (dev d) \/ rule "penflow" (dev d') = None.
Proof.
  intros Hclean. unfold bind_with_adb, run_adb. pose proof (adb_frame StartServer "penflow" (dev d) eq_refl) as Hs.
  destruct (adb_run StartServer (dev d)) as [[[[]|e1]|] v1]; cbn [snd dev] in *; [| by intros [= _ <-]; left | done].
  destruct tcp_bind as [port|]; [| by intros [= _ <-]; left]. cbn [dev].
  pose proof (adb_removal "penflow" v1) as Hr.
  destruct (adb_run (ReverseRemove "penflow") v1) as [[r2|] v2]; cbn [snd dev] in *; [| done].
  destruct (adb_run (ReverseAdd "penflow" port) v2) as [[[[]|e3]|] v3] eqn:Ea; [done | | done]. intros [= _ <-]. cbn [dev].
  destruct (Hclean _ _ _ _ Ea) as [-> | ->]; [| by right]. rewrite <- Hs. exact Hr.
Qed.

(** With such an adb, no rule of its own is left. *)
Lemma rounds_rule ros : prompt_removal -> clean_failures -> Forall (fun ro => ro_timer ro = NoneFires) ros ->
  forall d fs es stuck tr ext, rounds_ok ros d fs es stuck tr ext -> rule "penflow" (dev d) = None -> pending d = [] ->
  rule "penflow" (dev (last_device d es)) = None.
Proof.
  intros Hprompt Hclean Htimers. induction ros as [|ro ros IH]; intros d fs [|e es] stuck tr ext; cbn [rounds_ok]; try done.
  apply Forall_cons_1 in Htimers as (Ht & Htimers).
  intros (e1 & e2 & _ & (_ & _ & _ & _ & Hd) & Hrest) Hnone Hpend. cbn [last_device].
  assert (Hset : settled ro d = d).
  { unfold settled, settle. destruct (ro_settles ro); [| done]. destruct d as [v cs ps]. cbn in *. by subst ps. }
  assert (rule "penflow" (dev (rd_device e)) = None /\ pending (rd_device e) = []) as (He & Hp).
  { destruct (rd_session e) as [s|].
    - destruct Hd as (Hc & _). by eapply tunnel_closed_gone.
    - destruct Hd as (_ & _ & [[_ ->] | (err & Hb & _)]); rewrite Hset in *; [done |].
      pose proof (bind_pending d) as Hbp. rewrite Hb in Hbp. rewrite Hbp. split; [| done].
      by destruct (failed_bind_rule d err _ Hclean Hb) as [-> | ->]. }
  destruct (rd_next e); [by eapply IH | by destruct Hrest as (-> & _)].
Qed.

(** * The paths are runs of [Service.Loop] *)

Section Simulation.
Context (to_string : SessionError -> string).

(** Loop [i] is alive in [s], waits at [p], and nobody has stopped it. *)
Definition waits_at (s : Loop.Service) (i : nat) (p : Loop.Pc) : Prop :=
  Loop.loops s !! i = Some {| Loop.pc := p; Loop.cancelled := false |} 
  /\ Loop.holder s = None /\ Loop.task s = Some i /\ Loop.cancel s = Some i.

Lemma waits_move s i p q : waits_at s i p -> Loop.loop_move p q false -> (q <> Loop.Exited) ->
  exists s', Loop.step to_string s s' /\ waits_at s' i q /\ Loop.broadcast s' = Loop.broadcast s.
Proof.
  intros (Hl & Hh & Ht & Hk) Hm Hq. eexists. split.
  - apply (Loop.StMove to_string s i _ q false Hl); [exact Hm | done |]. by destruct p, q.
  - split; [| done]. split; [by apply (Loop.set_pc_lookup s i _ q Hl) | done].
Qed.

Lemma waits_emit s i st k : waits_at s i (Loop.Emit st k) ->
  exists s', rtc (Loop.step to_string) s s' /\ waits_at s' i k /\ Loop.broadcast s' = Loop.broadcast s ++ [st].
Proof.
  intros (Hl & Hh & Ht & Hk). eexists. split.
  - eapply rtc_l; [by apply (Loop.StEmit to_string s i _ st k Hl) |].
    eapply rtc_once, (Loop.StSend to_string _ i {| Loop.pc := Loop.Send st k; Loop.cancelled := false |}); [| done].
    apply (Loop.set_pc_lookup s i _ (Loop.Send st k) Hl).
  - split; [| done]. split; [| done]. cbn. apply list_lookup_insert_eq. rewrite length_insert. by eapply lookup_lt_Some.
Qed.

(** Past the cancel message nothing is emitted. *)
Lemma leaving_silent p ss q : loop_path p ss q ->
  p = Loop.Exited \/ (exists k, p = Loop.Finishing k) \/ (exists k, p = Loop.Draining k) -> ss = [].
Proof.
  induction 1 as [p | p q took ss r Hm _ IH | s k ss r _ IH | ss r _ IH | k ss r _ IH | k ss r _ IH];
    intros [Hp | [[k' Hp] | [k' Hp]]]; try done; subst.
  - inversion Hm.
  - inversion Hm; subst. apply IH. eauto.
  - inversion Hm.
  - apply IH. by left.
Qed.

Lemma move_target p q took : Loop.loop_move p q took ->
  if took then Loop.can_leave p = true /\ (q = Loop.Exited \/ exists k, q = Loop.Finishing k) else q <> Loop.Exited.
Proof. destruct 1; eauto. Qed.

(** A path that the loop takes while nobody stops it: to its end, or to the
    place where it then needs the cancel message. *)
Lemma path_simulated p ss q : loop_path p ss q -> forall s i, waits_at s i p ->
  exists s' x, rtc (Loop.step to_string) s s' /\ waits_at s' i x /\ Loop.broadcast s' = Loop.broadcast s ++ ss
    /\ (x = q \/ Loop.can_leave x = true).
Proof.
  induction 1 as [p | p q took ss r Hm Hp IH | st k ss r _ IH | ss r _ IH | k ss r Hp IH | k ss r _ IH]; intros s i Hw.
  - exists s, p. rewrite app_nil_r. split_and!; [apply rtc_refl | done | done | by left].
  - pose proof (move_target _ _ _ Hm) as Ht. destruct took.
    + destruct Ht as (Hc & Hq). rewrite (leaving_silent _ _ _ Hp), app_nil_r by (destruct Hq as [-> | [? ->]]; eauto). exists s, p. split_and!; [apply rtc_refl | done | done | by right].
    + destruct (waits_move s i p q Hw Hm Ht) as (s1 & Hs & Hw1 & Hb). destruct (IH s1 i Hw1) as (s2 & x & Hr & Hw2 & Hb2 & Hx).
      exists s2, x. rewrite Hb2, Hb. split_and!; [by eapply rtc_l | done..].
  - destruct (waits_emit s i st k Hw) as (s1 & Hs & Hw1 & Hb). destruct (IH s1 i Hw1) as (s2 & x & Hr & Hw2 & Hb2 & Hx).
    exists s2, x. rewrite Hb2, Hb, <- app_assoc. split_and!; [by etrans | done..].
  - destruct Hw as (Hl & Hh & Ht & Hk).
    set (s1 := Loop.set_pumps (Loop.pumps s ++ [{| Loop.queue := []; Loop.phase := Loop.PIdle; Loop.aborted := false |}])
      (Loop.set_pc i {| Loop.pc := Loop.Launch; Loop.cancelled := false |} (Loop.Running (length (Loop.pumps s))) s)).
    destruct (IH (length (Loop.pumps s)) s1 i) as (s2 & x & Hr & Hw2 & Hb2 & Hx).
    { split; [apply (Loop.set_pc_lookup s i _ _ Hl) | done]. }
    exists s2, x. split_and!; [eapply rtc_l; [by eapply Loop.StLaunch | exact Hr] | done..].
  - rewrite (leaving_silent _ _ _ Hp), app_nil_r by eauto. exists s, (Loop.Draining k).
    split_and!; [apply rtc_refl | done | done | by right].
  - destruct Hw as (Hl & Hh & Ht & Hk).
    destruct (IH (Loop.abort k (Loop.set_pc i {| Loop.pc := Loop.Teardown k; Loop.cancelled := false |} Loop.Cooloff s)) i) as (s2 & x & Hr & Hw2 & Hb2 & Hx).
    { split; [apply (Loop.set_pc_lookup s i _ _ Hl) | done]. }
    exists s2, x. split_and!; [eapply rtc_l; [by eapply Loop.StTeardown | exact Hr] | done..].
Qed.

(** The rounds refine the loop of [Service.Loop]: from any state in which the
    loop is at its top, the service can run so that it broadcasts exactly the
    states of the rounds, and then the loop is at its top again, or, when the
    rounds ended with the cancel message, at a place where a stop that comes
    now finds it able to leave, and it leaves. *)
Theorem rounds_simulated (es : list (RoundEnd D)) : loop_path Loop.Top (concat (rd_states <$> es)) (if goes_on es then Loop.Top else Loop.Exited) ->
  forall s i, waits_at s i Loop.Top -> exists s', rtc (Loop.step to_string) s s'
    /\ Loop.broadcast s' = Loop.broadcast s ++ concat (rd_states <$> es)
    /\ (goes_on es = false -> Loop.leaves to_string (Loop.stop_begin s') i).
Proof.
  intros Hp s i Hw. destruct (path_simulated _ _ _ Hp s i Hw) as (s' & x & Hr & (Hl & Hh & Ht & Hk) & Hb & Hx).
  exists s'. split_and!; [done | done |]. intros Hg. rewrite Hg in Hx.
  assert (Loop.can_leave x = true) as Hc by by destruct Hx as [-> |].
  assert (Loop.loops (Loop.stop_begin s') !! i = Some {| Loop.pc := x; Loop.cancelled := true |}) as Hi.
  { cbn. rewrite Hk, list_lookup_alter_eq, Hl. done. }
  by eapply Loop.can_leave_leaves.
Qed.
End Simulation.

(** * The loop as a whole *)

End AcceptLoop.

(** * Witness *)

(** The first run of adb fails; then adb works. *)
Definition first_fails (n : nat) (c : AdbCall) : option (result AdbError unit) :=
  match n with O => Some (Err NotInvoked) | _ => Some (Ok tt) end.

Definition demo_round (fate : Fate) (timer : Timer) : Round :=
  {| ro_settles := true; ro_cancelled := false; ro_settings := default_settings; ro_list1 := Ok [demo_monitor];
     ro_list2 := Ok [demo_monitor]; ro_detect1 := Ok None; ro_detect2 := Ok (Some VddController_new);
     ro_faults := fun _ => None; ro_env := demo_run_env; ro_off_env := Session.demo_env; ro_fate := fate;
     ro_timer := timer; ro_paused := false |}.

(** Without adb, with a session that ends, and with one that streams when the
    service is stopped; the removal of the first tunnel's rule takes too long. *)
Definition demo_rounds : list Round :=
  [demo_round Ends NoneFires; demo_round Ends CallerFires; demo_round (CutShort AfterEnable) NoneFires; demo_round Ends NoneFires].

Definition first_fails_adb : Adb Table := table_adb first_fails false.

Definition demo_loop : V (list (RoundEnd Table) * option Stuck) :=
  @run_accept_loop friendly_os demo_clock demo_profile demo_vk demo_env_vdd Table first_fails_adb (Some 5555)
    (fun _ => "adb"%string) (fun _ => "session"%string) demo_rounds no_rules ∅.


Example demo_loop_runs :
  match (demo_loop []).1 with
  | Ok (es, None) =>
      (map rd_wait es, map (fun e => length (calls (rd_device e))) es, concat (map rd_states es))
      = ([Some 30000; Some 500; None], [1; 6; 10]%nat,
         [Loop.Preparing; Loop.Error "adb"; Loop.Preparing; Loop.Listening; Loop.Disconnected; Loop.Preparing; Loop.Listening])
  | _ => False
  end.
Proof. vm_compute. reflexivity. Qed.
