(* ===== verification/Events.v ===== *)
(** The events of the window: the task of
    [apps/penflow-gui/src-tauri/src/main.rs] that subscribes to the service and
    forwards its states, over the service of [Service].

    The channel between the two is tokio's [broadcast], a parameter with the
    behaviour its documentation states: a receiver gets every value sent after
    it subscribed, in order, as long as no more than the capacity are
    outstanding; past that it gets [Lagged] once and goes on with the oldest
    value the channel still holds. *)
From stdpp Require Import relations list strings.
From S2P Require Import Prelude Text ReadLoop Session Service.
Import Loop.

(** * The channel *)

(** The answers of [recv]: a value, the number of values lost, or nothing yet
    (the task sleeps).  The sender lives as long as the service, so the channel
    is never closed. *)
Inductive Received (A : Type) := Value (a : A) | Lagged (lost : nat) | Nothing.
Arguments Value {A}. Arguments Lagged {A}. Arguments Nothing {A}.

Class Channel (A Chan Rx : Type) := {
  ch_new : nat -> Chan;
  ch_subscribe : Chan -> Rx;
  ch_send : A -> Chan -> Chan;
  ch_recv : Chan -> Rx -> Received A * Rx;
}.

(** What the documentation promises, in terms of everything sent so far and of
    the number of values a receiver is past. *)
Class ChannelLaws (A Chan Rx : Type) `{!Channel A Chan Rx} := {
  sent : Chan -> list A;
  capacity : Chan -> nat;
  past : Rx -> nat;
  law_new n : sent (ch_new n) = [] /\ capacity (ch_new n) = n;
  law_send a c : sent (ch_send a c) = sent c ++ [a] /\ capacity (ch_send a c) = capacity c;
  law_subscribe c : past (ch_subscribe c) = length (sent c);
  law_value c rx a : sent c !! past rx = Some a -> (length (sent c) <= past rx + capacity c)%nat ->
    exists rx', ch_recv c rx = (Value a, rx') /\ past rx' = S (past rx);
  law_lagged c rx : (past rx + capacity c < length (sent c))%nat ->
    exists rx', ch_recv c rx = (Lagged (length (sent c) - capacity c - past rx), rx')
      /\ past rx' = (length (sent c) - capacity c)%nat;
  law_nothing c rx : past rx = length (sent c) -> ch_recv c rx = (Nothing, rx);
}.

(** A channel that keeps everything has these laws. *)
Section LogChannel.
Context (A : Type).

#[export] Instance log_channel : Channel A (nat * list A) nat := {
  ch_new n := (n, []);
  ch_subscribe c := length c.2;
  ch_send a c := (c.1, c.2 ++ [a]);
  ch_recv c rx :=
    if Nat.ltb (rx + c.1) (length c.2) then (Lagged (length c.2 - c.1 - rx), length c.2 - c.1)%nat
    else match c.2 !! rx with Some a => (Value a, S rx) | None => (Nothing, rx) end;
}.

#[export, program] Instance log_channel_laws : ChannelLaws A (nat * list A) nat := {
  sent c := c.2;
  capacity c := c.1;
  past rx := rx;
}.
Next Obligation. done. Qed.
Next Obligation. done. Qed.
Next Obligation. done. Qed.
Next Obligation.
  intros [n l] rx a Ha Hl. cbn [ch_recv log_channel fst snd] in *.
  destruct (Nat.ltb_spec (rx + n) (length l)); [lia |]. rewrite Ha. by eexists.
Qed.
Next Obligation.
  intros [n l] rx H. cbn [ch_recv log_channel fst snd] in *.
  destruct (Nat.ltb_spec (rx + n) (length l)); [by eexists | lia].
Qed.
Next Obligation.
  intros [n l] rx H. cbn [ch_recv log_channel fst snd] in *.
  destruct (Nat.ltb_spec (rx + n) (length l)); [lia |]. by rewrite lookup_ge_None_2 by lia.
Qed.
End LogChannel.

(** * The forwarding task *)

Section Events.
Context {Chan Rx : Type} `{!Channel ServiceState Chan Rx}.

(** [w_rx]: the receiver, once the task has run; [w_emitted]: the payloads of
    [service-state]; [w_running]: the task is in its loop. *)
Record Window := { w_rx : option Rx; w_emitted : list ServiceState; w_running : bool }.

Definition new_window : Window := {| w_rx := None; w_emitted := []; w_running := true |}.

(** One turn: the subscription, or one round of [while let Ok(state)]. *)
Definition forward_turn (c : Chan) (w : Window) : Window :=
  if negb (w_running w) then w
  else
    match w_rx w with
    | None => {| w_rx := Some (ch_subscribe c); w_emitted := w_emitted w; w_running := true |}
    | Some rx =>
        let '(r, rx) := ch_recv c rx in
        match r with
        | Value state => {| w_rx := Some rx; w_emitted := w_emitted w ++ [state]; w_running := true |}
        | Lagged _ => {| w_rx := Some rx; w_emitted := w_emitted w; w_running := false |}
        | Nothing => {| w_rx := Some rx; w_emitted := w_emitted w; w_running := true |}
        end
    end.

(** The service, its channel, and the task. *)
Record Feed := { g_service : Service; g_events : Chan; g_window : Window }.

Definition new_gui : Feed := {| g_service := new; g_events := ch_new 16; g_window := new_window |}.

Definition send_all (states : list ServiceState) (c : Chan) : Chan := fold_left (fun c s => ch_send s c) states c.

(** A service step with what it sends, and a turn of the task. *)
Definition after_service (g : Feed) (s' : Service) : Feed :=
  {| g_service := s';
     g_events := send_all (drop (length (broadcast (g_service g))) (broadcast s')) (g_events g);
     g_window := g_window g |}.

Definition after_turn (g : Feed) : Feed :=
  {| g_service := g_service g; g_events := g_events g; g_window := forward_turn (g_events g) (g_window g) |}.

Context (to_string : SessionError -> string).

(** The two in any order; [timeouts] as in [Service]. *)
Inductive gui_reachable (timeouts : bool) : Feed -> Prop :=
| GNew : gui_reachable timeouts new_gui
| GService g s' : gui_reachable timeouts g -> step to_string (g_service g) s' ->
    gui_reachable timeouts (after_service g s')
| GTimeout g s' : gui_reachable timeouts g -> timeouts = true -> timeout_step (g_service g) s' ->
    gui_reachable timeouts (after_service g s')
| GTurn g : gui_reachable timeouts g -> gui_reachable timeouts (after_turn g).

(** ** The channel follows the service *)

(** Sending only adds. *)
Lemma step_broadcast s s' : step to_string s s' -> exists l, broadcast s' = broadcast s ++ l.
Proof.
  destruct 1; try (exists []; by rewrite app_nil_r); try by eexists.
  exists []. rewrite app_nil_r. unfold start. by destruct (task s).
Qed.

Lemma timeout_broadcast s s' : timeout_step s s' -> exists l, broadcast s' = broadcast s ++ l.
Proof. destruct 1. by eexists. Qed.

Context `{!ChannelLaws ServiceState Chan Rx}.

Lemma send_all_sent states : forall c,
  sent (send_all states c) = sent c ++ states /\ capacity (send_all states c) = capacity c.
Proof.
  induction states as [|st states IH]; intros c; [by rewrite app_nil_r |].
  destruct (law_send st c) as [H1 H2]. destruct (IH (ch_send st c)) as [H3 H4].
  cbn. unfold send_all in *. rewrite H3, H4, H1, H2. by rewrite <- app_assoc.
Qed.

(** What the window has is a stretch of what the service sent: from where the
    task subscribed up to where the task is, or was when it ended. *)
Definition stretch (g : Feed) : Prop :=
  match w_rx (g_window g) with
  | None => w_emitted (g_window g) = [] /\ w_running (g_window g) = true
  | Some rx => exists before after,
      broadcast (g_service g) = before ++ w_emitted (g_window g) ++ after
      /\ (w_running (g_window g) = true -> past rx = length (before ++ w_emitted (g_window g)))
  end.

Record GuiInv (g : Feed) : Prop := {
  gi_sent : sent (g_events g) = broadcast (g_service g);
  gi_capacity : capacity (g_events g) = 16%nat;
  gi_stretch : stretch g;
}.

Lemma after_service_inv g s' : GuiInv g -> (exists l, broadcast s' = broadcast (g_service g) ++ l) ->
  GuiInv (after_service g s').
Proof.
  intros [Hs Hc Hw] [l Hl]. destruct (send_all_sent l (g_events g)) as [H1 H2].
  split; unfold after_service; cbn [g_events g_service]; rewrite ?Hl, ?drop_app_length.
  - by rewrite H1, Hs.
  - by rewrite H2.
  - unfold stretch in *. cbn [g_window g_service] in *. destruct (w_rx (g_window g)) as [rx|]; [| done].
    destruct Hw as (before & after & Hb & Hp). exists before, (after ++ l). by rewrite Hl, Hb, <- !app_assoc.
Qed.

Definition outstanding (g : Feed) : nat :=
  match w_rx (g_window g) with
  | Some rx => length (broadcast (g_service g)) - past rx
  | None => 0
  end.

(** One turn of a task that is subscribed and running, by what is outstanding. *)
Lemma turn_cases g rx : GuiInv g -> w_rx (g_window g) = Some rx -> w_running (g_window g) = true ->
  let w' := forward_turn (g_events g) (g_window g) in
  (outstanding g = 0%nat /\ w' = g_window g)
  \/ ((0 < outstanding g <= 16)%nat /\ exists state rx',
        broadcast (g_service g) !! past rx = Some state /\ past rx' = S (past rx)
        /\ w' = {| w_rx := Some rx'; w_emitted := w_emitted (g_window g) ++ [state]; w_running := true |})
  \/ ((16 < outstanding g)%nat /\ exists rx',
        w' = {| w_rx := Some rx'; w_emitted := w_emitted (g_window g); w_running := false |}).
Proof.
  intros [Hs Hc Hw] Hrx Hrun. unfold outstanding, stretch in *. rewrite Hrx in *.
  destruct Hw as (before & after & Hb & Hp). specialize (Hp Hrun).
  assert (past rx <= length (broadcast (g_service g)))%nat as Hle.
  { rewrite Hp, Hb, app_assoc, (length_app (before ++ _)). lia. }
  unfold forward_turn. rewrite Hrun, Hrx. cbn [negb].
  destruct (Nat.lt_ge_cases (past rx + 16) (length (broadcast (g_service g)))) as [Hlag | Hkeep];
    [| destruct (decide (past rx = length (broadcast (g_service g)))) as [He | Hne]].
  - right. right. split; [lia |]. destruct (law_lagged (g_events g) rx) as (rx' & Hr & _); [by rewrite Hs, Hc |].
    exists rx'. by rewrite Hr.
  - left. split; [lia |]. rewrite law_nothing by by rewrite Hs. destruct (g_window g). cbn in *. by subst.
  - right. left. split; [lia |].
    destruct (lookup_lt_is_Some_2 (broadcast (g_service g)) (past rx)) as [state Hst]; [lia |].
    destruct (law_value (g_events g) rx state) as (rx' & Hr & Hp'); [by rewrite Hs | by rewrite Hs, Hc |].
    exists state, rx'. by rewrite Hr.
Qed.

Lemma after_turn_inv g : GuiInv g -> GuiInv (after_turn g).
Proof.
  intros HI. pose proof HI as [Hs Hc Hw]. split; [done | done |].
  destruct (w_running (g_window g)) eqn:Hrun.
  2: { unfold stretch in *. cbn [after_turn g_window g_service]. unfold forward_turn. by rewrite Hrun. }
  destruct (w_rx (g_window g)) as [rx|] eqn:Hrx.
  - pose proof (turn_cases g rx HI Hrx Hrun) as H. cbv zeta in H.
    unfold stretch in *. rewrite Hrx in Hw. destruct Hw as (before & after & Hb & Hp). specialize (Hp Hrun).
    cbn [after_turn g_window g_service].
    destruct H as [(_ & ->) | [(_ & state & rx' & Hst & Hp' & ->) | (_ & rx' & ->)]]; cbn [w_rx w_emitted w_running].
    + rewrite Hrx. by exists before, after.
    + rewrite Hb, Hp, app_assoc, lookup_app_r, Nat.sub_diag in Hst by lia.
      destruct after as [|st after]; [done |]. injection Hst as ->. exists before, after.
      rewrite Hb, Hp', Hp, !length_app. cbn. split; [by rewrite <- !app_assoc | lia].
    + by exists before, after.
  - unfold stretch in *. rewrite Hrx in Hw. destruct Hw as [He _].
    cbn [after_turn g_window g_service]. unfold forward_turn. rewrite Hrun, Hrx. cbn [negb w_rx w_emitted w_running].
    exists (broadcast (g_service g)), []. rewrite He, law_subscribe, Hs. cbn [app]. by rewrite app_nil_r.
Qed.

Lemma gui_reachable_inv timeouts g : gui_reachable timeouts g -> GuiInv g.
Proof.
  induction 1 as [| g s' _ IH Hs | g s' _ IH _ Hs | g _ IH].
  - destruct (law_new (A := ServiceState) 16) as [H1 H2]. by split.
  - apply after_service_inv; [done | by apply step_broadcast].
  - apply after_service_inv; [done | by apply timeout_broadcast].
  - by apply after_turn_inv.
Qed.

(** The window is told what the service sent, in order, without gaps and
    without repeats, from some point on and up to some point. *)
Theorem window_order timeouts g : gui_reachable timeouts g ->
  exists before after, broadcast (g_service g) = before ++ w_emitted (g_window g) ++ after.
Proof.
  intros [Hs _ Hw]%gui_reachable_inv. unfold stretch in Hw. destruct (w_rx (g_window g)).
  - destruct Hw as (before & after & Hb & _). by exists before, after.
  - destruct Hw as [-> _]. by exists [], (broadcast (g_service g)).
Qed.

Fixpoint turns (n : nat) (g : Feed) : Feed :=
  match n with
  | O => g
  | S n => turns n (after_turn g)
  end.

Definition forwarding (g : Feed) : Prop := w_running (g_window g) = true /\ w_rx (g_window g) <> None.

Definition events (g : Feed) : nat := length (w_emitted (g_window g)).

Lemma turn_forwards g : GuiInv g -> forwarding g -> (0 < outstanding g <= 16)%nat ->
  GuiInv (after_turn g) /\ forwarding (after_turn g) /\ outstanding (after_turn g) = (outstanding g - 1)%nat
  /\ events (after_turn g) = S (events g).
Proof.
  intros HI [Hrun Hrx] Ho. split; [by apply after_turn_inv |].
  destruct (w_rx (g_window g)) as [rx|] eqn:E; [| done].
  destruct (turn_cases g rx HI E Hrun) as [(H & _) | [(_ & state & rx' & _ & Hp & Hw) | (H & _)]]; [lia | | lia].
  unfold forwarding, outstanding, events in *. cbn [after_turn g_window g_service]. rewrite Hw, E.
  cbn [w_rx w_emitted w_running]. rewrite length_app. cbn [length]. split_and!; [done | done | lia | lia].
Qed.

Lemma turns_forward n : forall g, GuiInv g -> forwarding g -> outstanding g = n -> (n <= 16)%nat ->
  GuiInv (turns n g) /\ forwarding (turns n g) /\ outstanding (turns n g) = 0%nat
  /\ events (turns n g) = (n + events g)%nat.
Proof.
  induction n as [|n IH]; intros g HI Hf Ho Hn; [done |].
  destruct (turn_forwards g HI Hf) as (HI' & Hf' & Ho' & He'); [lia |].
  destruct (IH (after_turn g) HI' Hf') as (H1 & H2 & H3 & H4); [lia | lia |].
  cbn [turns]. split_and!; [done | done | done | lia].
Qed.

Lemma turns_service n : forall g, g_service (turns n g) = g_service g.
Proof. induction n as [|n IH]; intros g; [done | exact (IH (after_turn g))]. Qed.

(** A task that is behind by no more than the channel holds catches up: as
    many turns as states are outstanding, and the last event of the window is
    the last state of the service. *)
Theorem window_catches_up timeouts g : gui_reachable timeouts g -> forwarding g ->
  (0 < outstanding g <= 16)%nat ->
  list.last (w_emitted (g_window (turns (outstanding g) g))) = list.last (broadcast (g_service g)).
Proof.
  intros HI%gui_reachable_inv Hf [Hpos Ho].
  destruct (turns_forward _ g HI Hf eq_refl Ho) as ([_ _ Hw] & (Hrun & Hrx) & Ho0 & He).
  unfold stretch, events in *. rewrite <- (turns_service (outstanding g) g).
  set (h := turns (outstanding g) g) in *. unfold outstanding in Ho0.
  destruct (w_rx (g_window h)) as [rx|]; [| done]. destruct Hw as (before & after & Hb & Hp).
  specialize (Hp Hrun). rewrite Hb, !length_app in Ho0. rewrite Hp, length_app in Ho0.
  assert (after = []) as -> by (apply length_zero_iff_nil; lia). rewrite app_nil_r in Hb.
  rewrite Hb, last_app. destruct (list.last (w_emitted (g_window h))) eqn:E; [done |].
  apply last_None in E. rewrite E in He. cbn in He. lia.
Qed.

(** A task that is behind by more ends with its next turn, and tells the
    window nothing ever after. *)
Theorem lag_ends_forwarding timeouts g : gui_reachable timeouts g -> forwarding g -> (16 < outstanding g)%nat ->
  w_running (g_window (after_turn g)) = false
  /\ w_emitted (g_window (after_turn g)) = w_emitted (g_window g).
Proof.
  intros HI%gui_reachable_inv [Hrun Hrx] Ho. destruct (w_rx (g_window g)) as [rx|] eqn:E; [| done].
  destruct (turn_cases g rx HI E Hrun) as [(H & _) | [(H & _) | (_ & rx' & Hw)]]; [lia | lia |].
  cbn [after_turn g_window]. by rewrite Hw.
Qed.

(** What can happen to the pair from a state on. *)
Inductive gui_next (g : Feed) : Feed -> Prop :=
| NxService s' : step to_string (g_service g) s' -> gui_next g (after_service g s')
| NxTimeout s' : timeout_step (g_service g) s' -> gui_next g (after_service g s')
| NxTurn : gui_next g (after_turn g).

Theorem ended_stays_ended g g' : rtc gui_next g g' -> w_running (g_window g) = false -> g_window g' = g_window g.
Proof.
  induction 1 as [| g g1 g2 Hn _ IH]; intros He; [done |].
  assert (g_window g1 = g_window g) as H1.
  { destruct Hn; [done | done |]. cbn [after_turn g_window]. unfold forward_turn. by rewrite He. }
  rewrite IH, H1; [done | by rewrite H1].
Qed.
End Events.
Arguments Window : clear implicits.
Arguments Feed : clear implicits.

(** * A lag in the life of the window *)

Section Demo.
Abbreviation G := (Feed (nat * list ServiceState) nat).
Abbreviation reach := (gui_reachable (Chan := nat * list ServiceState) (Rx := nat) (fun _ => "error"%string) false).

(** The idle service is stopped once more: one state sent. *)
Definition stop_idle (g : G) : G := after_service g (stop_end (stop_begin (g_service g))).

Lemma stop_idle_reach g : reach g -> holder (g_service g) = None -> task (g_service g) = None -> reach (stop_idle g).
Proof. intros. apply GService; [done |]. by apply StStopIdle. Qed.

Fixpoint stops (n : nat) (g : G) : G :=
  match n with
  | O => g
  | S n => stops n (stop_idle g)
  end.

Lemma stops_reach n : forall g, reach g -> holder (g_service g) = None -> task (g_service g) = None -> reach (stops n g).
Proof. induction n as [|n IH]; intros; [done |]. cbn [stops]. by apply IH; [apply stop_idle_reach | |]. Qed.

(** The task of [main.rs] is to forward every state of the service.  It does
    until it falls behind by more than sixteen; then its loop is over, and the
    window keeps the last state it was told, whatever the service does. *)
Lemma forwarding_ends_with_lag :
  exists g, reach g /\ forwarding g /\ (16 < outstanding g)%nat
    /\ w_running (g_window (after_turn g)) = false
    /\ w_emitted (g_window (stops 3 (after_turn g))) = [].
Proof.
  exists (stops 17 (after_turn new_gui)). split; [by apply stops_reach; [apply GTurn, GNew | |] |].
  vm_compute. repeat split; (lia || discriminate).
Qed.

(** Sixteen are caught up with, by as many turns. *)
Example sixteen_caught_up :
  length (w_emitted (g_window (turns 16 (stops 16 (after_turn new_gui))))) = 16%nat.
Proof. reflexivity. Qed.
End Demo.
