(* ===== verification/D3d.v ===== *)
(** The creation of the Direct3D device, call by call
    ([crates/penflow-core/src/d3d11.rs]): the device itself, the protection
    that Media Foundation's threads need, and the priorities that are asked for
    and not insisted on.  [Facade] takes the same step as one with a given
    outcome; the two are shown to agree. *)
From stdpp Require Import list strings.
From S2P Require Import Prelude Engine Calls Text Monitors Facade.

(** Feature level 11_1 or 11_0, as the header numbers them. *)
Definition FEATURE_LEVELS : list Z := [0xb100; 0xb000].

Definition D3DKMT_SCHEDULINGPRIORITYCLASS_HIGH : Z := 4.

(** The calls, with the arguments that the code chooses.  The creation fails
    also when it gives no device or no context. *)
Inductive DeviceCall :=
| D3D11CreateDevice (bgra video : bool) (levels : list Z)
| CastMultithread
| SetMultithreadProtected
| CastDxgiDevice1
| SetMaximumFrameLatency (frames : Z)
| CastDxgiDevice
| SetGPUThreadPriority (priority : Z)
| GetModuleHandle
| GetProcAddress
| SetProcessSchedulingPriorityClass (priority : Z).

#[export] Instance DeviceCall_eq_dec : EqDecision DeviceCall.
Proof. solve_decision. Defined.

Section Device.
Context (answer : CallLog DeviceCall -> DeviceCall -> EngineResult unit).

(** [if let Ok(..) = first { let _ = second; }], and the [let else] of
    [set_d3dkmt_process_priority]. *)
Definition when_ok {A} (first : DeviceCall) (second : Calls DeviceCall A) : Calls DeviceCall unit :=
  r ← attempt answer first;
  match r with Ok _ => _ ← second; mret tt | Err _ => mret tt end.

Definition set_d3dkmt_process_priority (priority : Z) : Calls DeviceCall unit :=
  when_ok GetModuleHandle
    (when_ok GetProcAddress (attempt answer (SetProcessSchedulingPriorityClass priority))).

(** [D3d11Context::create_on_adapter]. *)
Definition make_device : Calls DeviceCall unit :=
  call answer (D3D11CreateDevice true true FEATURE_LEVELS);;
  call answer CastMultithread;;
  act SetMultithreadProtected;;
  when_ok CastDxgiDevice1 (attempt answer (SetMaximumFrameLatency 1));;
  when_ok CastDxgiDevice (attempt answer (SetGPUThreadPriority 7));;
  set_d3dkmt_process_priority D3DKMT_SCHEDULINGPRIORITYCLASS_HIGH.

Definition create_on_adapter_calls (adapter : Adapter) : Calls DeviceCall D3d11Context :=
  desc ← calls_lift (win (adp_desc adapter));
  make_device;;
  mret {| ctx_adapter := adapter; ctx_adapter_luid := luid_of desc; ctx_adapter_vendor_id := ad_vendor_id desc |}.

(** [create_dxgi_factory] and [EnumAdapterByGpuPreference]. *)
Definition create_high_perf (factory : EngineResult (result Z Adapter)) : Calls DeviceCall D3d11Context :=
  preferred ← calls_lift factory;
  match preferred with
  | Err _ => calls_lift (Err NoAdapter)
  | Ok adapter => create_on_adapter_calls adapter
  end.

(** [high_perf_context_creates]: the name that the context keeps is not empty,
    nor are LUID and vendor zero. *)
Definition high_perf_context_creates (factory : EngineResult (result Z Adapter)) : Calls DeviceCall bool :=
  r ← calls_try (create_high_perf factory);
  mret match r with
       | Err _ => false
       | Ok ctx =>
           match adp_desc (ctx_adapter ctx) with
           | Ok desc => negb (bool_decide (trim_nul (ad_description desc) = EmptyString))
           | Err _ => false
           end
           && negb (ctx_adapter_luid ctx =? 0) && negb (ctx_adapter_vendor_id ctx =? 0)
       end.

(** * What is insisted on *)

(** The calls that may fail without consequence. *)
Definition wished (c : DeviceCall) : bool :=
  match c with D3D11CreateDevice _ _ _ | CastMultithread => false | _ => true end.

(** What the two other calls answer. *)
Definition required (log : CallLog DeviceCall) : EngineResult unit :=
  let create := D3D11CreateDevice true true FEATURE_LEVELS in
  _ ← answer log create;
  answer (log ++ [(create, Ok tt)]) CastMultithread.

(** A program that returns and only adds wished calls. *)
Definition wishes (m : Calls DeviceCall unit) : Prop :=
  forall log, exists ext, m log = (Ok tt, log ++ ext) /\ Forall (fun x => wished x.1 = true) ext.

Lemma wishes_seq m k : wishes m -> wishes k -> wishes (m;; k).
Proof.
  intros Hm Hk log. destruct (Hm log) as (e1 & E1 & F1). destruct (Hk (log ++ e1)) as (e2 & E2 & F2).
  exists (e1 ++ e2). rewrite (calls_bind_ok _ _ _ _ _ E1), E2, app_assoc. split; [done | by apply Forall_app_2].
Qed.

Lemma wishes_attempt c : wished c = true -> wishes (_ ← attempt answer c; mret tt).
Proof. intros Hc log. exists [(c, answer log c)]. split; [done |]. by constructor. Qed.

Lemma wishes_act c : wished c = true -> wishes (act c).
Proof. intros Hc log. exists [(c, Ok tt)]. split; [done |]. by constructor. Qed.

Lemma wishes_when_ok {A} c (m : Calls DeviceCall A) : wished c = true -> wishes (_ ← m; mret tt) -> wishes (when_ok c m).
Proof.
  intros Hc Hm log. unfold when_ok. rewrite (calls_bind_ok (attempt answer c) _ log _ _ eq_refl).
  destruct (answer log c) as [[]|e] eqn:Ea.
  - destruct (Hm (log ++ [(c, Ok tt)])) as (ext & E & F). exists ((c, Ok tt) :: ext).
    rewrite E, <- app_assoc. split; [done |]. by constructor.
  - exists [(c, Err e)]. split; [done |]. by constructor.
Qed.

Lemma wishes_ignored m : wishes m -> wishes (_ ← m; mret tt).
Proof. intros Hm log. destruct (Hm log) as (ext & E & F). exists ext. by rewrite (calls_bind_ok _ _ _ _ _ E). Qed.

Lemma priority_wished n : wishes (set_d3dkmt_process_priority n).
Proof. apply wishes_when_ok; [done |]. by apply wishes_ignored, wishes_when_ok, wishes_attempt. Qed.

(** The device comes up exactly when its creation and the cast do, whatever
    becomes of the wishes; the protection is always set before anybody can use
    it, and nothing is asked for before the device exists. *)
Lemma make_device_exact log : exists ext,
  make_device log = (required log, log ++ ext)
  /\ match required log with
     | Ok _ => exists rest, ext = [(D3D11CreateDevice true true FEATURE_LEVELS, Ok tt); (CastMultithread, Ok tt);
                                     (SetMultithreadProtected, Ok tt)] ++ rest
                 /\ Forall (fun x => wished x.1 = true) rest
     | Err e => exists pre c, ext = pre ++ [(c, Err e)] /\ wished c = false
     end.
Proof.
  unfold make_device, required. set (create := D3D11CreateDevice true true FEATURE_LEVELS).
  destruct (answer log create) as [[]|e] eqn:E1.
  2: { exists [(create, Err e)]. split; [unfold mbind, Calls_bind, call; by rewrite E1 | by exists [], create]. }
  rewrite (calls_bind_ok _ _ log tt (log ++ [(create, Ok tt)])) by (unfold call; by rewrite E1).
  cbn [mbind result_bind]. destruct (answer (log ++ [(create, Ok tt)]) CastMultithread) as [[]|e] eqn:E2.
  2: { exists [(create, Ok tt); (CastMultithread, Err e)]. split; [| by exists [(create, Ok tt)], CastMultithread].
       unfold mbind, Calls_bind, call. rewrite E2. by rewrite <- app_assoc. }
  rewrite (calls_bind_ok _ _ _ tt ((log ++ [(create, Ok tt)]) ++ [(CastMultithread, Ok tt)])) by (unfold call; by rewrite E2).
  rewrite (calls_bind_ok (act SetMultithreadProtected) _ _ tt _ eq_refl).
  destruct (wishes_seq _ _ (wishes_when_ok CastDxgiDevice1 _ eq_refl (wishes_attempt (SetMaximumFrameLatency 1) eq_refl))
    (wishes_seq _ _ (wishes_when_ok CastDxgiDevice _ eq_refl (wishes_attempt (SetGPUThreadPriority 7) eq_refl))
      (priority_wished D3DKMT_SCHEDULINGPRIORITYCLASS_HIGH))
    (((log ++ [(create, Ok tt)]) ++ [(CastMultithread, Ok tt)]) ++ [(SetMultithreadProtected, Ok tt)])) as (ext & E & F).
  rewrite E. exists ([(create, Ok tt); (CastMultithread, Ok tt); (SetMultithreadProtected, Ok tt)] ++ ext).
  split; [by rewrite <- !app_assoc |]. by exists ext.
Qed.

(** Call by call, the device is created as [Facade] has it, with the outcome
    of the two calls that must succeed. *)
Theorem create_on_adapter_refines adapter log :
  (create_on_adapter_calls adapter log).1 = create_on_adapter adapter (required log).
Proof.
  unfold create_on_adapter_calls, create_on_adapter. destruct (adp_desc adapter) as [desc|hr]; [| done].
  cbn [win mbind result_bind]. rewrite (calls_bind_ok _ _ log desc log eq_refl).
  destruct (make_device_exact log) as (ext & E & _). destruct (required log) as [[]|e].
  - by rewrite (calls_bind_ok _ _ _ _ _ E).
  - by rewrite (calls_bind_err _ _ _ _ _ E).
Qed.

(** The convenience constructor reports a machine without adapters as such,
    whatever the system called it. *)
Theorem create_high_perf_exact factory log :
  (create_high_perf factory log).1 =
    match factory with
    | Err e => Err e
    | Ok (Err _) => Err NoAdapter
    | Ok (Ok adapter) => create_on_adapter adapter (required log)
    end.
Proof. destruct factory as [[adapter|hr]|e]; [| done..]. apply create_on_adapter_refines. Qed.

(** The test passes on every machine with a named, numbered adapter that
    gives a device. *)
Theorem high_perf_test_exact adapter desc log : adp_desc adapter = Ok desc ->
  (high_perf_context_creates (Ok (Ok adapter)) log).1 =
    Ok (is_ok (required log) && (negb (bool_decide (trim_nul (ad_description desc) = EmptyString))
        && negb (luid_of desc =? 0) && negb (ad_vendor_id desc =? 0))).
Proof.
  intros Hd. pose proof (create_high_perf_exact (Ok (Ok adapter)) log) as H. cbn in H.
  unfold high_perf_context_creates, calls_try, mbind, Calls_bind in *.
  destruct (create_high_perf (Ok (Ok adapter)) log) as [r log']. cbn [fst] in H. subst r. cbn [mret Calls_ret fst].
  unfold create_on_adapter. rewrite Hd. cbn. destruct (required log) as [[]|e]; [| done].
  cbn. by rewrite Hd.
Qed.
End Device.

(** A device with every wish refused is a device. *)
Example wishes_refused :
  let answer := fun _ c => if wished c then Err (Win32 5) else Ok tt in
  let adapter := {| adp_desc := Ok demo_adapter; adp_outputs := fun _ => Err 2 |} in
  (create_high_perf answer (Ok (Ok adapter)) []).1 = create_on_adapter adapter (Ok tt)
  /\ length (create_high_perf answer (Ok (Ok adapter)) []).2 = 6%nat.
Proof. split; reflexivity. Qed.
