(* ===== verification/Transport.v ===== *)
(** The abstraction over the connection to the tablet
    ([crates/penflow-transport/src/lib.rs]): the trait [Transport] as a type
    class with the laws that its clients rely on, the tunnel of [Adb] as its
    implementation, and the trivial one of the crate's test. *)
From stdpp Require Import list gmap strings.
From S2P Require Import Prelude Adb.

(** * The trait *)

Inductive IoError := ShutDown | ConnectionFailed.

(** What the code uses of [AsyncRead] and [AsyncWrite]: a read into a buffer of
    the given size, with nothing at the end of the stream, and [write_all]. *)
Class AsyncRead (R : Type) := read : nat -> R -> result IoError (list Z * R).

Class AsyncWrite (W : Type) := write_all : list Z -> W -> result IoError W.

Record TransportStream (R W : Type) := { reader : R; writer : W; peer_label : string }.
Arguments reader {R W} _.
Arguments writer {R W} _.
Arguments peer_label {R W} _.

(** [Sys] is the system that the transport works on; [None]: the call waits for
    ever, or for as long as nothing else happens. *)
Class Transport (T Sys R W : Type) := {
  accept : T -> Sys -> option (result IoError (TransportStream R W) * (T * Sys));
  shutdown : T -> Sys -> option (result IoError unit * (T * Sys));
}.
#[global] Hint Mode Transport ! - - - : typeclass_instances.

(** Between two calls a transport is [idle]: an [accept] that returned leaves it
    so, and then it can be shut down, without an error, once. *)
Class TransportLaws (T Sys R W : Type) `{!Transport T Sys R W} := {
  idle : T -> Prop;
  accept_idle t s r t' s' : idle t -> accept t s = Some (r, (t', s')) -> idle t';
  shutdown_idle t s : idle t ->
    exists t' s', shutdown t s = Some (Ok tt, (t', s')) /\ idle t' /\ shutdown t' s' = Some (Ok tt, (t', s'));
}.

(** * A client *)

Section Client.
Context {T Sys R W : Type} `{!Transport T Sys R W, !TransportLaws T Sys R W}.

(** A client takes at most [n] connections, up to the first error. *)
Fixpoint accept_many (n : nat) (t : T) (s : Sys) : option (list (TransportStream R W) * (T * Sys)) :=
  match n with
  | O => Some ([], (t, s))
  | S n =>
      '(r, (t, s)) ← accept t s;
      match r with
      | Err _ => Some ([], (t, s))
      | Ok stream => '(streams, w) ← accept_many n t s; Some (stream :: streams, w)
      end
  end.

(** However many connections it took, a client that is between two calls can
    give the transport back, and shutting down again changes nothing. *)
Theorem client_can_shut_down n : forall t s streams t1 s1, idle t ->
  accept_many n t s = Some (streams, (t1, s1)) ->
  exists t2 s2, shutdown t1 s1 = Some (Ok tt, (t2, s2)) /\ shutdown t2 s2 = Some (Ok tt, (t2, s2)).
Proof.
  induction n as [|n IH]; intros t s streams t1 s1 Hi E; cbn in E.
  - injection E as <- <- <-. destruct (shutdown_idle t s Hi) as (t2 & s2 & E1 & _ & E2). eauto.
  - destruct (accept t s) as [[r [t0 s0]]|] eqn:Ea; [| done]. apply (accept_idle _ _ _ _ _ Hi) in Ea. cbn in E.
    destruct r as [stream|e].
    + destruct (accept_many n t0 s0) as [[ss w]|] eqn:En; [| done]. injection E as <- ->. by eapply IH.
    + injection E as <- <- <-. destruct (shutdown_idle t0 s0 Ea) as (t2 & s2 & E1 & _ & E2). eauto.
Qed.
End Client.

(** * The tunnel *)

Section Tunnel.
Context {R W D : Type} `{!Adb D, !AdbLaws D}.
(** Whether the wait for the removal runs out of its time; a call that its
    caller drops does not return. *)
Context (slow : bool).

Definition own_timer : Timer := if slow then OwnFires else NoneFires.

(** The connections that reach the listener, with the address of the peer, and
    the device behind adb. *)
Record TunnelSys := { incoming : list (result IoError (string * R * W)); device : Device D }.

#[export] Instance adb_transport : Transport AdbLocalAbstractTransport TunnelSys R W := {
  accept t s :=
    match accept_begin t with
    | None => None
    | Some (Err _) => Some (Err ShutDown, (t, s))
    | Some (Ok held) =>
        match incoming s with
        | [] => None
        | c :: rest =>
            let s := {| incoming := rest; device := device s |} in
            let r := '(peer, r, w) ← c; Ok {| reader := r; writer := w; peer_label := String.append "adb:" peer |} in
            Some (r, (accept_end held, s))
        end
    end;
  shutdown t s :=
    '(t, d) ← Adb.shutdown own_timer t (device s);
    Some (Ok tt, (t, {| incoming := incoming s; device := d |}));
}.

#[export, refine] Instance adb_laws : TransportLaws AdbLocalAbstractTransport TunnelSys R W :=
  {| idle t := listener_held t = false |}.
Proof.
  - intros t s r t' s' Hi. cbn. unfold accept_begin. rewrite Hi. destruct (listener t); [| by intros [= _ <- _]].
    destruct (incoming s); [done |]. by intros [= _ <- _].
  - intros t [cs d] Hi. cbn. destruct (reverse_active t) eqn:Ha.
    + destruct (shutdown_active own_timer t d Hi Ha) as (t' & d' & E & H). rewrite E. cbn.
      destruct H as (_ & _ & Hh & _ & Hr & _). eexists _, _. split_and!; [reflexivity | exact Hh |].
      assert (Hr' : reverse_active t' = false) by (rewrite Hr; unfold own_timer; by destruct slow).
      assert (Et : t' = shut false t').
      { revert E Hr'. unfold Adb.shutdown. rewrite Hi, Ha. unfold own_timer.
        destruct slow; [by intros [= <- _] |]. destruct (run_adb _ d) as [[r|] d0]; by intros [= <- _]. }
      unfold Adb.shutdown. rewrite Hh, Hr'. cbn. by rewrite <- Et.
    + unfold Adb.shutdown. rewrite Hi, Ha. eexists _, _. split_and!; [reflexivity | done |]. done.
Defined.

(** A tunnel that was bound can be used and shut down by any client, and its
    rule is then removed, if adb removes it in time; while it waits for a connection
    it cannot ([Adb.shutdown_cannot_unblock_accept]). *)
Theorem bound_tunnel_shuts_down tcp_bind name cs d0 t d :
  bind_with_adb tcp_bind name d0 = (Some (Ok t), d) ->
  idle t /\ exists t' s', shutdown t {| incoming := cs; device := d |} = Some (Ok tt, (t', s'))
    /\ accept t' s' = Some (Err ShutDown, (t', s'))
    /\ incoming s' = cs
    /\ calls (device s') = calls d ++ [ReverseRemove name]
    /\ (slow = false -> forall v, adb_run (ReverseRemove name) (dev d) = (Some (Ok tt), v) -> rule name (dev (device s')) = None).
Proof.
  intros E. pose proof (bind_rules tcp_bind name d0) as H. rewrite E in H.
  destruct H as (_ & _ & _ & Hn & Ha & Hh & _). split; [exact Hh |]. cbn.
  destruct (shutdown_active own_timer t d Hh Ha) as (t' & d' & Es & H). rewrite Es. subst name. cbn.
  destruct H as (Hacc & _ & _ & Hc & _ & H). eexists _, _. split; [reflexivity |]. cbn. rewrite Hacc. split_and!; try done.
  intros Hs v Hv. assert (Et : own_timer = NoneFires) by (unfold own_timer; by rewrite Hs).
  revert Es. unfold Adb.shutdown, run_adb. rewrite Et, Hh, Ha, Hv. intros [= _ <-]. cbn.
  by eapply adb_removes.
Qed.
End Tunnel.

(** * The test *)

Inductive NullTransport := Null.

(** tokio's [empty] and [sink]. *)
Inductive Empty := empty.
Inductive Sink := sink.

#[export] Instance empty_read : AsyncRead Empty := fun _ r => Ok ([], r).
#[export] Instance sink_write : AsyncWrite Sink := fun _ w => Ok w.

#[export] Instance null_transport : Transport NullTransport unit Empty Sink := {
  accept t s := Some (Ok {| reader := empty; writer := sink; peer_label := "null" |}, (t, s));
  shutdown t s := Some (Ok tt, (t, s));
}.

#[export, refine] Instance null_laws : TransportLaws NullTransport unit Empty Sink := {| idle _ := True |}.
Proof. - by intros. - intros t s _. by exists t, s. Defined.

(** [trait_is_dyn_dispatchable_and_stream_round_trips], over any transport: [true]
    when no [expect] or [assert] fails. *)
Definition trait_is_dyn_dispatchable_and_stream_round_trips {T Sys R W} `{!Transport T Sys R W, !AsyncRead R, !AsyncWrite W}
    (t : T) (s : Sys) : option bool :=
  '(r, (t, s)) ← accept t s;
  match r with
  | Err _ => Some false
  | Ok stream =>
      if bool_decide (peer_label stream = "null"%string) then
        match write_all [104; 101; 108; 108; 111] (writer stream), read 8 (reader stream) with
        | Ok _, Ok (bytes, _) =>
            if Nat.eqb (length bytes) 0 then
              '(r, _) ← shutdown t s;
              Some (is_ok r)
            else Some false
        | _, _ => Some false
        end
      else Some false
  end.

Example null_round_trip : trait_is_dyn_dispatchable_and_stream_round_trips Null tt = Some true.
Proof. reflexivity. Qed.
