(* ===== verification/Bundled.v ===== *)
(** The programs that the installer lays beside the executable, and how they are
    found: adb ([bundled_or_path_adb] of [service.rs]) and devcon
    ([bundled_devcon_path] of [penflow-server/src/vdd.rs]); with the shim
    resolution of [Adb], which program the tunnel runs in the end. *)
From stdpp Require Import list strings.
From S2P Require Import Prelude Text Adb.

(** [Path::parent] of the path of a file, up to the separator at its end, which
    [join_path] would put there: [None] when there is no file name. *)
Definition parent (path : Str) : option Str :=
  match last_component (reverse path) with
  | ([], _) => None
  | (_, dir) => Some (reverse dir)
  end.

Section Bundled.
Context (current_exe : option Str) (is_file : Str -> bool).

(** The file [name] of the directory [sub] beside the executable. *)
Definition beside (sub name : Str) : option Str :=
  exe ← current_exe;
  dir ← parent exe;
  Some (join_path (join_path dir sub) name).

Definition bundled_or_path_adb : Str :=
  match beside (lit "adb") (lit "adb.exe") with
  | Some bundled => if is_file bundled then bundled else lit "adb"
  | None => lit "adb"
  end.

Definition bundled_devcon_path : option Str :=
  candidate ← beside (lit "vdd") (lit "devcon.exe");
  if is_file candidate then Some candidate else None.

(** ** Paths *)

Lemma join_path_file dir name : exists pre, join_path dir name = pre ++ name
  /\ (pre = [] \/ exists p c, pre = p ++ [c] /\ is_separator c = true).
Proof.
  unfold join_path. destruct (reverse dir) as [|c r] eqn:E; [exists []; by auto |].
  assert (dir = reverse r ++ [c]) as -> by (rewrite <- (reverse_involutive dir), E, reverse_cons; done).
  destruct (is_separator c) eqn:Es.
  - exists (reverse r ++ [c]). split; [done |]. right. eauto.
  - exists ((reverse r ++ [c]) ++ [BACKSLASH]). rewrite <- !app_assoc. split; [done |]. right.
    exists (reverse r ++ [c]), BACKSLASH. by rewrite <- app_assoc.
Qed.

(** Joining to a directory that has a name puts a separator before the file. *)
Lemma beside_shape sub name p : sub <> [] -> existsb is_separator sub = false -> beside sub name = Some p ->
  exists pre c, p = pre ++ [c] ++ name /\ is_separator c = true.
Proof.
  intros Hs Hn. unfold beside. destruct current_exe as [exe|]; [| done]. cbn [mbind option_bind].
  destruct (parent exe) as [dir|]; [| done]. cbn [mbind option_bind]. intros [= <-].
  destruct (join_path_file dir sub) as (pre & -> & _). unfold join_path.
  destruct (reverse (pre ++ sub)) as [|c r] eqn:E.
  { apply (f_equal length) in E. rewrite length_reverse, length_app in E. destruct sub; [done | cbn in E; lia]. }
  destruct (is_separator c) eqn:Ec.
  - exfalso. rewrite reverse_app in E. destruct (reverse sub) as [|x l] eqn:El.
    + apply (f_equal length) in El. rewrite length_reverse in El. by destruct sub.
    + cbn in E. injection E as -> _.
      assert (c ∈ sub) as Hin by (apply elem_of_reverse; rewrite El; by left).
      apply list_elem_of_In in Hin. assert (existsb is_separator sub = true) as Ht by (apply existsb_exists; eauto).
      by rewrite Ht in Hn.
  - exists (pre ++ sub), BACKSLASH. by split.
Qed.

Lemma last_component_name name c r : existsb is_separator name = false -> is_separator c = true ->
  last_component (name ++ c :: r) = (name, c :: r).
Proof.
  intros Hn Hc. induction name as [|x name IH]; cbn [app last_component]; [by rewrite Hc |].
  cbn [existsb] in Hn. apply orb_false_iff in Hn as (-> & Hn). by rewrite IH.
Qed.

Lemma adb_shim pre c : is_separator c = true ->
  with_extension (pre ++ [c] ++ lit "adb.exe") (lit "shim") = pre ++ [c] ++ lit "adb.shim".
Proof.
  intros Hc. unfold with_extension. rewrite !reverse_app, <- app_assoc.
  replace (drop_separators _) with (reverse (lit "adb.exe") ++ c :: reverse pre) by reflexivity.
  rewrite last_component_name by done. rewrite bool_decide_eq_false_2 by (vm_compute; by intros [|]).
  rewrite reverse_cons, reverse_involutive. vm_compute (rev_stem _). vm_compute (lit "adb.shim").
  by rewrite <- app_assoc.
Qed.

(** ** Which adb runs *)

(** The adb beside the executable is run, whatever the path holds, unless a
    shim lies next to it; without it the name is left to the path.  In every
    case what is run is the plain name or a file that exists. *)
Theorem adb_that_runs PATH read_to_string :
  let runs := resolve_through_shim PATH is_file read_to_string bundled_or_path_adb in
  (forall bundled, beside (lit "adb") (lit "adb.exe") = Some bundled -> is_file bundled = true ->
     (forall pre, bundled = pre ++ lit "adb.exe" -> is_file (pre ++ lit "adb.shim") = false) -> runs = bundled)
  /\ (bundled_or_path_adb = lit "adb" -> candidate PATH is_file (lit "adb") = None -> runs = lit "adb")
  /\ (runs = lit "adb" \/ is_file runs = true).
Proof.
  cbn zeta. split_and!.
  - intros bundled Hb Hf Hs. unfold bundled_or_path_adb. rewrite Hb, Hf.
    destruct (beside_shape (lit "adb") _ _ ltac:(discriminate) eq_refl Hb) as (pre & c & -> & Hc).
    unfold resolve_through_shim, candidate.
    replace (existsb is_separator (pre ++ [c] ++ lit "adb.exe")) with true
      by (symmetry; rewrite !existsb_app; cbn [existsb]; rewrite Hc; by rewrite !orb_true_r).
    rewrite adb_shim by done. rewrite app_assoc in Hs |- *. by rewrite (Hs (pre ++ [c]) eq_refl).
  - intros -> Hc. unfold resolve_through_shim. by rewrite Hc.
  - assert (bundled_or_path_adb = lit "adb" \/ is_file bundled_or_path_adb = true) as H.
    { unfold bundled_or_path_adb. destruct (beside _ _) as [b|]; [| by left]. destruct (is_file b) eqn:E; auto. }
    unfold resolve_through_shim. destruct (candidate PATH is_file bundled_or_path_adb) as [c|] eqn:Ec; [| exact H].
    apply candidate_file in Ec. assert (c = lit "adb" \/ is_file c = true) as Hc by (destruct Ec as [-> |]; auto).
    destruct (is_file (with_extension c _)); [| exact Hc]. destruct (read_to_string _) as [content|]; [| exact Hc].
    destruct (first_target is_file (lines content)) as [t|] eqn:Et; cbn [default from_option id]; [| exact Hc].
    right. by eapply first_target_usable.
Qed.

(** devcon is only ever run from beside the executable, as a file. *)
Lemma devcon_is_bundled p : bundled_devcon_path = Some p ->
  is_file p = true /\ exists pre, p = pre ++ lit "devcon.exe".
Proof.
  unfold bundled_devcon_path. destruct (beside _ _) as [b|] eqn:Hb; [| done]. cbn [mbind option_bind].
  destruct (is_file b) eqn:Ef; [| done]. intros [= <-]. split; [done |].
  destruct (beside_shape (lit "vdd") _ _ ltac:(discriminate) eq_refl Hb) as (pre & c & -> & _). exists (pre ++ [c]). by rewrite <- app_assoc.
Qed.
End Bundled.

Example installed_adb :
  let exe := lit "C:\Program Files\Penflow\penflow-gui.exe" in
  let adb := lit "C:\Program Files\Penflow\adb\adb.exe" in
  let is_file p := bool_decide (p = adb) in
  bundled_or_path_adb (Some exe) is_file = adb
  /\ resolve_through_shim None is_file (fun _ => None) adb = adb
  /\ bundled_or_path_adb (Some exe) (fun _ => false) = lit "adb"
  /\ bundled_devcon_path (Some exe) (fun _ => true) = Some (lit "C:\Program Files\Penflow\vdd\devcon.exe").
Proof. vm_compute. auto. Qed.
