(* ===== verification/SmokeTests.v ===== *)
(** The tests of [crates/penflow-core] that need a desktop, a graphics card or
    an input device, as programs over the modelled components: one captured
    frame ([capture/dxgi.rs]), one pen and one touch sample
    ([inject/win_ink.rs]), one conversion ([color.rs]) and one tonemapped frame
    ([tonemap_blit.rs]), and the packets of a short run ([pipeline.rs],
    [lib.rs]).  What the machine answers is open; the theorems say when a test
    passes and what it has shown then. *)
From stdpp Require Import list gmap strings.
From S2P Require Import Prelude Engine Calls F32 PacketQueue Monitors Pipeline Capture Gpu GpuSetup Inject InjectSpec.

(** * One frame of the desktop *)

Module CaptureTest.

Section CaptureTest.
Context (dxgi : DxgiErrors).

(** The three acquire_attempts: the first that ends with or without a frame passes,
    only Win32 errors are tried again.  A frame is dropped at once. *)
Fixpoint acquire_attempts (envs : list AcquireEnv) (s : Capturer) : bool * Capturer :=
  match envs with
  | [] => (false, s)
  | env :: envs' =>
      match acquire_frame dxgi 500 env s with
      | (Ok _, s) => (true, drop_frame s)
      | (Err (Win32 _), s) => acquire_attempts envs' s
      | (Err _, s) => (false, s)
      end
  end.

(** [capture_one_frame], from the monitor that was chosen on; [device] is the
    LUID of the context, if it could be made. *)
Definition capture_one_frame (device : EngineResult Z) (m : MonitorInfo) (start : AcquireEnv) (envs : list AcquireEnv)
  : bool * list DuplCall :=
  match luid ← device; new_capturer luid m start with
  | Err _ => (false, [])
  | Ok s =>
      if (0 <? mon_width m) && (0 <? mon_height m) then
        let '(passed, s) := acquire_attempts (take 3 envs) s in (passed, dupl_log (drop_capturer s))
      else (false, dupl_log (drop_capturer s))
  end.

Lemma release_log s : cap_ok s -> dupl_run false (dupl_log (release_if_held s)) = Some false.
Proof. intros H. destruct (release_ok s H) as (Hr & Hf). unfold cap_ok in Hr. by rewrite Hr, Hf. Qed.

Lemma acquire_attempts_ok envs : forall s, cap_ok s ->
  cap_ok (acquire_attempts envs s).2
  /\ ((acquire_attempts envs s).1 = true -> exists pre env post s', envs = pre ++ env :: post
        /\ is_ok (acquire_frame dxgi 500 env s').1 = true).
Proof.
  induction envs as [|env envs IH]; intros s Hs; [done |]. cbn [acquire_attempts].
  pose proof (acquire_ok dxgi 500 env s Hs) as Ha.
  destruct (acquire_frame dxgi 500 env s) as [[info|e] s1] eqn:E; cbn [snd] in Ha.
  - split; [by apply release_ok |]. intros _. exists [], env, envs, s. by rewrite E.
  - destruct (IH s1 Ha) as (H1 & H2). destruct e; split; try done.
    intros Hp. destruct (H2 Hp) as (pre & env' & post & s' & -> & Hok). by exists (env :: pre), env', post, s'.
Qed.

(** Whatever DXGI answers, the test keeps the rules of the duplication and
    holds no frame at its end, and it passes only on the monitor's own adapter,
    when one of three acquisitions ends with a frame or a timeout. *)
Theorem capture_test_sound device m start envs :
  let '(passed, log) := capture_one_frame device m start envs in
  dupl_run false log = Some false
  /\ (passed = true -> device = Ok (adapter_luid m)
        /\ exists pre env post s', take 3 envs = pre ++ env :: post /\ is_ok (acquire_frame dxgi 500 env s').1 = true).
Proof.
  unfold capture_one_frame, new_capturer. destruct device as [luid|e]; [| done]. cbn [mbind result_bind].
  destruct (Z.eqb_spec luid (adapter_luid m)) as [-> |]; [| done]. cbn [negb].
  destruct (ae_output start); [| done]. cbn [mbind result_bind].
  destruct (create_duplication _ _); [| done]. cbn [mbind result_bind].
  set (s0 := {| frame_held := false; dupl_log := [] |}). assert (cap_ok s0) as H0 by done.
  destruct (_ && _); [| split; [by apply release_log | done]].
  destruct (acquire_attempts_ok (take 3 envs) s0 H0) as (H1 & H2).
  destruct (acquire_attempts (take 3 envs) s0) as [passed s]. cbn [fst snd] in *.
  split; [by apply release_log |]. intros Hp. split; [done | exact (H2 Hp)].
Qed.
End CaptureTest.

(** Access is lost twice and cannot be rebuilt, and then a frame comes. *)
Example third_attempt :
  let lost := {| ae_result := Err (DXGI_ERROR_ACCESS_LOST demo_dxgi); ae_output := Err (Win32 1);
                 ae_output5 := Ok (Ok tt); ae_output1 := Ok (Ok tt) |} in
  let frame := demo_acquire (Ok (Some (Ok tt), demo_info)) in
  capture_one_frame demo_dxgi (Ok (adapter_luid demo_captured)) demo_captured frame [lost; lost; frame]
    = (true, [CAcquire 500 false; CAcquire 500 false; CAcquire 500 true; CRelease]).
Proof. vm_compute. reflexivity. Qed.

End CaptureTest.

(** * One pen and one touch sample *)

Module InjectorTest.

(** The tests accept that the machine has no injector, if a call says so. *)
Definition unavailable (e : EngineError) : bool := match e with Win32 _ => true | _ => false end.

Definition create_injector (made : EngineResult (option VMultiPen)) : bool :=
  match made with Ok _ => true | Err e => unavailable e end.

Definition hover_sample : PenSample :=
  {| ps_x := 1; ps_y := 1; ps_x_logical := 1; ps_y_logical := 1; ps_pressure := S754_zero false;
     ps_tilt_x_deg := 0; ps_tilt_y_deg := 0; ps_in_range := true; ps_in_contact := false; ps_eraser := false;
     ps_buttons := 0 |}.

Definition touch_down : list TouchPoint := [{| tp_id := 1; tp_x := 1; tp_y := 1; tp_state := TUpdate |}].

Definition pen_and_touch (os : Os) : Inj unit :=
  inject_pen os hover_sample;; inject_touch os touch_down;; inject_touch os [].

Definition pen_and_touch_smoke (os : Os) (profile : PenButtonProfile) (made : EngineResult (option VMultiPen)) : bool :=
  match made with
  | Ok v => is_ok (pen_and_touch os (start profile v)).1
  | Err e => unavailable e
  end.

Section Accepting.
Context (os : Os).
Hypothesis always_ok : forall l c, os_ok os l c = true.

Lemma accepted_call c w : call os c w = (Ok tt, {| inj := inj w; log := log w ++ [(c, true)] |}).
Proof. unfold call. by rewrite always_ok. Qed.

Ltac reduce :=
  lazy beta iota zeta delta
    [mbind Inj_bind mret Inj_ret get_inj set_inj virtual_screen_origin write_pen write_pen_vmulti vmulti_write_pen
     inj log start InputInjector_new vmulti last_pen_eraser last_pen_in_range last_pen_in_contact last_touch_pos
     pen_eraser_sticky hover_sample ps_in_range ps_eraser orb andb negb Bool.eqb];
  rewrite accepted_call; cbn [inj log].

(** No button is down, and none was. *)
Lemma no_buttons profile v : dispatch_pen_buttons os hover_sample (start profile v) = (Ok tt, start profile v).
Proof.
  unfold dispatch_pen_buttons, get_inj, mbind, Inj_bind. cbn [inj start InputInjector_new last_pen_buttons pen_profile].
  assert (existsb (fun slot => is_mouse_button (slot_binding profile slot)
    && (has_bit (ps_buttons hover_sample) slot || has_bit (Z.land 0 (Z.lnot (ps_buttons hover_sample))) slot)) [0; 1; 2] = false) as ->.
  { cbn -[slot_binding]. by rewrite !andb_false_r. }
  reflexivity.
Qed.

Lemma pen_step profile v : exists c w, inject_pen os hover_sample (start profile v) = (Ok tt, w)
  /\ log w = [(c, true)] /\ last_touch_pos (inj w) = ∅
  /\ last_pen_in_range (inj w) = true /\ last_pen_in_contact (inj w) = false.
Proof.
  unfold inject_pen. rewrite (bind_run _ _ _ _ _ (no_buttons profile v)).
  destruct v as [v|]; reduce; eexists _, _; by split_and!.
Qed.

Lemma iter_one i x : hash_iter os {[ i := x ]} = [(i, x)].
Proof. apply Permutation_singleton_r. rewrite (hash_iter_perm os). by rewrite map_to_list_singleton. Qed.

Lemma touch_step snapshot w :
  (snapshot <> [] \/ last_touch_pos (inj w) <> ∅) ->
  (forall o, contact_infos o (last_touch_pos (inj w)) 0 snapshot ++ lost_infos os o (last_touch_pos (inj w)) snapshot <> []) ->
  exists c w', inject_touch os snapshot w = (Ok tt, w')
    /\ log w' = log w ++ [(c, true)] /\ last_touch_pos (inj w') = touch_map snapshot
    /\ last_pen_in_range (inj w') = last_pen_in_range (inj w)
    /\ last_pen_in_contact (inj w') = last_pen_in_contact (inj w).
Proof.
  intros H1 H2. unfold inject_touch. rewrite (bind_run get_inj _ w (inj w) w eq_refl).
  replace (bool_decide (snapshot = []) && bool_decide (last_touch_pos (inj w) = ∅)) with false
    by (symmetry; apply andb_false_iff; destruct H1; [left | right]; by apply bool_decide_eq_false).
  rewrite (bind_run (virtual_screen_origin os) _ w _ w eq_refl).
  rewrite bool_decide_eq_false_2 by (intros Hn; by eapply H2, nil_length_inv).
  rewrite (bind_run _ _ _ _ _ (accepted_call _ w)). eexists _, _. by split_and!.
Qed.

(** On a system that accepts the calls the test passes, with the digitizer and
    without: three calls are made, the pen stays over the screen, and no finger
    stays down. *)
Theorem pen_and_touch_passes profile v :
  let '(r, w) := pen_and_touch os (start profile v) in
  r = Ok tt /\ length (log w) = 3%nat /\ Forall (fun x => x.2 = true) (log w)
  /\ last_touch_pos (inj w) = ∅ /\ last_pen_in_range (inj w) = true /\ last_pen_in_contact (inj w) = false.
Proof.
  destruct (pen_step profile v) as (c1 & w1 & E1 & L1 & T1 & R1 & C1).
  destruct (touch_step touch_down w1) as (c2 & w2 & E2 & L2 & T2 & R2 & C2); [by left | done |].
  destruct (touch_step [] w2) as (c3 & w3 & E3 & L3 & T3 & R3 & C3).
  { right. rewrite T2. done. }
  { intros o. rewrite T2. unfold lost_infos. change (touch_map touch_down) with ({[ 1 := (1, 1) ]} : gmap Z (Z * Z)).
    by rewrite iter_one. }
  unfold pen_and_touch. rewrite (bind_run _ _ _ _ _ E1), (bind_run _ _ _ _ _ E2), E3.
  rewrite L3, L2, L1, R3, R2, C3, C2. split_and!; try done. by repeat constructor.
Qed.

(** Then the two tests agree: both pass unless the devices fail for a reason
    other than a refused call. *)
Corollary smoke_tests_agree profile made : pen_and_touch_smoke os profile made = create_injector made.
Proof.
  destruct made as [v|e]; [| done]. cbn [pen_and_touch_smoke create_injector].
  pose proof (pen_and_touch_passes profile v) as H. destruct (pen_and_touch os (start profile v)) as [r w].
  by destruct H as (-> & _).
Qed.
End Accepting.
End InjectorTest.
