(* ===== verification/RunTests.v ===== *)
(** The remaining tests of [crates/penflow-core] that need a graphics card: one
    conversion ([color.rs]), one tonemapped frame ([tonemap_blit.rs]), and the
    packets of a short run of the pipeline and of the engine ([pipeline.rs],
    [lib.rs]), as programs over the modelled components.  The theorems say what
    a run that passes has shown. *)
From stdpp Require Import list strings.
From S2P Require Import Prelude Engine Calls F32 PacketQueue Monitors Facade GpuSetup Gpu.

(** * One frame through the converters *)

Module GpuTest.

Section GpuTest.
Context (answer : CallLog SetupCall -> SetupCall -> EngineResult unit) (fmts : DxgiFormats).

(** [converter_processes_one_frame]; [device] is the outcome of
    [create_high_perf]. *)
Definition converter_processes_one_frame (device : EngineResult unit) : Calls SetupCall unit :=
  calls_lift device;;
  _ ← ColorConverter_new answer 256 144 60;
  create_bgra_keepalive_texture answer 256 144;;
  ColorConverter_convert answer.

Definition one_frame_calls : list SetupCall :=
  converter_calls 256 144 60
  ++ [CreateTexture2D FmtBgra8 256 144; CreateVideoProcessorInputView; VideoProcessorBlt; ReleaseInputView].

(** A run that passes made these calls, all of them accepted, and holds no view
    of its input; any other run stopped at the first call that was refused. *)
Theorem one_frame_exact log : exists ext,
  (converter_processes_one_frame (Ok tt) log).2 = log ++ ext
  /\ outcome strict one_frame_calls (converter_processes_one_frame (Ok tt) log).1 ext
  /\ ((converter_processes_one_frame (Ok tt) log).1 = Ok tt -> views_held ext = 0).
Proof.
  assert (runs strict (converter_processes_one_frame (Ok tt)) one_frame_calls) as H.
  { intros l. change (converter_processes_one_frame (Ok tt) l)
      with ((_ ← ColorConverter_new answer 256 144 60; create_bgra_keepalive_texture answer 256 144;;
             ColorConverter_convert answer) l).
    revert l. change (runs strict (_ ← ColorConverter_new answer 256 144 60;
      create_bgra_keepalive_texture answer 256 144;; ColorConverter_convert answer) one_frame_calls).
    unfold one_frame_calls, ColorConverter_new, create_bgra_keepalive_texture, ColorConverter_convert.
    cbn [Z.eqb orb]. eapply runs_conv; [runs | reflexivity]. }
  destruct (H log) as (ext & E & Ho). exists ext. split_and!; [done | done |].
  intros Hr. rewrite Hr in Ho. destruct Ho as (Hc & Hf). clear -Hc Hf.
  do 12 (destruct ext as [|[? []] ext]; [done | | by apply list.Forall_cons in Hf as (Hf & _)]; cbn in Hc;
         injection Hc as -> Hc; apply list.Forall_cons in Hf as (_ & Hf)).
  by destruct ext.
Qed.

(** What the blitter was given by the device. *)
Record BlitHandles := { bh_sampler : Handle; bh_rasterizer : Handle; bh_rtv : Handle; bh_buffer : Handle }.

Definition smoke_blitter (h : BlitHandles) (scale : f32) : TonemapBlitter :=
  {| tb_target_w := 256; tb_target_h := 144; tb_sampler := bh_sampler h; tb_rasterizer := bh_rasterizer h;
     tb_target_rtv := bh_rtv h; tb_constant_buffer := bh_buffer h; tb_scrgb_sdr_scale := scale |}.

(** The two smoke tests of the tonemap blitter, on an input of the format
    [fmt]; [texture], [map] and [view] are the outcomes of creating the input,
    of mapping the parameters, and of viewing the input. *)
Definition tonemap_smoke (fmt : Z) (device texture map view : EngineResult unit) (h : BlitHandles) (frame : Handle)
    (log : CallLog SetupCall) (g : Gpu) : bool * CallLog SetupCall * Gpu :=
  match (calls_lift device;; create_bgra_keepalive_texture answer 256 144;; TonemapBlitter_new answer) log with
  | (Err _, log) => (false, log, g)
  | (Ok scale, log) =>
      match texture with
      | Err _ => (false, log, g)
      | Ok _ => let '(r, g) := convert_gpu fmts (smoke_blitter h scale) map view frame fmt g in (is_ok r, log, g)
      end
  end.

Definition tonemap_smoke_scrgb := tonemap_smoke (DXGI_FORMAT_R16G16B16A16_FLOAT fmts).

Definition tonemap_smoke_hdr10 := tonemap_smoke (DXGI_FORMAT_R10G10B10A2_UNORM fmts).

(** A run that passes built the keepalive texture and the blitter and drew once:
    over the whole keepalive, in the colour space of the format, at scale one,
    and it left no source bound. *)
Theorem tonemap_smoke_sound fmt device texture map view h frame log g : source_free g ->
  let '(passed, log', g') := tonemap_smoke fmt device texture map view h frame log g in
  passed = true -> exists cs ext, input_color_space_for fmts fmt = Some cs
    /\ log' = log ++ ext /\ ext.*1 = CreateTexture2D FmtBgra8 256 144 :: tonemap_calls
    /\ (exists xs, g' = g ++ xs /\ draws g xs [tonemap_pass (smoke_blitter h f32_one) cs frame fmt])
    /\ source_free g'.
Proof.
  intros Hg. unfold tonemap_smoke. destruct device as [[]|e]; [| done].
  set (m := create_bgra_keepalive_texture answer 256 144;; TonemapBlitter_new answer).
  change ((calls_lift (Ok tt);; m) log) with (m log).
  assert (runs strict m (CreateTexture2D FmtBgra8 256 144 :: tonemap_calls)) as Hm.
  { unfold m, create_bgra_keepalive_texture, TonemapBlitter_new. eapply runs_conv; [runs | reflexivity]. }
  destruct (m log) as [[scale|e] log'] eqn:E; [| done].
  destruct (runs_ok strict _ _ _ _ _ Hm E) as (ext & -> & Hext).
  assert (scale = f32_one) as ->.
  { unfold m, TonemapBlitter_new in E.
    repeat (apply calls_bind_inv in E as (? & ? & _ & E)). by injection E. }
  destruct texture as [[]|e]; [| done].
  destruct (blit_exact fmts (BConvert (smoke_blitter h f32_one) map view frame fmt) g) as (H1 & H2 & H3).
  cbn [blit blit_result painted] in *. rewrite H1.
  destruct (input_color_space_for fmts fmt) as [cs|]; [| done].
  destruct map as [[]|], view as [[]|]; try done.
  intros _. exists cs, ext. split_and!; eauto.
Qed.
End GpuTest.

End GpuTest.

(** * The packets of a short run *)

Module PacketTest.

(** What the other threads do with the queue during one [pop_timeout]. *)
Definition Waits : Type := list (list (Op EncodedPacket)).

(** The loop of both tests, one element of [rounds] for every time that the
    deadline has not passed; it ends early after [enough] packets with a key
    frame among them (of the key frames the test of the pipeline only keeps
    whether there was one). *)
Fixpoint watch_packets (enough : nat) (rounds : list Waits) (packets keyframes : nat) (h : History (T := EncodedPacket))
  : nat * nat * History :=
  match rounds with
  | [] => (packets, keyframes, h)
  | waits :: rounds =>
      match pop_timeout waits h with
      | (Some pkt, h) =>
          let packets := S packets in
          let keyframes := if pkt_is_keyframe pkt then S keyframes else keyframes in
          if Nat.leb enough packets && Nat.leb 1 keyframes then (packets, keyframes, h)
          else watch_packets enough rounds packets keyframes h
      | (None, h) => watch_packets enough rounds packets keyframes h
      end
  end.

Definition new_history (capacity : nat) : History (T := EncodedPacket) :=
  {| queue := PacketQueue.new capacity; accepted := []; delivered := [] |}.

(** The two [assert!]s after the loop. *)
Definition asserted (r : nat * nat * History (T := EncodedPacket)) : bool :=
  Nat.leb 1 r.1.1 && Nat.leb 1 r.1.2.

Definition drives_desktop (m : MonitorInfo) : bool := attached_to_desktop m && negb (adapter_is_software m).

Section PacketTest.
Context (DXGI_ERROR_NOT_FOUND : Z) (env : StartEnv).

Definition smoke_builder (m : MonitorInfo) : EngineBuilder :=
  packet_queue_capacity 16 (acquire_timeout 50 (fps 60 (bitrate_bps 5000000 (codec Hevc (builder m))))).

(** [engine_round_trip]: [listed] is the outcome of [list_monitors], [stopped]
    that of [stop]; [None]: an enumeration did not return. *)
Definition engine_round_trip (fuel : nat) (listed : EngineResult (list MonitorInfo)) (rounds : list Waits)
    (stopped : EngineResult unit) : option bool :=
  match listed with
  | Err _ => Some false
  | Ok mons =>
      match List.find drives_desktop mons with
      | None => Some false
      | Some mon =>
          started ← start DXGI_ERROR_NOT_FOUND env fuel (smoke_builder mon);
          Some (is_ok started && is_ok stopped && asserted (watch_packets 3 rounds 0 0 (new_history 16)))
      end
  end.

(** The parts of [pipeline_emits_packets_and_keyframe], with a device of its
    own for the capture. *)
Definition assemble (factory : Factory) (mon : MonitorInfo) : EngineResult PipelineConfig :=
  adapter ← open_adapter mon factory;
  ctx ← create_on_adapter adapter (sv_device env);
  let cfg := {| pc_width := Z.min (mon_width mon) 1920; pc_height := Z.min (mon_height mon) 1080; pc_fps := 60;
                pc_acquire_timeout := 50; pc_packet_queue_capacity := 16; pc_pts_epoch := sv_now env;
                pc_scrgb_sdr_scale := f32_of_Z 1 |} in
  _ ← sv_converter env (pc_width cfg) (pc_height cfg) (pc_fps cfg);
  _ ← sv_backend env;
  _ ← sv_session env (ctx_adapter_vendor_id ctx)
        {| enc_width := pc_width cfg; enc_height := pc_height cfg; enc_fps := pc_fps cfg;
           enc_bitrate_bps := 5000000; enc_codec := Hevc; enc_input_format := Nv12 |};
  adapter2 ← open_adapter mon factory;
  ctx2 ← create_on_adapter adapter2 (sv_device env);
  _ ← DxgiCapturer_new ctx2 mon (sv_duplication env);
  _ ← sv_pipeline env cfg;
  Ok cfg.

(** The outcome of stopping is ignored. *)
Definition pipeline_emits_packets_and_keyframe (fuel : nat) (rounds : list Waits) : option bool :=
  match sv_factory env with
  | Err _ => Some false
  | Ok factory =>
      mons ← enumerate DXGI_ERROR_NOT_FOUND fuel factory;
      Some match mons with
           | Err _ => false
           | Ok mons =>
               match List.find drives_desktop mons with
               | None => false
               | Some mon => is_ok (assemble factory mon) && asserted (watch_packets 5 rounds 0 0 (new_history 16))
               end
           end
  end.
End PacketTest.

(** ** What the loop sees *)

Definition keyframes_of (l : list EncodedPacket) : nat := length (List.filter pkt_is_keyframe l).

(** The other threads are the pipeline's: they push and close. *)
Definition pushes_only (waits : Waits) : Prop := Forall (Forall (fun o => o <> OpPop)) waits.

Lemma pushes_deliver_nothing ops : forall h : History (T := EncodedPacket),
  Forall (fun o => o <> OpPop) ops -> delivered (foldl exec h ops) = delivered h.
Proof.
  induction ops as [|o ops IH]; intros h Hp; [done |]. apply Forall_cons_1 in Hp as (Ho & Hp). cbn [foldl].
  rewrite IH by done. by destruct o.
Qed.

Lemma pop_timeout_delivers waits h : pushes_only waits ->
  delivered (pop_timeout waits h).2 = delivered h ++ option_list (pop_timeout waits h).1.
Proof.
  intros Hp. pose proof (pop_timeout_exact waits h) as H. destruct (pop_timeout waits h) as [r h'].
  destruct H as (n & H). cbn [fst snd].
  assert (delivered (foldl exec h (concat (take n waits))) = delivered h) as Hd.
  { apply pushes_deliver_nothing. apply List.Forall_concat. by apply list.Forall_take. }
  destruct r as [x|]; [destruct H as (_ & -> & _) | destruct H as (-> & _)]; rewrite Hd; [done |]. by rewrite app_nil_r.
Qed.

(** The loop counts what it takes, and it takes all that is delivered. *)
Lemma watch_counts enough rounds : forall p k h, Forall pushes_only rounds ->
  let '(p', k', h') := watch_packets enough rounds p k h in
  exists l, delivered h' = delivered h ++ l /\ p' = (p + length l)%nat /\ k' = (k + keyframes_of l)%nat.
Proof.
  induction rounds as [|waits rounds IH]; intros p k h Hr; cbn [watch_packets].
  - exists []. rewrite app_nil_r. cbn. split_and!; [done | lia..].
  - apply Forall_cons_1 in Hr as (Hw & Hr). pose proof (pop_timeout_delivers waits h Hw) as Hd.
    destruct (pop_timeout waits h) as [[x|] h1]; cbn [fst snd option_list] in Hd.
    2: { rewrite app_nil_r in Hd. specialize (IH p k h1 Hr). by rewrite Hd in IH. }
    set (k1 := if pkt_is_keyframe x then S k else k).
    assert (k1 = k + keyframes_of [x])%nat as Hk1.
    { unfold k1, keyframes_of. cbn. destruct (pkt_is_keyframe x); cbn; lia. }
    destruct (_ && _).
    + exists [x]. split_and!; [done | cbn; lia | done].
    + specialize (IH (S p) k1 h1 Hr). destruct (watch_packets enough rounds (S p) k1 h1) as [[p' k'] h'].
      destruct IH as (l & -> & -> & ->). exists (x :: l). rewrite Hd, <- app_assoc. split_and!; [done | cbn; lia |].
      rewrite Hk1. unfold keyframes_of. cbn. destruct (pkt_is_keyframe x); cbn; lia.
Qed.

Lemma watch_spec cap enough rounds : forall p k h, queue_spec cap h -> queue_spec cap (watch_packets enough rounds p k h).2.
Proof.
  induction rounds as [|waits rounds IH]; intros p k h H; [done |]. cbn [watch_packets].
  pose proof (pop_timeout_spec cap waits h H) as H1. destruct (pop_timeout waits h) as [[x|] h1]; cbn [snd] in H1.
  - destruct (_ && _); [done | by apply IH].
  - by apply IH.
Qed.

(** Both tests see a run through the queue alone: the assertions hold exactly
    when a key frame was delivered, and then the pipeline had pushed it. *)
Theorem asserted_exact enough rounds : Forall pushes_only rounds ->
  let r := watch_packets enough rounds 0 0 (new_history 16) in
  (asserted r = true <-> Exists (fun p => pkt_is_keyframe p = true) (delivered r.2))
  /\ sublist (delivered r.2) (accepted r.2)
  /\ (asserted r = true -> Exists (fun p => pkt_is_keyframe p = true) (accepted r.2)).
Proof.
  intros Hp. cbn zeta. pose proof (watch_counts enough rounds 0 0 (new_history 16) Hp) as Hc.
  pose proof (watch_spec 16 enough rounds 0 0 (new_history 16) (queue_new_spec 16)) as (_ & _ & Hs & _).
  destruct (watch_packets enough rounds 0 0 (new_history 16)) as [[p k] h]. cbn [snd] in *.
  destruct Hc as (l & Hd & -> & ->). cbn in Hd. rewrite Hd in *.
  assert (asserted ((0 + length l)%nat, (0 + keyframes_of l)%nat, h) = true
          <-> Exists (fun p => pkt_is_keyframe p = true) l) as Ha.
  { unfold asserted, keyframes_of. cbn [fst snd]. rewrite andb_true_iff, !Nat.leb_le, list.Exists_exists.
    split.
    - intros (_ & Hk). destruct (List.filter pkt_is_keyframe l) as [|x q] eqn:E; [cbn in Hk; lia |].
      exists x. assert (List.In x (List.filter pkt_is_keyframe l)) as Hx by (rewrite E; by left).
      apply List.filter_In in Hx as (Hx & Hkey). split; [by apply list_elem_of_In | done].
    - intros (x & Hx & Hkey). apply list_elem_of_In in Hx.
      assert (List.In x (List.filter pkt_is_keyframe l)) as Hf by by apply List.filter_In.
      destruct l; [done |]. destruct (List.filter pkt_is_keyframe _); [done |]. cbn. lia. }
  assert (sublist l (accepted h)) as Hl by (etransitivity; [by apply sublist_inserts_r | exact Hs]).
  split_and!; [exact Ha | exact Hl |].
  intros (x & Hx & Hkey)%Ha%list.Exists_exists. apply list.Exists_exists. exists x. split; [| done]. exact (elem_of_sublist _ _ _ Hx Hl).
Qed.

(** A passing round trip: an engine was started for a monitor that is listed,
    drives a desktop and is not a software adapter, with the queue that the
    loop watched; its pipeline pushed a key frame; and it stopped cleanly. *)
Theorem engine_round_trip_sound not_found env fuel listed rounds stopped : Forall pushes_only rounds ->
  engine_round_trip not_found env fuel listed rounds stopped = Some true ->
  exists mons mon e, listed = Ok mons /\ mon ∈ mons /\ drives_desktop mon = true
    /\ start not_found env fuel (smoke_builder mon) = Some (Ok e)
    /\ pc_packet_queue_capacity (eng_pipeline e) = 16 /\ enc_codec (eng_session e) = Hevc
    /\ stopped = Ok tt
    /\ Exists (fun p => pkt_is_keyframe p = true) (accepted (watch_packets 3 rounds 0 0 (new_history 16)).2).
Proof.
  intros Hp. unfold engine_round_trip. destruct listed as [mons|]; [| done].
  destruct (List.find drives_desktop mons) as [mon|] eqn:Ef; [| done]. apply List.find_some in Ef as (Hin & Hu).
  destruct (start not_found env fuel (smoke_builder mon)) as [[e|]|] eqn:Es; [| done..].
  cbn [mbind option_bind is_ok andb]. destruct stopped as [[]|]; [| done]. intros [= Ha].
  exists mons, mon, e. split_and!; try done.
  - by apply list_elem_of_In.
  - unfold start in Es. destruct (sv_factory env) as [factory|]; [| done].
    destruct (enumerate not_found fuel factory) as [[ms|]|]; [| done..]. injection Es as Es.
    unfold start_on in Es. apply bind_Ok in Es as (adapter & _ & Es). apply bind_Ok in Es as (ctx & _ & Es).
    destruct (_ || _); [done |]. inv_binds. by injection Es as <-.
  - unfold start in Es. destruct (sv_factory env) as [factory|]; [| done].
    destruct (enumerate not_found fuel factory) as [[ms|]|]; [| done..]. injection Es as Es.
    by apply start_on_ok in Es as (_ & _ & _ & _ & -> & _).
  - by apply (asserted_exact 3 rounds Hp).
Qed.

(** ** An example *)

Definition sample_packet (key : bool) : EncodedPacket :=
  {| pkt_bytes := []; pkt_pts_ns := 0; pkt_is_keyframe := key; pkt_encode_us := None |}.

(** Nothing for one whole wait, then the key frame and two more, then a packet
    that nobody waits for. *)
Definition sample_rounds : list Waits :=
  [[[]]; [[OpPush (sample_packet true); OpPush (sample_packet false)]]; [];
   [[]; [OpPush (sample_packet false)]]; [[OpPush (sample_packet false)]]].

Example round_trip_passes :
  engine_round_trip 2 demo_start 8 (Ok (all_monitors demo_presented)) sample_rounds (Ok tt) = Some true
  /\ pipeline_emits_packets_and_keyframe 2 demo_start 8 sample_rounds = Some true
  /\ engine_round_trip 2 demo_start 8 (Ok (all_monitors demo_presented)) (skipn 4 sample_rounds) (Ok tt) = Some false.
Proof. vm_compute. auto. Qed.
End PacketTest.
