(* ===== verification/UnitTests.v ===== *)
(** The unit tests of the repository, crate by crate, as executable checks of
    the model: each test is a boolean with the test's name and assertions, and
    each module ends with the statement that all of its tests pass.  (Those of
    [sps_patcher.rs] are in [SpsConformance]; tests that need a graphics card
    or an input device are programs over the engine's interfaces: those of
    monitors and encoder at the end of this file, the others in [SmokeTests] and
    [RunTests].) *)
From stdpp Require Import list strings gmap.
From S2P Require Import Prelude Bytes Text Protocol Engine AnnexB Monitors Encoder PacketQueue F32 Coords CursorShape CursorQuad Gpu EncodedPipeline Inject Vdd Adb EncoderProbes Keys Store.

(** [assert_eq!(r.unwrap(), v)] and [assert!(r.is_err())]. *)
Definition gives {E A} `{EqDecision A} (r : result E A) (v : A) : bool :=
  match r with Ok a => bool_decide (a = v) | Err _ => false end.

(** * penflow-protocol *)

Module ProtocolTests.

#[local] Instance HelloPc_eq_dec : EqDecision HelloPc.
Proof. solve_decision. Defined.
#[local] Instance HelloAndroid_eq_dec : EqDecision HelloAndroid.
Proof. solve_decision. Defined.
#[local] Instance ClientConfig_eq_dec : EqDecision ClientConfig.
Proof. solve_decision. Defined.
#[local] Instance PenEvent_eq_dec : EqDecision PenEvent.
Proof. solve_decision. Defined.
#[local] Instance TouchContact_eq_dec : EqDecision TouchContact.
Proof. solve_decision. Defined.
#[local] Instance TouchEvent_eq_dec : EqDecision TouchEvent.
Proof. solve_decision. Defined.
#[local] Instance VideoFrame_eq_dec : EqDecision VideoFrame.
Proof. solve_decision. Defined.

Definition server_to_client_message_ids_are_stable : bool :=
  (MSG_HELLO_PC =? 0x01) && (MSG_VIDEO_FRAME =? 0x03) && (MSG_PC_GOODBYE =? 0x7F).

Definition client_to_server_message_ids_have_high_bit_set : bool :=
  forallb (fun id => negb (Z.land id 0x80 =? 0))
    [MSG_HELLO_ANDROID; MSG_PEN_EVENT; MSG_TOUCH_EVENT; MSG_TIME_SYNC_REQ; MSG_REQUEST_IDR;
     MSG_ANDROID_GOODBYE].

Definition codec_ids_are_stable : bool :=
  (CODEC_H264 =? 1) && (CODEC_HEVC =? 2) && (CODEC_AV1 =? 3).

(** The bytes of ["hello"]. *)
Definition hello : list Z := lit "hello".

Definition frame_round_trip : bool :=
  let raw := encode_frame MSG_VIDEO_FRAME hello in
  bool_decide (raw !! 0%nat = Some MSG_VIDEO_FRAME)
  && bool_decide (sub_slice 1 4 raw = be_bytes 4 5)
  && bool_decide (drop 5 raw = hello).

Definition client_config_round_trip : bool :=
  let c := {| cc_flags := CLIENT_CFG_FLAG_HUD |} in
  let bytes := ClientConfig_encode c in
  Nat.eqb (length bytes) ClientConfig_SIZE
  && gives (ClientConfig_decode bytes) c
  && gives (hud_enabled <$> ClientConfig_decode bytes) true.

Definition client_config_decode_is_lenient_to_trailing_bytes : bool :=
  let bytes := ClientConfig_encode {| cc_flags := CLIENT_CFG_FLAG_HUD |} ++ [0xAA; 0xBB; 0xCC] in
  gives (hud_enabled <$> ClientConfig_decode bytes) true.

(** Both ends of a [duplex] pipe. *)
Definition write_then_read_frame_round_trip : bool :=
  let '(sent, a) := write_frame {| w_sent := []; w_err := None |} MSG_PEN_EVENT (replicate 31 7) in
  gives sent tt
  && gives (fst <$> read_frame {| r_bytes := w_sent a; r_end := UnexpectedEof |})
       (MSG_PEN_EVENT, replicate 31 7).

Definition hello_pc_round_trip : bool :=
  let h := {| hp_protocol_version := 0; hp_width := 2880; hp_height := 1800; hp_codec := CODEC_HEVC;
              hp_bitrate_bps := 50000000; hp_fps := 60 |} in
  let bytes := HelloPc_encode h in
  Nat.eqb (length bytes) HelloPc_SIZE && gives (HelloPc_decode bytes) h.

Definition hello_android_round_trip : bool :=
  let h := {| ha_protocol_version := 0; ha_display_width := 2880; ha_display_height := 1800;
              ha_pen_max_pressure := 16383; ha_pen_tilt_min_deg := -60; ha_pen_tilt_max_deg := 60;
              ha_pen_buttons_count := 3; ha_codec_caps := CODEC_CAPS_HEVC |} in
  let bytes := HelloAndroid_encode h in
  Nat.eqb (length bytes) HelloAndroid_SIZE && gives (HelloAndroid_decode bytes) h.

(** 0.42, 0.88, 0.7, 12.5 and -7.0, by their bits. *)
Definition pen_event_round_trip : bool :=
  let p := {| pe_ts_ns := 1234567890; pe_phase := 2; pe_x_norm := 0x3ED70A3D; pe_y_norm := 0x3F6147AE;
              pe_pressure := 0x3F333333; pe_tilt_x := 0x41480000; pe_tilt_y := 0xC0E00000;
              pe_buttons := 5; pe_tool := 0 |} in
  let bytes := PenEvent_encode p in
  Nat.eqb (length bytes) PenEvent_SIZE && gives (PenEvent_decode bytes) p.

(** 0.1, 0.2, 0.5 and 0.9, 0.7, 0.3. *)
Definition touch_event_round_trip : bool :=
  let t := {| te_ts_ns := 555; te_contacts :=
    [ {| tc_pointer_id := 0; tc_x_norm := 0x3DCCCCCD; tc_y_norm := 0x3E4CCCCD; tc_pressure := 0x3F000000 |};
      {| tc_pointer_id := 1; tc_x_norm := 0x3F666666; tc_y_norm := 0x3F333333; tc_pressure := 0x3E99999A |} ] |} in
  gives (TouchEvent_decode (TouchEvent_encode t)) t.

Definition video_frame_extended_round_trip : bool :=
  let vf := {| vf_pts_ns := 1000000000; vf_flags := Z.lor FRAME_FLAG_KEYFRAME FRAME_FLAG_EXTENDED;
               vf_capture_us := Some 900; vf_encode_us := Some 2800;
               vf_coded := [0; 0; 0; 1; 0x46; 0x01; 0x10] |} in
  gives (VideoFrame_decode (VideoFrame_encode vf)) vf.

(** The start code of each unit, four bytes long or three. *)
Definition test_stream (units : list (bool * list Z)) : list Z :=
  units ≫= fun u => (if u.1 : bool then SC4 else SC3) ++ u.2.

Definition split_hevc_nals_separates_units : bool :=
  let bytes := test_stream (map (fun h => (true, [h; 0x01; 0xff])) [0x46; 0x40; 0x42; 0x44; 0x26]) in
  let csd0 := extract_hevc_nals bytes [32; 33; 34] in
  bool_decide (map snd (split_hevc_nals bytes) = [35; 32; 33; 34; 19])
  && Nat.eqb (length csd0) (3 * 7)
  && bool_decide (take 4 csd0 = [0; 0; 0; 1]).

Definition split_h264_nals_separates_units : bool :=
  let bytes := test_stream [(true, [0x67; 0xff]); (false, [0x68; 0xff]); (true, [0x65; 0xff]);
                            (false, [0x41; 0xff])] in
  let csd0 := extract_h264_nals bytes [7; 8] in
  bool_decide (map snd (split_h264_nals bytes) = [7; 8; 5; 1])
  && Nat.eqb (length csd0) (6 + 5)
  && bool_decide (take 4 csd0 = [0; 0; 0; 1]).

Definition protocol_tests : list bool :=
  [server_to_client_message_ids_are_stable; client_to_server_message_ids_have_high_bit_set;
   codec_ids_are_stable; frame_round_trip; client_config_round_trip;
   client_config_decode_is_lenient_to_trailing_bytes; write_then_read_frame_round_trip;
   hello_pc_round_trip; hello_android_round_trip; pen_event_round_trip; touch_event_round_trip;
   video_frame_extended_round_trip; split_hevc_nals_separates_units; split_h264_nals_separates_units].

Lemma protocol_tests_pass : forallb id protocol_tests = true.
Proof. vm_compute. reflexivity. Qed.
End ProtocolTests.

(** * penflow-core: injection *)

Module InjectTests.

Definition pen_flags_hover_arrival : bool :=
  let f := pen_pointer_flags false false true false in
  f_new f && f_inrange f && f_update f && negb (f_incontact f).

Definition pen_flags_contact_arrival_without_hover : bool :=
  let f := pen_pointer_flags false false true true in
  f_new f && f_down f && f_incontact f && f_firstbutton f.

Definition pen_flags_hover_to_contact_emits_down : bool :=
  let f := pen_pointer_flags true false true true in f_down f && negb (f_new f).

Definition pen_flags_contact_continuing_emits_update : bool :=
  let f := pen_pointer_flags true true true true in f_update f && negb (f_down f) && f_incontact f.

Definition pen_flags_contact_to_hover_emits_up_inrange : bool :=
  let f := pen_pointer_flags true true true false in f_up f && f_inrange f && negb (f_incontact f).

Definition pen_flags_leave_proximity_drops_inrange : bool :=
  let f := pen_pointer_flags true false false false in f_up f && negb (f_inrange f).

Definition pen_flags_always_primary : bool :=
  forallb (fun c => let '(wr, wc, r, c) := c in f_primary (pen_pointer_flags wr wc r c))
    [(false, false, true, false); (false, false, true, true); (true, false, true, true);
     (true, true, true, true); (true, true, true, false); (true, false, false, false);
     (true, true, false, false)].

Definition absolute_mouse_coord_maps_virtual_desktop_edges : bool :=
  (normalize_absolute_mouse_coord (-100) (-100) 200 =? 0)
  && (normalize_absolute_mouse_coord 99 (-100) 200 =? 65535)
  && (normalize_absolute_mouse_coord (-101) (-100) 200 =? 0)
  && (normalize_absolute_mouse_coord 100 (-100) 200 =? 65535).

Definition report_serialization_matches_voidplugins_layout : bool :=
  let sample := {| vs_x := 0x1234; vs_y := 0x5678; vs_pressure := 0x3FFF; vs_tilt_x_deg := -30;
                   vs_tilt_y_deg := 45; vs_tip_down := true; vs_barrel := false; vs_eraser := false;
                   vs_inverted := false; vs_in_range := true |} in
  let buf := vmulti_report sample (replicate REPORT_BUF_LEN 0) in
  bool_decide (take 4 buf = [0x40; 11; 0x06; Z.lor BTN_TIP BTN_IN_RANGE])
  && bool_decide (sub_slice 4 4 buf = [0x34; 0x12; 0x78; 0x56])
  && bool_decide (sub_slice 8 2 buf = [0xFF; 0x3F])
  && bool_decide (sub_slice 10 2 buf = [uwrap 8 (-30); 45])
  && forallb (Z.eqb 0) (drop 12 buf).

Definition button_bits_match_voidplugins : bool :=
  (BTN_TIP =? 1) && (BTN_BARREL =? 2) && (BTN_ERASER =? 4) && (BTN_INVERT =? 8) && (BTN_IN_RANGE =? 16).

(** [matches!(p.tertiary, KeyTap(VK_E))] and the like, for any codes. *)
Definition holds (b : Binding) (keys : list Z) : bool :=
  match b with KeyHold ks => bool_decide (ks = keys) | _ => false end.

Definition taps (b : Binding) (key : Z) : bool := match b with KeyTap vk => vk =? key | _ => false end.

Definition default_profile_matches_design_recommendation (VK_CONTROL VK_SHIFT VK_E : Z) : bool :=
  let p := default_profile VK_CONTROL VK_SHIFT VK_E in
  holds (barrel_1 p) [VK_CONTROL] && holds (barrel_2 p) [VK_SHIFT] && taps (tertiary p) VK_E
  && match tip_threshold p with S754_zero _ => true | _ => false end.

Definition predecessor_compat_uses_e_tap (VK_CONTROL VK_SHIFT VK_E : Z) : bool :=
  taps (tertiary (predecessor_compat VK_CONTROL VK_SHIFT VK_E)) VK_E.

Definition inject_tests : list bool :=
  [pen_flags_hover_arrival; pen_flags_contact_arrival_without_hover;
   pen_flags_hover_to_contact_emits_down; pen_flags_contact_continuing_emits_update;
   pen_flags_contact_to_hover_emits_up_inrange; pen_flags_leave_proximity_drops_inrange;
   pen_flags_always_primary; absolute_mouse_coord_maps_virtual_desktop_edges;
   report_serialization_matches_voidplugins_layout; button_bits_match_voidplugins].

Lemma inject_tests_pass : forallb id inject_tests = true.
Proof. vm_compute. reflexivity. Qed.

Lemma profile_tests_pass c s e :
  default_profile_matches_design_recommendation c s e = true /\ predecessor_compat_uses_e_tap c s e = true.
Proof.
  unfold default_profile_matches_design_recommendation, predecessor_compat_uses_e_tap, holds, taps.
  cbn. rewrite !Z.eqb_refl, !bool_decide_true by done. done.
Qed.
End InjectTests.

(** * penflow-core: coordinates *)

Module CoordTests.

(** The literals of the tests. *)
Definition one_half : f32 := f32_of_bits 0x3F000000.
Definition seven_tenths : f32 := f32_of_bits 0x3F333333.
Definition millionth : f32 := f32_of_bits 0x358637BD.
Definition zero : f32 := f32_of_Z 0.
Definition one : f32 := f32_of_Z 1.

Definition close_to (a b eps : f32) : bool := f32_ltb (SFabs (f32_sub a b)) eps.

Definition approx (a b : f32 * f32) (eps : f32) : bool := close_to a.1 b.1 eps && close_to a.2 b.2 eps.

Definition identity_is_passthrough : bool :=
  approx (map_point identity one_half seven_tenths) (one_half, seven_tenths) millionth.

Definition at_pixel (t : AffineTransform) (x y : f32) (p : Z * Z) : bool :=
  bool_decide (map_to_pixel t x y = p).

Definition maps_corners_for_rect : bool :=
  let t := from_normalized_to_rect 100 200 1920 1080 0 in
  at_pixel t zero zero (100, 200) && at_pixel t one zero (2020, 200) && at_pixel t zero one (100, 1280)
  && at_pixel t one one (2020, 1280) && at_pixel t one_half one_half (1060, 740).

(** [abs_diff(..) <= 1]. *)
Definition within_one (a b : Z) : bool := Z.abs (a - b) <=? 1.

Definition map_to_vmulti_spans_full_logical_range : bool :=
  let t := from_normalized_to_rect 0 0 3840 2160 0 in
  let m := map_to_vmulti t one_half one_half 3840 2160 in
  bool_decide (map_to_vmulti t zero zero 3840 2160 = (0, 0))
  && bool_decide (map_to_vmulti t one one 3840 2160 = (32767, 32767))
  && within_one m.1 16383 && within_one m.2 16383.

Definition map_to_vmulti_offset_rect_lands_proportionally : bool :=
  let t := from_normalized_to_rect 1920 0 1920 1080 0 in
  let m := map_to_vmulti t zero zero 3840 1080 in
  within_one m.1 16383 && (m.2 =? 0)
  && bool_decide (map_to_vmulti t one one 3840 1080 = (32767, 32767)).

Definition rotates_90_landscape_to_portrait : bool :=
  let t := from_normalized_to_rect 0 0 100 200 90 in
  at_pixel t zero zero (100, 0) && at_pixel t one zero (100, 100) && at_pixel t zero one (0, 0)
  && at_pixel t one one (0, 100).

Definition coord_tests : list bool :=
  [identity_is_passthrough; maps_corners_for_rect; map_to_vmulti_spans_full_logical_range;
   map_to_vmulti_offset_rect_lands_proportionally; rotates_90_landscape_to_portrait].

Lemma coord_tests_pass : forallb id coord_tests = true.
Proof. vm_compute. reflexivity. Qed.
End CoordTests.

(** * penflow-core: the packet queue *)

Module QueueTests.

(** Items are numbers; [None]: the pop would wait. *)
Definition pop (g : Queue Z) : option (option Z * Queue Z) := pop_round g.

Definition push_pop_basic : bool :=
  let q := (push 2 (push 1 (new 4)).1).1 in
  match pop q with
  | Some (Some a, q) => match pop q with Some (Some b, _) => (a =? 1) && (b =? 2) | _ => false end
  | _ => false
  end.

Definition drop_oldest_on_overflow : bool :=
  let q := foldl (fun q x => (push x q).1) (new 2) [1; 2; 3; 4] in
  match pop q with
  | Some (Some a, q') =>
      match pop q' with
      | Some (Some b, q'') => (a =? 3) && (b =? 4) && (st_dropped_overflow (stats q'') =? 2)
      | _ => false
      end
  | _ => false
  end.

(** The consumer that waits looks again after the close. *)
Definition close_unblocks_consumers : bool :=
  match pop (new 4), pop (close (new 4)) with None, Some (None, _) => true | _, _ => false end.

(** Nothing to take at the deadline. *)
Definition pop_timeout_returns_none : bool := match pop (new 4) with None => true | _ => false end.

Definition queue_tests : list bool :=
  [push_pop_basic; drop_oldest_on_overflow; close_unblocks_consumers; pop_timeout_returns_none].

Lemma queue_tests_pass : forallb id queue_tests = true.
Proof. vm_compute. reflexivity. Qed.

(** The close test as the threads run it: the consumer sleeps, the queue is
    closed, everyone is notified, and the consumer returns. *)
Lemma close_wakes_the_sleeper : exists s : Sync Z, reachable 4 s /\ closed (sq s) = true
  /\ waiting s = 0%nat /\ woken s = 0%nat.
Proof.
  set (q := new 4 : Queue Z).
  assert (H1 : reachable 4 (Build_Sync q 1 0 0 0)).
  { eapply reach_step; [constructor |]. apply (step_arrive q q true). by apply round_waits. }
  assert (H2 : reachable 4 (Build_Sync (close q) 1 0 0 1)).
  { eapply reach_step; [exact H1 |]. apply step_close. }
  assert (H3 : reachable 4 (Build_Sync (close q) 0 1 0 0)).
  { eapply reach_step; [exact H2 |]. apply (step_notify_all (close q) 1 0 0 0). }
  assert (H4 : reachable 4 (Build_Sync (close q) 0 0 0 0)).
  { eapply reach_step; [exact H3 |]. apply (step_retry (close q) (close q) false 0 0 0 0).
    by apply (round_returns (close q) None). }
  by eexists.
Qed.
End QueueTests.

(** * penflow-core: the cursor *)

Module CursorTests.

(** [HRESULT] 0x80070057; no test looks at it. *)
Definition E_INVALIDARG : Z := -2147024809.

Definition pixels_of (r : option (EngineResult CursorShape)) (f : CursorShape -> bool) : bool :=
  match r with Some (Ok s) => f s | _ => false end.

Definition decode_color_strips_pitch_padding : bool :=
  let raw := [0xAA; 0xBB; 0xCC; 0xFF; 0x11; 0x22; 0x33; 0xFF; 0; 0; 0; 0;
              0x44; 0x55; 0x66; 0xFF; 0x77; 0x88; 0x99; 0xFF; 0; 0; 0; 0] in
  pixels_of (decode_shape E_INVALIDARG 2 2 2 12 0 0 raw) (fun s =>
    bool_decide (cs_pixels s = [0xAA; 0xBB; 0xCC; 0xFF; 0x11; 0x22; 0x33; 0xFF;
                                0x44; 0x55; 0x66; 0xFF; 0x77; 0x88; 0x99; 0xFF])).

Definition decode_masked_color_alpha_semantics : bool :=
  pixels_of (decode_shape E_INVALIDARG 4 1 1 4 0 0 [0; 0; 0xFF; 0]) (fun s =>
    bool_decide (cs_pixels s = [0; 0; 0xFF; 0xFF]))
  && pixels_of (decode_shape E_INVALIDARG 4 1 1 4 0 0 [0; 0; 0xFF; 0xFF]) (fun s =>
       bool_decide (cs_pixels s = [0; 0; 0; 0])).

Definition decode_monochrome_classic_arrow_corner : bool :=
  pixels_of (decode_shape E_INVALIDARG 1 8 8 1 0 0 [0; 0; 0; 0; 0xF0; 0; 0; 0]) (fun s =>
    Nat.eqb (cs_height s) 4
    && bool_decide (take 4 (cs_pixels s) = [0xFF; 0xFF; 0xFF; 0xFF])
    && bool_decide (sub_slice 12 4 (cs_pixels s) = [0xFF; 0xFF; 0xFF; 0xFF])
    && bool_decide (sub_slice 16 4 (cs_pixels s) = [0; 0; 0; 0xFF])
    && bool_decide (sub_slice 28 4 (cs_pixels s) = [0; 0; 0; 0xFF])).

Definition near (a b : f32) : bool := CoordTests.close_to a b CoordTests.millionth.

Definition ratio (a b : Z) : f32 := f32_div (f32_of_Z a) (f32_of_Z b).

Definition quad_centered_inside_target : bool :=
  match compute_clipped_quad 100 50 32 32 1920 1080 with
  | Some q =>
      near (u_l q) (f32_of_Z 0) && near (u_r q) (f32_of_Z 1) && near (v_t q) (f32_of_Z 0)
      && near (v_b q) (f32_of_Z 1)
      && near (ndc_t q) (f32_sub (f32_of_Z 1) (f32_mul (ratio 50 1080) (f32_of_Z 2)))
  | None => false
  end.

Definition quad_clipped_top_left : bool :=
  match compute_clipped_quad (-10) (-10) 32 32 1920 1080 with
  | Some q =>
      near (u_l q) (ratio 10 32) && near (v_t q) (ratio 10 32)
      && near (ndc_l q) (f32_of_Z (-1)) && near (ndc_t q) (f32_of_Z 1)
  | None => false
  end.

Definition off_screen (q : option ClippedQuad) : bool := match q with None => true | Some _ => false end.

Definition quad_off_screen_returns_none : bool :=
  off_screen (compute_clipped_quad 2000 50 32 32 1920 1080)
  && off_screen (compute_clipped_quad 50 (-100) 32 32 1920 1080).

Definition cursor_tests : list bool :=
  [decode_color_strips_pitch_padding; decode_masked_color_alpha_semantics;
   decode_monochrome_classic_arrow_corner; quad_centered_inside_target; quad_clipped_top_left;
   quad_off_screen_returns_none].

Lemma cursor_tests_pass : forallb id cursor_tests = true.
Proof. vm_compute. reflexivity. Qed.

#[local] Instance InputColorSpace_eq_dec : EqDecision InputColorSpace.
Proof. solve_decision. Defined.

(** The last assertion is on a format that is none of the four. *)
Definition input_color_space_mapping (fmts : DxgiFormats) (nv12 : Z) : bool :=
  let f := input_color_space_for fmts in
  bool_decide (f (DXGI_FORMAT_B8G8R8A8_UNORM fmts) = Some SdrSrgb)
  && bool_decide (f (DXGI_FORMAT_R8G8B8A8_UNORM fmts) = Some SdrSrgb)
  && bool_decide (f (DXGI_FORMAT_R10G10B10A2_UNORM fmts) = Some Hdr10Pq)
  && bool_decide (f (DXGI_FORMAT_R16G16B16A16_FLOAT fmts) = Some ScrgbLinear)
  && bool_decide (f nv12 = None).

(** It holds of every table whose codes are distinct. *)
Lemma input_color_space_mapping_holds fmts nv12 :
  NoDup [DXGI_FORMAT_B8G8R8A8_UNORM fmts; DXGI_FORMAT_R8G8B8A8_UNORM fmts;
         DXGI_FORMAT_R16G16B16A16_FLOAT fmts; DXGI_FORMAT_R10G10B10A2_UNORM fmts; nv12] ->
  input_color_space_mapping fmts nv12 = true.
Proof.
  intros H. rewrite !list.NoDup_cons, !not_elem_of_cons in H.
  destruct H as ((N1 & N2 & N3 & N4 & _) & (N5 & N6 & N7 & _) & (N8 & N9 & _) & (N10 & _) & _).
  unfold input_color_space_mapping, input_color_space_for.
  by repeat first [rewrite Z.eqb_refl | rewrite (proj2 (Z.eqb_neq _ _)) by congruence].
Qed.
End CursorTests.

(** * penflow-gui: key names and settings *)

Module SettingsTests.

(** The codes of the Windows headers. *)
Definition vk : VkTable := demo_vk.

Definition VK_E : Z := 0x45.
Definition VK_F1 : Z := 0x70.

Definition token (name : string) (code : option Z) : bool :=
  bool_decide (parse_key_token vk (lit name) = code).

Definition parses_letters_case_insensitively : bool := token "E" (Some VK_E) && token "e" (Some VK_E).

Definition parses_modifier_aliases : bool :=
  token "Ctrl" (Some (VK_CONTROL vk)) && token "Control" (Some (VK_CONTROL vk))
  && token "Meta" (Some (VK_LWIN vk)) && token "Win" (Some (VK_LWIN vk)).

Definition parses_function_keys_in_range : bool :=
  token "F1" (Some VK_F1) && token "F24" (Some 0x87) && token "F25" None && token "F0" None.

(** [b'5'] is 0x35. *)
Definition parses_digit_keys : bool := token "5" (Some 0x35).

Definition rejects_unknown_token : bool := token "HyperUltra" None.

Definition key_combo_splits_on_plus : bool :=
  bool_decide (parse_key_combo vk (lit "Ctrl+Shift+E") = Some [VK_CONTROL vk; VK_SHIFT vk; VK_E]).

Definition key_combo_returns_none_when_any_token_invalid : bool :=
  bool_decide (parse_key_combo vk (lit "Ctrl+Nope") = None).

Definition convert_keyhold_single_key_keeps_keyhold : bool :=
  InjectTests.holds (convert_binding vk (SbKeyHold (lit "Ctrl"))) [VK_CONTROL vk].

Definition convert_keyhold_multi_key_preserves_full_combo : bool :=
  InjectTests.holds (convert_binding vk (SbKeyHold (lit "Ctrl+Shift"))) [VK_CONTROL vk; VK_SHIFT vk].

Definition convert_keytap_with_combo_falls_back_to_chord : bool :=
  match convert_binding vk (SbKeyTap (lit "Ctrl+S")) with
  | KeyChord [k; _] => k =? VK_CONTROL vk
  | _ => false
  end.

Definition convert_mouse_button_passes_kind : bool :=
  match convert_binding vk (SbMouseButton MRight) with MouseButton MRight => true | _ => false end.

Definition default_vdd_resolution_is_valid : bool :=
  match validate (vdd_resolution default_settings) with Ok _ => true | Err _ => false end.

(** [xml.contains(..)]. *)
Definition mentions (needle : string) (xml : Str) : bool :=
  match find_after (lit needle) xml with Some _ => true | None => false end.

Definition vdd_xml_uses_selected_resolution : bool :=
  let xml := render_vdd_settings_xml {| dr_width := 1920; dr_height := 1200 |} in
  mentions "<width>1920</width>" xml && mentions "<height>1200</height>" xml.

(** The message that contains "even". *)
Definition vdd_resolution_rejects_odd_dimensions : bool :=
  match validate {| dr_width := 1921; dr_height := 1200 |} with Err OddDimension => true | _ => false end.

Definition settings_tests : list bool :=
  [parses_letters_case_insensitively; parses_modifier_aliases; parses_function_keys_in_range;
   parses_digit_keys; rejects_unknown_token; key_combo_splits_on_plus;
   key_combo_returns_none_when_any_token_invalid; convert_keyhold_single_key_keeps_keyhold;
   convert_keyhold_multi_key_preserves_full_combo; convert_keytap_with_combo_falls_back_to_chord;
   convert_mouse_button_passes_kind; default_vdd_resolution_is_valid; vdd_xml_uses_selected_resolution;
   vdd_resolution_rejects_odd_dimensions].

Lemma settings_tests_pass : forallb id settings_tests = true.
Proof. vm_compute. reflexivity. Qed.
End SettingsTests.

(** * penflow-server and penflow-transport *)

Module ServerTests.

Definition heuristic_recognises_canonical_name : bool :=
  forallb matches_vdd_heuristic ["Virtual Display Driver"; "MttVDD"; "IddSampleDriver"]%string.

Definition heuristic_rejects_real_gpus_and_emulators : bool :=
  forallb (fun n => negb (matches_vdd_heuristic n))
    ["NVIDIA GeForce RTX 5070"; "AMD Radeon Graphics"; "MuMu Virtual Display Adapter";
     "BlueStacks Virtual Display"]%string.

Definition monitor_key_uses_luid_and_device_name : bool :=
  let m := {| adapter_index := 0; adapter_luid := 42; adapter_name := "adapter"; adapter_vendor_id := 0;
              adapter_device_id := 0; adapter_is_software := false; output_index_within_adapter := 0;
              device_name := "\\.\DISPLAY27"; mon_width := 2880; mon_height := 1800;
              desktop_coords := (0, 0, 2880, 1800); rotation := 1; attached_to_desktop := true;
              looks_virtual := false |} in
  bool_decide (monitor_key m = "42:\\.\DISPLAY27"%string).

(** The temporary layout of the shim test: a trampoline with its [.shim] on
    the path, and the program it names. *)
Definition shims : Str := lit "C:\tmp\penflow-shim-test-7\shims".
Definition trampoline : Str := shims ++ lit "\foo.exe".
Definition shim_cfg : Str := shims ++ lit "\foo.shim".
Definition real_target : Str := lit "C:\tmp\penflow-shim-test-7\real\foo.exe".

Definition parses_scoop_shim_config : bool :=
  let is_file p := bool_decide (p = trampoline) || bool_decide (p = real_target) || bool_decide (p = shim_cfg) in
  let read_to_string p :=
    if bool_decide (p = shim_cfg)
    then Some (lit "path = " ++ [Adb.QUOTE] ++ real_target ++ [Adb.QUOTE] ++ [10]) else None in
  bool_decide (resolve_through_shim (Some [shims]) is_file read_to_string (lit "foo") = real_target).

Definition server_tests : list bool :=
  [heuristic_recognises_canonical_name; heuristic_rejects_real_gpus_and_emulators;
   monitor_key_uses_luid_and_device_name; parses_scoop_shim_config].

Lemma server_tests_pass : forallb id server_tests = true.
Proof. vm_compute. reflexivity. Qed.
End ServerTests.

(** * Tests that are programs over the engine's interfaces *)

Module EngineTests.

(** [mons.iter().filter(|m| m.attached_to_desktop).count() >= 1]. *)
Definition enumerate_returns_at_least_one_attached_output (not_found : Z) (fuel : nat) (factory : Factory)
  : option bool :=
  mons ← enumerate not_found fuel factory;
  Some (match mons with
        | Ok mons => Nat.leb 1 (length (List.filter attached_to_desktop mons))
        | Err _ => false
        end).

(** One monitor: the adapter and the output open, and the output is still
    where it was. *)
Definition reopens_at_its_place (factory : Factory) (m : MonitorInfo) : bool :=
  match adapter ← open_adapter m factory; open_output m adapter with
  | Ok output =>
      match out_desc output with
      | Ok odesc => od_left odesc =? (desktop_coords m).1.1.1
      | Err _ => false
      end
  | Err _ => false
  end.

Definition open_adapter_round_trips (not_found : Z) (fuel : nat) (factory : Factory) : option bool :=
  mons ← enumerate not_found fuel factory;
  Some (match mons with Ok mons => forallb (reopens_at_its_place factory) mons | Err _ => false end).

(** On every machine DXGI can present, both tests pass, the first as soon as
    some output is attached. *)
Theorem monitor_tests_pass not_found factory l fuel :
  presents not_found factory l -> fits_u32 l -> (length l <= fuel)%nat ->
  Forall (fun a => fits_u32 a.2 /\ (length a.2 <= fuel)%nat) l ->
  open_adapter_round_trips not_found fuel factory = Some true
  /\ enumerate_returns_at_least_one_attached_output not_found fuel factory
     = Some (existsb attached_to_desktop (all_monitors l)).
Proof.
  intros Hp Hu Hf Ha. destruct (enumerate_exact not_found factory l fuel Hp Hu Hf Ha) as (E & Hr).
  unfold open_adapter_round_trips, enumerate_returns_at_least_one_attached_output. rewrite E.
  cbn [mbind option_bind]. split; f_equal.
  - apply List.forallb_forall. intros m Hm. apply list_elem_of_In in Hm.
    rewrite list.Forall_forall in Hr. destruct (Hr m Hm) as (ad & out & d & o & E1 & E2 & _ & E4 & Em).
    unfold reopens_at_its_place. rewrite E1. cbn [mbind result_bind]. rewrite E2, E4, Em. apply Z.eqb_refl.
  - clear. induction (all_monitors l) as [|m ms IH]; [done |]. cbn. by destruct (attached_to_desktop m).
Qed.

(** [run_codec_smoke]: thirty frames, the sixth of which asks for a key frame,
    then thirty drains; [None]: a call never returns; [Some false]: an
    [expect] or [assert!] fails. *)
Definition smoke_config (codec : Codec) : SessionConfig :=
  {| enc_width := 1280; enc_height := 720; enc_fps := 60; enc_bitrate_bps := 5000000;
     enc_codec := codec; enc_input_format := Nv12 |}.

Definition sixth (i : nat) : bool := Nat.eqb i 5.

Definition run_codec_smoke (mf : MfConstants) (codec : Codec) (backend device : EngineResult unit)
    (env : ProbeEnv) : option bool :=
  match backend, device, pe_session env, pe_converter env, pe_keepalive env with
  | Ok _, Ok _, Ok evs, Ok _, Ok _ =>
      match pump mf (smoke_config codec) env texture_pts sixth (new_enc evs) with
      | (None, _, _) => None
      | (Some (Err _), _, _) => Some false
      | (Some (Ok _), ps, _) => Some (Nat.leb 1 (length ps) && existsb pkt_is_keyframe ps)
      end
  | _, _, _, _, _ => Some false
  end.

Definition session_emits_keyframe (mf : MfConstants) := run_codec_smoke mf Hevc.

Definition session_emits_keyframe_h264 (mf : MfConstants) := run_codec_smoke mf H264.

(** The test ends, if the transform asks for input at first and after every
    input; and when it passes, thirty frames with one request for a key frame
    were submitted, the packets that came back answer them in order, and one
    of these is a key frame. *)
Theorem codec_smoke_sound mf codec backend device env : transforms_answer mf env ->
  exists r, run_codec_smoke mf codec backend device env = Some r
  /\ (r = true -> exists ps e,
        session_inv (smoke_config codec) (texture_pts <$> FRAMES) ps (e_session e)
        /\ e_calls e = FRAMES ≫= frame_calls (smoke_config codec) texture_pts sixth
        /\ Exists (fun p => pkt_is_keyframe p = true) ps).
Proof.
  intros (H1 & H2). unfold run_codec_smoke.
  destruct backend; [| by exists false]. destruct device; [| by exists false].
  destruct (pe_session env) as [evs|] eqn:Es; [| by exists false].
  destruct (pe_converter env); [| by exists false]. destruct (pe_keepalive env); [| by exists false].
  assert (Hr : ready mf (new_enc evs)) by (apply orb_true_iff; right; by apply H1).
  pose proof (pump_returns mf (smoke_config codec) env texture_pts sixth (new_enc evs) Hr (fun i => H2 i _ _)) as Hn.
  pose proof (pump_spec mf (smoke_config codec) env texture_pts sixth (new_enc evs) texture_pts_i64 (new_session_inv _)) as H.
  destruct (pump mf _ env _ _ _) as [[[[[]|]|] ps] e]; [| by exists false | done].
  destruct (H eq_refl) as (H3 & H4). cbn [fst snd] in H3, H4.
  eexists. split; [reflexivity |]. intros (_ & Hk)%andb_true_iff. exists ps, e. split_and!; [done | done |].
  apply existsb_exists in Hk as (p & Hin & Hk). apply Exists_exists. by exists p.
Qed.

Lemma monitor_tests_pass_witness :
  open_adapter_round_trips 2 8 demo_factory = Some true
  /\ enumerate_returns_at_least_one_attached_output 2 8 demo_factory = Some true.
Proof.
  apply (monitor_tests_pass 2 demo_factory demo_presented 8 demo_presents); [done | cbn; lia |].
  repeat constructor; cbn; lia.
Defined.

(** A transform that answers every frame passes both tests. *)
Lemma codec_smoke_sound_witness :
  session_emits_keyframe demo_mf (Ok tt) (Ok tt) (demo_envs 0) = Some true
  /\ exists ps, Exists (fun p => pkt_is_keyframe p = true) ps.
Proof.
  destruct (codec_smoke_sound demo_mf Hevc (Ok tt) (Ok tt) (demo_envs 0) (demo_answers _)) as (r & E & H).
  unfold session_emits_keyframe. destruct r; [| vm_compute in E; discriminate E].
  split; [exact E |]. destruct (H eq_refl) as (ps & e & _ & _ & Hk). by exists ps.
Defined.
End EngineTests.
