(* ===== verification/Diagnostics.v ===== *)
(** What the engine writes about itself while it runs: the dump of the first
    parameter set ([hex_dump] and the one-shot block of
    [crates/penflow-core/src/encoder/mf.rs]), the log of the desktop's format
    ([log_format_change_once] of [pipeline.rs]), and the two log files
    ([HelperLog] of [crates/penflow-server/src/vdd.rs] and [log_diagnostic] of
    [apps/penflow-gui/src-tauri/src/service.rs]).  A line of the first two is a
    value, the text around the values is left out. *)
From stdpp Require Import list gmap strings.
From S2P Require Import Prelude Bytes Text Engine AnnexB BitIO BitSim SpsH264 SpsPatcher EncoderProbes Store.

(** * The hexadecimal dump *)

(** [format!("{:02x}", b)]. *)
Definition hex_lower (d : Z) : Z := if d <? 10 then d + 48 else d + 87.

Definition hex_byte (b : Z) : Str := [hex_lower (b / 16); hex_lower (b mod 16)].

(** Before byte [i]: nothing, a new line indented by sixteen, or a space. *)
Definition separator (i : nat) : Str :=
  if Nat.ltb 0 i && Nat.eqb (i mod 16) 0 then [10] ++ replicate 16 32
  else if Nat.ltb 0 i then [32] else [].

Fixpoint hex_dump_loop (i : nat) (bytes : list Z) : Str :=
  match bytes with
  | [] => []
  | b :: bytes' => separator i ++ hex_byte b ++ hex_dump_loop (S i) bytes'
  end.

Definition hex_dump (bytes : list Z) : Str := hex_dump_loop 0 bytes.

(** Reading a dump: white space is skipped, the digits taken in pairs; [hi] is
    a first digit. *)
Fixpoint read_hex (hi : option Z) (s : Str) : option (list Z) :=
  match s with
  | [] => match hi with None => Some [] | Some _ => None end
  | c :: s' =>
      if is_whitespace c then read_hex hi s'
      else
        d ← to_digit16 c;
        match hi with
        | None => read_hex (Some d) s'
        | Some h => cons (16 * h + d) <$> read_hex None s'
        end
  end.

Lemma hex_lower_digit d : 0 <= d < 16 -> is_whitespace (hex_lower d) = false /\ to_digit16 (hex_lower d) = Some d.
Proof.
  intros H. assert (Hd : In d (seqZ 0 16)) by (apply list_elem_of_In, elem_of_seqZ; lia).
  revert d Hd H. apply (List.Forall_forall (fun d => 0 <= d < 16 -> _)).
  repeat constructor; vm_compute; auto.
Qed.

Lemma read_hex_byte b s : u8 b -> read_hex None (hex_byte b ++ s) = cons b <$> read_hex None s.
Proof.
  intros Hb. unfold u8, unsigned in Hb. change (2 ^ 8) with 256 in Hb.
  destruct (hex_lower_digit (b / 16)) as (W1 & D1).
  { split; [apply Z.div_pos; lia | apply Z.div_lt_upper_bound; lia]. }
  destruct (hex_lower_digit (b mod 16)) as (W2 & D2); [apply Z.mod_pos_bound; lia |].
  unfold hex_byte. cbn [app read_hex]. rewrite W1, D1. cbn [mbind option_bind read_hex].
  rewrite W2, D2. cbn [mbind option_bind]. by rewrite <- (Z_div_mod_eq_full b 16).
Qed.

Lemma read_hex_separator i s : read_hex None (separator i ++ s) = read_hex None s.
Proof. unfold separator. destruct (_ && _); [reflexivity |]. by destruct (Nat.ltb 0 i). Qed.

(** A dump shows every byte, in order: reading it gives the bytes back. *)
Theorem hex_dump_readable bytes : bytes_ok bytes -> read_hex None (hex_dump bytes) = Some bytes.
Proof.
  unfold hex_dump. generalize 0%nat. intros i H. revert i.
  induction H as [|b bytes Hb _ IH]; intros i; [done |].
  cbn [hex_dump_loop]. by rewrite read_hex_separator, read_hex_byte, IH.
Qed.

(** * The first parameter set *)

Inductive DumpLine :=
| PrePatch (len : nat) (dump : Str)
| PostPatch (len : nat) (dump : Str)
| Identical
| NoSps (len : nat).

Definition dump_lines (codec : Codec) (raw patched : list Z) : list DumpLine :=
  match find_sps_nal codec raw, find_sps_nal codec patched with
  | Some r, Some n =>
      [PrePatch (length r) (hex_dump r); PostPatch (length n) (hex_dump n)]
      ++ (if bool_decide (r = n) then [Identical] else [])
  | _, _ => [NoSps (length raw)]
  end.

(** [FIRST_DUMP.call_once]: whether it was called before, and the lines. *)
Definition first_dump (codec : Codec) (called : bool) (raw patched : list Z) : bool * list DumpLine :=
  if called then (true, []) else (true, dump_lines codec raw patched).

(** The packets of the transform, each patched on its way; the dump is only
    reached when the patcher returns. *)
Fixpoint dump_run (codec : Codec) (called : bool) (packets : list (list Z)) : list DumpLine :=
  match packets with
  | [] => []
  | raw :: packets' =>
      match patch_packet_for_low_latency_dpb codec raw with
      | Ok patched =>
          let '(called, ls) := first_dump codec called raw patched in
          ls ++ dump_run codec called packets'
      | Err _ => dump_run codec called packets'
      end
  end.

Definition patchable (codec : Codec) (raw : list Z) : bool :=
  is_ok (patch_packet_for_low_latency_dpb codec raw).

Lemma dump_run_called codec packets : dump_run codec true packets = [].
Proof.
  induction packets as [|raw packets IH]; [done |]. cbn [dump_run].
  by destruct (patch_packet_for_low_latency_dpb codec raw).
Qed.

(** The dump is made once in the life of the process, for the first packet
    that is patched, and for no other. *)
Theorem first_dump_once codec packets :
  dump_run codec false packets
  = match List.find (patchable codec) packets with
    | None => []
    | Some raw =>
        match patch_packet_for_low_latency_dpb codec raw with
        | Ok patched => dump_lines codec raw patched
        | Err _ => []
        end
    end.
Proof.
  induction packets as [|raw packets IH]; [done |]. cbn [dump_run List.find]. unfold patchable at 1.
  destruct (patch_packet_for_low_latency_dpb codec raw) as [patched|] eqn:E; cbn [is_ok]; [| exact IH].
  rewrite E. cbn [first_dump]. by rewrite dump_run_called, app_nil_r.
Qed.

(** The block means to dump the first packet that holds a parameter set; a
    first packet without one spends the only dump. *)
Definition demo_packets : list (list Z) :=
  [ [0; 0; 0; 1; 65; 154; 2]; annex_b_of demo_packet ].

Lemma dump_spent_without_sps :
  dump_run H264 false demo_packets = [NoSps 7]
  /\ is_some (find_sps_nal H264 (annex_b_of demo_packet)) = true.
Proof. vm_compute. auto. Qed.

(** On the same packets the other way round it shows the set before and
    after. *)
Example dump_of_first_set : match dump_run H264 false (reverse demo_packets) with
  | [PrePatch k pre; PostPatch n post] =>
      (k, n) = (14%nat, 21%nat) /\ option_map (take 5) (read_hex None pre) = Some [0; 0; 0; 1; 103]
      /\ read_hex None post <> read_hex None pre
  | _ => False
  end.
Proof. vm_compute. repeat split. discriminate. Qed.

(** * The format of the desktop *)

Section FormatLog.
Context (is_bgra8 : Z -> bool).

(** The previous format ([None]: initial), the new one, and whether it takes
    the copy path. *)
Record FormatLine := { fl_previous : option Z; fl_current : Z; fl_fast : bool }.

Definition log_format_change_once (last : option Z) (current : Z) : list FormatLine * option Z :=
  if bool_decide (last = Some current) then ([], last)
  else ([{| fl_previous := last; fl_current := current; fl_fast := is_bgra8 current |}], Some current).

(** Over the formats of the frames of a session. *)
Fixpoint format_log (last : option Z) (formats : list Z) : list FormatLine :=
  match formats with
  | [] => []
  | f :: formats' => let '(ls, last) := log_format_change_once last f in ls ++ format_log last formats'
  end.

(** Playing a log back over the lengths of the stretches. *)
Fixpoint stretches (ls : list FormatLine) (lens : list nat) : list Z :=
  match ls, lens with
  | l :: ls', n :: lens' => replicate n (fl_current l) ++ stretches ls' lens'
  | _, _ => []
  end.

(** Each line starts where the one before it ended, and changes something. *)
Fixpoint chained (last : option Z) (ls : list FormatLine) : Prop :=
  match ls with
  | [] => True
  | l :: ls' =>
      fl_previous l = last /\ last <> Some (fl_current l) /\ fl_fast l = is_bgra8 (fl_current l)
      /\ chained (Some (fl_current l)) ls'
  end.

Lemma format_log_stretches formats : forall last, exists k lens,
  formats = replicate k (default 0 last) ++ stretches (format_log last formats) lens
  /\ (last = None -> k = 0%nat)
  /\ length lens = length (format_log last formats) /\ Forall (fun n => (0 < n)%nat) lens.
Proof.
  induction formats as [|f formats IH]; intros last; [by exists 0%nat, [] |].
  cbn [format_log]. unfold log_format_change_once. case_bool_decide as E.
  - subst last. destruct (IH (Some f)) as (k & lens & H & _ & H2). exists (S k), lens.
    cbn [app default id replicate]. rewrite H at 1.
    split_and!; [reflexivity | discriminate | apply H2 | apply H2].
  - destruct (IH (Some f)) as (k & lens & H & _ & Hl & Hp). exists 0%nat, (S k :: lens).
    cbn [app replicate stretches fl_current length default id]. rewrite H at 1. split_and!; [done | done | lia |].
    constructor; [lia | done].
Qed.

Lemma format_log_chained formats : forall last, chained last (format_log last formats).
Proof.
  induction formats as [|f formats IH]; intros last; [done |].
  cbn [format_log]. unfold log_format_change_once. case_bool_decide as E; [apply IH |].
  by cbn.
Qed.

(** The log of a session tells its formats, and nothing twice: the formats of
    the frames are the logged ones, each held for one frame or more, every
    line starts where the one before it ended, and no line repeats its
    predecessor. *)
Theorem format_log_exact formats : exists lens,
  formats = stretches (format_log None formats) lens
  /\ length lens = length (format_log None formats) /\ Forall (fun n => (0 < n)%nat) lens
  /\ chained None (format_log None formats).
Proof.
  destruct (format_log_stretches formats None) as (k & lens & H & Hk & H2 & H3). exists lens.
  rewrite Hk in H by done. split_and!; [done | done | done | apply format_log_chained].
Qed.
End FormatLog.

(** An HDR toggle and back: three lines for seven frames. *)
Example hdr_toggle : fl_current <$> format_log (Z.eqb 87) None [87; 87; 10; 10; 10; 87; 87] = [87; 10; 87].
Proof. reflexivity. Qed.

(** * The log files *)

(** Messages and files as bytes.  What one append meets: the seconds since the epoch, zero for a clock before
    it; whether the file opens; and after how many bytes a write fails, if one
    does.  All of it is dropped by the code. *)
Record LogCall := { lc_now : Z; lc_open : bool; lc_written : option nat }.

(** [writeln!(f, "[{now}] {msg}")]. *)
Definition log_line (now : Z) (msg : Str) : Str := [91] ++ decimal_fuel 20 now ++ [93; 32] ++ msg ++ [10].

(** Opening with [create] and [append], and the write. *)
Definition append_line (path : Path) (msg : Str) (c : LogCall) (fs : Fs) : Fs :=
  if lc_open c then
    let line := log_line (lc_now c) msg in
    <[path := default [] (fs !! path) ++ match lc_written c with Some n => take n line | None => line end]> fs
  else fs.

(** [HelperLog::open] and [append]. *)
Definition helper_log_path (temp : Path) : Path := temp ++ ["penflow-vdd-helper.log"%string].

Definition helper_log_append (temp : Path) (msg : Str) (c : LogCall) (fs : Fs) : Fs :=
  append_line (helper_log_path temp) msg c fs.

(** [created]: whether the directory of the log could be made. *)
Definition log_diagnostic (appdata : option Path) (created : bool) (msg : Str) (c : LogCall) (fs : Fs) : Fs :=
  match appdata with
  | None => fs
  | Some base => if created then append_line (base ++ ["Penflow"; "debug.log"]%string) msg c fs else fs
  end.

Lemma append_line_frame path msg c fs p : p <> path -> append_line path msg c fs !! p = fs !! p.
Proof. intros Hp. unfold append_line. destruct (lc_open c); [by rewrite lookup_insert_ne | done]. Qed.

Lemma append_line_grows path msg c fs : exists more,
  default [] (append_line path msg c fs !! path) = default [] (fs !! path) ++ more.
Proof.
  unfold append_line. destruct (lc_open c); [| by exists []; rewrite app_nil_r].
  rewrite lookup_insert_eq. by eexists.
Qed.

(** The diagnostics never lose what the log holds, and touch neither the
    settings nor any other file. *)
Theorem log_diagnostic_safe appdata created msg c fs p :
  let fs' := log_diagnostic appdata created msg c fs in
  (exists more, default [] (fs' !! p) = default [] (fs !! p) ++ more)
  /\ fs' !! settings_path appdata = fs !! settings_path appdata.
Proof.
  cbv zeta. unfold log_diagnostic. destruct appdata as [base|]; [| by split; [exists []; rewrite app_nil_r |]].
  destruct created; [| by split; [exists []; rewrite app_nil_r |]]. split.
  - destruct (decide (p = base ++ ["Penflow"; "debug.log"]%string)) as [-> | Hp]; [apply append_line_grows |].
    exists []. by rewrite append_line_frame, app_nil_r.
  - apply append_line_frame. unfold settings_path. cbn [default id]. intros H.
    by apply app_inv_head in H.
Qed.

(** Messages of one process, each with what its append meets. *)
Definition log_all (path : Path) (calls : list (Str * LogCall)) (fs : Fs) : Fs :=
  fold_left (fun fs c => append_line path c.1 c.2 fs) calls fs.

(** Splitting the file at its line feeds, and dropping the time from a line. *)
Definition line_message (line : Str) : Str := drop 1 (join 93 (List.tl (split 93 line))).

Definition log_messages (file : Str) : list Str := line_message <$> List.removelast (split 10 file).

Lemma split_nonempty sep s : split sep s <> [].
Proof. destruct s as [|c s]; cbn; [done |]. destruct (c =? sep); [done |]. by destruct (split sep s). Qed.

Lemma join_split sep s : join sep (split sep s) = s.
Proof.
  induction s as [|c s IH]; [done |]. cbn [split]. pose proof (split_nonempty sep s) as Hn.
  destruct (Z.eqb_spec c sep) as [-> |]; destruct (split sep s) as [|t ts]; try done.
  - cbn [join app] in *. by rewrite IH.
  - destruct ts; cbn [join app] in *; by rewrite IH.
Qed.

Lemma decimal_free c k n : is_ascii_digit c = false -> c ∉ decimal_fuel k n.
Proof.
  intros Hc Hin. pose proof (decimal_digits k n) as Hd. rewrite list.Forall_forall in Hd.
  apply Hd in Hin. congruence.
Qed.

Lemma line_message_line now msg : line_message ([91] ++ decimal_fuel 20 now ++ [93; 32] ++ msg) = msg.
Proof.
  unfold line_message. change ([93; 32] ++ msg) with (93 :: 32 :: msg). rewrite app_assoc.
  rewrite split_app_sep; [cbn [List.tl]; by rewrite join_split |].
  apply not_elem_of_app. split; [| by apply decimal_free].
  intros [= ]%list_elem_of_singleton.
Qed.

Lemma split_log now msg file : 10 ∉ msg ->
  split 10 (log_line now msg ++ file) = ([91] ++ decimal_fuel 20 now ++ [93; 32] ++ msg) :: split 10 file.
Proof.
  intros Hm. unfold log_line. rewrite <- !app_assoc. cbn [app].
  change (93 :: 32 :: msg ++ 10 :: file) with ((93 :: 32 :: msg) ++ 10 :: file).
  rewrite (app_assoc (decimal_fuel 20 now)). rewrite app_comm_cons, split_app_sep; [done |].
  rewrite not_elem_of_cons, not_elem_of_app, !not_elem_of_cons. by split_and!; [| by apply decimal_free | ..].
Qed.

(** When no call fails and no message breaks its line, a new log reads back as
    the messages, in order, whatever the times. *)
Theorem log_reads_back path calls :
  Forall (fun c => lc_open c.2 = true /\ lc_written c.2 = None /\ 10 ∉ c.1) calls ->
  log_messages (default [] (log_all path calls ∅ !! path)) = calls.*1.
Proof.
  intros Hc.
  assert (forall fs, default [] (log_all path calls fs !! path)
    = default [] (fs !! path) ++ concat ((fun c : Str * LogCall => log_line (lc_now c.2) c.1) <$> calls)) as ->.
  { induction Hc as [|[msg c] calls (Ho & Hw & _) _ IH]; intros fs; [cbn; by rewrite app_nil_r |].
    cbn [log_all fold_left fmap list_fmap concat fst snd] in *. unfold log_all in IH. rewrite IH.
    unfold append_line. rewrite Ho, Hw, lookup_insert_eq. cbn [default id]. by rewrite <- app_assoc. }
  rewrite lookup_empty. cbn [default id app]. unfold log_messages.
  induction Hc as [|[msg c] calls (_ & _ & Hm) _ IH]; [done |].
  cbn [fmap list_fmap concat fst snd]. rewrite split_log by done.
  destruct (split 10 (concat _)) as [|l ls] eqn:E; [by apply split_nonempty in E |].
  cbn [List.removelast] in *. cbn [fmap list_fmap]. by rewrite IH, line_message_line.
Qed.

(** * The hint of a driver problem *)

(** [problem_code_hint]: the constant its text names; no text for the other
    codes. *)
Definition problem_code_hint (problem : Z) : option string :=
  match problem with
  | 18 => Some "CM_PROB_REINSTALL"
  | 19 => Some "CM_PROB_REGISTRY"
  | 21 => Some "CM_PROB_WILL_BE_REMOVED"
  | 24 => Some "CM_PROB_DISABLED_SERVICE"
  | 28 => Some "CM_PROB_NEEDS_FORCED_CONFIG"
  | 31 => Some "CM_PROB_FAILED_POST_START"
  | 43 => Some "CM_PROB_FAILED_INSTALL"
  | _ => None
  end%string.

(** A hint tells the code it was given for. *)
Lemma problem_code_hint_inj p q : is_Some (problem_code_hint p) -> problem_code_hint p = problem_code_hint q -> p = q.
Proof.
  assert (forall n s, problem_code_hint n = Some s -> In n [18; 19; 21; 24; 28; 31; 43]) as Hin.
  { intros n s H. destruct n as [|n|]; [done | | done].
    do 6 (try match goal with n : positive |- _ => destruct n; try done end); cbn; tauto. }
  intros [s Hs] H. rewrite H in Hs. pose proof (Hin q s Hs) as Hq. rewrite <- H in Hs. pose proof (Hin p s Hs) as Hp.
  revert H. cbn in Hp, Hq.
  repeat (destruct Hp as [<- | Hp]); repeat (destruct Hq as [<- | Hq]); try done.
Qed.
